(** * Plywood: the Druid and SQL externals

    A shallow embedding of the query planner of [DruidExternal]
    (shape selection, split lowering, having push-down, the nested
    group-by rewrite, introspection), of the clause assembly of
    [SQLExternal] and of the references of the algebra
    ([RefExpression]), together with the properties the specification
    states about them and further properties of the code. *)

From Stdlib Require Import String Ascii List Bool ZArith Lia.
From Stdlib Require Import DecimalString DecimalNat.
Import ListNotations.
Open Scope string_scope.

Set Implicit Arguments.

(* ====================================================================== *)
(** ** Results of fallible code *)
(* ====================================================================== *)

(** A JavaScript call either returns a value or throws an [Error] that
    carries a message. *)
Inductive result (A : Type) : Type :=
| Ok (value : A)
| Throw (message : string).

Arguments Ok {A} value.
Arguments Throw {A} message.

(** Sequencing: the rest of the code runs on the value, an error ends
    the call. *)
Definition rbind {A B} (r : result A) (k : A -> result B) : result B :=
  match r with
  | Ok a => k a
  | Throw m => Throw m
  end.

Notation "'let!' x ':=' r 'in' k" := (rbind r (fun x => k))
  (at level 10, x pattern, r at level 100, k at level 200).

(** [contains needle s]: the text [needle] occurs somewhere inside [s]. *)
Definition contains (needle s : string) : Prop :=
  exists before after, s = before ++ needle ++ after.

(* ====================================================================== *)
(** ** Types and values of the algebra *)
(* ====================================================================== *)

(** The keys of [POSSIBLE_TYPES]. *)
Inductive PlyType : Type :=
| NULL | BOOLEAN | NUMBER | TIME | STRING | NUMBER_RANGE | TIME_RANGE
| SET | SET_NULL | SET_BOOLEAN | SET_NUMBER | SET_TIME | SET_STRING
| SET_NUMBER_RANGE | SET_TIME_RANGE | DATASET.

Definition PlyType_eqb (a b : PlyType) : bool :=
  match a, b with
  | NULL, NULL | BOOLEAN, BOOLEAN | NUMBER, NUMBER | TIME, TIME
  | STRING, STRING | NUMBER_RANGE, NUMBER_RANGE | TIME_RANGE, TIME_RANGE
  | SET, SET | SET_NULL, SET_NULL | SET_BOOLEAN, SET_BOOLEAN
  | SET_NUMBER, SET_NUMBER | SET_TIME, SET_TIME | SET_STRING, SET_STRING
  | SET_NUMBER_RANGE, SET_NUMBER_RANGE | SET_TIME_RANGE, SET_TIME_RANGE
  | DATASET, DATASET => true
  | _, _ => false
  end.

(** [Set.unwrapSetType]: the element type of a set type, any other type
    unchanged. *)
Definition unwrapSetType (t : PlyType) : PlyType :=
  match t with
  | SET_NULL => NULL
  | SET_BOOLEAN => BOOLEAN
  | SET_NUMBER => NUMBER
  | SET_TIME => TIME
  | SET_STRING => STRING
  | SET_NUMBER_RANGE => NUMBER_RANGE
  | SET_TIME_RANGE => TIME_RANGE
  | other => other
  end.

(** Modelled from the spec: the scalar values of the algebra (the
    types of section 3), declared in the data types of the repository.
    Numbers are kept as integers and times as epoch milliseconds. *)
Inductive Atom : Type :=
| ANull
| ABoolean (b : bool)
| ANumber (n : Z)
| AString (s : string)
| ATime (millis : Z).

Definition Atom_eqb (a b : Atom) : bool :=
  match a, b with
  | ANull, ANull => true
  | ABoolean x, ABoolean y => Bool.eqb x y
  | ANumber x, ANumber y => Z.eqb x y
  | AString x, AString y => String.eqb x y
  | ATime x, ATime y => Z.eqb x y
  | _, _ => false
  end.

Definition atomType (a : Atom) : PlyType :=
  match a with
  | ANull => NULL
  | ABoolean _ => BOOLEAN
  | ANumber _ => NUMBER
  | AString _ => STRING
  | ATime _ => TIME
  end.

(** Modelled from the spec: a [PlywoodValue] (section 3): a scalar or
    a [Set] with its [elements]. *)
Inductive PlywoodValue : Type :=
| VAtom (a : Atom)
| VSet (setType : PlyType) (elements : list Atom).

Fixpoint list_eqb {A} (eqb : A -> A -> bool) (l1 l2 : list A) : bool :=
  match l1, l2 with
  | [], [] => true
  | x :: l1', y :: l2' => eqb x y && list_eqb eqb l1' l2'
  | _, _ => false
  end.

Definition PlywoodValue_eqb (a b : PlywoodValue) : bool :=
  match a, b with
  | VAtom x, VAtom y => Atom_eqb x y
  | VSet t1 e1, VSet t2 e2 => PlyType_eqb t1 t2 && list_eqb Atom_eqb e1 e2
  | _, _ => false
  end.

Definition valueType (v : PlywoodValue) : PlyType :=
  match v with
  | VAtom a => atomType a
  | VSet t _ => t
  end.

(** [Set.isSet]. *)
Definition isSet (v : PlywoodValue) : bool :=
  match v with
  | VSet _ _ => true
  | VAtom _ => false
  end.

(* ====================================================================== *)
(** ** Expressions *)
(* ====================================================================== *)

#[local] Set Warnings "-register-all".

(** Modelled from the spec: the option bag of an expression node
    (section 9, the [forceFinalize] hint). *)
Definition Options := list (string * bool).

(** The update of one key of an option bag. *)
Fixpoint setOptionIn (key : string) (value : bool) (o : Options) : Options :=
  match o with
  | [] => [(key, value)]
  | (k, v) :: rest =>
      if String.eqb k key then (key, value) :: rest
      else (k, v) :: setOptionIn key value rest
  end.

(** The [direction] of a sort. *)
Inductive Direction : Type := ascending | descending.

Definition Direction_eqb (a b : Direction) : bool :=
  match a, b with
  | ascending, ascending | descending, descending => true
  | _, _ => false
  end.

(** Modelled from the spec: the expression classes as a tagged
    variant, one tag per [op] (sections 3 and 9).  Here the chainable
    classes that carry an operand only, each with the parameters of
    its class; [OtherChainable] stands for the classes that the
    planner does not single out. *)
Inductive ChainableOp : Type :=
| Count
| CustomAggregate (custom : string)
| TimeBucket (duration timezone : string)
| TimeFloor (duration timezone : string)
| TimePart (part timezone : string)
| NumberBucket (size offset : Z)
| Cardinality
| Match (regexp : string)
| Limit (value : Z)
| OtherChainable (op : string).

(** Modelled from the spec: the chainable-unary expression classes
    (section 3): an operand and an [expression] child. *)
Inductive ChainableUnaryOp : Type :=
| Apply (name : string)
| Filter
| Sort (direction : Direction)
| Min | Max | Sum | CountDistinct | Average
| Quantile (value : string)
| Is | In | And | Or | Fallback | Then | GreaterThan
| OtherChainableUnary (op : string).

Definition ChainableOp_eqb (a b : ChainableOp) : bool :=
  match a, b with
  | Count, Count | Cardinality, Cardinality => true
  | CustomAggregate x, CustomAggregate y => String.eqb x y
  | TimeBucket d1 z1, TimeBucket d2 z2 => String.eqb d1 d2 && String.eqb z1 z2
  | TimeFloor d1 z1, TimeFloor d2 z2 => String.eqb d1 d2 && String.eqb z1 z2
  | TimePart d1 z1, TimePart d2 z2 => String.eqb d1 d2 && String.eqb z1 z2
  | NumberBucket s1 o1, NumberBucket s2 o2 => Z.eqb s1 s2 && Z.eqb o1 o2
  | Match x, Match y => String.eqb x y
  | Limit x, Limit y => Z.eqb x y
  | OtherChainable x, OtherChainable y => String.eqb x y
  | _, _ => false
  end.

Definition ChainableUnaryOp_eqb (a b : ChainableUnaryOp) : bool :=
  match a, b with
  | Apply x, Apply y => String.eqb x y
  | Sort x, Sort y => Direction_eqb x y
  | Quantile x, Quantile y => String.eqb x y
  | OtherChainableUnary x, OtherChainableUnary y => String.eqb x y
  | Filter, Filter | Min, Min | Max, Max | Sum, Sum
  | CountDistinct, CountDistinct | Average, Average | Is, Is | In, In
  | And, And | Or, Or | Fallback, Fallback | Then, Then
  | GreaterThan, GreaterThan => true
  | _, _ => false
  end.

(** Modelled from the spec: the expression tree of section 3: a
    literal, a reference (with the fields of [RefExpression]), a
    chainable node (an operand), a chainable-unary node (an operand
    and an [expression] child) or a split (an operand and keyed split
    expressions).  Every node carries its option bag and the [type]
    its constructor computed or was given, if any. *)
Inductive Expression : Type :=
| ELiteral (options : Options) (value : PlywoodValue)
| ERef (options : Options) (name : string) (nest : nat)
    (type : option PlyType) (ignoreCase : bool)
| EChainable (options : Options) (op : ChainableOp) (type : option PlyType)
    (operand : Expression)
| EChainableUnary (options : Options) (op : ChainableUnaryOp)
    (type : option PlyType) (operand expression : Expression)
| ESplit (options : Options) (operand : Expression)
    (splits : list (string * Expression)) (dataName : option string).

(** Modelled from the spec: [Splits], the split expressions by key,
    kept in the order of the keys ([keys] is the sorted list of the
    keys of [splits]). *)
Definition Splits := list (string * Expression).

(** The induction principle of the tree: a property of every split
    expression is at hand for a split. *)
Section ExpressionInduction.
Variable P : Expression -> Prop.
Hypothesis HLiteral : forall o v, P (ELiteral o v).
Hypothesis HRef : forall o n k t i, P (ERef o n k t i).
Hypothesis HChainable :
  forall o op t operand, P operand -> P (EChainable o op t operand).
Hypothesis HUnary :
  forall o op t operand expression, P operand -> P expression ->
    P (EChainableUnary o op t operand expression).
Hypothesis HSplit :
  forall o operand splits d,
    P operand -> Forall (fun kv => P (snd kv)) splits ->
    P (ESplit o operand splits d).

Fixpoint Expression_induction (ex : Expression) : P ex :=
  match ex with
  | ELiteral o v => HLiteral o v
  | ERef o n k t i => HRef o n k t i
  | EChainable o op t operand =>
      HChainable o op t (Expression_induction operand)
  | EChainableUnary o op t operand expression =>
      HUnary o op t (Expression_induction operand)
        (Expression_induction expression)
  | ESplit o operand splits d =>
      HSplit o d (Expression_induction operand)
        ((fix all (l : Splits) : Forall (fun kv => P (snd kv)) l :=
            match l with
            | [] => Forall_nil _
            | kv :: rest =>
                Forall_cons kv (Expression_induction (snd kv)) (all rest)
            end) splits)
  end.
End ExpressionInduction.

(** *** Structural equality ([equals]) *)

Definition option_eqb {A} (eqb : A -> A -> bool) (a b : option A) : bool :=
  match a, b with
  | None, None => true
  | Some x, Some y => eqb x y
  | _, _ => false
  end.

Definition Options_eqb : Options -> Options -> bool :=
  list_eqb (fun a b => String.eqb (fst a) (fst b) && Bool.eqb (snd a) (snd b)).

(** Modelled from the spec: [equals] of the expression classes,
    equality by value: the same class, parameters, type and options
    and equal children ([RefExpression.equals] adds the name, the
    nesting and [ignoreCase] to the test of the base class). *)
Fixpoint equals (a b : Expression) : bool :=
  match a, b with
  | ELiteral o1 v1, ELiteral o2 v2 =>
      Options_eqb o1 o2 && PlywoodValue_eqb v1 v2
  | ERef o1 n1 k1 t1 i1, ERef o2 n2 k2 t2 i2 =>
      Options_eqb o1 o2 && String.eqb n1 n2 && Nat.eqb k1 k2
      && option_eqb PlyType_eqb t1 t2 && Bool.eqb i1 i2
  | EChainable o1 op1 t1 x1, EChainable o2 op2 t2 x2 =>
      Options_eqb o1 o2 && ChainableOp_eqb op1 op2
      && option_eqb PlyType_eqb t1 t2
      && equals x1 x2
  | EChainableUnary o1 op1 t1 x1 e1, EChainableUnary o2 op2 t2 x2 e2 =>
      Options_eqb o1 o2 && ChainableUnaryOp_eqb op1 op2
      && option_eqb PlyType_eqb t1 t2
      && equals x1 x2 && equals e1 e2
  | ESplit o1 x1 s1 d1, ESplit o2 x2 s2 d2 =>
      Options_eqb o1 o2 && equals x1 x2
      && (fix splitsEqual (l1 l2 : Splits) : bool :=
            match l1, l2 with
            | [], [] => true
            | kv1 :: r1, kv2 :: r2 =>
                String.eqb (fst kv1) (fst kv2)
                && equals (snd kv1) (snd kv2) && splitsEqual r1 r2
            | _, _ => false
            end) s1 s2
      && option_eqb String.eqb d1 d2
  | _, _ => false
  end.

(** *** Accessors and constructors *)

(** [ex.type]. *)
Definition typeOf (ex : Expression) : option PlyType :=
  match ex with
  | ELiteral _ v => Some (valueType v)
  | ERef _ _ _ t _ => t
  | EChainable _ _ t _ => t
  | EChainableUnary _ _ t _ _ => t
  | ESplit _ _ _ _ => Some DATASET
  end.

(** [ex.type === type]. *)
Definition hasType (ex : Expression) (t : PlyType) : bool :=
  option_eqb PlyType_eqb (typeOf ex) (Some t).

(** The [op] of each chainable class. *)
Definition chainableOpName (op : ChainableOp) : string :=
  match op with
  | Count => "count"
  | CustomAggregate _ => "customAggregate"
  | TimeBucket _ _ => "timeBucket"
  | TimeFloor _ _ => "timeFloor"
  | TimePart _ _ => "timePart"
  | NumberBucket _ _ => "numberBucket"
  | Cardinality => "cardinality"
  | Match _ => "match"
  | Limit _ => "limit"
  | OtherChainable op => op
  end.

(** The [op] of each chainable-unary class. *)
Definition chainableUnaryOpName (op : ChainableUnaryOp) : string :=
  match op with
  | Apply _ => "apply"
  | Filter => "filter"
  | Sort _ => "sort"
  | Min => "min"
  | Max => "max"
  | Sum => "sum"
  | CountDistinct => "countDistinct"
  | Average => "average"
  | Quantile _ => "quantile"
  | Is => "is"
  | In => "in"
  | And => "and"
  | Or => "or"
  | Fallback => "fallback"
  | Then => "then"
  | GreaterThan => "greaterThan"
  | OtherChainableUnary op => op
  end.

(** [ex.op]. *)
Definition opOf (ex : Expression) : string :=
  match ex with
  | ELiteral _ _ => "literal"
  | ERef _ _ _ _ _ => "ref"
  | EChainable _ op _ _ => chainableOpName op
  | EChainableUnary _ op _ _ _ => chainableUnaryOpName op
  | ESplit _ _ _ _ => "split"
  end.

(** Modelled from the spec: [ex.isOp(op)], the test of the [op] tag. *)
Definition isOp (ex : Expression) (op : string) : bool := String.eqb (opOf ex) op.

(** Modelled from the spec: the [Aggregate] capability as a predicate
    on the variant tag (section 9): the aggregates of section 4.3. *)
Definition isAggregate (ex : Expression) : bool :=
  match ex with
  | EChainable _ (Count | CustomAggregate _) _ _ => true
  | EChainableUnary _ (Min | Max | Sum | CountDistinct | Average | Quantile _) _ _ _ =>
      true
  | _ => false
  end.

(** Modelled from the spec: [isNester]: the argument expressions of
    the node are evaluated one dataset level further in (section 9,
    back-references). *)
Definition isNester (op : ChainableUnaryOp) : bool :=
  match op with
  | Apply _ | Filter | Sort _ | Min | Max | Sum | CountDistinct | Average
  | Quantile _ => true
  | _ => false
  end.

(** [$(name)]: a reference without nesting or declared type. *)
Definition ref (name : string) : Expression := ERef [] name 0 None false.

(** [Expression._], created next to [RefExpression]. *)
Definition Expression_ : Expression := ref "_".

(** Modelled from the spec: [r(value)], a literal (section 3). *)
Definition r (value : PlywoodValue) : Expression := ELiteral [] value.

(** Modelled from the spec: [Expression.TRUE], the literal [true]. *)
Definition Expression_TRUE : Expression := r (VAtom (ABoolean true)).

(** Modelled from the spec: [ex.getLiteralValue()]: the value of a
    literal, [null] for another expression. *)
Definition getLiteralValue (ex : Expression) : option PlywoodValue :=
  match ex with
  | ELiteral _ v => Some v
  | _ => None
  end.

(** Modelled from the spec: [ex.setOption(key, value)] (section 9). *)
Definition setOption (key : string) (value : bool) (ex : Expression) : Expression :=
  match ex with
  | ELiteral o v => ELiteral (setOptionIn key value o) v
  | ERef o n k t i => ERef (setOptionIn key value o) n k t i
  | EChainable o op t x => EChainable (setOptionIn key value o) op t x
  | EChainableUnary o op t x e => EChainableUnary (setOptionIn key value o) op t x e
  | ESplit o x s d => ESplit (setOptionIn key value o) x s d
  end.

(** Modelled from the spec: [ex.changeOperand(operand)], the immutable
    rebuild of a chainable node (section 9). *)
Definition changeOperand (operand : Expression) (ex : Expression) : Expression :=
  match ex with
  | EChainable o op t _ => EChainable o op t operand
  | EChainableUnary o op t _ e => EChainableUnary o op t operand e
  | ESplit o _ s d => ESplit o operand s d
  | leaf => leaf
  end.

(** Modelled from the spec: [ex.changeExpression(expression)], the
    immutable rebuild of a chainable-unary node (section 9). *)
Definition changeExpression (expression : Expression) (ex : Expression) : Expression :=
  match ex with
  | EChainableUnary o op t x _ => EChainableUnary o op t x expression
  | other => other
  end.

(** Modelled from the spec: the chaining helpers [x.min(e)],
    [x.max(e)], [x.filter(e)], [x.count()], [x.sum(e)] and
    [x.greaterThan(e)], each building the node of its class;
    [MaxExpression] takes the type of its expression, a set type
    unwrapped. *)
Definition min_ (x e : Expression) : Expression :=
  EChainableUnary [] Min (option_map unwrapSetType (typeOf e)) x e.

Definition max_ (x e : Expression) : Expression :=
  EChainableUnary [] Max (option_map unwrapSetType (typeOf e)) x e.

Definition filter_ (x e : Expression) : Expression :=
  EChainableUnary [] Filter (Some DATASET) x e.

Definition count_ (x : Expression) : Expression :=
  EChainable [] Count (Some NUMBER) x.

Definition sum_ (x e : Expression) : Expression :=
  EChainableUnary [] Sum (Some NUMBER) x e.

Definition greaterThan_ (x e : Expression) : Expression :=
  EChainableUnary [] GreaterThan (Some BOOLEAN) x e.

(** *** Typed views: the expression classes the planner holds in fields *)

(** Modelled from the spec: the classes of the expressions the planner
    holds in typed fields, [ApplyExpression], [SplitExpression],
    [SortExpression] and [LimitExpression], each with the parameters
    of its class (sections 3 and 4.4). *)
Record ApplyExpression : Type := {
  apply_options : Options;
  apply_operand : Expression;
  apply_name : string;
  apply_expression : Expression
}.

Record SplitExpression : Type := {
  split_options : Options;
  split_operand : Expression;
  splits : Splits;
  dataName : option string
}.

Record SortExpression : Type := {
  sort_operand : Expression;
  sort_expression : Expression;
  direction : Direction
}.

Record LimitExpression : Type := {
  limit_operand : Expression;
  limit_value : Z
}.

(** The apply and the split as nodes of the tree. *)
Definition ofApply (a : ApplyExpression) : Expression :=
  EChainableUnary (apply_options a) (Apply (apply_name a)) (Some DATASET)
    (apply_operand a) (apply_expression a).

Definition ofSplit (s : SplitExpression) : Expression :=
  ESplit (split_options s) (split_operand s) (splits s) (dataName s).

(** [x.apply(name, expression)]. *)
Definition apply_ (x : Expression) (name : string) (e : Expression) : ApplyExpression :=
  {| apply_options := []; apply_operand := x; apply_name := name;
     apply_expression := e |}.

(** The immutable rebuilds of an apply: [changeOperand],
    [changeExpression], [changeName]. *)
Definition apply_changeOperand (x : Expression) (a : ApplyExpression) : ApplyExpression :=
  {| apply_options := apply_options a; apply_operand := x;
     apply_name := apply_name a; apply_expression := apply_expression a |}.

Definition apply_changeExpression (e : Expression) (a : ApplyExpression) : ApplyExpression :=
  {| apply_options := apply_options a; apply_operand := apply_operand a;
     apply_name := apply_name a; apply_expression := e |}.

Definition apply_changeName (n : string) (a : ApplyExpression) : ApplyExpression :=
  {| apply_options := apply_options a; apply_operand := apply_operand a;
     apply_name := n; apply_expression := apply_expression a |}.

(** [split.changeOperand(operand)]. *)
Definition split_changeOperand (x : Expression) (s : SplitExpression) : SplitExpression :=
  {| split_options := split_options s; split_operand := x;
     splits := splits s; dataName := dataName s |}.

(** Modelled from the spec: the constructor of [SplitExpression] keeps
    the keys of the [splits] object it is given in sorted order. *)
Fixpoint insertSplit (kv : string * Expression) (l : Splits) : Splits :=
  match l with
  | [] => [kv]
  | x :: more =>
      match String.compare (fst kv) (fst x) with
      | Gt => x :: insertSplit kv more
      | _ => kv :: l
      end
  end.

Definition sortSplits (object : list (string * Expression)) : Splits :=
  fold_right insertSplit [] object.

(** [split.changeSplits(splits)]. *)
Definition changeSplits (new : list (string * Expression)) (s : SplitExpression)
  : SplitExpression :=
  {| split_options := split_options s; split_operand := split_operand s;
     splits := sortSplits new; dataName := dataName s |}.

(** [x.split(splits)]. *)
Definition split_ (x : Expression) (object : list (string * Expression))
  : SplitExpression :=
  {| split_options := []; split_operand := x; splits := sortSplits object;
     dataName := None |}.

(** Modelled from the spec: the methods of [SplitExpression]:
    [mapSplits], [numSplits], [isMultiSplit] (more than one key),
    [firstSplitName], [firstSplitExpression], [hasKey]. *)
Definition mapSplits {T} (fn : string -> Expression -> T) (s : SplitExpression) : list T :=
  map (fun kv => fn (fst kv) (snd kv)) (splits s).

Definition numSplits (s : SplitExpression) : nat := List.length (splits s).

Definition isMultiSplit (s : SplitExpression) : bool := Nat.ltb 1 (numSplits s).

(** [keys[0]] and [splits[keys[0]]]; [undefined] for a split without
    keys, which the constructor of [SplitExpression] refuses. *)
Definition firstSplitName (s : SplitExpression) : option string :=
  match splits s with
  | [] => None
  | kv :: _ => Some (fst kv)
  end.

Definition firstSplitExpression (s : SplitExpression) : option Expression :=
  match splits s with
  | [] => None
  | kv :: _ => Some (snd kv)
  end.

Definition hasKey (key : string) (s : SplitExpression) : bool :=
  existsb (fun kv => String.eqb (fst kv) key) (splits s).

(** [splits[key]]. *)
Definition lookupSplit (key : string) (s : Splits) : option Expression :=
  option_map snd (find (fun kv => String.eqb (fst kv) key) s).

(** [split.equals(other)]. *)
Definition split_equals (a b : SplitExpression) : bool :=
  equals (ofSplit a) (ofSplit b).

(** Modelled from the spec: [sort.refName()]: the name of the
    reference sorted on, [null] when the sort expression is not a
    reference. *)
Definition refName (sort : SortExpression) : option string :=
  match sort_expression sort with
  | ERef _ name _ _ _ => Some name
  | _ => None
  end.

(* ====================================================================== *)
(** ** Tree walks *)
(* ====================================================================== *)

(** Modelled from the spec: [ex.some(iter)], the tree walk of the
    expression classes: pre-order; where [iter] answers [true] or
    [false] for a node, that is the answer for its whole subtree, and
    on [null] the walk descends into the operand and then the argument
    expressions. *)
Fixpoint some (iter : Expression -> option bool) (ex : Expression) : bool :=
  match iter ex with
  | Some answer => answer
  | None =>
      match ex with
      | ELiteral _ _ | ERef _ _ _ _ _ => false
      | EChainable _ _ _ operand => some iter operand
      | EChainableUnary _ _ _ operand expression =>
          some iter operand || some iter expression
      | ESplit _ operand splits _ =>
          some iter operand
          || existsb (fun kv => some iter (snd kv)) splits
      end
  end.

(** Modelled from the spec: [ex.substitute(fn)] (the walk of section
    4.4): pre-order; a node for which [fn] returns a replacement is
    replaced whole and not entered, any other node is rebuilt from its
    substituted children. *)
Fixpoint substitute (fn : Expression -> option Expression) (ex : Expression)
  : Expression :=
  match fn ex with
  | Some sub => sub
  | None =>
      match ex with
      | ELiteral _ _ | ERef _ _ _ _ _ => ex
      | EChainable o op t operand => EChainable o op t (substitute fn operand)
      | EChainableUnary o op t operand expression =>
          EChainableUnary o op t (substitute fn operand)
            (substitute fn expression)
      | ESplit o operand splits d =>
          ESplit o (substitute fn operand)
            (map (fun kv => (fst kv, substitute fn (snd kv))) splits) d
      end
  end.

(** Code that updates captured variables and may throw: a state and
    error monad over the captured state [S]. *)
Definition M (S A : Type) : Type := S -> result (A * S).

Definition ret {S A} (a : A) : M S A := fun s => Ok (a, s).

Definition throw {S A} (message : string) : M S A := fun _ => Throw message.

Definition bind {S A B} (m : M S A) (k : A -> M S B) : M S B :=
  fun s => match m s with
           | Ok (a, s') => k a s'
           | Throw e => Throw e
           end.

Definition get {S} : M S S := fun s => Ok (s, s).

Definition put {S} (s : S) : M S unit := fun _ => Ok (tt, s).

Definition modify {S} (f : S -> S) : M S unit := fun s => Ok (tt, f s).

Notation "x <- m ;; k" := (bind m (fun x => k))
  (at level 61, m at next level, right associativity).
Notation "m ;;; k" := (bind m (fun _ => k))
  (at level 61, right associativity).

Fixpoint mapM {S A B} (f : A -> M S B) (l : list A) : M S (list B) :=
  match l with
  | [] => ret []
  | x :: rest => y <- f x ;; ys <- mapM f rest ;; ret (y :: ys)
  end.

(** [substitute] with a substitution function that has effects: the
    same walk, the effects in visiting order. *)
Fixpoint substituteM {S} (fn : Expression -> M S (option Expression))
  (ex : Expression) : M S Expression :=
  sub <- fn ex ;;
  match sub with
  | Some replacement => ret replacement
  | None =>
      match ex with
      | ELiteral _ _ | ERef _ _ _ _ _ => ret ex
      | EChainable o op t operand =>
          operand' <- substituteM fn operand ;;
          ret (EChainable o op t operand')
      | EChainableUnary o op t operand expression =>
          operand' <- substituteM fn operand ;;
          expression' <- substituteM fn expression ;;
          ret (EChainableUnary o op t operand' expression')
      | ESplit o operand splits d =>
          operand' <- substituteM fn operand ;;
          splits' <- (fix each (l : Splits) : M S Splits :=
                        match l with
                        | [] => ret []
                        | kv :: rest =>
                            e' <- substituteM fn (snd kv) ;;
                            rest' <- each rest ;;
                            ret ((fst kv, e') :: rest')
                        end) splits ;;
          ret (ESplit o operand' splits' d)
      end
  end.

(** Modelled from the spec: [deduplicateSort]: the distinct strings of
    a list in ascending order. *)
Fixpoint insertSorted (s : string) (l : list string) : list string :=
  match l with
  | [] => [s]
  | x :: rest =>
      match String.compare s x with
      | Lt => s :: l
      | Eq => l
      | Gt => x :: insertSorted s rest
      end
  end.

Definition deduplicateSort (l : list string) : list string :=
  fold_right insertSorted [] l.

Fixpoint repeatString (s : string) (n : nat) : string :=
  match n with
  | O => ""
  | S n' => s ++ repeatString s n'
  end.

(** Modelled from the spec: [ex.getFreeReferences()] (section 4.2,
    step 1): the names of the references that reach out of the
    expression, each with one [^] per level above the expression's
    own, distinct and sorted. *)
Fixpoint freeReferencesAt (nestDiff : nat) (ex : Expression) : list string :=
  match ex with
  | ELiteral _ _ => []
  | ERef _ name nest _ _ =>
      if Nat.leb nestDiff nest
      then [repeatString "^" (nest - nestDiff) ++ name]
      else []
  | EChainable _ _ _ operand => freeReferencesAt nestDiff operand
  | EChainableUnary _ op _ operand expression =>
      freeReferencesAt nestDiff operand
      ++ freeReferencesAt (nestDiff + (if isNester op then 1 else 0)) expression
  | ESplit _ operand splits _ =>
      freeReferencesAt nestDiff operand
      ++ flat_map (fun kv => freeReferencesAt (S nestDiff) (snd kv)) splits
  end.

Definition getFreeReferences (ex : Expression) : list string :=
  deduplicateSort (freeReferencesAt 0 ex).

(** Modelled from the spec: [extractFromAnd] of the expression classes,
    the AND-extraction of section 4.2.  The conjuncts of the filter (the
    operands of its chain of [and]s, or the filter itself) are divided
    into those the predicate accepts and the others, and each part is
    put back together with [Expression.and]: [TRUE] for no conjunct, the
    conjunct itself for one.  It answers [null] for an expression that
    is not boolean. *)
Fixpoint getExpressionList (ex : Expression) : list Expression :=
  match ex with
  | EChainableUnary _ And _ operand expression =>
      getExpressionList operand ++ [expression]
  | other => [other]
  end.

Definition and_ (x e : Expression) : Expression :=
  EChainableUnary [] And (Some BOOLEAN) x e.

Definition Expression_and (l : list Expression) : Expression :=
  match l with
  | [] => Expression_TRUE
  | x :: rest => fold_left and_ rest x
  end.

Record ExtractAndRest : Type := {
  extract : Expression;
  rest : Expression
}.

Definition extractFromAnd (matchFn : Expression -> bool) (ex : Expression)
  : option ExtractAndRest :=
  if negb (hasType ex BOOLEAN) then None
  else
    let conjuncts := getExpressionList ex in
    Some {| extract := Expression_and (List.filter matchFn conjuncts);
            rest := Expression_and (List.filter (fun c => negb (matchFn c)) conjuncts) |}.

(* ====================================================================== *)
(** ** The planner's data *)
(* ====================================================================== *)

(** An opaque JSON document: what the filter, aggregation, having and
    extraction-function builders emit, and the entries of [context]. *)
Inductive Json : Type :=
| JNull
| JBoolean (b : bool)
| JNumber (n : Z)
| JString (s : string)
| JArray (items : list Json)
| JObject (fields : list (string * Json)).

(** A JavaScript object used as a lookup table, its keys in insertion
    order. *)
Definition Lookup (A : Type) : Type := list (string * A).

Fixpoint hasOwnProp {A} (o : Lookup A) (key : string) : bool :=
  match o with
  | [] => false
  | (k, _) :: rest => String.eqb k key || hasOwnProp rest key
  end.

Fixpoint lookup {A} (o : Lookup A) (key : string) : option A :=
  match o with
  | [] => None
  | (k, v) :: rest => if String.eqb k key then Some v else lookup rest key
  end.

(** [o[key] = value]: a present key keeps its place. *)
Fixpoint assign {A} (o : Lookup A) (key : string) (value : A) : Lookup A :=
  match o with
  | [] => [(key, value)]
  | (k, v) :: rest =>
      if String.eqb k key then (k, value) :: rest
      else (k, v) :: assign rest key value
  end.

(** Modelled from the spec: a range value ([Range.fromJS],
    [TimeRange.fromJS]): start, end and bounds. *)
Record PlywoodRange : Type := {
  range_start : Atom;
  range_end : Atom;
  bounds : string
}.

(** Modelled from the spec: [AttributeInfo] (section 3), the
    description of one column. *)
Record AttributeInfo : Type := {
  attr_name : string;
  attr_type : option PlyType;
  nativeType : option string;
  unsplitable : bool;
  maker : option Expression;
  cardinality : option Z;
  range : option PlywoodRange
}.

Definition Attributes := list AttributeInfo.

(** [AttributeInfo.fromJS({ name, type, nativeType })]. *)
Definition AttributeInfo_fromJS (name : string) (type : option PlyType)
  (native : option string) : AttributeInfo :=
  {| attr_name := name; attr_type := type; nativeType := native;
     unsplitable := false; maker := None; cardinality := None; range := None |}.

(** [attribute.changeRange(range)]. *)
Definition changeRange (rg : PlywoodRange) (a : AttributeInfo) : AttributeInfo :=
  {| attr_name := attr_name a; attr_type := attr_type a;
     nativeType := nativeType a; unsplitable := unsplitable a;
     maker := maker a; cardinality := cardinality a; range := Some rg |}.

(** Modelled from the spec: the modes of a planner (section 2), its
    query selection (section 4.1) and the introspection depths
    (section 4.9). *)
Inductive QueryMode : Type := Raw | Value | Total | Split.

Inductive QuerySelection : Type := any | group_by_only.

Inductive IntrospectionDepth : Type := shallow | medium | deep.

(** The [source] of a planner: a data source name or a list of them. *)
Inductive Source : Type :=
| SourceName (name : string)
| SourceList (names : list string).

(** Modelled from the spec: the planner's receiver (section 3), one
    immutable snapshot per planning pass; an [ExternalValue] has the
    same fields.  [withQuery] is the field of the SQL planner. *)
Record External : Type := {
  mode : QueryMode;
  source : Source;
  filter : Expression;
  split : option SplitExpression;
  applies : option (list ApplyExpression);
  valueExpression : option Expression;
  sort : option SortExpression;
  limit : option LimitExpression;
  havingFilter : Expression;
  derivedAttributes : Lookup Expression;
  rawAttributes : Attributes;
  select : option (list string);
  context : option (Lookup Json);
  timeAttribute : string;
  customAggregations : Lookup Json;
  customTransforms : Lookup Json;
  allowEternity : bool;
  allowSelectQueries : bool;
  exactResultsOnly : bool;
  querySelection : option QuerySelection;
  withQuery : option string
}.

(** [DruidExternal.TIME_ATTRIBUTE]. *)
Definition TIME_ATTRIBUTE : string := "__time".

(** Modelled from the spec: the inflaters (section 3), per-column
    coercions of result rows, each by the factory of the base class
    that makes it. *)
Inductive Inflater : Type :=
| timeInflaterFactory (label : string)
| booleanInflaterFactory (label : string)
| numberInflaterFactory (label : string)
| setStringInflaterFactory (label : string)
| setCardinalityInflaterFactory (label : string)
| otherInflater (factory label : string).

(** Modelled from the spec: a [RowTransform] (section 3), by the
    factory that makes it and the arguments of the factory; an entry
    of [inflaters] is [None] where the array holds [null] or
    [undefined]. *)
Inductive Transform : Type :=
| timeBoundaryPostTransformFactory (applies : option (list ApplyExpression))
| valuePostTransformFactory
| postTransformFactory (inflaters : list (option Inflater)) (attributes : Attributes)
    (keys : option (list string)) (zeroTotalApplies : option (list ApplyExpression)).

(** The Druid documents the planner builds field by field:
    granularity, virtual column, dimension spec.  A dimension spec in
    its full form has [type] ['default'] or ['extraction']; the
    filtered forms wrap a delegate ([values] is [None] for
    [undefined]). *)
Inductive Granularity : Type :=
| GranularityName (name : string)
| GranularityPeriod (period timeZone : string).

Record VirtualColumn : Type := {
  vc_name : string;
  vc_expression : string;
  vc_outputType : string
}.

(** A dimension spec: [type] is ['default'] or ['extraction'] for the
    full form; the filtered forms wrap a delegate ([values] is [None]
    for [undefined]). *)
Inductive DimensionSpec : Type :=
| DimensionSpecFull (type dimension outputName : string)
    (extractionFn : option Json) (outputType : option string)
| regexFiltered (delegate : DimensionSpec) (pattern : string)
| listFiltered (delegate : DimensionSpec) (values : option (list Atom)).

(** [DimensionInflater], [DimensionInflaterHaving],
    [GranularityInflater] and [DruidSplit], with every optional field
    present. *)
Record DimensionInflater : Type := {
  di_virtualColumn : option VirtualColumn;
  di_dimension : DimensionSpec;
  di_inflater : option Inflater
}.

Record DimensionInflaterHaving : Type := {
  dih_virtualColumn : option VirtualColumn;
  dih_dimension : DimensionSpec;
  dih_inflater : option Inflater;
  dih_having : Expression
}.

Record GranularityInflater : Type := {
  gi_granularity : Granularity;
  gi_inflater : option Inflater
}.

Record DruidSplit : Type := {
  ds_queryType : string;
  ds_timestampLabel : option string;
  ds_virtualColumns : option (list VirtualColumn);
  ds_granularity : Granularity;
  ds_dimension : option DimensionSpec;
  ds_dimensions : option (list DimensionSpec);
  ds_leftoverHavingFilter : Expression;
  ds_postTransform : Transform
}.

(** The metric of a topN, the columns of a limit spec, the data
    source. *)
Inductive TopNMetricSpec : Type :=
| MetricName (name : string)
| MetricDimension (ordering : string)
| MetricInverted (metric : TopNMetricSpec).

Inductive OrderByColumnSpec : Type :=
| OrderByName (dimension : string)
| OrderByFull (dimension : string) (dir : Direction) (dimensionOrder : option string).

Record LimitSpec : Type := {
  ls_columns : list OrderByColumnSpec;
  ls_limit : option Z
}.

Inductive DataSourceOf (Q : Type) : Type :=
| DataSourceName (name : string)
| DataSourceUnion (dataSources : list string)
| DataSourceQuery (query : Q).

Arguments DataSourceName {Q} name.
Arguments DataSourceUnion {Q} dataSources.
Arguments DataSourceQuery {Q} query.

(** The native query document; a field that was not assigned is
    [None]. *)
Inductive DruidQuery : Type := Build_DruidQuery {
  queryType : string;
  dataSource : DataSourceOf DruidQuery;
  q_context : option (Lookup Json);
  intervals : option Json;
  granularity : option Granularity;
  q_filter : option Json;
  bound : option string;
  aggregations : option (list Json);
  postAggregations : option (list Json);
  virtualColumns : option (list VirtualColumn);
  dimension : option DimensionSpec;
  dimensions : option (list DimensionSpec);
  q_descending : option bool;
  metric : option TopNMetricSpec;
  threshold : option Z;
  limitSpec : option LimitSpec;
  having : option Json;
  resultFormat : option string;
  columns : option (list string);
  order : option Direction;
  q_limit : option Z;
  merge : option bool;
  analysisTypes : option (list string);
  lenientAggregatorMerge : option bool
}.

Definition DataSource := DataSourceOf DruidQuery.

(** Assignments to the fields of a query document. *)
Definition newQuery (type : string) (source : DataSourceOf DruidQuery) : DruidQuery :=
  Build_DruidQuery type source None None None None None None None None None
    None None None None None None None None None None None None None.

Definition set_queryType (v : string) (q : DruidQuery) : DruidQuery :=
  Build_DruidQuery v (dataSource q) (q_context q) (intervals q)
    (granularity q) (q_filter q) (bound q) (aggregations q)
    (postAggregations q) (virtualColumns q) (dimension q) (dimensions q)
    (q_descending q) (metric q) (threshold q) (limitSpec q) (having q)
    (resultFormat q) (columns q) (order q) (q_limit q) (merge q)
    (analysisTypes q) (lenientAggregatorMerge q).

Definition set_dataSource (v : DataSourceOf DruidQuery) (q : DruidQuery) : DruidQuery :=
  Build_DruidQuery (queryType q) v (q_context q) (intervals q)
    (granularity q) (q_filter q) (bound q) (aggregations q)
    (postAggregations q) (virtualColumns q) (dimension q) (dimensions q)
    (q_descending q) (metric q) (threshold q) (limitSpec q) (having q)
    (resultFormat q) (columns q) (order q) (q_limit q) (merge q)
    (analysisTypes q) (lenientAggregatorMerge q).

Definition set_q_context (v : option (Lookup Json)) (q : DruidQuery) : DruidQuery :=
  Build_DruidQuery (queryType q) (dataSource q) v (intervals q)
    (granularity q) (q_filter q) (bound q) (aggregations q)
    (postAggregations q) (virtualColumns q) (dimension q) (dimensions q)
    (q_descending q) (metric q) (threshold q) (limitSpec q) (having q)
    (resultFormat q) (columns q) (order q) (q_limit q) (merge q)
    (analysisTypes q) (lenientAggregatorMerge q).

Definition set_intervals (v : option Json) (q : DruidQuery) : DruidQuery :=
  Build_DruidQuery (queryType q) (dataSource q) (q_context q) v
    (granularity q) (q_filter q) (bound q) (aggregations q)
    (postAggregations q) (virtualColumns q) (dimension q) (dimensions q)
    (q_descending q) (metric q) (threshold q) (limitSpec q) (having q)
    (resultFormat q) (columns q) (order q) (q_limit q) (merge q)
    (analysisTypes q) (lenientAggregatorMerge q).

Definition set_granularity (v : option Granularity) (q : DruidQuery) : DruidQuery :=
  Build_DruidQuery (queryType q) (dataSource q) (q_context q) (intervals q) v
    (q_filter q) (bound q) (aggregations q) (postAggregations q)
    (virtualColumns q) (dimension q) (dimensions q) (q_descending q)
    (metric q) (threshold q) (limitSpec q) (having q) (resultFormat q)
    (columns q) (order q) (q_limit q) (merge q) (analysisTypes q)
    (lenientAggregatorMerge q).

Definition set_q_filter (v : option Json) (q : DruidQuery) : DruidQuery :=
  Build_DruidQuery (queryType q) (dataSource q) (q_context q) (intervals q)
    (granularity q) v (bound q) (aggregations q) (postAggregations q)
    (virtualColumns q) (dimension q) (dimensions q) (q_descending q)
    (metric q) (threshold q) (limitSpec q) (having q) (resultFormat q)
    (columns q) (order q) (q_limit q) (merge q) (analysisTypes q)
    (lenientAggregatorMerge q).

Definition set_bound (v : option string) (q : DruidQuery) : DruidQuery :=
  Build_DruidQuery (queryType q) (dataSource q) (q_context q) (intervals q)
    (granularity q) (q_filter q) v (aggregations q) (postAggregations q)
    (virtualColumns q) (dimension q) (dimensions q) (q_descending q)
    (metric q) (threshold q) (limitSpec q) (having q) (resultFormat q)
    (columns q) (order q) (q_limit q) (merge q) (analysisTypes q)
    (lenientAggregatorMerge q).

Definition set_aggregations (v : option (list Json)) (q : DruidQuery) : DruidQuery :=
  Build_DruidQuery (queryType q) (dataSource q) (q_context q) (intervals q)
    (granularity q) (q_filter q) (bound q) v (postAggregations q)
    (virtualColumns q) (dimension q) (dimensions q) (q_descending q)
    (metric q) (threshold q) (limitSpec q) (having q) (resultFormat q)
    (columns q) (order q) (q_limit q) (merge q) (analysisTypes q)
    (lenientAggregatorMerge q).

Definition set_postAggregations (v : option (list Json)) (q : DruidQuery) : DruidQuery :=
  Build_DruidQuery (queryType q) (dataSource q) (q_context q) (intervals q)
    (granularity q) (q_filter q) (bound q) (aggregations q) v
    (virtualColumns q) (dimension q) (dimensions q) (q_descending q)
    (metric q) (threshold q) (limitSpec q) (having q) (resultFormat q)
    (columns q) (order q) (q_limit q) (merge q) (analysisTypes q)
    (lenientAggregatorMerge q).

Definition set_virtualColumns (v : option (list VirtualColumn)) (q : DruidQuery) : DruidQuery :=
  Build_DruidQuery (queryType q) (dataSource q) (q_context q) (intervals q)
    (granularity q) (q_filter q) (bound q) (aggregations q)
    (postAggregations q) v (dimension q) (dimensions q) (q_descending q)
    (metric q) (threshold q) (limitSpec q) (having q) (resultFormat q)
    (columns q) (order q) (q_limit q) (merge q) (analysisTypes q)
    (lenientAggregatorMerge q).

Definition set_dimension (v : option DimensionSpec) (q : DruidQuery) : DruidQuery :=
  Build_DruidQuery (queryType q) (dataSource q) (q_context q) (intervals q)
    (granularity q) (q_filter q) (bound q) (aggregations q)
    (postAggregations q) (virtualColumns q) v (dimensions q) (q_descending q)
    (metric q) (threshold q) (limitSpec q) (having q) (resultFormat q)
    (columns q) (order q) (q_limit q) (merge q) (analysisTypes q)
    (lenientAggregatorMerge q).

Definition set_dimensions (v : option (list DimensionSpec)) (q : DruidQuery) : DruidQuery :=
  Build_DruidQuery (queryType q) (dataSource q) (q_context q) (intervals q)
    (granularity q) (q_filter q) (bound q) (aggregations q)
    (postAggregations q) (virtualColumns q) (dimension q) v (q_descending q)
    (metric q) (threshold q) (limitSpec q) (having q) (resultFormat q)
    (columns q) (order q) (q_limit q) (merge q) (analysisTypes q)
    (lenientAggregatorMerge q).

Definition set_q_descending (v : option bool) (q : DruidQuery) : DruidQuery :=
  Build_DruidQuery (queryType q) (dataSource q) (q_context q) (intervals q)
    (granularity q) (q_filter q) (bound q) (aggregations q)
    (postAggregations q) (virtualColumns q) (dimension q) (dimensions q) v
    (metric q) (threshold q) (limitSpec q) (having q) (resultFormat q)
    (columns q) (order q) (q_limit q) (merge q) (analysisTypes q)
    (lenientAggregatorMerge q).

Definition set_metric (v : option TopNMetricSpec) (q : DruidQuery) : DruidQuery :=
  Build_DruidQuery (queryType q) (dataSource q) (q_context q) (intervals q)
    (granularity q) (q_filter q) (bound q) (aggregations q)
    (postAggregations q) (virtualColumns q) (dimension q) (dimensions q)
    (q_descending q) v (threshold q) (limitSpec q) (having q)
    (resultFormat q) (columns q) (order q) (q_limit q) (merge q)
    (analysisTypes q) (lenientAggregatorMerge q).

Definition set_threshold (v : option Z) (q : DruidQuery) : DruidQuery :=
  Build_DruidQuery (queryType q) (dataSource q) (q_context q) (intervals q)
    (granularity q) (q_filter q) (bound q) (aggregations q)
    (postAggregations q) (virtualColumns q) (dimension q) (dimensions q)
    (q_descending q) (metric q) v (limitSpec q) (having q) (resultFormat q)
    (columns q) (order q) (q_limit q) (merge q) (analysisTypes q)
    (lenientAggregatorMerge q).

Definition set_limitSpec (v : option LimitSpec) (q : DruidQuery) : DruidQuery :=
  Build_DruidQuery (queryType q) (dataSource q) (q_context q) (intervals q)
    (granularity q) (q_filter q) (bound q) (aggregations q)
    (postAggregations q) (virtualColumns q) (dimension q) (dimensions q)
    (q_descending q) (metric q) (threshold q) v (having q) (resultFormat q)
    (columns q) (order q) (q_limit q) (merge q) (analysisTypes q)
    (lenientAggregatorMerge q).

Definition set_having (v : option Json) (q : DruidQuery) : DruidQuery :=
  Build_DruidQuery (queryType q) (dataSource q) (q_context q) (intervals q)
    (granularity q) (q_filter q) (bound q) (aggregations q)
    (postAggregations q) (virtualColumns q) (dimension q) (dimensions q)
    (q_descending q) (metric q) (threshold q) (limitSpec q) v
    (resultFormat q) (columns q) (order q) (q_limit q) (merge q)
    (analysisTypes q) (lenientAggregatorMerge q).

Definition set_resultFormat (v : option string) (q : DruidQuery) : DruidQuery :=
  Build_DruidQuery (queryType q) (dataSource q) (q_context q) (intervals q)
    (granularity q) (q_filter q) (bound q) (aggregations q)
    (postAggregations q) (virtualColumns q) (dimension q) (dimensions q)
    (q_descending q) (metric q) (threshold q) (limitSpec q) (having q) v
    (columns q) (order q) (q_limit q) (merge q) (analysisTypes q)
    (lenientAggregatorMerge q).

Definition set_columns (v : option (list string)) (q : DruidQuery) : DruidQuery :=
  Build_DruidQuery (queryType q) (dataSource q) (q_context q) (intervals q)
    (granularity q) (q_filter q) (bound q) (aggregations q)
    (postAggregations q) (virtualColumns q) (dimension q) (dimensions q)
    (q_descending q) (metric q) (threshold q) (limitSpec q) (having q)
    (resultFormat q) v (order q) (q_limit q) (merge q) (analysisTypes q)
    (lenientAggregatorMerge q).

Definition set_order (v : option Direction) (q : DruidQuery) : DruidQuery :=
  Build_DruidQuery (queryType q) (dataSource q) (q_context q) (intervals q)
    (granularity q) (q_filter q) (bound q) (aggregations q)
    (postAggregations q) (virtualColumns q) (dimension q) (dimensions q)
    (q_descending q) (metric q) (threshold q) (limitSpec q) (having q)
    (resultFormat q) (columns q) v (q_limit q) (merge q) (analysisTypes q)
    (lenientAggregatorMerge q).

Definition set_q_limit (v : option Z) (q : DruidQuery) : DruidQuery :=
  Build_DruidQuery (queryType q) (dataSource q) (q_context q) (intervals q)
    (granularity q) (q_filter q) (bound q) (aggregations q)
    (postAggregations q) (virtualColumns q) (dimension q) (dimensions q)
    (q_descending q) (metric q) (threshold q) (limitSpec q) (having q)
    (resultFormat q) (columns q) (order q) v (merge q) (analysisTypes q)
    (lenientAggregatorMerge q).

Definition set_merge (v : option bool) (q : DruidQuery) : DruidQuery :=
  Build_DruidQuery (queryType q) (dataSource q) (q_context q) (intervals q)
    (granularity q) (q_filter q) (bound q) (aggregations q)
    (postAggregations q) (virtualColumns q) (dimension q) (dimensions q)
    (q_descending q) (metric q) (threshold q) (limitSpec q) (having q)
    (resultFormat q) (columns q) (order q) (q_limit q) v (analysisTypes q)
    (lenientAggregatorMerge q).

Definition set_analysisTypes (v : option (list string)) (q : DruidQuery) : DruidQuery :=
  Build_DruidQuery (queryType q) (dataSource q) (q_context q) (intervals q)
    (granularity q) (q_filter q) (bound q) (aggregations q)
    (postAggregations q) (virtualColumns q) (dimension q) (dimensions q)
    (q_descending q) (metric q) (threshold q) (limitSpec q) (having q)
    (resultFormat q) (columns q) (order q) (q_limit q) (merge q) v
    (lenientAggregatorMerge q).

Definition set_lenientAggregatorMerge (v : option bool) (q : DruidQuery) : DruidQuery :=
  Build_DruidQuery (queryType q) (dataSource q) (q_context q) (intervals q)
    (granularity q) (q_filter q) (bound q) (aggregations q)
    (postAggregations q) (virtualColumns q) (dimension q) (dimensions q)
    (q_descending q) (metric q) (threshold q) (limitSpec q) (having q)
    (resultFormat q) (columns q) (order q) (q_limit q) (merge q)
    (analysisTypes q) v.

(** Modelled from the spec: [QueryAndPostTransform] and its [context]
    (section 3). *)
Record RequesterContext : Type := {
  timestamp : option string;
  ignorePrefix : option string;
  dummyPrefix : option string
}.

Record QueryAndPostTransform (Q : Type) : Type := {
  query : Q;
  qpt_context : option RequesterContext;
  postTransform : Transform
}.

(** What the filter builder and the aggregation builder return. *)
Record FilterAndIntervals : Type := {
  fi_filter : option Json;
  fi_intervals : Json
}.

Record AggregationsAndPostAggregations : Type := {
  ap_aggregations : list Json;
  ap_postAggregations : list Json
}.

(* ====================================================================== *)
(** ** Collaborators of the planner *)
(* ====================================================================== *)

(** What the planner calls and this development does not look into: the
    expression printer and simplifier, the inflater chooser and the
    query-preparation methods of the base class, and the four builders
    (extraction function, Druid expression, filter, aggregation and
    having filter).  A builder may throw. *)
Class Collaborators : Type := {
  toString : Expression -> string;
  simplify : Expression -> Expression;
  (** [ex.maxPossibleSplitValues()], [None] for [Infinity] *)
  maxPossibleSplitValues : Expression -> option N;
  getIntelligentInflater : Expression -> string -> option Inflater;
  getSimpleInflater : option PlyType -> string -> option Inflater;
  dropOriginInfo : AttributeInfo -> AttributeInfo;
  (** [TimeRange.fromJS({ start, end, bounds })] *)
  TimeRange_fromJS : option string -> option string -> string -> result PlywoodRange;
  getQueryFilter : External -> Expression;
  getQuerySplit : External -> SplitExpression;
  getSelectedAttributes : External -> Attributes;
  sortOnLabel : External -> bool;
  toValueApply : External -> ApplyExpression;
  expressionToExtractionFn : External -> Expression -> result (option Json);
  expressionToDruidExpression : External -> Expression -> result (option string);
  expressionTypeToOutputType : option PlyType -> string;
  filterToDruid : External -> Expression -> result FilterAndIntervals;
  makeAggregationsAndPostAggregations :
    External -> option (list ApplyExpression) ->
    result AggregationsAndPostAggregations;
  filterToHavingFilter : External -> Expression -> result Json
}.

(** A [TypeError] of the JavaScript runtime (a property read on [null]
    or [undefined]). *)
Definition TypeError {A} (what : string) : result A := Throw ("TypeError: " ++ what).

Module DruidExternal.
Section Planner.
Context `{Collaborators}.

(** Modelled from the spec: [isTimeRef] of the base class, the time
    ref of sections 4.1 and 4.7: a reference to the time attribute. *)
Definition isTimeRef (ext : External) (ex : Expression) : bool :=
  match ex with
  | ERef _ name _ _ _ => String.eqb name (timeAttribute ext)
  | _ => false
  end.

(** Modelled from the spec: [getAttributesInfo] of the base class:
    the [AttributeInfo] that describes the column of that name
    (section 3), an error when there is none. *)
Definition getAttributesInfo (ext : External) (attributeName : string)
  : result AttributeInfo :=
  match find (fun a => String.eqb (attr_name a) attributeName) (rawAttributes ext) with
  | Some info => Ok info
  | None => Throw ("could not get attribute info for '" ++ attributeName ++ "'")
  end.

Definition canHandleFilter (ext : External) (filterExpression : Expression) : bool :=
  negb (some (fun ex => if isOp ex "cardinality" then Some true else None)
          filterExpression).

Definition canHandleSort (ext : External) (sort : SortExpression) : bool :=
  match mode ext with
  | Raw =>
      if negb (option_eqb String.eqb (refName sort) (Some (timeAttribute ext)))
      then false
      else Direction_eqb (direction sort) ascending
  | _ => true
  end.

Definition getQuerySelection (ext : External) : QuerySelection :=
  match querySelection ext with
  | Some selection => selection
  | None => any
  end.

Definition isGroupByOnly (selection : QuerySelection) : bool :=
  match selection with
  | group_by_only => true
  | any => false
  end.

Definition getDruidDataSource (ext : External) : DataSource :=
  match source ext with
  | SourceList names => DataSourceUnion names
  | SourceName name => DataSourceName name
  end.

Definition isTimestampCompatibleSort (sort : option SortExpression)
  (label : string) : bool :=
  match sort with
  | None => true
  | Some sort =>
      match sort_expression sort with
      | ERef _ name _ _ _ => String.eqb name label
      | _ => false
      end
  end.

Definition splitExpressionToGranularityInflater (ext : External)
  (splitExpression : Expression) (label : string) : option GranularityInflater :=
  if isTimeRef ext splitExpression then
    Some {| gi_granularity := GranularityName "none";
            gi_inflater := Some (timeInflaterFactory label) |}
  else
    match splitExpression with
    | EChainable _ (TimeBucket duration timezone) _ operand
    | EChainable _ (TimeFloor duration timezone) _ operand =>
        if isTimeRef ext operand then
          Some {| gi_granularity := GranularityPeriod duration timezone;
                  gi_inflater := getIntelligentInflater splitExpression label |}
        else None
    | _ => None
    end.

Definition makeOutputName (name : string) : string :=
  match index 0 "__" name with
  | Some O => "***" ++ name
  | _ => name
  end.

(** [applies.find(apply => apply.name === sortRefName)], then the
    search of the apply for a filter on the time ref. *)
Definition topNCompatibleSort (ext : External) : result bool :=
  match sort ext with
  | None => Ok true
  | Some sort =>
      match sort_expression sort with
      | ERef _ sortRefName _ _ _ =>
          match applies ext with
          | None => TypeError "applies is undefined"
          | Some applies =>
              match find (fun apply => String.eqb (apply_name apply) sortRefName) applies with
              | Some sortApply =>
                  Ok (negb (some (fun ex =>
                        match ex with
                        | EChainableUnary _ Filter _ _ filterExpression =>
                            Some (some (fun ex' =>
                                    if isTimeRef ext ex' then Some true else None)
                                    filterExpression)
                        | _ => None
                        end) (apply_expression sortApply)))
              | None => Ok true
              end
          end
      | _ => Ok true
      end
  end.

(** [ex instanceof ChainableExpression], and the operand of a
    chainable node. *)
Definition isChainable (ex : Expression) : bool :=
  match ex with
  | EChainable _ _ _ _ | EChainableUnary _ _ _ _ _ | ESplit _ _ _ _ => true
  | _ => false
  end.

Definition operandOf (ex : Expression) : option Expression :=
  match ex with
  | EChainable _ _ _ operand | EChainableUnary _ _ _ operand _
  | ESplit _ operand _ _ => Some operand
  | _ => None
  end.

Definition isComplexFallback (expression : Expression) : bool :=
  match expression with
  | EChainableUnary _ Fallback _ myOp fallbackTo =>
      if negb (isOp fallbackTo "ref") then false
      else isChainable myOp
           && match operandOf myOp with
              | Some inner => isChainable inner
              | None => false
              end
  | _ => false
  end.

Definition makeExpression (ext : External) (expression : Expression)
  (label : string) : result DimensionInflater :=
  let! druidExpression := expressionToDruidExpression ext expression in
  match druidExpression with
  | None =>
      Throw ("could not convert " ++ toString expression ++ " to Druid expression")
  | Some druidExpression =>
      let outputName := makeOutputName label in
      let outputType := expressionTypeToOutputType (typeOf expression) in
      let inflater := getIntelligentInflater expression label in
      match expression with
      | ERef _ _ _ _ _ =>
          Ok {| di_virtualColumn := None;
                di_dimension := DimensionSpecFull "default" outputName outputName
                                  None (Some outputType);
                di_inflater := inflater |}
      | _ =>
          let dimensionSrcName := "v:" ++ outputName in
          Ok {| di_virtualColumn :=
                  Some {| vc_name := dimensionSrcName;
                          vc_expression := druidExpression;
                          vc_outputType := outputType |};
                di_dimension := DimensionSpecFull "default" dimensionSrcName
                                  outputName None (Some outputType);
                di_inflater := inflater |}
      end
  end.

(** The message of the error for a split key on a rolled-up metric. *)
Definition unsplitableMessage (expression : Expression) (referenceName : string) : string :=
  "can not convert " ++ toString expression
  ++ " to split because it references an un-splitable metric '"
  ++ referenceName ++ "' which is most likely rolled up.".

Definition expressionToDimensionInflater (ext : External)
  (expression : Expression) (label : string) : result DimensionInflater :=
  let freeReferences := getFreeReferences expression in
  match freeReferences with
  | [] =>
      let! extractionFn := expressionToExtractionFn ext expression in
      Ok {| di_virtualColumn := None;
            di_dimension := DimensionSpecFull "extraction" TIME_ATTRIBUTE
                              (makeOutputName label) extractionFn None;
            di_inflater := None |}
  | referenceName :: _ =>
      if Nat.ltb 1 (List.length freeReferences)
         || some (fun ex => if isOp ex "then" then Some true else None) expression
         || isComplexFallback expression
      then makeExpression ext expression label
      else
        let! attributeInfo := getAttributesInfo ext referenceName in
        if unsplitable attributeInfo
        then Throw (unsplitableMessage expression referenceName)
        else
          match expressionToExtractionFn ext expression with
          | Throw _ => makeExpression ext expression label
          | Ok extractionFn =>
              let simpleInflater := getIntelligentInflater expression label in
              let dimensionName :=
                if String.eqb (attr_name attributeInfo) (timeAttribute ext)
                then TIME_ATTRIBUTE else attr_name attributeInfo in
              let dimension :=
                DimensionSpecFull
                  (match extractionFn with Some _ => "extraction" | None => "default" end)
                  dimensionName (makeOutputName label) extractionFn
                  (if hasType expression NUMBER
                   then Some (if String.eqb dimensionName TIME_ATTRIBUTE
                              then "LONG" else "DOUBLE")
                   else None) in
              let plain := {| di_virtualColumn := None; di_dimension := dimension;
                              di_inflater := simpleInflater |} in
              match expression with
              | ERef _ _ _ _ _
              | EChainable _ (TimeBucket _ _) _ _
              | EChainable _ (TimePart _ _) _ _
              | EChainable _ (NumberBucket _ _) _ _ => Ok plain
              | EChainable _ Cardinality _ _ =>
                  Ok {| di_virtualColumn := None; di_dimension := dimension;
                        di_inflater := Some (setCardinalityInflaterFactory label) |}
              | _ =>
                  let effectiveType := option_map unwrapSetType (typeOf expression) in
                  match simpleInflater, effectiveType with
                  | Some _, _ | None, Some STRING | None, Some NULL => Ok plain
                  | _, _ =>
                      Throw ("could not convert " ++ toString expression
                             ++ " to a Druid dimension")
                  end
              end
          end
  end.

(** The predicate [expressionToDimensionInflaterHaving] hands to
    [extractFromAnd]: a chainable conjunct on the reference named as
    the label that is a [match], or an [is] against a literal. *)
Definition constrainsLabel (label : string) (hf : Expression) : bool :=
  match operandOf hf with
  | Some (ERef _ name _ _ _) =>
      if String.eqb name label then
        if String.eqb (opOf hf) "match" then true
        else if String.eqb (opOf hf) "is" then
          match hf with
          | EChainableUnary _ _ _ _ expression => isOp expression "literal"
          | _ => false
          end
        else false
      else false
  | _ => false
  end.

(** [dimensionInflater.having = havingFilter]. *)
Definition withHaving (d : DimensionInflater) (having : Expression)
  : DimensionInflaterHaving :=
  {| dih_virtualColumn := di_virtualColumn d; dih_dimension := di_dimension d;
     dih_inflater := di_inflater d; dih_having := having |}.

Definition expressionToDimensionInflaterHaving (ext : External)
  (expression : Expression) (label : string) (havingFilter : Expression)
  : result DimensionInflaterHaving :=
  let! dimensionInflater := expressionToDimensionInflater ext expression label in
  let unchanged := withHaving dimensionInflater havingFilter in
  if negb (hasType expression SET_STRING) then Ok unchanged
  else
    match extractFromAnd (constrainsLabel label) havingFilter with
    | None => TypeError "extractFromAnd returned null"
    | Some parts =>
        if equals (extract parts) Expression_TRUE then Ok unchanged
        else
          match extract parts with
          | EChainable _ (Match regexp) _ _ =>
              Ok {| dih_virtualColumn := None;
                    dih_dimension := regexFiltered (di_dimension dimensionInflater) regexp;
                    dih_inflater := di_inflater dimensionInflater;
                    dih_having := rest parts |}
          | EChainableUnary _ Is _ _ literal =>
              let values :=
                match getLiteralValue literal with
                | Some (VSet _ elements) => elements
                | Some (VAtom a) => [a]
                | None => [ANull]
                end in
              Ok {| dih_virtualColumn := None;
                    dih_dimension := listFiltered (di_dimension dimensionInflater)
                                       (Some values);
                    dih_inflater := di_inflater dimensionInflater;
                    dih_having := rest parts |}
          | EChainableUnary _ In _ _ literal =>
              match getLiteralValue literal with
              | None | Some (VAtom ANull) => TypeError "elements of null"
              | Some v =>
                  Ok {| dih_virtualColumn := None;
                        dih_dimension :=
                          listFiltered (di_dimension dimensionInflater)
                            (match v with
                             | VSet _ elements => Some elements
                             | VAtom _ => None
                             end);
                        dih_inflater := di_inflater dimensionInflater;
                        dih_having := rest parts |}
              end
          | _ => Ok unchanged
          end
    end.

(** [split.maxBucketNumber()]: the product of the keys'
    [maxPossibleSplitValues], [None] for a product that is not a
    finite number. *)
Definition maxBucketNumber (s : SplitExpression) : option N :=
  fold_left (fun num kv =>
               match num, maxPossibleSplitValues (snd kv) with
               | Some n, Some m => Some (n * m)%N
               | _, _ => None
               end) (splits s) (Some 1%N).

(** [num < 1000]. *)
Definition belowThousand (num : option N) : bool :=
  match num with
  | Some n => N.ltb n 1000
  | None => false
  end.

(** The truthiness of an object that may be [null] or [undefined]. *)
Definition truthy {A} (o : option A) : bool :=
  match o with
  | Some _ => true
  | None => false
  end.

(** The body of the [mapSplits] callback of the group-by branch, over
    the keys in order, with the captured [leftoverHavingFilter] passed
    along. *)
Fixpoint lowerSplits (ext : External) (l : Splits) (leftoverHavingFilter : Expression)
  : result (list VirtualColumn * list DimensionSpec * list (option Inflater) * Expression) :=
  match l with
  | [] => Ok ([], [], [], leftoverHavingFilter)
  | (name, expression) :: more =>
      let! d := expressionToDimensionInflaterHaving ext expression name
                  leftoverHavingFilter in
      let! (virtualColumns, dimensions, inflaters, leftover) :=
        lowerSplits ext more (dih_having d) in
      Ok (match dih_virtualColumn d with
          | Some vc => vc :: virtualColumns
          | None => virtualColumns
          end,
          dih_dimension d :: dimensions,
          match dih_inflater d with
          | Some i => Some i :: inflaters
          | None => inflaters
          end,
          leftover)
  end.

Definition splitToDruid (ext : External) (split : SplitExpression)
  : result DruidSplit :=
  let leftoverHavingFilter := havingFilter ext in
  let selectedAttributes := getSelectedAttributes ext in
  if isGroupByOnly (getQuerySelection ext) || isMultiSplit split then
    let! (virtualColumns, dimensions, inflaters, leftover) :=
      lowerSplits ext (splits split) leftoverHavingFilter in
    Ok {| ds_queryType := "groupBy";
          ds_virtualColumns := Some virtualColumns;
          ds_dimensions := Some dimensions;
          ds_dimension := None;
          ds_timestampLabel := None;
          ds_granularity := GranularityName "all";
          ds_leftoverHavingFilter := leftover;
          ds_postTransform :=
            postTransformFactory inflaters selectedAttributes
              (Some (mapSplits (fun name _ => name) split)) None |}
  else
    match splits split with
    | [] => TypeError "the split has no key"
    | (label, splitExpression) :: _ =>
        let timeseries :=
          if negb (truthy (limit ext))
             && isTimestampCompatibleSort (sort ext) label
             && equals leftoverHavingFilter Expression_TRUE
          then splitExpressionToGranularityInflater ext splitExpression label
          else None in
        match timeseries with
        | Some granularityInflater =>
            Ok {| ds_queryType := "timeseries";
                  ds_granularity := gi_granularity granularityInflater;
                  ds_leftoverHavingFilter := leftoverHavingFilter;
                  ds_timestampLabel := Some label;
                  ds_virtualColumns := None;
                  ds_dimension := None;
                  ds_dimensions := None;
                  ds_postTransform :=
                    postTransformFactory [gi_inflater granularityInflater]
                      selectedAttributes (Some [label]) None |}
        | None =>
            let! dimensionInflater :=
              expressionToDimensionInflaterHaving ext splitExpression label
                leftoverHavingFilter in
            let leftoverHavingFilter := dih_having dimensionInflater in
            let inflaters :=
              match dih_inflater dimensionInflater with
              | Some i => [Some i]
              | None => []
              end in
            let virtualColumns :=
              option_map (fun vc => [vc]) (dih_virtualColumn dimensionInflater) in
            let! topN :=
              if equals leftoverHavingFilter Expression_TRUE
                 && (truthy (limit ext) || belowThousand (maxBucketNumber split))
                 && negb (exactResultsOnly ext)
              then
                let! compatible := topNCompatibleSort ext in
                Ok (compatible && negb (isGroupByOnly (getQuerySelection ext)))
              else Ok false in
            if topN then
              Ok {| ds_queryType := "topN";
                    ds_virtualColumns := virtualColumns;
                    ds_dimension := Some (dih_dimension dimensionInflater);
                    ds_dimensions := None;
                    ds_granularity := GranularityName "all";
                    ds_leftoverHavingFilter := leftoverHavingFilter;
                    ds_timestampLabel := None;
                    ds_postTransform :=
                      postTransformFactory inflaters selectedAttributes
                        (Some [label]) None |}
            else
              Ok {| ds_queryType := "groupBy";
                    ds_virtualColumns := virtualColumns;
                    ds_dimensions := Some [dih_dimension dimensionInflater];
                    ds_dimension := None;
                    ds_granularity := GranularityName "all";
                    ds_leftoverHavingFilter := leftoverHavingFilter;
                    ds_timestampLabel := None;
                    ds_postTransform :=
                      postTransformFactory inflaters selectedAttributes
                        (Some [label]) None |}
        end
    end.

Definition isMinMaxTimeExpression (ext : External) (applyExpression : Expression) : bool :=
  match applyExpression with
  | EChainableUnary _ Min _ _ expression
  | EChainableUnary _ Max _ _ expression => isTimeRef ext expression
  | _ => false
  end.

(** [if (context) druidQuery.context = context]. *)
Definition with_context (context : option (Lookup Json)) (q : DruidQuery) : DruidQuery :=
  match context with
  | Some c => set_q_context (Some c) q
  | None => q
  end.

Definition getTimeBoundaryQueryAndPostTransform (ext : External)
  : result (QueryAndPostTransform DruidQuery) :=
  let druidQuery := newQuery "timeBoundary" (getDruidDataSource ext) in
  let druidQuery := with_context (context ext) druidQuery in
  let! (applies, druidQuery) :=
    match mode ext with
    | Total =>
        match applies ext with
        | None => TypeError "applies is undefined"
        | Some applies =>
            Ok (Some applies,
                match applies with
                | [loneApply] =>
                    set_bound (Some (opOf (apply_expression loneApply) ++ "Time"))
                      druidQuery
                | _ => druidQuery
                end)
        end
    | Value =>
        match valueExpression ext with
        | None => TypeError "valueExpression is undefined"
        | Some valueExpression =>
            Ok (None, set_bound (Some (opOf valueExpression ++ "Time")) druidQuery)
        end
    | Raw => Throw "invalid mode 'raw' for timeBoundary"
    | Split => Throw "invalid mode 'split' for timeBoundary"
    end in
  Ok {| query := druidQuery;
        qpt_context := Some {| timestamp := None; ignorePrefix := None;
                               dummyPrefix := None |};
        postTransform := timeBoundaryPostTransformFactory applies |}.

(** *** The nested group-by rewrite *)

Record ParsedResplitAgg : Type := {
  resplitAgg : Expression;
  resplitApply : ApplyExpression;
  resplitSplit : SplitExpression
}.

Definition parseResplitAgg (applyExpression : Expression) : option ParsedResplitAgg :=
  let resplitAgg := applyExpression in
  if negb (isChainable resplitAgg) || negb (isAggregate resplitAgg) then None
  else
    match operandOf resplitAgg with
    | Some (EChainableUnary applyOptions (Apply name) _ applyOperand applyExpr) =>
        match applyOperand with
        | ESplit splitOptions resplitRefOrFilter splitSplits splitDataName =>
            let effectiveResplitApply :=
              {| apply_options := applyOptions; apply_operand := Expression_;
                 apply_name := name; apply_expression := applyExpr |} in
            let (resplitRef, effectiveResplitApply) :=
              match resplitRefOrFilter with
              | EChainableUnary _ Filter _ filterOperand filterExpression =>
                  (filterOperand,
                   apply_changeExpression
                     (substitute
                        (fun ex =>
                           match ex with
                           | ERef _ _ _ (Some DATASET) _ =>
                               Some (filter_ ex filterExpression)
                           | _ => None
                           end)
                        (apply_expression effectiveResplitApply))
                     effectiveResplitApply)
              | _ => (resplitRefOrFilter, effectiveResplitApply)
              end in
            match resplitRef with
            | ERef _ _ _ _ _ =>
                Some {| resplitAgg := changeOperand Expression_ resplitAgg;
                        resplitApply := effectiveResplitApply;
                        resplitSplit :=
                          {| split_options := splitOptions;
                             split_operand := Expression_;
                             splits := splitSplits;
                             dataName := splitDataName |} |}
            | _ => None
            end
        | _ => None
        end
    | _ => None
    end.

(** [getFilterSubExpression]: the first filter node the pre-order walk
    of [some] meets. *)
Fixpoint getFilterSubExpression (expression : Expression) : option Expression :=
  match expression with
  | ELiteral _ _ | ERef _ _ _ _ _ => None
  | EChainable _ _ _ operand => getFilterSubExpression operand
  | EChainableUnary _ Filter _ _ _ => Some expression
  | EChainableUnary _ _ _ operand argument =>
      match getFilterSubExpression operand with
      | Some found => Some found
      | None => getFilterSubExpression argument
      end
  | ESplit _ operand splits _ =>
      match getFilterSubExpression operand with
      | Some found => Some found
      | None =>
          (fix first (l : Splits) : option Expression :=
             match l with
             | [] => None
             | kv :: more =>
                 match getFilterSubExpression (snd kv) with
                 | Some found => Some found
                 | None => first more
                 end
             end) splits
      end
  end.

(** The decimal digits of an index, as string concatenation prints it. *)
Definition natToString (n : nat) : string :=
  NilZero.string_of_uint (Nat.to_uint n).

(** The variables the substitution callback of [nestedGroupByIfNeeded]
    captures and updates. *)
Record Captured : Type := {
  globalResplitSplit : option SplitExpression;
  outerAttributes : Attributes;
  innerApplies : list ApplyExpression;
  c : nat
}.

(** The updates of the captured variables: [globalResplitSplit = g],
    [innerApplies.push(a)], [outerAttributes.push(a)], and the counter
    [c]. *)
Definition setGlobalResplitSplit (g : SplitExpression) : M Captured unit :=
  modify (fun s => {| globalResplitSplit := Some g;
                      outerAttributes := outerAttributes s;
                      innerApplies := innerApplies s; c := c s |}).

Definition pushInnerApply (a : ApplyExpression) : M Captured unit :=
  modify (fun s => {| globalResplitSplit := globalResplitSplit s;
                      outerAttributes := outerAttributes s;
                      innerApplies := (innerApplies s ++ [a])%list; c := c s |}).

Definition pushOuterAttribute (a : AttributeInfo) : M Captured unit :=
  modify (fun s => {| globalResplitSplit := globalResplitSplit s;
                      outerAttributes := (outerAttributes s ++ [a])%list;
                      innerApplies := innerApplies s; c := c s |}).

Definition setC (n : nat) : M Captured unit :=
  modify (fun s => {| globalResplitSplit := globalResplitSplit s;
                      outerAttributes := outerAttributes s;
                      innerApplies := innerApplies s; c := n |}).

(** The message of the error for re-split aggregates over different
    splits. *)
Definition sameSplitMessage : string :=
  "all resplit aggregators must have the same split".

(** The substitution callback, for the apply at index [i]. *)
Definition splitUpAggregate (i : nat) (ex : Expression) : M Captured (option Expression) :=
  if isAggregate ex then
    match parseResplitAgg ex with
    | Some resplit =>
        s <- get ;;
        match globalResplitSplit s with
        | Some g =>
            if negb (split_equals g (resplitSplit resplit))
            then throw sameSplitMessage
            else ret tt
        | None => setGlobalResplitSplit (resplitSplit resplit)
        end ;;;
        let oldName := apply_name (resplitApply resplit) in
        let newName := oldName ++ "_" ++ natToString i in
        pushInnerApply
          (apply_changeExpression
             (setOption "forceFinalize" true (apply_expression (resplitApply resplit)))
             (apply_changeName newName (resplitApply resplit))) ;;;
        pushOuterAttribute (AttributeInfo_fromJS newName (Some NUMBER) None) ;;;
        let resplitAggWithUpdatedNames :=
          substitute
            (fun ex' =>
               match ex' with
               | ERef o name nest t ci =>
                   if String.eqb name oldName then Some (ERef o newName nest t ci)
                   else None
               | _ => None
               end)
            (resplitAgg resplit) in
        match getFilterSubExpression (apply_expression (resplitApply resplit)) with
        | Some filterExpression =>
            let definedFilterName := newName ++ "_def" in
            pushInnerApply (apply_ (ref "_") definedFilterName (count_ filterExpression)) ;;;
            pushOuterAttribute (AttributeInfo_fromJS definedFilterName (Some NUMBER) None) ;;;
            ret (Some (changeOperand
                         (filter_ (ref "_")
                            (simplify (greaterThan_ (ref definedFilterName)
                                         (r (VAtom (ANumber 0))))))
                         resplitAggWithUpdatedNames))
        | None => ret (Some resplitAggWithUpdatedNames)
        end
    | None =>
        s <- get ;;
        let tempName := "a" ++ natToString i ++ "_" ++ natToString (c s) in
        setC (S (c s)) ;;;
        pushInnerApply (apply_ Expression_ tempName ex) ;;;
        pushOuterAttribute
          (AttributeInfo_fromJS tempName (typeOf ex)
             (match ex with
              | EChainableUnary _ CountDistinct _ _ _ => Some "hyperUnique"
              | _ => None
              end)) ;;;
        match ex with
        | EChainable _ Count _ _ => ret (Some (sum_ Expression_ (ref tempName)))
        | EChainableUnary _ _ _ _ _ =>
            ret (Some (changeExpression (ref tempName) (changeOperand Expression_ ex)))
        | EChainable _ (CustomAggregate _) _ _ =>
            throw "can not currently combine custom aggregation and re-split"
        | _ => throw ("bad '" ++ opOf ex ++ "' aggregate in custom expression")
        end
    end
  else ret None.

(** [effectiveApplies.map((apply, i) => ...)], from index [i] on. *)
Fixpoint splitUpApplies (i : nat) (l : list ApplyExpression)
  : M Captured (list ApplyExpression) :=
  match l with
  | [] => ret []
  | apply :: more =>
      setC 0 ;;;
      expression' <- substituteM (splitUpAggregate i) (apply_expression apply) ;;
      more' <- splitUpApplies (S i) more ;;
      ret (apply_changeExpression expression' apply :: more')
  end.

Definition divvyUpNestedSplitExpression (splitExpression : Expression)
  (intermediateName : string) : Expression * Expression :=
  match splitExpression with
  | EChainable _ (TimeBucket _ _) _ _
  | EChainable _ (NumberBucket _ _) _ _ =>
      (splitExpression, changeOperand (ref intermediateName) splitExpression)
  | _ => (splitExpression, ref intermediateName)
  end.

(** [applies ? applies : [Expression._.apply('__VALUE__',
    this.valueExpression)]]. *)
Definition effectiveApplies (ext : External) : result (list ApplyExpression) :=
  match applies ext with
  | Some applies => Ok applies
  | None =>
      match valueExpression ext with
      | Some valueExpression => Ok [apply_ Expression_ "__VALUE__" valueExpression]
      | None => TypeError "valueExpression is undefined"
      end
  end.

(** The test of the early exit: the expression of the apply holds a
    split. *)
Definition containsSplit (apply : ApplyExpression) : bool :=
  some (fun ex => match ex with ESplit _ _ _ _ => Some true | _ => None end)
    (apply_expression apply).

(** The split keys of the two queries while they are being collected. *)
Record SplitMerge : Type := {
  splitCount : nat;
  mergedAttributes : Attributes;
  innerSplits : Lookup Expression;
  outerSplits : Lookup Expression
}.

(** The name of the last key of the outer split whose expression
    equals [ex]. *)
Definition findOuterSplitName (split : option SplitExpression) (ex : Expression)
  : option string :=
  match split with
  | None => None
  | Some split =>
      fold_left (fun found kv => if equals ex (snd kv) then Some (fst kv) else found)
        (splits split) None
  end.

(** The truthiness of a string. *)
Definition nonEmpty (s : string) : bool := negb (String.eqb s "").

(** The callback of [globalResplitSplit.mapSplits]. *)
Definition mergeResplitKey (split : option SplitExpression) (m : SplitMerge)
  (kv : string * Expression) : SplitMerge :=
  let ex := snd kv in
  let outerSplitName := findOuterSplitName split ex in
  let intermediateName := "s" ++ natToString (splitCount m) in
  let divvy := divvyUpNestedSplitExpression ex intermediateName in
  {| splitCount := S (splitCount m);
     mergedAttributes :=
       (mergedAttributes m
        ++ [AttributeInfo_fromJS intermediateName (typeOf (fst divvy)) None])%list;
     innerSplits := assign (innerSplits m) intermediateName (fst divvy);
     outerSplits :=
       match outerSplitName with
       | Some name =>
           if nonEmpty name then assign (outerSplits m) name (snd divvy)
           else outerSplits m
       | None => outerSplits m
       end |}.

(** The names that a plain object inherits from [Object.prototype]:
    under each of them [object[name]] is a function or an object, and
    so not [undefined], for an object without such a key of its own. *)
Definition inheritedNames : list string :=
  ["constructor"; "hasOwnProperty"; "isPrototypeOf"; "propertyIsEnumerable";
   "toLocaleString"; "toString"; "valueOf"; "__proto__";
   "__defineGetter__"; "__defineSetter__"; "__lookupGetter__";
   "__lookupSetter__"].

(** The callback of the second [split.mapSplits].  Its test
    [if (outerSplits[name]) return] reads the plain object
    [outerSplits]: the value is an expression for a key of its own, and
    what the object inherits for one of the inherited names. *)
Definition mergeOuterKey (m : SplitMerge) (kv : string * Expression) : SplitMerge :=
  if hasOwnProp (outerSplits m) (fst kv)
     || existsb (String.eqb (fst kv)) inheritedNames
  then m
  else
    let intermediateName := "s" ++ natToString (splitCount m) in
    let divvy := divvyUpNestedSplitExpression (snd kv) intermediateName in
    {| splitCount := S (splitCount m);
       mergedAttributes :=
         (mergedAttributes m
          ++ [AttributeInfo_fromJS intermediateName (typeOf (fst divvy)) None])%list;
       innerSplits := assign (innerSplits m) intermediateName (fst divvy);
       outerSplits := assign (outerSplits m) (fst kv) (snd divvy) |}.

(** The two [mapSplits] loops that collect the split keys of the inner
    and the outer query. *)
Definition mergeSplits (split : option SplitExpression) (global : SplitExpression)
  (attributes : Attributes) : SplitMerge :=
  let start := {| splitCount := 0; mergedAttributes := attributes;
                  innerSplits := []; outerSplits := [] |} in
  let afterResplit := fold_left (mergeResplitKey split) (splits global) start in
  match split with
  | Some split => fold_left mergeOuterKey (splits split) afterResplit
  | None => afterResplit
  end.

(** The two planners of the rewrite: [new DruidExternal(innerValue)]
    and [new DruidExternal(outerValue)]. *)
Record NestedPlanners : Type := {
  innerExternal : External;
  outerExternal : External
}.

(** [innerValue]: the value of the inner planner. *)
Definition innerValue (ext : External) (walked : Captured) (m : SplitMerge) : External :=
  {| mode := Split;
     applies := Some (innerApplies walked);
     querySelection := Some group_by_only;
     split := Some (match split ext with
                    | Some split => changeSplits (innerSplits m) split
                    | None => split_ Expression_ (innerSplits m)
                    end);
     limit := None;
     sort := None;
     source := source ext; filter := filter ext;
     valueExpression := valueExpression ext; havingFilter := havingFilter ext;
     derivedAttributes := derivedAttributes ext; rawAttributes := rawAttributes ext;
     select := select ext; context := context ext;
     timeAttribute := timeAttribute ext;
     customAggregations := customAggregations ext;
     customTransforms := customTransforms ext;
     allowEternity := allowEternity ext;
     allowSelectQueries := allowSelectQueries ext;
     exactResultsOnly := exactResultsOnly ext; withQuery := withQuery ext |}.

(** [outerValue]: the value of the outer planner. *)
Definition outerValue (ext : External) (outerApplies : list ApplyExpression)
  (m : SplitMerge) : External :=
  {| rawAttributes := mergedAttributes m;
     applies := match applies ext with
                | Some _ => Some outerApplies
                | None => None
                end;
     valueExpression := match applies ext with
                        | Some _ => valueExpression ext
                        | None => option_map apply_expression (hd_error outerApplies)
                        end;
     filter := Expression_TRUE;
     allowEternity := true;
     querySelection := Some group_by_only;
     split := match split ext with
              | Some split => Some (changeSplits (outerSplits m) split)
              | None => None
              end;
     mode := mode ext; source := source ext; sort := sort ext; limit := limit ext;
     havingFilter := havingFilter ext; derivedAttributes := derivedAttributes ext;
     select := select ext; context := context ext;
     timeAttribute := timeAttribute ext;
     customAggregations := customAggregations ext;
     customTransforms := customTransforms ext;
     allowSelectQueries := allowSelectQueries ext;
     exactResultsOnly := exactResultsOnly ext; withQuery := withQuery ext |}.

(** The captured variables before the walk. *)
Definition noneCaptured : Captured :=
  {| globalResplitSplit := None; outerAttributes := []; innerApplies := []; c := 0 |}.

(** [nestedGroupByIfNeeded] up to the construction of the two
    planners; [None] where the method returns [null]. *)
Definition nestedGroupByPlanners (ext : External) : result (option NestedPlanners) :=
  let! effective := effectiveApplies ext in
  if negb (existsb containsSplit effective) then Ok None
  else
    let! (outerApplies, walked) := splitUpApplies 0 effective noneCaptured in
    match globalResplitSplit walked with
    | None => Ok None
    | Some global =>
        let m := mergeSplits (split ext) global (outerAttributes walked) in
        Ok (Some {| innerExternal := innerValue ext walked m;
                    outerExternal := outerValue ext outerApplies m |})
    end.

(** A query and post-transform with another query document. *)
Definition change_query {Q} (q : Q) (p : QueryAndPostTransform Q)
  : QueryAndPostTransform Q :=
  {| query := q; qpt_context := qpt_context p; postTransform := postTransform p |}.

(** [nestedGroupByIfNeeded]; [plan] stands for
    [getQueryAndPostTransform] of the two new planners. *)
Definition nestedGroupByIfNeeded
  (plan : External -> result (QueryAndPostTransform DruidQuery)) (ext : External)
  : result (option (QueryAndPostTransform DruidQuery)) :=
  let! planners := nestedGroupByPlanners ext in
  match planners with
  | None => Ok None
  | Some planners =>
      let! inner := plan (innerExternal planners) in
      let innerQuery := set_q_context None (query inner) in
      let! outerQueryAndPostTransform := plan (outerExternal planners) in
      Ok (Some (change_query
                  (set_dataSource (DataSourceQuery innerQuery)
                     (query outerQueryAndPostTransform))
                  outerQueryAndPostTransform))
  end.

(** *** Query assembly *)

(** [expressionNeedsNumericSort]. *)
Definition expressionNeedsNumericSort (ex : Expression) : bool :=
  hasType ex NUMBER || hasType ex NUMBER_RANGE.

(** [if (a.aggregations.length) q.aggregations = ...], and the same
    for the post-aggregations. *)
Definition with_aggregations (a : AggregationsAndPostAggregations) (q : DruidQuery)
  : DruidQuery :=
  let q := match ap_aggregations a with
           | [] => q
           | aggs => set_aggregations (Some aggs) q
           end in
  match ap_postAggregations a with
  | [] => q
  | posts => set_postAggregations (Some posts) q
  end.

(** [if (querySelection === 'group-by-only') { queryType = 'groupBy';
    dimensions = [] }]. *)
Definition zeroDimensionGroupBy (ext : External) (q : DruidQuery) : DruidQuery :=
  match querySelection ext with
  | Some group_by_only => set_dimensions (Some []) (set_queryType "groupBy" q)
  | _ => q
  end.

(** The [forEach] over the selected attributes of a raw query. *)
Fixpoint scanColumns (ext : External) (selected : Attributes)
  : result (list VirtualColumn * list string * list (option Inflater)) :=
  match selected with
  | [] => Ok ([], [], [])
  | attribute :: more =>
      let name := attr_name attribute in
      let! virtualColumn :=
        if option_eqb String.eqb (nativeType attribute) (Some "__time")
           && negb (String.eqb name "__time")
        then Ok (Some {| vc_name := name; vc_expression := "__time";
                         vc_outputType := "STRING" |})
        else
          match lookup (derivedAttributes ext) name with
          | Some derivedAttribute =>
              let! druidExpression := expressionToDruidExpression ext derivedAttribute in
              match druidExpression with
              | None => Throw ("could not convert " ++ toString derivedAttribute
                               ++ " to Druid expression")
              | Some druidExpression =>
                  Ok (Some {| vc_name := name; vc_expression := druidExpression;
                              vc_outputType := "STRING" |})
              end
          | None => Ok None
          end in
      let inflater :=
        match attr_type attribute with
        | Some BOOLEAN => [Some (booleanInflaterFactory name)]
        | Some NUMBER => [Some (numberInflaterFactory name)]
        | Some TIME => [Some (timeInflaterFactory name)]
        | Some SET_STRING => [Some (setStringInflaterFactory name)]
        | _ => []
        end in
      let! (virtualColumns, columns, inflaters) := scanColumns ext more in
      Ok (match virtualColumn with
          | Some vc => vc :: virtualColumns
          | None => virtualColumns
          end,
          name :: columns,
          (inflater ++ inflaters)%list)
  end.

(** [array.includes(s)]. *)
Definition includes (l : list string) (s : string) : bool :=
  existsb (String.eqb s) l.

(** The [raw] case of [getQueryAndPostTransform]: a scan. *)
Definition rawQuery (ext : External) (druidQuery : DruidQuery)
  (requesterContext : RequesterContext)
  : result (QueryAndPostTransform DruidQuery) :=
  if negb (allowSelectQueries ext) then
    Throw "to issue 'scan' or 'select' queries allowSelectQueries flag must be set"
  else
    let selectedAttributes := getSelectedAttributes ext in
    let! (virtualColumns, columns, inflaters) := scanColumns ext selectedAttributes in
    let druidQuery := set_queryType "scan" druidQuery in
    let druidQuery := set_resultFormat (Some "compactedList") druidQuery in
    let druidQuery :=
      match virtualColumns with
      | [] => druidQuery
      | _ => set_virtualColumns (Some virtualColumns) druidQuery
      end in
    let druidQuery := set_columns (Some columns) druidQuery in
    let! druidQuery :=
      match sort ext with
      | Some sort =>
          if option_eqb String.eqb (refName sort) (Some (timeAttribute ext)) then
            match select ext with
            | None => TypeError "select is undefined"
            | Some attributes =>
                if includes attributes (timeAttribute ext) then
                  let druidQuery := set_order (Some (direction sort)) druidQuery in
                  Ok (if includes columns "__time" then druidQuery
                      else set_columns (Some (columns ++ ["__time"])%list) druidQuery)
                else Ok druidQuery
            end
          else Ok druidQuery
      | None => Ok druidQuery
      end in
    let druidQuery :=
      match limit ext with
      | Some limit => set_q_limit (Some (limit_value limit)) druidQuery
      | None => druidQuery
      end in
    Ok {| query := druidQuery;
          qpt_context := Some requesterContext;
          postTransform :=
            postTransformFactory inflaters (map dropOriginInfo selectedAttributes)
              None None |}.

(** [requesterContext.timestamp = timestampLabel]. *)
Definition setTimestamp (label : option string) (rc : RequesterContext) : RequesterContext :=
  {| timestamp := label; ignorePrefix := ignorePrefix rc; dummyPrefix := dummyPrefix rc |}.

(** The [Combine] step of a split query. *)
Definition combine (ext : External) (split : SplitExpression)
  (leftoverHavingFilter : Expression) (druidQuery : DruidQuery) : result DruidQuery :=
  if String.eqb (queryType druidQuery) "timeseries" then
    let! druidQuery :=
      match sort ext with
      | Some sort =>
          if negb (match refName sort with
                   | Some key => hasKey key split
                   | None => false
                   end)
          then Throw "can not sort within timeseries query"
          else Ok (match direction sort with
                   | descending => set_q_descending (Some true) druidQuery
                   | ascending => druidQuery
                   end)
      | None => Ok druidQuery
      end in
    if truthy (limit ext) then Throw "can not limit within timeseries query"
    else
      match q_context druidQuery with
      | Some queryContext =>
          if hasOwnProp queryContext "skipEmptyBuckets" then Ok druidQuery
          else Ok (set_q_context
                     (Some (assign queryContext "skipEmptyBuckets" (JString "true")))
                     druidQuery)
      | None =>
          Ok (set_q_context (Some [("skipEmptyBuckets", JString "true")]) druidQuery)
      end
  else if String.eqb (queryType druidQuery) "topN" then
    let! topNMetric :=
      match sort ext with
      | Some sort =>
          let! (plain, inverted) :=
            if sortOnLabel ext then
              match firstSplitExpression split with
              | None => TypeError "the split has no key"
              | Some first =>
                  Ok (MetricDimension (if expressionNeedsNumericSort first
                                       then "numeric" else "lexicographic"),
                      Direction_eqb (direction sort) descending)
              end
            else
              match refName sort with
              | Some name => Ok (MetricName name, Direction_eqb (direction sort) ascending)
              | None => TypeError "the metric is null"
              end in
          Ok (if inverted : bool then MetricInverted plain else plain)
      | None => Ok (MetricDimension "lexicographic")
      end in
    Ok (set_threshold
          (Some (match limit ext with
                 | Some limit => limit_value limit
                 | None => 1000%Z
                 end))
          (set_metric (Some topNMetric) druidQuery))
  else if String.eqb (queryType druidQuery) "groupBy" then
    let! druidQuery :=
      match sort ext with
      | Some sort =>
          match refName sort with
          | None => TypeError "the sort column is null"
          | Some col =>
              let! dimensionOrder :=
                if sortOnLabel ext then
                  match lookupSplit col (splits split) with
                  | None => TypeError "the sort column is not a split key"
                  | Some sorted =>
                      Ok (if expressionNeedsNumericSort sorted
                          then Some "numeric" else None)
                  end
                else Ok None in
              Ok (set_limitSpec
                    (Some {| ls_columns := [OrderByFull (makeOutputName col)
                                              (direction sort) dimensionOrder];
                             ls_limit := None |})
                    druidQuery)
          end
      | None => Ok druidQuery
      end in
    let! druidQuery :=
      match limit ext with
      | Some limit =>
          let! spec :=
            match limitSpec druidQuery with
            | Some spec => Ok spec
            | None =>
                match firstSplitName split with
                | Some first =>
                    Ok {| ls_columns := [OrderByName (makeOutputName first)];
                          ls_limit := None |}
                | None => TypeError "the split has no key"
                end
            end in
          Ok (set_limitSpec
                (Some {| ls_columns := ls_columns spec;
                         ls_limit := Some (limit_value limit) |})
                druidQuery)
      | None => Ok druidQuery
      end in
    if negb (equals leftoverHavingFilter Expression_TRUE) then
      let! havingJson := filterToHavingFilter ext leftoverHavingFilter in
      Ok (set_having (Some havingJson) druidQuery)
    else Ok druidQuery
  else Ok druidQuery.

(** The [split] case of [getQueryAndPostTransform], after the nested
    group-by was tried. *)
Definition splitQuery (ext : External) (druidQuery : DruidQuery)
  (requesterContext : RequesterContext)
  : result (QueryAndPostTransform DruidQuery) :=
  let split := getQuerySplit ext in
  let! splitSpec := splitToDruid ext split in
  let druidQuery := set_queryType (ds_queryType splitSpec) druidQuery in
  let druidQuery := set_granularity (Some (ds_granularity splitSpec)) druidQuery in
  let druidQuery :=
    match ds_virtualColumns splitSpec with
    | Some (vc :: more) => set_virtualColumns (Some (vc :: more)) druidQuery
    | _ => druidQuery
    end in
  let druidQuery :=
    match ds_dimension splitSpec with
    | Some d => set_dimension (Some d) druidQuery
    | None => druidQuery
    end in
  let druidQuery :=
    match ds_dimensions splitSpec with
    | Some d => set_dimensions (Some d) druidQuery
    | None => druidQuery
    end in
  let requesterContext := setTimestamp (ds_timestampLabel splitSpec) requesterContext in
  let! aggregationsAndPostAggregations :=
    makeAggregationsAndPostAggregations ext (applies ext) in
  let druidQuery := with_aggregations aggregationsAndPostAggregations druidQuery in
  let! druidQuery := combine ext split (ds_leftoverHavingFilter splitSpec) druidQuery in
  Ok {| query := druidQuery;
        qpt_context := Some requesterContext;
        postTransform := ds_postTransform splitSpec |}.

(** [mode === 'total'], [mode === 'value']. *)
Definition isModeTotal (m : QueryMode) : bool :=
  match m with Total => true | _ => false end.

Definition isModeValue (m : QueryMode) : bool :=
  match m with Value => true | _ => false end.

(** The test that sends [getQueryAndPostTransform] to the
    time-boundary query. *)
Definition wantsTimeBoundary (ext : External) : bool :=
  match querySelection ext with
  | Some group_by_only => false
  | _ =>
      if isModeTotal (mode ext)
         && match applies ext with
            | Some (apply :: more) =>
                forallb (fun a => isMinMaxTimeExpression ext (apply_expression a))
                  (apply :: more)
            | _ => false
            end
      then true
      else isModeValue (mode ext)
           && match valueExpression ext with
              | Some valueExpression => isMinMaxTimeExpression ext valueExpression
              | None => false
              end
  end.

(** [getQueryAndPostTransform]; [nested] stands for
    [nestedGroupByIfNeeded]. *)
Definition planQuery
  (nested : External -> result (option (QueryAndPostTransform DruidQuery)))
  (ext : External) : result (QueryAndPostTransform DruidQuery) :=
  if wantsTimeBoundary ext then getTimeBoundaryQueryAndPostTransform ext
  else
    let druidQuery := newQuery "timeseries" (getDruidDataSource ext) in
    let druidQuery := set_granularity (Some (GranularityName "all")) druidQuery in
    let requesterContext :=
      {| timestamp := None; ignorePrefix := Some "!"; dummyPrefix := Some "***" |} in
    let druidQuery := with_context (context ext) druidQuery in
    let! filterAndIntervals := filterToDruid ext (getQueryFilter ext) in
    let druidQuery := set_intervals (Some (fi_intervals filterAndIntervals)) druidQuery in
    let druidQuery :=
      match fi_filter filterAndIntervals with
      | Some f => set_q_filter (Some f) druidQuery
      | None => druidQuery
      end in
    match mode ext with
    | Raw => rawQuery ext druidQuery requesterContext
    | Value =>
        let! nestedGroupByValue := nested ext in
        match nestedGroupByValue with
        | Some plan => Ok plan
        | None =>
            let! aggregationsAndPostAggregations :=
              makeAggregationsAndPostAggregations ext (Some [toValueApply ext]) in
            let druidQuery := with_aggregations aggregationsAndPostAggregations druidQuery in
            Ok {| query := zeroDimensionGroupBy ext druidQuery;
                  qpt_context := Some requesterContext;
                  postTransform := valuePostTransformFactory |}
        end
    | Total =>
        let! nestedGroupByTotal := nested ext in
        match nestedGroupByTotal with
        | Some plan => Ok plan
        | None =>
            let! aggregationsAndPostAggregations :=
              makeAggregationsAndPostAggregations ext (applies ext) in
            let druidQuery := with_aggregations aggregationsAndPostAggregations druidQuery in
            Ok {| query := zeroDimensionGroupBy ext druidQuery;
                  qpt_context := Some requesterContext;
                  postTransform :=
                    postTransformFactory [] (getSelectedAttributes ext) (Some [])
                      (applies ext) |}
        end
    | Split =>
        let! nestedGroupBy := nested ext in
        match nestedGroupBy with
        | Some plan => Ok plan
        | None => splitQuery ext druidQuery requesterContext
        end
    end.

(** The two methods call each other; [fuel] bounds the depth of
    planners made by planners. *)
Fixpoint getQueryAndPostTransform (fuel : nat) (ext : External)
  : result (QueryAndPostTransform DruidQuery) :=
  match fuel with
  | O => Throw "out of fuel"
  | S fuel' => planQuery (nestedGroupByIfNeeded (getQueryAndPostTransform fuel')) ext
  end.

(** *** Introspection *)

(** The parts of a [segmentMetadata] response the post-processing
    reads: an aggregator and a column. *)
Record Aggregation : Type := {
  agg_type : string;
  fieldName : option string;
  fieldNames : option (list string);
  fnAggregate : option string;
  fnCombine : option string
}.

Record ColumnMetadata : Type := {
  cm_type : string;
  hasMultipleValues : bool;
  size : Z;
  cm_cardinality : option Z;
  minValue : option Atom;
  maxValue : option Atom;
  errorMessage : option string
}.

(** A row of a response: of [segmentMetadata] ([columns],
    [aggregators]) or of [timeBoundary] ([minTime], [maxTime]). *)
Record Row : Type := {
  row_columns : option (Lookup ColumnMetadata);
  row_aggregators : option (Lookup Aggregation);
  minTime : option string;
  maxTime : option string
}.

(** The truthiness of a string that may be [undefined]: set and not
    empty. *)
Definition truthyString (s : option string) : bool :=
  match s with
  | Some text => nonEmpty text
  | None => false
  end.

Definition generateMaker (aggregation : option Aggregation) : result (option Expression) :=
  match aggregation with
  | None => Ok None
  | Some aggregation =>
      let type := agg_type aggregation in
      if String.eqb type "longSum"
         && option_eqb String.eqb (fieldName aggregation) (Some "count")
      then Ok (Some (count_ Expression_))
      else
        let name :=
          if truthyString (fieldName aggregation) then fieldName aggregation
          else
            match fieldNames aggregation with
            | Some [only] => Some only
            | _ => None
            end in
        match name with
        | None => Ok None
        | Some name =>
            if String.eqb name "" then TypeError "must have a nonempty `name`"
            else
            let expression := ref name in
            if String.eqb type "count" then Ok (Some (count_ Expression_))
            else if String.eqb type "doubleSum" || String.eqb type "longSum"
            then Ok (Some (sum_ Expression_ expression))
            else if String.eqb type "javascript" then
              if negb (option_eqb String.eqb (fnAggregate aggregation)
                         (fnCombine aggregation))
              then Ok None
              else
                match fnCombine aggregation with
                | None => TypeError "indexOf of undefined"
                | Some combine =>
                    match index 0 "+" combine with
                    | None => Ok None
                    | Some _ => Ok (Some (sum_ Expression_ expression))
                    end
                end
            else if String.eqb type "doubleMin" || String.eqb type "longMin"
            then Ok (Some (min_ Expression_ expression))
            else if String.eqb type "doubleMax" || String.eqb type "longMax"
            then Ok (Some (max_ Expression_ expression))
            else Ok None
        end
  end.

Definition columnMetadataToRange (columnMetadata : ColumnMetadata) : option PlywoodRange :=
  match minValue columnMetadata, maxValue columnMetadata with
  | Some low, Some high =>
      Some {| range_start := low; range_end := high; bounds := "[]" |}
  | _, _ => None
  end.

(** The native types of the opaque metrics, and the numeric native
    types. *)
Definition opaqueMetricType (type : string) : bool :=
  String.eqb type "hyperUnique" || String.eqb type "approximateHistogram"
  || String.eqb type "thetaSketch" || String.eqb type "HLLSketch"
  || String.eqb type "quantilesDoublesSketch".

Definition numericType (type : string) : bool :=
  String.eqb type "DOUBLE" || String.eqb type "FLOAT" || String.eqb type "LONG".

(** The loop over the columns: the attributes so far and [foundTime]
    are passed along. *)
Fixpoint eachColumn (timeAttribute : string) (aggregators : Lookup Aggregation)
  (columns : Lookup ColumnMetadata) (attributes : Attributes) (foundTime : bool)
  : result (Attributes * bool) :=
  match columns with
  | [] => Ok (attributes, foundTime)
  | (name, columnData) :: more =>
      if truthyString (errorMessage columnData) || Z.ltb (size columnData) 0
      then eachColumn timeAttribute aggregators more attributes foundTime
      else if String.eqb name TIME_ATTRIBUTE then
        eachColumn timeAttribute aggregators more
          ({| attr_name := timeAttribute; attr_type := Some TIME;
              nativeType := Some "__time"; unsplitable := false; maker := None;
              cardinality := cm_cardinality columnData;
              range := columnMetadataToRange columnData |} :: attributes)
          true
      else if String.eqb name timeAttribute
      then eachColumn timeAttribute aggregators more attributes foundTime
      else
        let native := cm_type columnData in
        let! attribute :=
          if numericType native then
            let! made := generateMaker (lookup aggregators name) in
            Ok {| attr_name := name; attr_type := Some NUMBER;
                  nativeType := Some native;
                  unsplitable := hasOwnProp aggregators name;
                  maker := made;
                  cardinality := cm_cardinality columnData;
                  range := columnMetadataToRange columnData |}
          else if String.eqb native "STRING" then
            Ok {| attr_name := name;
                  attr_type := Some (if hasMultipleValues columnData
                                     then SET_STRING else STRING);
                  nativeType := Some native; unsplitable := false; maker := None;
                  cardinality := cm_cardinality columnData;
                  range := columnMetadataToRange columnData |}
          else
            Ok {| attr_name := name; attr_type := Some NULL;
                  nativeType := Some native;
                  unsplitable := opaqueMetricType native;
                  maker := None; cardinality := None; range := None |} in
        eachColumn timeAttribute aggregators more (attributes ++ [attribute])%list
          foundTime
  end.

Definition segmentMetadataPostProcess (timeAttribute : string) (res : list Row)
  : result Attributes :=
  match res with
  | {| row_columns := Some columns; row_aggregators := aggregators |} :: _ =>
      let aggregators :=
        match aggregators with
        | Some a => a
        | None => []
        end in
      let! (attributes, foundTime) :=
        eachColumn timeAttribute aggregators columns [] false in
      if negb foundTime
      then Throw ("no valid " ++ TIME_ATTRIBUTE ++ " in segmentMetadata response")
      else Ok attributes
  | _ => Throw "malformed segmentMetadata response"
  end.

(** What an asynchronous call leaves behind: the queries handed to the
    requester, in order, and how the promise settled. *)
Record Settled (A : Type) : Type := {
  issued : list DruidQuery;
  outcome : result A
}.

(** [depth === 'shallow'], [depth === 'deep']. *)
Definition isShallow (depth : IntrospectionDepth) : bool :=
  match depth with shallow => true | _ => false end.

Definition isDeep (depth : IntrospectionDepth) : bool :=
  match depth with deep => true | _ => false end.

(** The follow-up query and the [segmentMetadata] query, as the method
    builds them. *)
Definition timeBoundaryQuery (dataSource : DataSource) (context : option (Lookup Json))
  : DruidQuery :=
  with_context context (newQuery "timeBoundary" dataSource).

Definition segmentMetadataQuery (dataSource : DataSource)
  (context : option (Lookup Json)) (depth : IntrospectionDepth) : DruidQuery :=
  let analysisTypes :=
    if isDeep depth then ["aggregators"; "cardinality"; "minmax"]
    else ["aggregators"] in
  with_context context
    (set_lenientAggregatorMerge (Some true)
       (set_analysisTypes (Some analysisTypes)
          (set_merge (Some true) (newQuery "segmentMetadata" dataSource)))).

(** The body of the [try] block, after the follow-up query was
    issued. *)
Definition withTimeBoundary (requester : DruidQuery -> result (list Row))
  (query : DruidQuery) (attributes : Attributes) : result Attributes :=
  let! resTB := requester query in
  match resTB, attributes with
  | resTB0 :: _, first :: others =>
      let! timeRange := TimeRange_fromJS (minTime resTB0) (maxTime resTB0) "[]" in
      Ok (changeRange timeRange first :: others)
  | _, _ => TypeError "minTime of undefined"
  end.

(** The test before the [try] block: the depth is not [shallow] and
    the first attribute is the time column without a range. *)
Definition needsTimeBoundary (depth : IntrospectionDepth) (attributes : Attributes) : bool :=
  negb (isShallow depth)
  && match attributes with
     | first :: _ =>
         option_eqb String.eqb (nativeType first) (Some "__time")
         && negb (truthy (range first))
     | [] => false
     end.

Definition introspectAttributesWithSegmentMetadata (dataSource : DataSource)
  (requester : DruidQuery -> result (list Row)) (timeAttribute : string)
  (context : option (Lookup Json)) (depth : IntrospectionDepth) : Settled Attributes :=
  let query := segmentMetadataQuery dataSource context depth in
  match requester query with
  | Throw e => {| issued := [query]; outcome := Throw e |}
  | Ok res =>
      match segmentMetadataPostProcess timeAttribute res with
      | Throw e => {| issued := [query]; outcome := Throw e |}
      | Ok attributes =>
          if needsTimeBoundary depth attributes then
            let followUp := timeBoundaryQuery dataSource context in
            {| issued := [query; followUp];
               outcome :=
                 match withTimeBoundary requester followUp attributes with
                 | Ok ranged => Ok ranged
                 | Throw _ => Ok attributes
                 end |}
          else {| issued := [query]; outcome := Ok attributes |}
      end
  end.
End Planner.
End DruidExternal.

(* ====================================================================== *)
(** ** The SQL external *)
(* ====================================================================== *)

(** The dialect and the SQL printers of the expression classes. *)
Class SQLDialect : Type := {
  escapeName : string -> string;
  emptyGroupBy : string;
  getSQL : Expression -> string;
  apply_getSQL : ApplyExpression -> string;
  sort_getSQL : SortExpression -> string;
  limit_getSQL : LimitExpression -> string;
  getSelectSQL : SplitExpression -> list string;
  getShortGroupBySQL : SplitExpression -> list string;
  getGroupBySQL : SplitExpression -> list string;
  (** [super.capability(cap)] *)
  baseCapability : string -> bool
}.

(** The line feed. *)
Definition newline : string := String (ascii_of_nat 10) "".

(** [strings.join(separator)]. *)
Definition join (separator : string) (strings : list string) : string :=
  String.concat separator strings.

Module SQLExternal.
Section Planner.
Context `{Collaborators} `{SQLDialect}.

Definition getSplitInflaters (split : SplitExpression) : list (option Inflater) :=
  flat_map (fun kv =>
              match getIntelligentInflater (snd kv) (fst kv) with
              | Some simpleInflater => [Some simpleInflater]
              | None => []
              end) (splits split).

Definition canHandleFilter (ext : External) (f : Expression) : bool := true.

Definition canHandleSort (ext : External) (s : SortExpression) : bool := true.

Definition capability (cap : string) : bool :=
  if String.eqb cap "filter-on-attribute" || String.eqb cap "shortcut-group-by"
  then true
  else baseCapability cap.

Definition sqlToQuery (sql : string) : string := sql.

Definition getFrom (ext : External) : result string :=
  if DruidExternal.truthyString (withQuery ext) then Ok "FROM __with__ AS t"
  else
    match source ext with
    | SourceName name => Ok ("FROM " ++ escapeName name ++ " AS t")
    | SourceList _ => TypeError "the source is not a string"
    end.

(** [inflaters.filter(Boolean)]. *)
Definition someInflaters (l : list (option Inflater)) : list (option Inflater) :=
  List.filter DruidExternal.truthy l.

(** [if (sort) query.push(sort.getSQL(dialect)); if (limit)
    query.push(limit.getSQL(dialect))]. *)
Definition sortAndLimit (ext : External) : list string :=
  (match sort ext with
   | Some sort => [sort_getSQL sort]
   | None => []
   end
   ++ match limit ext with
      | Some limit => [limit_getSQL limit]
      | None => []
      end)%list.

Definition getQueryAndPostTransform (ext : External)
  : result (QueryAndPostTransform string) :=
  let clauses :=
    match withQuery ext with
    | Some text =>
        if DruidExternal.nonEmpty text then ["WITH __with__ AS (" ++ text ++ ")"]
        else []
    | None => []
    end in
  let clauses := (clauses ++ ["SELECT"])%list in
  let! from := getFrom ext in
  let queryFilter := getQueryFilter ext in
  let from :=
    if negb (equals queryFilter Expression_TRUE)
    then from ++ newline ++ "WHERE " ++ getSQL queryFilter
    else from in
  let selectedAttributes := getSelectedAttributes ext in
  let finish (clauses : list string) (given : option Transform)
    (inflaters : list (option Inflater)) (selectedAttributes : Attributes)
    (keys : option (list string)) (zeroTotalApplies : option (list ApplyExpression)) :=
    {| query := sqlToQuery (join newline clauses);
       qpt_context := None;
       postTransform :=
         match given with
         | Some transform => transform
         | None => postTransformFactory inflaters selectedAttributes keys
                     zeroTotalApplies
         end |} in
  match mode ext with
  | Raw =>
      let selectedAttributes := map dropOriginInfo selectedAttributes in
      let inflaters :=
        someInflaters
          (map (fun attribute =>
                  let name := attr_name attribute in
                  match attr_type attribute with
                  | Some BOOLEAN => Some (booleanInflaterFactory name)
                  | Some TIME => Some (timeInflaterFactory name)
                  | Some SET_STRING => Some (setStringInflaterFactory name)
                  | _ => None
                  end) selectedAttributes) in
      let selectList :=
        join ", "
          (map (fun a =>
                  let name := attr_name a in
                  match lookup (derivedAttributes ext) name with
                  | Some derived => apply_getSQL (apply_ Expression_ name derived)
                  | None => escapeName name
                  end) selectedAttributes) in
      let clauses := (clauses ++ [selectList; from] ++ sortAndLimit ext)%list in
      Ok (finish clauses None inflaters selectedAttributes None None)
  | Value =>
      let clauses :=
        (clauses ++ [apply_getSQL (toValueApply ext); from; emptyGroupBy])%list in
      Ok (finish clauses (Some valuePostTransformFactory) [] selectedAttributes None None)
  | Total =>
      match applies ext with
      | None => TypeError "applies is undefined"
      | Some applies =>
          let inflaters :=
            someInflaters
              (map (fun apply =>
                      getSimpleInflater (typeOf (apply_expression apply))
                        (apply_name apply)) applies) in
          let clauses :=
            (clauses ++ [join ("," ++ newline) (map apply_getSQL applies); from;
                       emptyGroupBy])%list in
          Ok (finish clauses None inflaters selectedAttributes (Some []) (Some applies))
      end
  | Split =>
      let split := getQuerySplit ext in
      let keys := mapSplits (fun name _ => name) split in
      match applies ext with
      | None => TypeError "applies is undefined"
      | Some applies =>
          let clauses :=
            (clauses
             ++ [join ("," ++ newline)
                   (getSelectSQL split ++ map apply_getSQL applies);
                 from;
                 ("GROUP BY "
                  ++ join ","
                       (if capability "shortcut-group-by"
                        then getShortGroupBySQL split
                        else getGroupBySQL split))%string])%list in
          let clauses :=
            if negb (equals (havingFilter ext) Expression_TRUE)
            then (clauses ++ [("HAVING " ++ getSQL (havingFilter ext))%string])%list
            else clauses in
          let clauses := (clauses ++ sortAndLimit ext)%list in
          Ok (finish clauses None (getSplitInflaters split) selectedAttributes
                (Some keys) None)
      end
  end.
End Planner.
End SQLExternal.

(* ====================================================================== *)
(** ** A reference instantiation *)
(* ====================================================================== *)

(** Simple stand-ins for the collaborators, for running the planner on
    concrete inputs. *)
Module Examples.

Definition inflaterByType (type : option PlyType) (label : string) : option Inflater :=
  match type with
  | Some TIME => Some (timeInflaterFactory label)
  | Some BOOLEAN => Some (booleanInflaterFactory label)
  | Some NUMBER => Some (numberInflaterFactory label)
  | Some SET_STRING => Some (setStringInflaterFactory label)
  | _ => None
  end.

(** A printer of expressions, the inflater for a type. *)
Definition print (ex : Expression) : string :=
  match ex with
  | ERef _ name _ _ _ => "$" ++ name
  | other => "<" ++ opOf other ++ ">"
  end.

#[export] Instance collaborators : Collaborators := {|
  toString := print;
  simplify := fun ex => ex;
  maxPossibleSplitValues := fun ex => if hasType ex BOOLEAN then Some 3%N else None;
  getIntelligentInflater := fun ex label =>
    match ex with
    | EChainable _ (TimeBucket _ _) _ _ => Some (otherInflater "timeRange" label)
    | EChainable _ (NumberBucket _ _) _ _ => Some (otherInflater "numberRange" label)
    | _ => inflaterByType (typeOf ex) label
    end;
  getSimpleInflater := inflaterByType;
  dropOriginInfo := fun a => a;
  TimeRange_fromJS := fun low high b =>
    match low, high with
    | Some l, Some h =>
        Ok {| range_start := AString l; range_end := AString h; bounds := b |}
    | _, _ => Throw "invalid time range"
    end;
  getQueryFilter := filter;
  getQuerySplit := fun ext =>
    match split ext with
    | Some s => s
    | None => split_ Expression_ []
    end;
  getSelectedAttributes := rawAttributes;
  sortOnLabel := fun ext =>
    match sort ext, split ext with
    | Some s, Some sp =>
        match refName s with
        | Some key => hasKey key sp
        | None => false
        end
    | _, _ => false
    end;
  toValueApply := fun ext =>
    apply_ Expression_ "__VALUE__"
      (match valueExpression ext with
       | Some v => v
       | None => Expression_
       end);
  expressionToExtractionFn := fun _ ex =>
    match ex with
    | ERef _ _ _ _ _ => Ok None
    | EChainable _ (TimeBucket d z) _ _ => Ok (Some (JString ("timeFormat " ++ d ++ " " ++ z)))
    | _ => Throw "unsupported extraction"
    end;
  expressionToDruidExpression := fun _ ex => Ok (Some (print ex));
  expressionTypeToOutputType := fun t =>
    match t with
    | Some NUMBER => "DOUBLE"
    | _ => "STRING"
    end;
  filterToDruid := fun _ _ =>
    Ok {| fi_filter := None; fi_intervals := JString "1000/3000" |};
  makeAggregationsAndPostAggregations := fun _ applies =>
    Ok {| ap_aggregations :=
            match applies with
            | Some l => map (fun a => JString (apply_name a)) l
            | None => []
            end;
          ap_postAggregations := [] |};
  filterToHavingFilter := fun _ ex => Ok (JString (print ex))
|}.

#[export] Instance dialect : SQLDialect := {|
  escapeName := fun name => "`" ++ name ++ "`";
  emptyGroupBy := "GROUP BY ''";
  getSQL := print;
  apply_getSQL := fun a => print (apply_expression a) ++ " AS " ++ apply_name a;
  sort_getSQL := fun s => "ORDER BY " ++ print (sort_expression s);
  limit_getSQL := fun l => "LIMIT n";
  getSelectSQL := fun s => map (fun kv => print (snd kv) ++ " AS " ++ fst kv) (splits s);
  getShortGroupBySQL := fun s => map (fun kv => fst kv) (splits s);
  getGroupBySQL := fun s => map (fun kv => print (snd kv)) (splits s);
  baseCapability := fun _ => false
|}.

(** A blank planner over the data source [wiki]. *)
Definition external (m : QueryMode) : External :=
  {| mode := m; source := SourceName "wiki"; filter := Expression_TRUE;
     split := None; applies := None; valueExpression := None; sort := None;
     limit := None; havingFilter := Expression_TRUE; derivedAttributes := [];
     rawAttributes := []; select := None; context := None;
     timeAttribute := "__time"; customAggregations := [];
     customTransforms := []; allowEternity := false;
     allowSelectQueries := false; exactResultsOnly := false;
     querySelection := None; withQuery := None |}.

(** A sort on the reference of that name, and a limit. *)
Definition sortOn (name : string) (d : Direction) : SortExpression :=
  {| sort_operand := Expression_; sort_expression := ref name; direction := d |}.

Definition limitTo (n : Z) : LimitExpression :=
  {| limit_operand := Expression_; limit_value := n |}.

(** A split-mode planner over SQL: by [$page], one apply, a having
    filter, a sort and a limit, reading from a [WITH] query. *)
Definition sqlSplit : External :=
  {| mode := Split; source := SourceName "wiki";
     filter := EChainableUnary [] Is (Some BOOLEAN) (ref "lang") (r (VAtom (AString "en")));
     split := Some (split_ Expression_ [("Page", ref "page")]);
     applies := Some [apply_ Expression_ "Count" (count_ (ref "main"))];
     valueExpression := None;
     sort := Some (sortOn "Count" descending);
     limit := Some (limitTo 5);
     havingFilter := greaterThan_ (ref "Count") (r (VAtom (ANumber 10)));
     derivedAttributes := []; rawAttributes := []; select := None; context := None;
     timeAttribute := "__time"; customAggregations := []; customTransforms := [];
     allowEternity := false; allowSelectQueries := false; exactResultsOnly := false;
     querySelection := None; withQuery := Some "SELECT * FROM wikipedia" |}.

(** [max($__time)] and [min($__time)] over the main dataset. *)
Definition maxTimeApply : ApplyExpression :=
  apply_ Expression_ "max" (max_ (ref "main") (ERef [] "__time" 0 (Some TIME) false)).

Definition minTimeApply : ApplyExpression :=
  apply_ Expression_ "min" (min_ (ref "main") (ERef [] "__time" 0 (Some TIME) false)).

(** Scenario 1 of the specification: total mode, the single apply
    [max: max($time)]. *)
Definition totalMaxTime : External :=
  {| mode := Total; source := SourceName "wiki"; filter := Expression_TRUE;
     split := None; applies := Some [maxTimeApply]; valueExpression := None;
     sort := None; limit := None; havingFilter := Expression_TRUE;
     derivedAttributes := []; rawAttributes := []; select := None; context := None;
     timeAttribute := "__time"; customAggregations := []; customTransforms := [];
     allowEternity := false; allowSelectQueries := false; exactResultsOnly := false;
     querySelection := None; withQuery := None |}.

(** A requester that answers [segmentMetadata] with the time column
    (without [minValue] and [maxValue]) and one string column, and fails
    on any other query. *)
Definition timeColumn : DruidExternal.ColumnMetadata :=
  {| DruidExternal.cm_type := "LONG"; DruidExternal.hasMultipleValues := false;
     DruidExternal.size := 100; DruidExternal.cm_cardinality := None;
     DruidExternal.minValue := None; DruidExternal.maxValue := None;
     DruidExternal.errorMessage := None |}.

Definition pageColumn : DruidExternal.ColumnMetadata :=
  {| DruidExternal.cm_type := "STRING"; DruidExternal.hasMultipleValues := false;
     DruidExternal.size := 100; DruidExternal.cm_cardinality := None;
     DruidExternal.minValue := None; DruidExternal.maxValue := None;
     DruidExternal.errorMessage := None |}.

Definition metadataOnly (q : DruidQuery) : result (list DruidExternal.Row) :=
  if String.eqb (queryType q) "segmentMetadata" then
    Ok [{| DruidExternal.row_columns := Some [("__time", timeColumn); ("page", pageColumn)];
           DruidExternal.row_aggregators := None;
           DruidExternal.minTime := None; DruidExternal.maxTime := None |}]
  else Throw "the server refused the query".

(** A rolled-up metric, a string column and a multi-value column. *)
Definition revenue_hll : AttributeInfo :=
  {| attr_name := "revenue_hll"; attr_type := Some NULL;
     nativeType := Some "hyperUnique"; unsplitable := true; maker := None;
     cardinality := None; range := None |}.

Definition page : AttributeInfo :=
  {| attr_name := "page"; attr_type := Some STRING; nativeType := Some "STRING";
     unsplitable := false; maker := None; cardinality := None; range := None |}.

Definition tags : AttributeInfo :=
  {| attr_name := "tags"; attr_type := Some SET_STRING; nativeType := Some "STRING";
     unsplitable := false; maker := None; cardinality := None; range := None |}.

Definition splitPlanner : External :=
  {| mode := Split; source := SourceName "wiki"; filter := Expression_TRUE;
     split := None; applies := Some []; valueExpression := None;
     sort := None; limit := None; havingFilter := Expression_TRUE;
     derivedAttributes := []; rawAttributes := [revenue_hll; page; tags];
     select := None; context := None;
     timeAttribute := "__time"; customAggregations := []; customTransforms := [];
     allowEternity := false; allowSelectQueries := false; exactResultsOnly := false;
     querySelection := None; withQuery := None |}.

(** [$page.concat($revenue_hll)]: a split key over two columns, one of
    them the rolled-up metric. *)
Definition pageAndMetric : Expression :=
  EChainableUnary [] (OtherChainableUnary "concat") (Some STRING)
    (ref "page") (ref "revenue_hll").

(** The multi-value column as a split key, and conjuncts on its label. *)
Definition tagsRef : Expression := ERef [] "tags" 0 (Some SET_STRING) false.

Definition tagsIsAB : Expression :=
  EChainableUnary [] Is (Some BOOLEAN) tagsRef
    (r (VSet SET_STRING [AString "a"; AString "b"])).

Definition tagsMatch : Expression :=
  EChainable [] (Match "^a") (Some BOOLEAN) tagsRef.

Definition countAboveTen : Expression :=
  greaterThan_ (ERef [] "count" 0 (Some NUMBER) false) (r (VAtom (ANumber 10))).

(** Scenario 3 of the specification: split by [$page], sorted by the
    aggregate [revenue], descending, limit 50. *)
Definition byPage : SplitExpression := split_ Expression_ [("page", ref "page")].

Definition topPages : External :=
  {| mode := Split; source := SourceName "wiki"; filter := Expression_TRUE;
     split := Some byPage;
     applies := Some [apply_ Expression_ "revenue" (sum_ (ref "main") (ref "added"))];
     valueExpression := None;
     sort := Some (sortOn "revenue" descending); limit := Some (limitTo 50);
     havingFilter := Expression_TRUE;
     derivedAttributes := []; rawAttributes := [revenue_hll; page; tags];
     select := None; context := None;
     timeAttribute := "__time"; customAggregations := []; customTransforms := [];
     allowEternity := false; allowSelectQueries := false; exactResultsOnly := false;
     querySelection := None; withQuery := None |}.

(** The same query with the rolled-up metric as the split key. *)
Definition byMetric : SplitExpression := split_ Expression_ [("Metric", ref "revenue_hll")].

Definition topMetrics : External :=
  {| mode := Split; source := SourceName "wiki"; filter := Expression_TRUE;
     split := Some byMetric;
     applies := Some [apply_ Expression_ "revenue" (sum_ (ref "main") (ref "added"))];
     valueExpression := None;
     sort := Some (sortOn "revenue" descending); limit := Some (limitTo 50);
     havingFilter := Expression_TRUE;
     derivedAttributes := []; rawAttributes := [revenue_hll; page; tags];
     select := None; context := None;
     timeAttribute := "__time"; customAggregations := []; customTransforms := [];
     allowEternity := false; allowSelectQueries := false; exactResultsOnly := false;
     querySelection := None; withQuery := None |}.

(** [$main.split($key, key).apply('x', $main.count()).max($x)]: a
    re-split aggregate over the split by [key]. *)
Definition resplitMax (key : string) : Expression :=
  max_ (ofApply (apply_ (ofSplit (split_ (ref "main") [(key, ref key)])) "x"
                   (count_ (ref "main"))))
    (ERef [] "x" 0 (Some NUMBER) false).

Definition customAggregate : Expression :=
  EChainable [] (CustomAggregate "myAggregate") (Some NUMBER) (ref "main").

Definition totalOf (a : list ApplyExpression) : External :=
  {| mode := Total; source := SourceName "wiki"; filter := Expression_TRUE;
     split := None; applies := Some a; valueExpression := None;
     sort := None; limit := None; havingFilter := Expression_TRUE;
     derivedAttributes := []; rawAttributes := [revenue_hll; page; tags];
     select := None; context := None;
     timeAttribute := "__time"; customAggregations := []; customTransforms := [];
     allowEternity := false; allowSelectQueries := false; exactResultsOnly := false;
     querySelection := None; withQuery := None |}.

(** Two re-split aggregates over different splits, alone and after a
    custom aggregate; and one re-split aggregate. *)
Definition byPageAndByUser : list ApplyExpression :=
  [apply_ Expression_ "a" (resplitMax "page"); apply_ Expression_ "b" (resplitMax "user")].

Definition customFirst : list ApplyExpression :=
  apply_ Expression_ "c" customAggregate :: byPageAndByUser.

Definition maxPerPage : list ApplyExpression :=
  [apply_ Expression_ "a" (resplitMax "page")].

(** A re-split aggregate whose inner apply holds another re-split
    aggregate, over another split. *)
Definition resplitInResplit : Expression :=
  max_ (ofApply (apply_ (ofSplit (split_ (ref "main") [("page", ref "page")])) "x"
                   (resplitMax "user")))
    (ERef [] "x" 0 (Some NUMBER) false).
End Examples.

(* ====================================================================== *)
(** ** Vocabulary of the properties *)
(* ====================================================================== *)

Import DruidExternal.

Section Vocabulary.
Context `{Collaborators} `{SQLDialect}.

(** The clauses of a split query, each as the planner words it. *)
Definition withClause (ext : External) : list string :=
  match withQuery ext with
  | Some text => if String.eqb text "" then [] else ["WITH __with__ AS (" ++ text ++ ")"]
  | None => []
  end.

(** The select list, the [FROM] clause with its [WHERE], and the
    [GROUP BY], [HAVING], [ORDER BY] and [LIMIT] clauses. *)
Definition selectList (ext : External) (a : list ApplyExpression) : string :=
  join ("," ++ newline) (getSelectSQL (getQuerySplit ext) ++ map apply_getSQL a).

Definition fromClause (ext : External) (name : string) : string :=
  (if DruidExternal.truthyString (withQuery ext) then "FROM __with__ AS t"
   else "FROM " ++ escapeName name ++ " AS t")
  ++ (if equals (getQueryFilter ext) Expression_TRUE then ""
      else newline ++ "WHERE " ++ getSQL (getQueryFilter ext)).

Definition groupByClause (ext : External) : string :=
  "GROUP BY " ++ join "," (getShortGroupBySQL (getQuerySplit ext)).

Definition havingClause (ext : External) : list string :=
  if equals (havingFilter ext) Expression_TRUE then []
  else ["HAVING " ++ getSQL (havingFilter ext)].

Definition sortClause (ext : External) : list string :=
  match sort ext with
  | Some s => [sort_getSQL s]
  | None => []
  end.

Definition limitClause (ext : External) : list string :=
  match limit ext with
  | Some l => [limit_getSQL l]
  | None => []
  end.

(** The output name of a dimension spec in its full form. *)
Definition outputNameOf (d : DimensionSpec) : option string :=
  match d with
  | DimensionSpecFull _ _ outputName _ _ => Some outputName
  | _ => None
  end.

(** The first attribute is the time attribute. *)
Definition timeFirst (attributes : Attributes) : Prop :=
  exists first others,
    attributes = first :: others /\ nativeType first = Some "__time".

(** The follow-up query was handed to the requester. *)
Definition followUpIssued (s : Settled Attributes) : bool :=
  existsb (fun q => String.eqb (queryType q) "timeBoundary") (issued s).

(** The expression holds a [then]. *)
Definition hasThen (expression : Expression) : bool :=
  some (fun ex => if isOp ex "then" then Some true else None) expression.

(** The conjuncts of a having filter that constrain the label, and the
    filter made of the others. *)
Definition constraining (label : string) (having : Expression) : list Expression :=
  List.filter (constrainsLabel label) (getExpressionList having).

(** The having filter made of the conjuncts that do not constrain the
    label. *)
Definition residue (label : string) (having : Expression) : Expression :=
  Expression_and
    (List.filter (fun c => negb (constrainsLabel label c)) (getExpressionList having)).

(** A conjunct that is an [in] comparison of the label. *)
Definition labelIn (label : string) (hf : Expression) : bool :=
  match hf with
  | EChainableUnary _ In _ (ERef _ name _ _ _) _ => String.eqb name label
  | _ => false
  end.

(** The values of a [listFiltered] dimension made from an [is]. *)
Definition listValues (literal : Expression) : list Atom :=
  match getLiteralValue literal with
  | Some (VSet _ elements) => elements
  | Some (VAtom a) => [a]
  | None => [ANull]
  end.

(** What the push-down makes of the lowered dimension [d]. *)
Definition pushedDown (d : DimensionInflater) (label : string) (having : Expression)
  : DimensionInflaterHaving :=
  match constraining label having with
  | [EChainable _ (Match regexp) _ _] =>
      {| dih_virtualColumn := None;
         dih_dimension := regexFiltered (di_dimension d) regexp;
         dih_inflater := di_inflater d;
         dih_having := residue label having |}
  | [EChainableUnary _ Is _ _ literal] =>
      {| dih_virtualColumn := None;
         dih_dimension := listFiltered (di_dimension d) (Some (listValues literal));
         dih_inflater := di_inflater d;
         dih_having := residue label having |}
  | _ => withHaving d having
  end.

(** The test for a time series: no limit, a sort compatible with the
    timestamp label, a having filter that is [TRUE], and a granularity
    for the split expression. *)
Definition canBeTimeseries (ext : External) (label : string)
  (splitExpression : Expression) : bool :=
  negb (truthy (limit ext))
  && isTimestampCompatibleSort (sort ext) label
  && equals (havingFilter ext) Expression_TRUE
  && truthy (splitExpressionToGranularityInflater ext splitExpression label).

(** [topNCompatibleSort] as a test (it throws only for a planner
    without applies). *)
Definition topNCompatible (ext : External) : bool :=
  match topNCompatibleSort ext with
  | Ok compatible => compatible
  | Throw _ => false
  end.

(** The test for a topN, on the having filter left over by the
    push-down: it is [TRUE], there is a limit or fewer than 1000
    buckets, approximate results are allowed, the sort is compatible
    with a topN, and any query may be selected. *)
Definition canBeTopN (ext : External) (split : SplitExpression)
  (leftoverHavingFilter : Expression) : bool :=
  equals leftoverHavingFilter Expression_TRUE
  && (truthy (limit ext) || belowThousand (maxBucketNumber split))
  && negb (exactResultsOnly ext)
  && topNCompatible ext
  && negb (isGroupByOnly (getQuerySelection ext)).

(** The aggregates of an expression that are not inside another
    aggregate, in pre-order: the nodes at which the substitution walk
    of [nestedGroupByIfNeeded] stops. *)
Fixpoint outermostAggregates (ex : Expression) : list Expression :=
  if isAggregate ex then [ex]
  else
    match ex with
    | ELiteral _ _ | ERef _ _ _ _ _ => []
    | EChainable _ _ _ operand => outermostAggregates operand
    | EChainableUnary _ _ _ operand expression =>
        outermostAggregates operand ++ outermostAggregates expression
    | ESplit _ operand splits _ =>
        outermostAggregates operand
        ++ flat_map (fun kv => outermostAggregates (snd kv)) splits
    end.

(** The captured variables after the substitution callback has run on
    one aggregate, and after it has run on a list of them in order. *)
Definition visit (i : nat) (aggregate : Expression) (s : Captured) : result Captured :=
  match splitUpAggregate i aggregate s with
  | Ok (_, s') => Ok s'
  | Throw message => Throw message
  end.

Fixpoint visitAll (i : nat) (aggregates : list Expression) (s : Captured)
  : result Captured :=
  match aggregates with
  | [] => Ok s
  | aggregate :: more =>
      match visit i aggregate s with
      | Ok s' => visitAll i more s'
      | Throw message => Throw message
      end
  end.

(** The captured variables a run ends with. *)
Definition stateOf {A} (r : result (A * Captured)) : result Captured :=
  match r with
  | Ok (_, s) => Ok s
  | Throw message => Throw message
  end.

(** The loop of [substituteM] over the split expressions. *)
Definition eachSplitM {S} (fn : Expression -> M S (option Expression))
  : Splits -> M S Splits :=
  fix each (l : Splits) : M S Splits :=
    match l with
    | [] => ret []
    | kv :: more =>
        bind (substituteM fn (snd kv))
          (fun e' => bind (each more) (fun more' => ret ((fst kv, e') :: more')))
    end.

(** [let c = 0], at the start of each apply. *)
Definition resetC (s : Captured) : Captured :=
  {| globalResplitSplit := globalResplitSplit s; outerAttributes := outerAttributes s;
     innerApplies := innerApplies s; c := 0 |}.

(** The captured variables after the walk over the applies from index
    [i] on. *)
Fixpoint walk (i : nat) (l : list ApplyExpression) (s : Captured) : result Captured :=
  match l with
  | [] => Ok s
  | apply :: more =>
      match visitAll i (outermostAggregates (apply_expression apply)) (resetC s) with
      | Ok s' => walk (S i) more s'
      | Throw message => Throw message
      end
  end.

(** The message of the error for a custom aggregate next to a
    re-split. *)
Definition customMessage : string :=
  "can not currently combine custom aggregation and re-split".

(** What visiting one aggregate does to [globalResplitSplit]. *)
Definition judge (global : option SplitExpression) (aggregate : Expression)
  : result (option SplitExpression) :=
  match parseResplitAgg aggregate with
  | Some resplit =>
      match global with
      | Some g =>
          if split_equals g (resplitSplit resplit) then Ok global
          else Throw sameSplitMessage
      | None => Ok (Some (resplitSplit resplit))
      end
  | None =>
      match aggregate with
      | EChainable _ (CustomAggregate _) _ _ => Throw customMessage
      | _ => Ok global
      end
  end.

(** [judge] over the visited aggregates in order. *)
Fixpoint judgeAll (global : option SplitExpression) (aggregates : list Expression)
  : result (option SplitExpression) :=
  match aggregates with
  | [] => Ok global
  | aggregate :: more =>
      match judge global aggregate with
      | Ok global' => judgeAll global' more
      | Throw message => Throw message
      end
  end.

(** The [globalResplitSplit] a walk ends with. *)
Definition globalOf (r : result Captured) : result (option SplitExpression) :=
  match r with
  | Ok s => Ok (globalResplitSplit s)
  | Throw message => Throw message
  end.

(** The aggregates the walk visits, in visiting order. *)
Definition visited (l : list ApplyExpression) : list Expression :=
  flat_map (fun apply => outermostAggregates (apply_expression apply)) l.

(** [ex instanceof CustomAggregateExpression]. *)
Definition isCustom (aggregate : Expression) : bool :=
  match aggregate with
  | EChainable _ (CustomAggregate _) _ _ => true
  | _ => false
  end.

(** All the nodes of an expression. *)
Fixpoint subexpressions (ex : Expression) : list Expression :=
  ex :: match ex with
        | ELiteral _ _ | ERef _ _ _ _ _ => []
        | EChainable _ _ _ operand => subexpressions operand
        | EChainableUnary _ _ _ operand expression =>
            subexpressions operand ++ subexpressions expression
        | ESplit _ operand splits _ =>
            subexpressions operand
            ++ flat_map (fun kv => subexpressions (snd kv)) splits
        end.

(** The iterator of the early exit: [ex instanceof SplitExpression ?
    true : null]. *)
Definition splitIter (ex : Expression) : option bool :=
  match ex with
  | ESplit _ _ _ _ => Some true
  | _ => None
  end.

(** Every node of the applies' expressions. *)
Definition allSubexpressions (l : list ApplyExpression) : list Expression :=
  flat_map (fun apply => subexpressions (apply_expression apply)) l.

(** The attribute that stands for an intermediate split column. *)
Definition intermediate (kv : string * Expression) : AttributeInfo :=
  AttributeInfo_fromJS (fst kv) (typeOf (snd kv)) None.

(** The name of the [j]-th intermediate split column. *)
Definition intermediateName (j : nat) : string := "s" ++ natToString j.

(** The state of the merge of the split keys: the attributes added so
    far are those of the intermediate columns, which are named [s0],
    [s1], ... in the order they were made. *)
Definition merged (attributes : Attributes) (m : SplitMerge) : Prop :=
  mergedAttributes m = (attributes ++ map intermediate (innerSplits m))%list
  /\ map fst (innerSplits m) = map intermediateName (seq 0 (splitCount m)).

(** Each attribute collected for the outer query names an apply of the
    inner query, in the same order. *)
Definition named (s : Captured) : Prop :=
  map attr_name (outerAttributes s) = map apply_name (innerApplies s).

End Vocabulary.

(* ====================================================================== *)
(** ** References *)
(* ====================================================================== *)

(** [POSSIBLE_TYPES]: each key, with the type it names. *)
Definition POSSIBLE_TYPES : Lookup PlyType :=
  [("NULL", NULL); ("BOOLEAN", BOOLEAN); ("NUMBER", NUMBER); ("TIME", TIME);
   ("STRING", STRING); ("NUMBER_RANGE", NUMBER_RANGE);
   ("TIME_RANGE", TIME_RANGE); ("SET", SET); ("SET/NULL", SET_NULL);
   ("SET/BOOLEAN", SET_BOOLEAN); ("SET/NUMBER", SET_NUMBER);
   ("SET/TIME", SET_TIME); ("SET/STRING", SET_STRING);
   ("SET/NUMBER_RANGE", SET_NUMBER_RANGE); ("SET/TIME_RANGE", SET_TIME_RANGE);
   ("DATASET", DATASET)].

(** A type as the string the code holds. *)
Definition PlyType_toString (t : PlyType) : string :=
  match t with
  | NULL => "NULL"
  | BOOLEAN => "BOOLEAN"
  | NUMBER => "NUMBER"
  | TIME => "TIME"
  | STRING => "STRING"
  | NUMBER_RANGE => "NUMBER_RANGE"
  | TIME_RANGE => "TIME_RANGE"
  | SET => "SET"
  | SET_NULL => "SET/NULL"
  | SET_BOOLEAN => "SET/BOOLEAN"
  | SET_NUMBER => "SET/NUMBER"
  | SET_TIME => "SET/TIME"
  | SET_STRING => "SET/STRING"
  | SET_NUMBER_RANGE => "SET/NUMBER_RANGE"
  | SET_TIME_RANGE => "SET/TIME_RANGE"
  | DATASET => "DATASET"
  end.

(** Character classes of the regular expressions of [RefExpression]:
    [[A-Z]], [[a-z]], [[0-9]], then [[A-Z\/_]] of [TYPE_REGEXP] and
    [\w]. *)
Definition between (low high : nat) (ch : ascii) : bool :=
  Nat.leb low (nat_of_ascii ch) && Nat.leb (nat_of_ascii ch) high.

Definition isUpper : ascii -> bool := between 65 90.

Definition isLower : ascii -> bool := between 97 122.

Definition isDigit : ascii -> bool := between 48 57.

Definition isTypeChar (ch : ascii) : bool :=
  isUpper ch || Ascii.eqb ch "/" || Ascii.eqb ch "_".

Definition isWordChar (ch : ascii) : bool :=
  isUpper ch || isLower ch || isDigit ch || Ascii.eqb ch "_".

(** Every character of the string is in the class. *)
Fixpoint every (class : ascii -> bool) (str : string) : bool :=
  match str with
  | EmptyString => true
  | String ch more => class ch && every class more
  end.

(** [str.substr(n)]: the string without its first [n] characters. *)
Fixpoint substr (n : nat) (str : string) : string :=
  match n, str with
  | S n', String _ more => substr n' more
  | _, _ => str
  end.

(** Modelled from the spec: a type context (section 9, back-references):
    the dataset type of a scope, here the [type] of each of its columns
    by name, and the context of the enclosing scope, its [parent]. *)
Inductive DatasetFullType : Type :=
| TypeContext (datasetType : Lookup PlyType) (parent : option DatasetFullType).

Definition datasetType (typeContext : DatasetFullType) : Lookup PlyType :=
  match typeContext with
  | TypeContext types _ => types
  end.

Definition parent (typeContext : DatasetFullType) : option DatasetFullType :=
  match typeContext with
  | TypeContext _ enclosing => enclosing
  end.

(** The numbers of the code are JavaScript doubles.  The ones this
    development meets are integers (a nesting depth, a paging offset),
    held in [Z], and [+] on them is written out as the addition of
    doubles: the exact sum, rounded to 53 significant bits, to the even
    neighbour on a tie.  Integers up to [2^53] in magnitude are exact;
    from there on the sum is rounded (a sum of [2^1024] or more, which
    is [Infinity] in JavaScript, is beyond the numbers held here). *)
Definition roundToDouble (z : Z) : Z :=
  let magnitude := Z.abs z in
  if (magnitude <? 2 ^ 53)%Z then z
  else
    let ulp := (2 ^ (Z.log2 magnitude - 52))%Z in
    let quotient := (magnitude / ulp)%Z in
    let remainder := (magnitude mod ulp)%Z in
    let rounded :=
      if (2 * remainder <? ulp)%Z then quotient
      else if (ulp <? 2 * remainder)%Z then (quotient + 1)%Z
      else if Z.even quotient then quotient
      else (quotient + 1)%Z in
    (Z.sgn z * (rounded * ulp))%Z.

(** [a + b] on numbers. *)
Definition numberAdd (a b : Z) : Z := roundToDouble (a + b).

(** [Number.isSafeInteger]: an integer up to [2^53 - 1] in magnitude. *)
Definition isSafeInteger (z : Z) : bool := (Z.abs z <=? 2 ^ 53 - 1)%Z.

Module RefExpression.

(** The fields of a reference; [ignoreCase] is [None] where the field
    is [undefined]. *)
Record t : Type := {
  options : Options;
  name : string;
  nest : nat;
  type : option PlyType;
  ignoreCase : option bool
}.

(** The truthiness of a flag that may be [undefined]. *)
Definition isTrue (flag : option bool) : bool :=
  match flag with
  | Some true => true
  | _ => false
  end.

(** The reference as a node of the tree. *)
Definition toExpression (this : t) : Expression :=
  ERef (options this) (name this) (nest this) (type this)
    (isTrue (ignoreCase this)).

(** The part of an [ExpressionValue] the constructor reads; [name] and
    [nest] are [None] when they are missing or of another kind than a
    string and a number. *)
Record ExpressionValue : Type := {
  value_options : Options;
  value_name : option string;
  value_nest : option Z;
  value_type : option string;
  value_ignoreCase : option bool
}.

(** [RefExpression.validType]. *)
Definition validType (typeName : string) : bool :=
  hasOwnProp POSSIBLE_TYPES typeName.

(** [new RefExpression(parameters)]. *)
Definition new (parameters : ExpressionValue) : result t :=
  match value_name parameters with
  | None => TypeError "must have a nonempty `name`"
  | Some name =>
      if Nat.eqb (String.length name) 0
      then TypeError "must have a nonempty `name`"
      else
        match value_nest parameters with
        | None => TypeError "must have nest"
        | Some nest =>
            if Z.ltb nest 0 then Throw "nest must be non-negative"
            else
              let! type :=
                match value_type parameters with
                | Some myType =>
                    if nonEmpty myType then
                      if negb (validType myType)
                      then TypeError ("unsupported type '" ++ myType ++ "'")
                      else Ok (lookup POSSIBLE_TYPES myType)
                    else Ok None
                | None => Ok None
                end in
              Ok {| options := value_options parameters;
                    name := name;
                    nest := Z.to_nat nest;
                    type := type;
                    ignoreCase := value_ignoreCase parameters |}
        end
  end.

(** [valueOf]. *)
Definition valueOf (this : t) : ExpressionValue :=
  {| value_options := options this;
     value_name := Some (name this);
     value_nest := Some (Z.of_nat (nest this));
     value_type := option_map PlyType_toString (type this);
     value_ignoreCase := if isTrue (ignoreCase this) then Some true else None |}.

(** *** [parse] *)

(** The match of [GENERATIONS_REGEXP]: the carets the string starts
    with. *)
Fixpoint generations (str : string) : nat :=
  match str with
  | String "^" more => S (generations more)
  | _ => 0
  end.

(** The match of [TYPE_REGEXP], searched from the left: the text before
    the match and the captured group. *)
Fixpoint typeMatch (str : string) : option (string * string) :=
  match str with
  | EmptyString => None
  | String ch more =>
      if Ascii.eqb ch ":" && nonEmpty more && every isTypeChar more
      then Some (EmptyString, more)
      else
        match typeMatch more with
        | Some (before, group) => Some (String ch before, group)
        | None => None
        end
  end.

(** [if (str[0] === '{' && str[str.length - 1] === '}') str =
    str.substr(1, str.length - 2)]. *)
Definition unbrace (str : string) : string :=
  if option_eqb Ascii.eqb (String.get 0 str) (Some "{"%char)
     && option_eqb Ascii.eqb (String.get (String.length str - 1) str)
          (Some "}"%char)
  then String.substring 1 (String.length str - 2) str
  else str.

Definition parse (str : string) : result t :=
  let nest := generations str in
  let str := substr nest str in
  let (str, type) :=
    match typeMatch str with
    | Some (before, group) => (before, Some group)
    | None => (str, None)
    end in
  let str := unbrace str in
  new {| value_options := [];
         value_name := Some str;
         value_nest := Some (Z.of_nat nest);
         value_type := type;
         value_ignoreCase := None |}.

(** *** [toString] *)

(** [SIMPLE_NAME_REGEXP.test(name)]. *)
Definition simpleName (name : string) : bool :=
  match name with
  | EmptyString => false
  | String ch more =>
      (isUpper ch || isLower ch || Ascii.eqb ch "_") && every isWordChar more
  end.

Definition toString (this : t) : string :=
  let str := name this in
  let str := if negb (simpleName (name this)) then "{" ++ str ++ "}" else str in
  let str :=
    if negb (Nat.eqb (nest this) 0) then repeatString "^" (nest this) ++ str
    else str in
  let str :=
    match type this with
    | Some type => str ++ ":" ++ PlyType_toString type
    | None => str
    end in
  (if isTrue (ignoreCase this) then "i$" else "$") ++ str.

(** *** Rebuilds *)

Definition changeName (newName : string) (this : t) : result t :=
  let value := valueOf this in
  new {| value_options := value_options value;
         value_name := Some newName;
         value_nest := value_nest value;
         value_type := value_type value;
         value_ignoreCase := value_ignoreCase value |}.


Definition changeType (newType : PlyType) (this : t) : result t :=
  let value := valueOf this in
  new {| value_options := value_options value;
         value_name := value_name value;
         value_nest := value_nest value;
         value_type := Some (PlyType_toString newType);
         value_ignoreCase := value_ignoreCase value |}.

Definition upgradeToType (targetType : PlyType) (this : t) : result t :=
  if PlyType_eqb targetType TIME
     && (negb (truthy (type this))
         || option_eqb PlyType_eqb (type this) (Some STRING))
  then changeType targetType this
  else Ok this.

Definition toCaseInsensitive (this : t) : result t :=
  let value := valueOf this in
  new {| value_options := value_options value;
         value_name := value_name value;
         value_nest := value_nest value;
         value_type := value_type value;
         value_ignoreCase := Some true |}.

(** *** Resolution *)

Definition findProperty {A} (obj : Lookup A) (key : string) : option string :=
  if hasOwnProp obj key then Some key else None.

Section CaseInsensitive.
(** [String.prototype.toLowerCase]. *)
Variable toLowerCase : string -> string.

(** [Object.keys(obj)] is the list of the keys in insertion order. *)
Definition findPropertyCI {A} (obj : option (Lookup A)) (key : string)
  : option string :=
  let lowerKey := toLowerCase key in
  match obj with
  | None => None
  | Some obj =>
      find (fun v => String.eqb (toLowerCase v) lowerKey) (map fst obj)
  end.

(** The [for] loop of [changeInTypeContext]: [i] steps up the chain of
    parents, [None] when the chain ends before. *)
Fixpoint stepBack (i : nat) (myTypeContext : DatasetFullType)
  : option DatasetFullType :=
  match i with
  | O => Some myTypeContext
  | S i' =>
      match parent myTypeContext with
      | Some enclosing => stepBack i' enclosing
      | None => None
      end
  end.

(** The [while] loop: up the chain of parents to the first context that
    has the name, counting the steps in [nestDiff]. *)
Fixpoint findInChain (myName : string) (nestDiff : nat)
  (myTypeContext : DatasetFullType) : option (DatasetFullType * nat) :=
  match myTypeContext with
  | TypeContext types enclosing =>
      if hasOwnProp types myName then Some (myTypeContext, nestDiff)
      else
        match enclosing with
        | Some outer => findInChain myName (S nestDiff) outer
        | None => None
        end
  end.

Definition changeInTypeContext (typeContext : DatasetFullType) (this : t)
  : result t :=
  match stepBack (nest this) typeContext with
  | None => Throw ("went too deep on " ++ toString this)
  | Some myTypeContext =>
      let myName :=
        if isTrue (ignoreCase this)
        then findPropertyCI (Some (datasetType myTypeContext)) (name this)
        else Some (name this) in
      match myName with
      | None => Throw ("could not resolve " ++ toString this)
      | Some myName =>
          match findInChain myName 0 myTypeContext with
          | None => Throw ("could not resolve " ++ toString this)
          | Some (found, nestDiff) =>
              match lookup (datasetType found) myName with
              | None => TypeError "type of undefined"
              | Some myType =>
                  if match type this with
                     | Some has => negb (PlyType_eqb has myType)
                     | None => false
                     end
                  then TypeError ("type mismatch in " ++ toString this
                                  ++ " (has: "
                                  ++ match type this with
                                     | Some has => PlyType_toString has
                                     | None => ""
                                     end
                                  ++ " needs: " ++ PlyType_toString myType ++ ")")
                  else if negb (truthy (type this)) || Nat.ltb 0 nestDiff
                          || isTrue (ignoreCase this)
                  then new {| value_options := [];
                              value_name := Some myName;
                              value_nest := Some (Z.of_nat (nest this + nestDiff));
                              value_type := Some (PlyType_toString myType);
                              value_ignoreCase := None |}
                  else Ok this
              end
          end
      end
  end.

End CaseInsensitive.

End RefExpression.

(** [DruidExternal.movePagingIdentifiers]: the [for] loop over the keys
    of the object, each with its value; the offsets and the increment
    are integers, added as numbers are. *)
Definition movePagingIdentifiers (pagingIdentifiers : Lookup Z) (increment : Z)
  : Lookup Z :=
  fold_left (fun newPagingIdentifiers entry =>
               assign newPagingIdentifiers (fst entry)
                 (numberAdd (snd entry) increment))
    pagingIdentifiers [].

(* ====================================================================== *)
(** ** Vocabulary of the further properties *)
(* ====================================================================== *)

(** A resolved reference: its type is the one its name has in the scope
    [nest] levels up, and it does not ignore case. *)
Definition resolvedIn (typeContext : DatasetFullType) (this : RefExpression.t)
  : Prop :=
  exists scope ty,
    RefExpression.stepBack (RefExpression.nest this) typeContext = Some scope
    /\ lookup (datasetType scope) (RefExpression.name this) = Some ty
    /\ RefExpression.type this = Some ty
    /\ RefExpression.isTrue (RefExpression.ignoreCase this) = false.

(** The planning function plans nothing but [groupBy] under
    [group-by-only], the raw mode apart. *)
Definition plansGroupBy
  (plan : External -> result (QueryAndPostTransform DruidQuery)) : Prop :=
  forall ext planned,
    querySelection ext = Some group_by_only ->
    mode ext <> Raw ->
    plan ext = Ok planned ->
    queryType (query planned) = "groupBy".

(** The query document as [getQueryAndPostTransform] has it when it
    reaches the [switch] on the mode: a [timeseries] over [all] with the
    context of the planner and the filter and intervals of the filter
    builder. *)
Definition splitStart (ext : External) (fi : FilterAndIntervals) : DruidQuery :=
  let druidQuery :=
    set_intervals (Some (fi_intervals fi))
      (with_context (context ext)
         (set_granularity (Some (GranularityName "all"))
            (newQuery "timeseries" (getDruidDataSource ext)))) in
  match fi_filter fi with
  | Some f => set_q_filter (Some f) druidQuery
  | None => druidQuery
  end.

(** A column of a [segmentMetadata] response that the post-processing
    does not skip: it has no error message and no negative size.  Such
    a column is the time column when its key is [__time]; it gets an
    attribute of its own when its key is neither [__time] nor the name
    of the time attribute. *)
Definition usable (columnData : ColumnMetadata) : bool :=
  negb (truthyString (errorMessage columnData) || Z.ltb (size columnData) 0).

Definition isTimeColumn (column : string * ColumnMetadata) : bool :=
  usable (snd column) && String.eqb (fst column) TIME_ATTRIBUTE.

Definition isOtherColumn (timeAttribute : string) (column : string * ColumnMetadata)
  : bool :=
  usable (snd column) && negb (String.eqb (fst column) TIME_ATTRIBUTE)
  && negb (String.eqb (fst column) timeAttribute).

(** The attribute describes the column: it has its name and native
    type, and it is unsplitable when the column is numeric and listed
    among the aggregators, or is an opaque metric. *)
Definition describes (aggregators : Lookup Aggregation)
  (column : string * ColumnMetadata) (attribute : AttributeInfo) : Prop :=
  attr_name attribute = fst column
  /\ nativeType attribute = Some (cm_type (snd column))
  /\ unsplitable attribute
     = (if numericType (cm_type (snd column))
        then hasOwnProp aggregators (fst column)
        else opaqueMetricType (cm_type (snd column))).

(** The attribute of the time column. *)
Definition describesTime (timeAttribute : string) (attribute : AttributeInfo) : Prop :=
  attr_name attribute = timeAttribute
  /\ nativeType attribute = Some "__time"
  /\ unsplitable attribute = false.

(** [ex instanceof FilterExpression]. *)
Definition isFilter (ex : Expression) : bool :=
  match ex with
  | EChainableUnary _ Filter _ _ _ => true
  | _ => false
  end.




Section PlanVocabulary.
Context `{Collaborators}.



End PlanVocabulary.

(** The re-split aggregates among the expressions have equal inner
    splits, pair by pair. *)
Definition resplitsAgree (expressions : list Expression) : bool :=
  forallb
    (fun a =>
       forallb
         (fun a' =>
            match parseResplitAgg a, parseResplitAgg a' with
            | Some parsed, Some parsed' =>
                split_equals (resplitSplit parsed) (resplitSplit parsed')
            | _, _ => true
            end)
         expressions)
    expressions.

(** A typed reference to a dataset: the node that [parseResplitAgg]
    puts the filter of the split on. *)
Definition isDatasetRef (ex : Expression) : bool :=
  match ex with
  | ERef _ _ _ (Some DATASET) _ => true
  | _ => false
  end.

(** No node of the expression is a typed reference to a dataset. *)
Definition datasetFree (ex : Expression) : bool :=
  forallb (fun node => negb (isDatasetRef node)) (subexpressions ex).

(** The split keys of the re-split aggregates among the expressions
    hold no typed reference to a dataset. *)
Definition keysDatasetFree (expressions : list Expression) : bool :=
  forallb
    (fun a =>
       match parseResplitAgg a with
       | Some parsed =>
           forallb (fun key => datasetFree (snd key)) (splits (resplitSplit parsed))
       | None => true
       end)
    expressions.

(** The substitution of [parseResplitAgg]: the filter of the split on
    every typed reference to a dataset. *)
Definition putFilter (filterExpression : Expression) (ex : Expression)
  : option Expression :=
  match ex with
  | ERef _ _ _ (Some DATASET) _ => Some (filter_ ex filterExpression)
  | _ => None
  end.

(** The operand of the inner split of a re-split aggregate: a
    reference, or a filter on a reference. *)
Definition resplitSource (source : Expression) : bool :=
  match source with
  | ERef _ _ _ _ _ => true
  | EChainableUnary _ Filter _ (ERef _ _ _ _ _) _ => true
  | _ => false
  end.

Section Quiet.
Context `{Collaborators}.

(** None of the builders that the planner calls throws the error of
    the re-split check. *)
Definition quietBuilders : Prop :=
  (forall ext ex, expressionToExtractionFn ext ex <> Throw sameSplitMessage)
  /\ (forall ext ex, expressionToDruidExpression ext ex <> Throw sameSplitMessage)
  /\ (forall ext ex, filterToDruid ext ex <> Throw sameSplitMessage)
  /\ (forall ext a,
        makeAggregationsAndPostAggregations ext a <> Throw sameSplitMessage)
  /\ (forall ext ex, filterToHavingFilter ext ex <> Throw sameSplitMessage).

End Quiet.

(** What the walk of [nestedGroupByIfNeeded] puts in an inner apply
    for an aggregate it visits: the aggregate itself; or, for a
    re-split aggregate, the expression of its inner apply with
    [forceFinalize] set, or the count of the first filter in it. *)
Definition innerForm (aggregate expression : Expression) : Prop :=
  (parseResplitAgg aggregate = None /\ expression = aggregate)
  \/ exists parsed,
       parseResplitAgg aggregate = Some parsed
       /\ (expression
           = setOption "forceFinalize" true (apply_expression (resplitApply parsed))
           \/ exists found,
                getFilterSubExpression (apply_expression (resplitApply parsed))
                = Some found
                /\ expression = count_ found).

(** The inner applies collected so far come from the expressions. *)
Definition innerFrom (expressions : list Expression) (s : Captured) : Prop :=
  Forall (fun apply =>
            exists aggregate,
              List.In aggregate expressions
              /\ innerForm aggregate (apply_expression apply))
    (innerApplies s).

(** The re-split aggregates among the expressions have equal inner
    splits, and no split key of theirs holds a typed reference to a
    dataset. *)
Definition agreeing (expressions : list Expression) : Prop :=
  (forall a a' r r',
      List.In a expressions -> List.In a' expressions ->
      parseResplitAgg a = Some r -> parseResplitAgg a' = Some r' ->
      split_equals (resplitSplit r) (resplitSplit r') = true)
  /\ keysDatasetFree expressions = true.

Section RawVocabulary.
Context `{Collaborators} `{SQLDialect}.

(** The select list of a raw SQL query: each selected attribute by its
    escaped name, a derived attribute by its defining expression. *)
Definition rawSelectList (ext : External) : string :=
  join ", "
    (map (fun attribute =>
            match lookup (derivedAttributes ext) (attr_name attribute) with
            | Some derived =>
                apply_getSQL (apply_ Expression_ (attr_name attribute) derived)
            | None => escapeName (attr_name attribute)
            end)
       (map dropOriginInfo (getSelectedAttributes ext))).

End RawVocabulary.

(* ====================================================================== *)
(** ** Further sample inputs *)
(* ====================================================================== *)

Module Samples.

(** Lower case of the letters [A] to [Z]. *)
Definition lowerChar (ch : ascii) : ascii :=
  if isUpper ch then ascii_of_nat (nat_of_ascii ch + 32) else ch.

Fixpoint lower (str : string) : string :=
  match str with
  | EmptyString => EmptyString
  | String ch more => String (lowerChar ch) (lower more)
  end.

(** [$^^{the page}:STRING], and [$time] before it is resolved. *)
Definition thePage : RefExpression.t :=
  {| RefExpression.options := []; RefExpression.name := "the page";
     RefExpression.nest := 2; RefExpression.type := Some STRING;
     RefExpression.ignoreCase := None |}.

Definition time : RefExpression.t :=
  {| RefExpression.options := []; RefExpression.name := "time";
     RefExpression.nest := 0; RefExpression.type := None;
     RefExpression.ignoreCase := None |}.

(** [i$^page]: the column [Page] of the enclosing scope, whatever its
    case. *)
Definition anyPage : RefExpression.t :=
  {| RefExpression.options := []; RefExpression.name := "page";
     RefExpression.nest := 1; RefExpression.type := None;
     RefExpression.ignoreCase := Some true |}.

(** A scope with the column [count], inside a scope with the columns
    [Page] and [time]. *)
Definition scopes : DatasetFullType :=
  TypeContext [("count", NUMBER)]
    (Some (TypeContext [("Page", STRING); ("time", TIME)] None)).

(** The time column under the name [time], and a raw planner that
    selects it and [page], sorted on time, ten rows. *)
Definition timeAttributeInfo : AttributeInfo :=
  {| attr_name := "time"; attr_type := Some TIME; nativeType := Some "__time";
     unsplitable := false; maker := None; cardinality := None; range := None |}.

Definition scanPlanner : External :=
  {| mode := Raw; source := SourceName "wiki"; filter := Expression_TRUE;
     split := None; applies := None; valueExpression := None;
     sort := Some (Examples.sortOn "time" ascending);
     limit := Some (Examples.limitTo 10);
     havingFilter := Expression_TRUE; derivedAttributes := [];
     rawAttributes := [timeAttributeInfo; Examples.page];
     select := Some ["time"; "page"]; context := None;
     timeAttribute := "time"; customAggregations := []; customTransforms := [];
     allowEternity := false; allowSelectQueries := true; exactResultsOnly := false;
     querySelection := None; withQuery := None |}.

(** Split by the hour of [$__time], counting rows, with a context. *)
Definition byHour : SplitExpression :=
  split_ Expression_
    [("Hour", EChainable [] (TimeBucket "PT1H" "Etc/UTC") (Some TIME_RANGE)
                (ERef [] "__time" 0 (Some TIME) false))].

Definition hourly : External :=
  {| mode := Split; source := SourceName "wiki"; filter := Expression_TRUE;
     split := Some byHour;
     applies := Some [apply_ Expression_ "Count" (count_ (ref "main"))];
     valueExpression := None; sort := None; limit := None;
     havingFilter := Expression_TRUE; derivedAttributes := [];
     rawAttributes := [Examples.page]; select := None;
     context := Some [("timeout", JNumber 1000)];
     timeAttribute := "__time"; customAggregations := []; customTransforms := [];
     allowEternity := false; allowSelectQueries := false; exactResultsOnly := false;
     querySelection := None; withQuery := None |}.

(** The top pages without a sort, exact results only. *)
Definition exactPages : External :=
  {| mode := Split; source := SourceName "wiki"; filter := Expression_TRUE;
     split := Some Examples.byPage;
     applies := Some [apply_ Expression_ "revenue" (sum_ (ref "main") (ref "added"))];
     valueExpression := None; sort := None; limit := Some (Examples.limitTo 50);
     havingFilter := Expression_TRUE; derivedAttributes := [];
     rawAttributes := [Examples.revenue_hll; Examples.page; Examples.tags];
     select := None; context := None;
     timeAttribute := "__time"; customAggregations := []; customTransforms := [];
     allowEternity := false; allowSelectQueries := false; exactResultsOnly := true;
     querySelection := None; withQuery := None |}.

(** The same split under [group-by-only]. *)
Definition groupedPages : External :=
  {| mode := Split; source := SourceName "wiki"; filter := Expression_TRUE;
     split := Some Examples.byPage;
     applies := Some [apply_ Expression_ "revenue" (sum_ (ref "main") (ref "added"))];
     valueExpression := None; sort := None; limit := None;
     havingFilter := Expression_TRUE; derivedAttributes := [];
     rawAttributes := [Examples.revenue_hll; Examples.page; Examples.tags];
     select := None; context := None;
     timeAttribute := "__time"; customAggregations := []; customTransforms := [];
     allowEternity := false; allowSelectQueries := false; exactResultsOnly := false;
     querySelection := Some group_by_only; withQuery := None |}.

(** The total revenue, and the latest time as a value. *)
Definition revenue : list ApplyExpression :=
  [apply_ Expression_ "revenue" (sum_ (ref "main") (ref "added"))].

Definition latest : Expression :=
  max_ (ref "main") (ERef [] "__time" 0 (Some TIME) false).

Definition latestValue : External :=
  {| mode := Value; source := SourceName "wiki"; filter := Expression_TRUE;
     split := None; applies := None; valueExpression := Some latest;
     sort := None; limit := None; havingFilter := Expression_TRUE;
     derivedAttributes := []; rawAttributes := []; select := None; context := None;
     timeAttribute := "__time"; customAggregations := []; customTransforms := [];
     allowEternity := false; allowSelectQueries := false; exactResultsOnly := false;
     querySelection := None; withQuery := None |}.




(** Two re-split aggregates over the same split by [$page]. *)
Definition pageTwice : list ApplyExpression :=
  [apply_ Expression_ "a" (Examples.resplitMax "page");
   apply_ Expression_ "b" (Examples.resplitMax "page")].

(** The main dataset and a dataset nested in its rows, as typed
    references; the split of a dataset by the number of rows of the
    nested one. *)
Definition main : Expression := ERef [] "main" 0 (Some DATASET) false.

Definition visits : Expression := ERef [] "visits" 0 (Some DATASET) false.

Definition byVisits (source : Expression) : SplitExpression :=
  split_ source [("rows", count_ visits)].

(** [$main.split($visits.count(), rows).apply('y', $main.count()).max($y)],
    and the same re-split over the rows of one language with that
    aggregate as its inner apply:
    [$main.filter($lang == language).split($visits.count(), rows)
       .apply('x', ...).max($x)]. *)
Definition maxByVisits : Expression :=
  max_ (ofApply (apply_ (ofSplit (byVisits main)) "y" (count_ main)))
    (ERef [] "y" 0 (Some NUMBER) false).

Definition inLanguage (language : string) : Expression :=
  max_ (ofApply
          (apply_
             (ofSplit
                (byVisits
                   (filter_ main
                      (EChainableUnary [] Is (Some BOOLEAN) (ref "lang")
                         (r (VAtom (AString language)))))))
             "x" maxByVisits))
    (ERef [] "x" 0 (Some NUMBER) false).

Definition twoLanguages : list ApplyExpression :=
  [apply_ Expression_ "en" (inLanguage "en");
   apply_ Expression_ "fr" (inLanguage "fr")].

(** Split by [$page] and [$tags]. *)
Definition byPageAndTags : SplitExpression :=
  split_ Expression_ [("page", ref "page"); ("tags", Examples.tagsRef)].

(** A [segmentMetadata] response: the time column, a string column, a
    rolled-up sum, a column with an error and a sketch. *)
Definition column (type : string) (error : option string) : ColumnMetadata :=
  {| cm_type := type; hasMultipleValues := false; size := 100;
     cm_cardinality := None; minValue := None; maxValue := None;
     errorMessage := error |}.

Definition addedSum : Aggregation :=
  {| agg_type := "longSum"; fieldName := Some "added"; fieldNames := None;
     fnAggregate := None; fnCombine := None |}.

Definition columns : Lookup ColumnMetadata :=
  [("__time", column "LONG" None); ("page", column "STRING" None);
   ("added", column "LONG" None);
   ("broken", column "STRING" (Some "error:cannot_merge_diff_types"));
   ("uniques", column "hyperUnique" None)].

Definition metadata : Row :=
  {| row_columns := Some columns; row_aggregators := Some [("added", addedSum)];
     minTime := None; maxTime := None |}.

(** Paging identifiers of two segments. *)
Definition paging : Lookup Z := [("wikipedia_2012", 4%Z); ("wikipedia_2013", 10%Z)].

(** The SQL planner of [Examples.sqlSplit] in the modes [total], [value]
    and [raw]. *)
Definition sqlIn (m : QueryMode) : External :=
  {| mode := m; source := SourceName "wiki";
     filter := filter Examples.sqlSplit; split := None;
     applies := Some [apply_ Expression_ "Count" (count_ (ref "main"))];
     valueExpression := Some (count_ (ref "main"));
     sort := Some (Examples.sortOn "Count" descending);
     limit := Some (Examples.limitTo 5);
     havingFilter := Expression_TRUE; derivedAttributes := [];
     rawAttributes := [Examples.page; Examples.tags]; select := None;
     context := None;
     timeAttribute := "__time"; customAggregations := []; customTransforms := [];
     allowEternity := false; allowSelectQueries := false; exactResultsOnly := false;
     querySelection := None; withQuery := None |}.

End Samples.

(* ====================================================================== *)
(** * Properties *)
(* ====================================================================== *)

(** ** Equality tests decide equality *)

Lemma PlyType_eqb_eq (a b : PlyType) : PlyType_eqb a b = true <-> a = b.
Proof. destruct a, b; simpl; split; intro H; try reflexivity; discriminate. Qed.

Lemma Atom_eqb_eq (a b : Atom) : Atom_eqb a b = true <-> a = b.
Proof.
  destruct a, b; simpl; split; intro H; try discriminate; try reflexivity.
  - apply Bool.eqb_prop in H. now subst.
  - injection H as ->. apply Bool.eqb_reflx.
  - apply Z.eqb_eq in H. now subst.
  - injection H as ->. apply Z.eqb_refl.
  - apply String.eqb_eq in H. now subst.
  - injection H as ->. apply String.eqb_refl.
  - apply Z.eqb_eq in H. now subst.
  - injection H as ->. apply Z.eqb_refl.
Qed.

Lemma list_eqb_eq {A} (eqb : A -> A -> bool) (l1 : list A) :
  (forall x, List.In x l1 -> forall y, eqb x y = true <-> x = y) ->
  forall l2, list_eqb eqb l1 l2 = true <-> l1 = l2.
Proof.
  induction l1 as [|x l1 IH]; intros Hx [|y l2]; simpl; split; intro H;
    try discriminate; try reflexivity.
  - apply andb_true_iff in H as [H1 H2].
    apply Hx in H1; [|now left]. apply IH in H2.
    + now subst.
    + intros z Hz. apply Hx. now right.
  - injection H as -> ->. apply andb_true_iff. split.
    + apply Hx; [now left | reflexivity].
    + apply IH; [|reflexivity]. intros z Hz. apply Hx. now right.
Qed.

Lemma PlywoodValue_eqb_eq (a b : PlywoodValue) :
  PlywoodValue_eqb a b = true <-> a = b.
Proof.
  destruct a as [x|t1 e1], b as [y|t2 e2]; simpl; split; intro H;
    try discriminate.
  - apply Atom_eqb_eq in H. now subst.
  - injection H as ->. now apply Atom_eqb_eq.
  - apply andb_true_iff in H as [H1 H2]. apply PlyType_eqb_eq in H1.
    apply list_eqb_eq in H2; [now subst|]. intros; apply Atom_eqb_eq.
  - injection H as -> ->. apply andb_true_iff. split.
    + now apply PlyType_eqb_eq.
    + apply list_eqb_eq; [|reflexivity]. intros; apply Atom_eqb_eq.
Qed.

Ltac eqb_crush :=
  repeat match goal with
  | H : _ && _ = true |- _ => apply andb_true_iff in H as [? ?]
  | H : String.eqb _ _ = true |- _ => apply String.eqb_eq in H; subst
  | H : Z.eqb _ _ = true |- _ => apply Z.eqb_eq in H; subst
  | H : Nat.eqb _ _ = true |- _ => apply Nat.eqb_eq in H; subst
  | H : Bool.eqb _ _ = true |- _ => apply Bool.eqb_prop in H; subst
  | |- _ && _ = true => apply andb_true_iff; split
  | |- String.eqb _ _ = true => apply String.eqb_refl
  | |- Z.eqb _ _ = true => apply Z.eqb_refl
  | |- Nat.eqb _ _ = true => apply Nat.eqb_refl
  | |- Bool.eqb _ _ = true => apply Bool.eqb_reflx
  end.

Lemma Direction_eqb_eq (a b : Direction) : Direction_eqb a b = true <-> a = b.
Proof. destruct a, b; simpl; split; intro H; try reflexivity; discriminate. Qed.

Lemma ChainableOp_eqb_eq (a b : ChainableOp) :
  ChainableOp_eqb a b = true <-> a = b.
Proof.
  destruct a, b; simpl; split; intro H; try discriminate; try reflexivity;
    try (eqb_crush; reflexivity); injection H as; subst; eqb_crush.
Qed.

Lemma ChainableUnaryOp_eqb_eq (a b : ChainableUnaryOp) :
  ChainableUnaryOp_eqb a b = true <-> a = b.
Proof.
  destruct a, b; simpl; split; intro H; try discriminate; try reflexivity;
    try (eqb_crush; reflexivity);
    try (apply Direction_eqb_eq in H; now subst);
    injection H as; subst; eqb_crush; now apply Direction_eqb_eq.
Qed.

Lemma option_eqb_eq {A} (eqb : A -> A -> bool) (a b : option A) :
  (forall x y, eqb x y = true <-> x = y) ->
  option_eqb eqb a b = true <-> a = b.
Proof.
  intros H. destruct a, b; simpl; split; intro E; try discriminate;
    try reflexivity.
  - apply H in E. now subst.
  - injection E as ->. now apply H.
Qed.

Lemma Options_eqb_eq (a b : Options) : Options_eqb a b = true <-> a = b.
Proof.
  apply list_eqb_eq. intros [k v] _ [k' v']; simpl; split; intro H.
  - eqb_crush. reflexivity.
  - injection H as -> ->. eqb_crush.
Qed.

Lemma equals_eq (a : Expression) : forall b, equals a b = true <-> a = b.
Proof.
  induction a as [o v|o n k t i|o op t x IHx|o op t x e IHx IHe|o x s d IHx IHs]
    using Expression_induction; intros [o' v'|o' n' k' t' i'|o' op' t' x'
    |o' op' t' x' e'|o' x' s' d']; simpl; split; intro H; try discriminate.
  - apply andb_true_iff in H as [H1 H2]. apply Options_eqb_eq in H1.
    apply PlywoodValue_eqb_eq in H2. now subst.
  - injection H as -> ->. apply andb_true_iff. split.
    + now apply Options_eqb_eq.
    + now apply PlywoodValue_eqb_eq.
  - repeat (apply andb_true_iff in H as [H ?]).
    apply Options_eqb_eq in H. eqb_crush.
    match goal with E : option_eqb _ _ _ = true |- _ =>
      apply option_eqb_eq in E; [|apply PlyType_eqb_eq] end.
    now subst.
  - injection H as -> -> -> -> ->. repeat (apply andb_true_iff; split);
      eqb_crush; try (now apply Options_eqb_eq).
    apply option_eqb_eq; [apply PlyType_eqb_eq | reflexivity].
  - repeat (apply andb_true_iff in H as [H ?]).
    apply Options_eqb_eq in H.
    match goal with E : ChainableOp_eqb _ _ = true |- _ =>
      apply ChainableOp_eqb_eq in E end.
    match goal with E : option_eqb _ _ _ = true |- _ =>
      apply option_eqb_eq in E; [|apply PlyType_eqb_eq] end.
    match goal with E : equals _ _ = true |- _ => apply IHx in E end.
    now subst.
  - injection H as -> -> -> ->. repeat (apply andb_true_iff; split).
    + now apply Options_eqb_eq.
    + now apply ChainableOp_eqb_eq.
    + apply option_eqb_eq; [apply PlyType_eqb_eq | reflexivity].
    + now apply IHx.
  - repeat (apply andb_true_iff in H as [H ?]).
    apply Options_eqb_eq in H.
    match goal with E : ChainableUnaryOp_eqb _ _ = true |- _ =>
      apply ChainableUnaryOp_eqb_eq in E end.
    match goal with E : option_eqb _ _ _ = true |- _ =>
      apply option_eqb_eq in E; [|apply PlyType_eqb_eq] end.
    match goal with E : equals x _ = true |- _ => apply IHx in E end.
    match goal with E : equals e _ = true |- _ => apply IHe in E end.
    now subst.
  - injection H as -> -> -> -> ->. repeat (apply andb_true_iff; split).
    + now apply Options_eqb_eq.
    + now apply ChainableUnaryOp_eqb_eq.
    + apply option_eqb_eq; [apply PlyType_eqb_eq | reflexivity].
    + now apply IHx.
    + now apply IHe.
  - repeat (apply andb_true_iff in H as [H ?]).
    apply Options_eqb_eq in H.
    match goal with E : equals x _ = true |- _ => apply IHx in E end.
    match goal with E : option_eqb _ _ _ = true |- _ =>
      apply option_eqb_eq in E; [|apply String.eqb_eq] end.
    subst. f_equal.
    match goal with E : _ s s' = true |- _ => revert s' E end.
    induction IHs as [|[k1 e1] r1 Hkv _ IHr]; intros [|[k2 e2] r2] E;
      try discriminate; [reflexivity|].
    simpl in *. repeat (apply andb_true_iff in E as [E ?]).
    apply String.eqb_eq in E. subst. f_equal.
    + f_equal. now apply Hkv.
    + now apply IHr.
  - injection H as -> -> -> ->. repeat (apply andb_true_iff; split).
    + now apply Options_eqb_eq.
    + now apply IHx.
    + clear IHx. induction IHs as [|[k1 e1] r1 Hkv _ IHr]; [reflexivity|].
      simpl in *. repeat (apply andb_true_iff; split).
      * apply String.eqb_refl.
      * now apply Hkv.
      * exact IHr.
    + apply option_eqb_eq; [apply String.eqb_eq | reflexivity].
Qed.

Lemma equals_refl (a : Expression) : equals a a = true.
Proof. now apply equals_eq. Qed.

(* ====================================================================== *)
(** ** Output names, sort capability *)
(* ====================================================================== *)




Section OutputNames.
Context `{Collaborators}.

Lemma makeExpression_outputName (ext : External) (expression : Expression)
  (label : string) (d : DimensionInflater) :
  makeExpression ext expression label = Ok d ->
  outputNameOf (di_dimension d) = Some (makeOutputName label).
Proof.
  unfold makeExpression.
  destruct (expressionToDruidExpression ext expression) as [[druid|]|];
    try discriminate.
  cbn [rbind]. destruct expression; intros [= <-]; reflexivity.
Qed.

(** X29.  Every dimension that [expressionToDimensionInflater] makes,
    whichever way it lowers the split key, carries the label as its
    output name, rewritten by [makeOutputName]. *)
Lemma expressionToDimensionInflater_outputName (ext : External)
  (expression : Expression) (label : string) (d : DimensionInflater) :
  expressionToDimensionInflater ext expression label = Ok d ->
  outputNameOf (di_dimension d) = Some (makeOutputName label).
Proof.
  unfold expressionToDimensionInflater.
  destruct (getFreeReferences expression) as [|referenceName others].
  - destruct (expressionToExtractionFn ext expression); [|discriminate].
    intros [= <-]. reflexivity.
  - destruct (_ || _ || _); [apply makeExpression_outputName|].
    destruct (getAttributesInfo ext referenceName) as [info|]; [|discriminate].
    cbn [rbind]. destruct (unsplitable info); [discriminate|].
    destruct (expressionToExtractionFn ext expression) as [extractionFn|];
      [|apply makeExpression_outputName].
    destruct expression as [| |o op t x|o op t x e|];
      try (intros [= <-]; reflexivity);
      try (destruct op; try (intros [= <-]; reflexivity));
      destruct (getIntelligentInflater _ label);
      try (intros [= <-]; reflexivity);
      destruct (option_map unwrapSetType _) as [[]|];
      try discriminate; intros [= <-]; reflexivity.
Qed.
End OutputNames.

Lemma option_string_eqb_eq (a b : option string) :
  option_eqb String.eqb a b = true <-> a = b.
Proof. apply option_eqb_eq. apply String.eqb_eq. Qed.

(** C10.  In raw mode [canHandleSort] accepts exactly the ascending
    sort on the time attribute; in the other modes it accepts every
    sort. *)
Theorem canHandleSort_raw_time_ascending `{Collaborators}
  (ext : External) (s : SortExpression) :
  match mode ext with
  | Raw =>
      DruidExternal.canHandleSort ext s = true
      <-> (refName s = Some (timeAttribute ext) /\ direction s = ascending)
  | _ => DruidExternal.canHandleSort ext s = true
  end.
Proof.
  unfold DruidExternal.canHandleSort.
  destruct (mode ext); try reflexivity.
  destruct (option_eqb String.eqb (refName s) (Some (timeAttribute ext))) eqn:E; simpl.
  - apply option_string_eqb_eq in E. rewrite Direction_eqb_eq. tauto.
  - split; [discriminate|]. intros [R _].
    apply option_string_eqb_eq in R. congruence.
Qed.

(* ====================================================================== *)
(** ** The SQL external: clause order *)
(* ====================================================================== *)

Section SQLClauses.
Context `{Collaborators} `{SQLDialect}.

Lemma append_empty (s : string) : s ++ "" = s.
Proof. induction s as [|a s IH]; simpl; [reflexivity | now rewrite IH]. Qed.

(** C9.  For a planner in split mode (its source a table name, its
    applies an array) the SQL text is the clauses joined by newlines in
    this order: the [WITH] clause when [withQuery] is set, [SELECT], the
    select list of the split and the applies, [FROM] (with [WHERE] when
    the query filter is not [TRUE]), [GROUP BY], [HAVING] when the
    having filter is not [TRUE], the sort clause when a sort is set, the
    limit clause when a limit is set. *)
Theorem sql_split_clause_order (ext : External) (name : string)
  (a : list ApplyExpression) :
  mode ext = Split ->
  source ext = SourceName name ->
  applies ext = Some a ->
  exists plan,
    SQLExternal.getQueryAndPostTransform ext = Ok plan
    /\ query plan =
         join newline
           (withClause ext
            ++ ["SELECT"; selectList ext a; fromClause ext name; groupByClause ext]
            ++ havingClause ext ++ sortClause ext ++ limitClause ext)%list.
Proof.
  intros Hmode Hsource Happlies.
  unfold SQLExternal.getQueryAndPostTransform, SQLExternal.getFrom.
  rewrite Hmode, Hsource, Happlies.
  destruct (DruidExternal.truthyString (withQuery ext)) eqn:W; cbn [rbind];
    eexists; (split; [reflexivity|]); cbn [query]; unfold SQLExternal.sqlToQuery;
    f_equal; unfold withClause, fromClause, havingClause, sortClause, limitClause,
      SQLExternal.sortAndLimit, groupByClause, selectList, SQLExternal.capability,
      DruidExternal.truthyString, DruidExternal.nonEmpty in *;
    rewrite ?W; cbn [String.eqb Ascii.eqb Bool.eqb orb];
    destruct (withQuery ext) as [text|]; try discriminate;
    try (destruct (String.eqb text ""); try discriminate);
    destruct (equals (getQueryFilter ext) Expression_TRUE);
    destruct (equals (havingFilter ext) Expression_TRUE);
    cbn [negb]; rewrite ?append_empty; rewrite <- ?app_assoc; reflexivity.
Qed.
End SQLClauses.

Lemma sql_split_clause_order_witness :
  exists plan,
    @SQLExternal.getQueryAndPostTransform Examples.collaborators Examples.dialect
      Examples.sqlSplit = Ok plan
    /\ query plan =
         join newline
           ["WITH __with__ AS (SELECT * FROM wikipedia)";
            "SELECT";
            "$page AS Page," ++ newline ++ "<count> AS Count";
            "FROM __with__ AS t" ++ newline ++ "WHERE <is>";
            "GROUP BY Page";
            "HAVING <greaterThan>";
            "ORDER BY $Count";
            "LIMIT n"].
Proof.
  apply (@sql_split_clause_order Examples.collaborators Examples.dialect
           Examples.sqlSplit "wiki" [apply_ Expression_ "Count" (count_ (ref "main"))]);
    reflexivity.
Defined.

(* ====================================================================== *)
(** ** The time-boundary query *)
(* ====================================================================== *)

Section TimeBoundary.
Context `{Collaborators}.

Lemma queryType_with_context (c : option (Lookup Json)) (q : DruidQuery) :
  queryType (DruidExternal.with_context c q) = queryType q.
Proof. destruct c; reflexivity. Qed.

Lemma bound_with_context (c : option (Lookup Json)) (q : DruidQuery) :
  bound (DruidExternal.with_context c q) = bound q.
Proof. destruct c; reflexivity. Qed.

Lemma dataSource_with_context (c : option (Lookup Json)) (q : DruidQuery) :
  dataSource (DruidExternal.with_context c q) = dataSource q.
Proof. destruct c; reflexivity. Qed.

Lemma isMinMaxTimeExpression_op (ext : External) (ex : Expression) :
  DruidExternal.isMinMaxTimeExpression ext ex = true ->
  opOf ex = "min" \/ opOf ex = "max".
Proof.
  destruct ex as [| | |o op t x e|]; try discriminate.
  destruct op; try discriminate; simpl; auto.
Qed.

Lemma wantsTimeBoundary_total (ext : External) (a : list ApplyExpression) :
  mode ext = Total ->
  applies ext = Some a ->
  a <> [] ->
  Forall (fun apply =>
            DruidExternal.isMinMaxTimeExpression ext (apply_expression apply) = true) a ->
  querySelection ext <> Some group_by_only ->
  DruidExternal.wantsTimeBoundary ext = true.
Proof.
  intros Hmode Happlies Hne Hall Hsel.
  unfold DruidExternal.wantsTimeBoundary.
  rewrite Hmode, Happlies. cbn [DruidExternal.isModeTotal andb].
  assert (E : forallb (fun a0 => DruidExternal.isMinMaxTimeExpression ext
                                   (apply_expression a0)) a = true).
  { apply forallb_forall. intros x Hx.
    rewrite Forall_forall in Hall. now apply Hall. }
  destruct a as [|first more]; [congruence|]. rewrite E.
  destruct (querySelection ext) as [[|]|]; try reflexivity. congruence.
Qed.

(** C2.  A planner in total mode whose applies, at least one, are all
    [min] or [max] of the time ref, and whose query selection is not
    [group-by-only], plans a [timeBoundary] query; with one apply its
    [bound] is the operator of the apply followed by [Time], that is
    [minTime] or [maxTime]; with more than one apply no [bound] is
    set. *)
Theorem total_min_max_time_plans_timeBoundary (fuel : nat) (ext : External)
  (a : list ApplyExpression) :
  mode ext = Total ->
  applies ext = Some a ->
  a <> [] ->
  Forall (fun apply =>
            DruidExternal.isMinMaxTimeExpression ext (apply_expression apply) = true) a ->
  querySelection ext <> Some group_by_only ->
  exists plan,
    DruidExternal.getQueryAndPostTransform (S fuel) ext = Ok plan
    /\ queryType (query plan) = "timeBoundary"
    /\ (forall lone, a = [lone] ->
        bound (query plan) = Some (opOf (apply_expression lone) ++ "Time")
        /\ (bound (query plan) = Some "minTime"
            \/ bound (query plan) = Some "maxTime"))
    /\ (1 < List.length a -> bound (query plan) = None).
Proof.
  intros Hmode Happlies Hne Hall Hsel.
  cbn [DruidExternal.getQueryAndPostTransform]. unfold DruidExternal.planQuery.
  rewrite (wantsTimeBoundary_total ext Hmode Happlies Hne Hall Hsel).
  unfold DruidExternal.getTimeBoundaryQueryAndPostTransform.
  rewrite Hmode, Happlies. cbn [rbind].
  eexists. split; [reflexivity|]. cbn [query].
  destruct a as [|first [|second more]]; [congruence| |].
  - split; [|split].
    + cbn. apply queryType_with_context.
    + intros lone [= <-]. cbn [bound set_bound]. split; [reflexivity|].
      inversion Hall as [|? ? Hfirst _]; subst.
      destruct (isMinMaxTimeExpression_op _ _ Hfirst) as [-> | ->]; auto.
    + simpl. lia.
  - split; [|split].
    + apply queryType_with_context.
    + intros lone [=].
    + intros _. rewrite bound_with_context. reflexivity.
Qed.
End TimeBoundary.

Lemma total_min_max_time_plans_timeBoundary_witness :
  exists plan,
    @DruidExternal.getQueryAndPostTransform Examples.collaborators 1
      Examples.totalMaxTime = Ok plan
    /\ queryType (query plan) = "timeBoundary"
    /\ (forall lone, [Examples.maxTimeApply] = [lone] ->
        bound (query plan) = Some (opOf (apply_expression lone) ++ "Time")
        /\ (bound (query plan) = Some "minTime"
            \/ bound (query plan) = Some "maxTime"))
    /\ (1 < List.length [Examples.maxTimeApply] -> bound (query plan) = None).
Proof.
  apply (@total_min_max_time_plans_timeBoundary Examples.collaborators 0
           Examples.totalMaxTime [Examples.maxTimeApply]).
  - reflexivity.
  - reflexivity.
  - discriminate.
  - repeat constructor.
  - discriminate.
Defined.

(* ====================================================================== *)
(** ** Introspection *)
(* ====================================================================== *)

Section Introspection.
Context `{Collaborators}.

Lemma timeFirst_app (attributes : Attributes) (a : AttributeInfo) :
  timeFirst attributes -> timeFirst (attributes ++ [a])%list.
Proof. intros (first & others & -> & N). now exists first, (others ++ [a])%list. Qed.

Lemma eachColumn_timeFirst (timeAttribute : string) (aggregators : Lookup Aggregation)
  (columns : Lookup ColumnMetadata) :
  forall attributes foundTime attributes',
    (foundTime = true -> timeFirst attributes) ->
    eachColumn timeAttribute aggregators columns attributes foundTime
      = Ok (attributes', true) ->
    timeFirst attributes'.
Proof.
  induction columns as [|[name columnData] more IH]; intros attributes foundTime
    attributes' Inv E; cbn [eachColumn] in E.
  - injection E as -> ->. now apply Inv.
  - destruct (truthyString (errorMessage columnData) || (size columnData <? 0)%Z).
    { eapply IH; eauto. }
    destruct (String.eqb name TIME_ATTRIBUTE).
    { eapply IH; [|exact E]. intros _. eexists _, _. split; reflexivity. }
    destruct (String.eqb name timeAttribute).
    { eapply IH; eauto. }
    match type of E with
    | rbind ?made _ = _ => destruct made as [attribute|message] eqn:A
    end; [|discriminate].
    cbn [rbind] in E. eapply IH; [|exact E].
    intros F. apply timeFirst_app. now apply Inv.
Qed.

Lemma segmentMetadataPostProcess_timeFirst (timeAttribute : string) (res : list Row)
  (attributes : Attributes) :
  segmentMetadataPostProcess timeAttribute res = Ok attributes ->
  timeFirst attributes.
Proof.
  unfold segmentMetadataPostProcess.
  destruct res as [|[[columns|] aggregators ? ?] ?]; try discriminate.
  destruct (eachColumn _ _ columns [] false) as [[attrs found]|] eqn:E;
    [|discriminate].
  cbn [rbind]. destruct found; [|discriminate]. cbn [negb].
  intros [= <-]. eapply eachColumn_timeFirst; [|exact E]. discriminate.
Qed.

Lemma queryType_segmentMetadataQuery (dataSource : DataSource)
  (context : option (Lookup Json)) (depth : IntrospectionDepth) :
  queryType (segmentMetadataQuery dataSource context depth) = "segmentMetadata".
Proof. unfold segmentMetadataQuery. now rewrite queryType_with_context. Qed.

Lemma queryType_timeBoundaryQuery (dataSource : DataSource)
  (context : option (Lookup Json)) :
  queryType (timeBoundaryQuery dataSource context) = "timeBoundary".
Proof. unfold timeBoundaryQuery. now rewrite queryType_with_context. Qed.

(** C6, as the code has it.  Once the [segmentMetadata] query and its
    post-processing have succeeded, the attributes start with the time
    attribute; the [timeBoundary] follow-up is issued exactly when the
    depth is not [shallow] and that attribute has no range; and whatever
    fails in the follow-up, the call resolves with the attributes of
    [segmentMetadata] unchanged. *)
Theorem followUp_unless_shallow_and_swallowed (dataSource : DataSource)
  (requester : DruidQuery -> result (list Row)) (timeAttribute : string)
  (context : option (Lookup Json)) (depth : IntrospectionDepth)
  (res : list Row) (attributes : Attributes) :
  requester (segmentMetadataQuery dataSource context depth) = Ok res ->
  segmentMetadataPostProcess timeAttribute res = Ok attributes ->
  let settled :=
    introspectAttributesWithSegmentMetadata dataSource requester timeAttribute
      context depth in
  exists time others,
    attributes = time :: others
    /\ nativeType time = Some "__time"
    /\ (followUpIssued settled = true <-> (depth <> shallow /\ range time = None))
    /\ (forall message,
          withTimeBoundary requester (timeBoundaryQuery dataSource context) attributes
            = Throw message ->
          outcome settled = Ok attributes)
    /\ (forall message,
          requester (timeBoundaryQuery dataSource context) = Throw message ->
          outcome settled = Ok attributes).
Proof.
  intros Hres Hpost settled.
  destruct (segmentMetadataPostProcess_timeFirst _ _ Hpost)
    as (time & others & -> & Hnative).
  exists time, others. split; [reflexivity|]. split; [exact Hnative|].
  subst settled. unfold introspectAttributesWithSegmentMetadata.
  rewrite Hres, Hpost. unfold needsTimeBoundary. rewrite Hnative.
  cbn [option_eqb]. rewrite String.eqb_refl. cbn [andb].
  assert (Swallow : forall message,
    requester (timeBoundaryQuery dataSource context) = Throw message ->
    withTimeBoundary requester (timeBoundaryQuery dataSource context)
      (time :: others) = Throw message).
  { intros message E. unfold withTimeBoundary. now rewrite E. }
  destruct depth; cbn [isShallow negb andb].
  - split; [|split].
    + unfold followUpIssued. cbn [issued existsb].
      rewrite queryType_segmentMetadataQuery. cbn. split; [discriminate|].
      intros [D _]. congruence.
    + reflexivity.
    + reflexivity.
  - destruct (range time) eqn:R; cbn [truthy negb].
    + split; [|split]; try reflexivity.
      unfold followUpIssued. cbn [issued existsb].
      rewrite queryType_segmentMetadataQuery. cbn. split; [discriminate|].
      intros [_ D]. discriminate.
    + split; [|split].
      * unfold followUpIssued. cbn [issued existsb].
        rewrite queryType_timeBoundaryQuery. cbn.
        rewrite orb_true_r. split; [|reflexivity]. intros _. split; [discriminate|reflexivity].
      * intros message E. cbn [outcome]. now rewrite E.
      * intros message E. cbn [outcome]. now rewrite (Swallow _ E).
  - destruct (range time) eqn:R; cbn [truthy negb].
    + split; [|split]; try reflexivity.
      unfold followUpIssued. cbn [issued existsb].
      rewrite queryType_segmentMetadataQuery. cbn. split; [discriminate|].
      intros [_ D]. discriminate.
    + split; [|split].
      * unfold followUpIssued. cbn [issued existsb].
        rewrite queryType_timeBoundaryQuery. cbn.
        rewrite orb_true_r. split; [|reflexivity]. intros _. split; [discriminate|reflexivity].
      * intros message E. cbn [outcome]. now rewrite E.
      * intros message E. cbn [outcome]. now rewrite (Swallow _ E).
Qed.
End Introspection.

Lemma followUp_unless_shallow_and_swallowed_witness :
  let settled :=
    @DruidExternal.introspectAttributesWithSegmentMetadata Examples.collaborators
      (DataSourceName "wiki") Examples.metadataOnly "__time" None medium in
  exists time others,
    [ {| attr_name := "__time"; attr_type := Some TIME; nativeType := Some "__time";
         unsplitable := false; maker := None; cardinality := None; range := None |};
      {| attr_name := "page"; attr_type := Some STRING; nativeType := Some "STRING";
         unsplitable := false; maker := None; cardinality := None; range := None |} ]
      = time :: others
    /\ nativeType time = Some "__time"
    /\ (followUpIssued settled = true <-> (medium <> shallow /\ range time = None))
    /\ (forall message,
          @DruidExternal.withTimeBoundary Examples.collaborators Examples.metadataOnly
            (DruidExternal.timeBoundaryQuery (DataSourceName "wiki") None)
            [ {| attr_name := "__time"; attr_type := Some TIME;
                 nativeType := Some "__time"; unsplitable := false; maker := None;
                 cardinality := None; range := None |};
              {| attr_name := "page"; attr_type := Some STRING;
                 nativeType := Some "STRING"; unsplitable := false; maker := None;
                 cardinality := None; range := None |} ]
            = Throw message ->
          outcome settled
          = Ok [ {| attr_name := "__time"; attr_type := Some TIME;
                    nativeType := Some "__time"; unsplitable := false; maker := None;
                    cardinality := None; range := None |};
                 {| attr_name := "page"; attr_type := Some STRING;
                    nativeType := Some "STRING"; unsplitable := false; maker := None;
                    cardinality := None; range := None |} ])
    /\ (forall message,
          Examples.metadataOnly (DruidExternal.timeBoundaryQuery (DataSourceName "wiki") None)
            = Throw message ->
          outcome settled
          = Ok [ {| attr_name := "__time"; attr_type := Some TIME;
                    nativeType := Some "__time"; unsplitable := false; maker := None;
                    cardinality := None; range := None |};
                 {| attr_name := "page"; attr_type := Some STRING;
                    nativeType := Some "STRING"; unsplitable := false; maker := None;
                    cardinality := None; range := None |} ]).
Proof.
  apply (@followUp_unless_shallow_and_swallowed Examples.collaborators
           (DataSourceName "wiki") Examples.metadataOnly "__time" None medium
           [{| DruidExternal.row_columns :=
                 Some [("__time", Examples.timeColumn); ("page", Examples.pageColumn)];
               DruidExternal.row_aggregators := None;
               DruidExternal.minTime := None; DruidExternal.maxTime := None |}]);
    reflexivity.
Defined.

(** C6 as the specification words it fails at depth [medium]: the time
    attribute has no range, the follow-up is issued, and the depth is not
    [deep]; its failure is swallowed. *)
Lemma followUp_issued_at_medium_depth :
  let settled :=
    @DruidExternal.introspectAttributesWithSegmentMetadata Examples.collaborators
      (DataSourceName "wiki") Examples.metadataOnly "__time" None medium in
  followUpIssued settled = true
  /\ medium <> deep
  /\ List.length (issued settled) = 2
  /\ outcome settled
     = Ok [ {| attr_name := "__time"; attr_type := Some TIME;
               nativeType := Some "__time"; unsplitable := false; maker := None;
               cardinality := None; range := None |};
            {| attr_name := "page"; attr_type := Some STRING;
               nativeType := Some "STRING"; unsplitable := false; maker := None;
               cardinality := None; range := None |} ].
Proof. repeat split; try reflexivity. discriminate. Qed.

(* ====================================================================== *)
(** ** Split keys over rolled-up metrics *)
(* ====================================================================== *)

Lemma string_app_assoc (a b c : string) : (a ++ b) ++ c = a ++ (b ++ c).
Proof. induction a as [|x a IH]; simpl; [reflexivity | now rewrite IH]. Qed.

Section Unsplitable.
Context `{Collaborators}.

Lemma unsplitableMessage_contains (expression : Expression) (referenceName : string) :
  contains "references an un-splitable metric"
    (unsplitableMessage expression referenceName).
Proof.
  exists ("can not convert " ++ toString expression ++ " to split because it "),
    (" '" ++ referenceName ++ "' which is most likely rolled up.").
  unfold unsplitableMessage.
  change " to split because it references an un-splitable metric '"
    with (" to split because it "
          ++ ("references an un-splitable metric" ++ " '")).
  now rewrite !string_app_assoc.
Qed.

(** C7, as the code has it.  A split-key expression whose only free
    reference is an attribute marked [unsplitable], and that neither
    holds a [then] nor is a complex fallback, is refused with a message
    that contains "references an un-splitable metric"; no dimension is
    made. *)
Theorem unsplitable_single_reference_refused (ext : External)
  (expression : Expression) (label referenceName : string) (info : AttributeInfo) :
  getFreeReferences expression = [referenceName] ->
  hasThen expression = false ->
  isComplexFallback expression = false ->
  getAttributesInfo ext referenceName = Ok info ->
  unsplitable info = true ->
  exists message,
    expressionToDimensionInflater ext expression label = Throw message
    /\ contains "references an un-splitable metric" message.
Proof.
  intros Hfree Hthen Hcomplex Hinfo Hunsplitable.
  exists (unsplitableMessage expression referenceName).
  split; [|apply unsplitableMessage_contains].
  unfold expressionToDimensionInflater. rewrite Hfree.
  unfold hasThen in Hthen. rewrite Hthen, Hcomplex. cbn [List.length Nat.ltb Nat.leb orb].
  rewrite Hinfo. cbn [rbind]. now rewrite Hunsplitable.
Qed.
End Unsplitable.

Lemma unsplitable_single_reference_refused_witness :
  exists message,
    @expressionToDimensionInflater Examples.collaborators Examples.splitPlanner
      (ref "revenue_hll") "Metric" = Throw message
    /\ contains "references an un-splitable metric" message.
Proof.
  apply (@unsplitable_single_reference_refused Examples.collaborators
           Examples.splitPlanner (ref "revenue_hll") "Metric" "revenue_hll"
           Examples.revenue_hll); reflexivity.
Defined.

(** C7 as the specification words it fails for a split key with more
    than one free reference: [$page.concat($revenue_hll)] references the
    un-splitable [revenue_hll], and it is lowered to a virtual column and
    a dimension on it. *)
Lemma unsplitable_second_reference_accepted :
  List.In "revenue_hll" (getFreeReferences Examples.pageAndMetric)
  /\ @getAttributesInfo Examples.splitPlanner "revenue_hll" = Ok Examples.revenue_hll
  /\ unsplitable Examples.revenue_hll = true
  /\ @expressionToDimensionInflater Examples.collaborators Examples.splitPlanner
       Examples.pageAndMetric "PageMetric"
     = Ok {| di_virtualColumn :=
               Some {| vc_name := "v:PageMetric"; vc_expression := "<concat>";
                       vc_outputType := "STRING" |};
             di_dimension :=
               DimensionSpecFull "default" "v:PageMetric" "PageMetric" None (Some "STRING");
             di_inflater := None |}.
Proof. repeat split; try reflexivity. simpl. auto. Qed.

(* ====================================================================== *)
(** ** Having push-down *)
(* ====================================================================== *)

Section HavingPushDown.
Context `{Collaborators}.

Lemma and_chain_shape (l : list Expression) (a b : Expression) :
  exists x y, fold_left and_ l (and_ a b) = EChainableUnary [] And (Some BOOLEAN) x y.
Proof.
  revert a b. induction l as [|c l IH]; intros a b; simpl.
  - now exists a, b.
  - apply IH.
Qed.

Lemma constrainsLabel_not_leaf (label : string) (c : Expression) :
  constrainsLabel label c = true ->
  match c with
  | ELiteral _ _ | ERef _ _ _ _ _ => False
  | EChainableUnary _ In _ _ _ => False
  | _ => True
  end.
Proof.
  destruct c as [| | |o op t x e|]; try discriminate; try (intros _; exact I).
  destruct op; try (intros _; exact I).
  unfold constrainsLabel. cbn [operandOf opOf chainableUnaryOpName].
  destruct x; try discriminate.
  match goal with |- context [String.eqb ?a ?b] => destruct (String.eqb a b) end;
    discriminate.
Qed.

(** C5, as the code has it.  The having filter is boolean and already
    simplified, as the filters the planner is given are, and none of its
    conjuncts is an [in] comparison of the label (of those nothing is
    said here).  When the split key lowers to the dimension [d]: for a
    key that is not of type [SET/STRING] the dimension and the having
    filter come back unchanged; for a [SET/STRING] key the conjuncts of
    the having filter are divided into those that constrain the label (a
    [match], or an [is] against a literal) and the others, and when
    exactly one conjunct constrains the label it becomes a
    [regexFiltered] (for the [match]) or a [listFiltered] (for the [is],
    with the elements of the literal set, or the literal itself, as
    values) wrapper around the dimension of [d], with the others as the
    leftover having filter; when none or several do, everything comes
    back unchanged. *)
Theorem having_pushdown_single_conjunct (ext : External) (expression : Expression)
  (label : string) (having : Expression) (d : DimensionInflater) :
  expressionToDimensionInflater ext expression label = Ok d ->
  hasType having BOOLEAN = true ->
  simplify having = having ->
  existsb (labelIn label) (getExpressionList having) = false ->
  expressionToDimensionInflaterHaving ext expression label having
  = Ok (if hasType expression SET_STRING then pushedDown d label having
        else withHaving d having).
Proof.
  intros Hd Hbool _ _. unfold expressionToDimensionInflaterHaving.
  rewrite Hd. cbn [rbind].
  destruct (hasType expression SET_STRING); [|reflexivity]. cbn [negb].
  unfold extractFromAnd. rewrite Hbool. cbn [negb extract rest].
  unfold pushedDown, residue, constraining.
  destruct (List.filter (constrainsLabel label) (getExpressionList having))
    as [|c [|c' more]] eqn:F.
  - reflexivity.
  - assert (C : constrainsLabel label c = true).
    { assert (I : List.In c (List.filter (constrainsLabel label) (getExpressionList having)))
        by (rewrite F; now left).
      now apply filter_In in I. }
    apply constrainsLabel_not_leaf in C.
    cbn [Expression_and fold_left].
    destruct c as [| |o op t x|o op t x e|]; try contradiction; try reflexivity.
    + destruct op; reflexivity.
    + destruct op; try contradiction; try reflexivity.
  - cbn [Expression_and fold_left].
    destruct (and_chain_shape more c c') as (x & y & ->).
    cbn [equals Expression_TRUE r].
    destruct c as [| |o op t z|o op t z e|]; try reflexivity;
      destruct op; reflexivity.
Qed.
End HavingPushDown.

Lemma having_pushdown_single_conjunct_witness :
  @expressionToDimensionInflaterHaving Examples.collaborators Examples.splitPlanner
    Examples.tagsRef "tags" (and_ Examples.tagsIsAB Examples.countAboveTen)
  = Ok {| dih_virtualColumn := None;
          dih_dimension :=
            listFiltered (DimensionSpecFull "default" "tags" "tags" None None)
              (Some [AString "a"; AString "b"]);
          dih_inflater := Some (setStringInflaterFactory "tags");
          dih_having := Examples.countAboveTen |}.
Proof.
  apply (@having_pushdown_single_conjunct Examples.collaborators Examples.splitPlanner
           Examples.tagsRef "tags" (and_ Examples.tagsIsAB Examples.countAboveTen)
           {| di_virtualColumn := None;
              di_dimension := DimensionSpecFull "default" "tags" "tags" None None;
              di_inflater := Some (setStringInflaterFactory "tags") |});
    reflexivity.
Defined.

(** C5 as the specification words it fails when two conjuncts
    constrain the label: neither is pushed into the dimension, and the
    whole having filter is the leftover. *)
Lemma having_two_constraints_not_pushed :
  @expressionToDimensionInflaterHaving Examples.collaborators Examples.splitPlanner
    Examples.tagsRef "tags" (and_ Examples.tagsMatch Examples.tagsIsAB)
  = Ok {| dih_virtualColumn := None;
          dih_dimension := DimensionSpecFull "default" "tags" "tags" None None;
          dih_inflater := Some (setStringInflaterFactory "tags");
          dih_having := and_ Examples.tagsMatch Examples.tagsIsAB |}.
Proof. reflexivity. Qed.

(* ====================================================================== *)
(** ** Shape selection for a split *)
(* ====================================================================== *)

Section ShapeSelection.
Context `{Collaborators}.

Lemma topNCompatibleSort_total (ext : External) (a : list ApplyExpression) :
  applies ext = Some a ->
  topNCompatibleSort ext = Ok (topNCompatible ext).
Proof.
  intros Ha. unfold topNCompatible, topNCompatibleSort. rewrite Ha.
  destruct (sort ext) as [s|]; [|reflexivity].
  destruct (sort_expression s); try reflexivity.
  destruct (find _ a); reflexivity.
Qed.

Lemma canBeTimeseries_choice (ext : External) (label : string)
  (splitExpression : Expression) :
  (if negb (truthy (limit ext))
      && isTimestampCompatibleSort (sort ext) label
      && equals (havingFilter ext) Expression_TRUE
   then splitExpressionToGranularityInflater ext splitExpression label
   else None)
  = if canBeTimeseries ext label splitExpression
    then splitExpressionToGranularityInflater ext splitExpression label
    else None.
Proof.
  unfold canBeTimeseries.
  destruct (negb (truthy (limit ext))
            && isTimestampCompatibleSort (sort ext) label
            && equals (havingFilter ext) Expression_TRUE); [|reflexivity].
  destruct (splitExpressionToGranularityInflater ext splitExpression label);
    reflexivity.
Qed.

(** C1, as the code has it.  For a planner with the single split key
    [label], applies, and a query selection other than [group-by-only]:
    when the split can be a time series [splitToDruid] returns the
    shape [timeseries]; otherwise it lowers the split key to a
    dimension, and if that succeeds it returns [topN] when the leftover
    having filter passes the test for a topN and [groupBy] when it does
    not; if the lowering throws, [splitToDruid] throws the same error. *)
Theorem single_split_shape (ext : External) (split : SplitExpression)
  (label : string) (splitExpression : Expression) (a : list ApplyExpression) :
  splits split = [(label, splitExpression)] ->
  applies ext = Some a ->
  querySelection ext <> Some group_by_only ->
  (canBeTimeseries ext label splitExpression = true ->
   exists shape,
     splitToDruid ext split = Ok shape /\ ds_queryType shape = "timeseries")
  /\ (canBeTimeseries ext label splitExpression = false ->
      forall lowered,
        expressionToDimensionInflaterHaving ext splitExpression label (havingFilter ext)
          = Ok lowered ->
        exists shape,
          splitToDruid ext split = Ok shape
          /\ ds_queryType shape
             = if canBeTopN ext split (dih_having lowered) then "topN" else "groupBy")
  /\ (canBeTimeseries ext label splitExpression = false ->
      forall message,
        expressionToDimensionInflaterHaving ext splitExpression label (havingFilter ext)
          = Throw message ->
        splitToDruid ext split = Throw message).
Proof.
  intros Hsplits Happlies Hselection.
  assert (Hany : isGroupByOnly (getQuerySelection ext) = false).
  { unfold getQuerySelection. destruct (querySelection ext) as [[|]|];
      try reflexivity. congruence. }
  assert (Hsingle : isMultiSplit split = false).
  { unfold isMultiSplit, numSplits. now rewrite Hsplits. }
  unfold splitToDruid.
  rewrite Hany, Hsingle, Hsplits, canBeTimeseries_choice. cbn [orb].
  split; [|split].
  - intros E. rewrite E. unfold canBeTimeseries in E.
    apply andb_true_iff in E as [_ E].
    destruct (splitExpressionToGranularityInflater ext splitExpression label);
      [|discriminate].
    eexists. split; reflexivity.
  - intros E lowered Hlowered. rewrite E, Hlowered. cbn [rbind].
    unfold canBeTopN. rewrite (topNCompatibleSort_total ext Happlies), Hany.
    destruct (equals (dih_having lowered) Expression_TRUE
              && (truthy (limit ext) || belowThousand (maxBucketNumber split))
              && negb (exactResultsOnly ext)); cbn [rbind andb negb].
    + rewrite andb_true_r.
      destruct (topNCompatible ext); eexists; split; reflexivity.
    + eexists; split; reflexivity.
  - intros E message Hthrow. rewrite E, Hthrow. reflexivity.
Qed.
(** With several split keys, or under [group-by-only], the shape is
    [groupBy] as soon as the keys can be lowered. *)
Lemma multi_split_shape (ext : External) (split : SplitExpression)
  (lowered : list VirtualColumn * list DimensionSpec * list (option Inflater)
             * Expression) :
  isGroupByOnly (getQuerySelection ext) || isMultiSplit split = true ->
  lowerSplits ext (splits split) (havingFilter ext) = Ok lowered ->
  exists shape, splitToDruid ext split = Ok shape /\ ds_queryType shape = "groupBy".
Proof.
  intros Hmulti Hlowered. unfold splitToDruid. rewrite Hmulti, Hlowered.
  destruct lowered as [[[virtualColumns dimensions] inflaters] leftover].
  eexists. split; reflexivity.
Qed.

End ShapeSelection.

Lemma single_split_shape_witness :
  (@canBeTimeseries Examples.collaborators Examples.topPages "page" (ref "page") = true ->
   exists shape,
     @splitToDruid Examples.collaborators Examples.topPages Examples.byPage = Ok shape
     /\ ds_queryType shape = "timeseries")
  /\ (@canBeTimeseries Examples.collaborators Examples.topPages "page" (ref "page") = false ->
      forall lowered,
        @expressionToDimensionInflaterHaving Examples.collaborators Examples.topPages
          (ref "page") "page" (havingFilter Examples.topPages) = Ok lowered ->
        exists shape,
          @splitToDruid Examples.collaborators Examples.topPages Examples.byPage
            = Ok shape
          /\ ds_queryType shape
             = if @canBeTopN Examples.collaborators Examples.topPages Examples.byPage
                    (dih_having lowered)
               then "topN" else "groupBy")
  /\ (@canBeTimeseries Examples.collaborators Examples.topPages "page" (ref "page") = false ->
      forall message,
        @expressionToDimensionInflaterHaving Examples.collaborators Examples.topPages
          (ref "page") "page" (havingFilter Examples.topPages) = Throw message ->
        @splitToDruid Examples.collaborators Examples.topPages Examples.byPage
          = Throw message).
Proof.
  apply (@single_split_shape Examples.collaborators Examples.topPages Examples.byPage
           "page" (ref "page")
           [apply_ Expression_ "revenue" (sum_ (ref "main") (ref "added"))]).
  - reflexivity.
  - reflexivity.
  - discriminate.
Defined.

(** Scenario 3: the split by page with a limit is a [topN]. *)
Example topPages_is_topN :
  option_map ds_queryType
    (match @splitToDruid Examples.collaborators Examples.topPages Examples.byPage with
     | Ok shape => Some shape
     | Throw _ => None
     end) = Some "topN".
Proof. reflexivity. Qed.

(** C1 as the specification words it fails for a split key that cannot
    be lowered: with the un-splitable [revenue_hll] as the single split
    key (and a limit, so that the split is no time series)
    [splitToDruid] throws and returns no shape at all. *)
Lemma unsplitable_split_has_no_shape :
  splits Examples.byMetric = [("Metric", ref "revenue_hll")]
  /\ mode Examples.topMetrics = Split
  /\ querySelection Examples.topMetrics = None
  /\ @splitToDruid Examples.collaborators Examples.topMetrics Examples.byMetric
     = Throw "can not convert $revenue_hll to split because it references an un-splitable metric 'revenue_hll' which is most likely rolled up.".
Proof. repeat split. Qed.

(* ====================================================================== *)
(** ** The nested group-by rewrite: one inner split *)
(* ====================================================================== *)

Unset Implicit Arguments.

Section Walk.
Context `{Collaborators}.

Lemma visitAll_app (i : nat) (l1 l2 : list Expression) (s : Captured) :
  visitAll i (l1 ++ l2) s
  = match visitAll i l1 s with
    | Ok s' => visitAll i l2 s'
    | Throw message => Throw message
    end.
Proof.
  revert s. induction l1 as [|a l1 IH]; intros s; simpl; [reflexivity|].
  destruct (visit i a s); [apply IH | reflexivity].
Qed.

Lemma splitUpAggregate_skips (i : nat) (ex : Expression) (s : Captured) :
  isAggregate ex = false -> splitUpAggregate i ex s = Ok (None, s).
Proof. intros E. unfold splitUpAggregate. now rewrite E. Qed.

Lemma splitUpAggregate_replaces (i : nat) (ex : Expression) (s s' : Captured) :
  isAggregate ex = true -> splitUpAggregate i ex s <> Ok (None, s').
Proof.
  intros E. unfold splitUpAggregate. rewrite E.
  destruct (parseResplitAgg ex) as [resplit|].
  - unfold bind, get, ret, throw, pushInnerApply, pushOuterAttribute, modify,
      setGlobalResplitSplit.
    destruct (globalResplitSplit s).
    + destruct (negb _); [discriminate|].
      destruct (getFilterSubExpression _); discriminate.
    + destruct (getFilterSubExpression _); discriminate.
  - unfold bind, get, ret, throw, pushInnerApply, pushOuterAttribute, modify, setC.
    destruct ex as [| |o op t x|o op t x e|]; try discriminate.
    destruct op; discriminate.
Qed.

Lemma substituteM_split {S} (fn : Expression -> M S (option Expression))
  (o : Options) (x : Expression) (sp : Splits) (d : option string) :
  substituteM fn (ESplit o x sp d)
  = bind (fn (ESplit o x sp d))
      (fun sub =>
         match sub with
         | Some replacement => ret replacement
         | None =>
             bind (substituteM fn x)
               (fun x' => bind (eachSplitM fn sp)
                            (fun sp' => ret (ESplit o x' sp' d)))
         end).
Proof. reflexivity. Qed.

Lemma substituteM_visits (i : nat) (ex : Expression) :
  forall s,
    stateOf (substituteM (splitUpAggregate i) ex s)
    = visitAll i (outermostAggregates ex) s.
Proof.
  induction ex as [o v|o n k t ci|o op t x IHx|o op t x e IHx IHe|o x sp d IHx IHs]
    using Expression_induction; intros s.
  - reflexivity.
  - reflexivity.
  - cbn [substituteM outermostAggregates]. unfold bind at 1.
    destruct (isAggregate (EChainable o op t x)) eqn:A.
    + cbn [visitAll]. unfold visit.
      destruct (splitUpAggregate i (EChainable o op t x) s) as [[[sub|] s']|m] eqn:E.
      * reflexivity.
      * exfalso. eapply splitUpAggregate_replaces; eauto.
      * reflexivity.
    + rewrite (splitUpAggregate_skips _ _ _ A).
      unfold bind. rewrite <- IHx.
      destruct (substituteM (splitUpAggregate i) x s) as [[x' s']|]; reflexivity.
  - cbn [substituteM outermostAggregates]. unfold bind at 1.
    destruct (isAggregate (EChainableUnary o op t x e)) eqn:A.
    + cbn [visitAll]. unfold visit.
      destruct (splitUpAggregate i (EChainableUnary o op t x e) s) as [[[sub|] s']|m] eqn:E.
      * reflexivity.
      * exfalso. eapply splitUpAggregate_replaces; eauto.
      * reflexivity.
    + rewrite (splitUpAggregate_skips _ _ _ A).
      rewrite visitAll_app, <- IHx. unfold bind.
      destruct (substituteM (splitUpAggregate i) x s) as [[x' s']|]; [|reflexivity].
      cbn [stateOf]. rewrite <- IHe.
      destruct (substituteM (splitUpAggregate i) e s') as [[e' s'']|]; reflexivity.
  - rewrite substituteM_split. cbn [outermostAggregates isAggregate].
    unfold bind at 1.
    rewrite (splitUpAggregate_skips i (ESplit o x sp d) s eq_refl).
    rewrite visitAll_app, <- IHx. unfold bind at 1.
    destruct (substituteM (splitUpAggregate i) x s) as [[x' s']|]; [|reflexivity].
    cbn [stateOf]. clear IHx.
    assert (E : forall s0, stateOf (eachSplitM (splitUpAggregate i) sp s0)
                = visitAll i (flat_map (fun kv => outermostAggregates (snd kv)) sp) s0).
    { induction IHs as [|kv more Hkv _ IHmore]; intros s0.
      - reflexivity.
      - cbn [flat_map eachSplitM]. rewrite visitAll_app, <- Hkv.
        unfold bind at 1.
        destruct (substituteM (splitUpAggregate i) (snd kv) s0) as [[e' s1]|];
          [|reflexivity].
        cbn [stateOf]. rewrite <- IHmore. unfold bind.
        destruct (eachSplitM (splitUpAggregate i) more s1) as [[m' s2]|]; reflexivity. }
    rewrite <- E. unfold bind.
    destruct (eachSplitM (splitUpAggregate i) sp s') as [[sp' s2]|]; reflexivity.
Qed.

(** *** The walk over the applies, as far as the split check goes *)

Lemma splitUpApplies_walk (l : list ApplyExpression) :
  forall i s, stateOf (splitUpApplies i l s) = walk i l s.
Proof.
  induction l as [|apply more IH]; intros i s; [reflexivity|].
  cbn [splitUpApplies walk]. rewrite <- substituteM_visits.
  unfold bind at 1. unfold setC, modify. fold (resetC s).
  unfold bind at 1.
  destruct (substituteM (splitUpAggregate i) (apply_expression apply) (resetC s))
    as [[e' s']|]; [|reflexivity].
  cbn [stateOf]. rewrite <- IH. unfold bind.
  destruct (splitUpApplies (S i) more s') as [[more' s'']|]; reflexivity.
Qed.

Lemma visit_judge (i : nat) (aggregate : Expression) (s : Captured) :
  isAggregate aggregate = true ->
  globalOf (visit i aggregate s) = judge (globalResplitSplit s) aggregate.
Proof.
  intros A. unfold visit, judge, splitUpAggregate. rewrite A.
  destruct (parseResplitAgg aggregate) as [resplit|].
  - unfold bind, get, ret, throw, pushInnerApply, pushOuterAttribute, modify,
      setGlobalResplitSplit.
    destruct (globalResplitSplit s) as [g|] eqn:G.
    + destruct (split_equals g (resplitSplit resplit)); cbn [negb]; [|reflexivity].
      destruct (getFilterSubExpression _); cbn; now rewrite G.
    + destruct (getFilterSubExpression _); reflexivity.
  - unfold bind, get, ret, throw, pushInnerApply, pushOuterAttribute, modify, setC.
    destruct aggregate as [| |o op t x|o op t x e|]; try discriminate.
    + destruct op; try discriminate; reflexivity.
    + reflexivity.
Qed.

Lemma outermostAggregates_aggregate (ex a : Expression) :
  List.In a (outermostAggregates ex) -> isAggregate a = true.
Proof.
  induction ex as [o v|o n k t ci|o op t x IHx|o op t x e IHx IHe|o x sp d IHx IHs]
    using Expression_induction; cbn [outermostAggregates].
  - intros [].
  - intros [].
  - destruct (isAggregate (EChainable o op t x)) eqn:A.
    + intros [<-|[]]. exact A.
    + exact IHx.
  - destruct (isAggregate (EChainableUnary o op t x e)) eqn:A.
    + intros [<-|[]]. exact A.
    + intros I. apply in_app_or in I as [I|I]; auto.
  - cbn [isAggregate]. intros I. apply in_app_or in I as [I|I]; [auto|].
    apply in_flat_map in I as (kv & Ikv & I).
    rewrite Forall_forall in IHs. exact (IHs kv Ikv I).
Qed.

Lemma visitAll_judgeAll (i : nat) (l : list Expression) :
  Forall (fun a => isAggregate a = true) l ->
  forall s, globalOf (visitAll i l s) = judgeAll (globalResplitSplit s) l.
Proof.
  induction 1 as [|a l A _ IH]; intros s; [reflexivity|].
  cbn [visitAll judgeAll]. rewrite <- (visit_judge i a s A).
  destruct (visit i a s) as [s'|]; [apply IH | reflexivity].
Qed.

Lemma judgeAll_app (g : option SplitExpression) (l1 l2 : list Expression) :
  judgeAll g (l1 ++ l2)
  = match judgeAll g l1 with
    | Ok g' => judgeAll g' l2
    | Throw message => Throw message
    end.
Proof.
  revert g. induction l1 as [|a l1 IH]; intros g; [reflexivity|].
  cbn [judgeAll app]. destruct (judge g a); [apply IH | reflexivity].
Qed.

Lemma walk_judgeAll (l : list ApplyExpression) :
  forall i s, globalOf (walk i l s) = judgeAll (globalResplitSplit s) (visited l).
Proof.
  induction l as [|apply more IH]; intros i s; [reflexivity|].
  cbn [walk visited flat_map]. rewrite judgeAll_app.
  change (globalResplitSplit s) with (globalResplitSplit (resetC s)).
  rewrite <- (visitAll_judgeAll i).
  - destruct (visitAll i _ (resetC s)) as [s'|]; [apply IH | reflexivity].
  - apply Forall_forall. intros a. apply outermostAggregates_aggregate.
Qed.

Lemma ofSplit_injective (a b : SplitExpression) : ofSplit a = ofSplit b -> a = b.
Proof. destruct a, b. unfold ofSplit. cbn. now intros [= -> -> -> ->]. Qed.

Lemma split_equals_eq (a b : SplitExpression) : split_equals a b = true <-> a = b.
Proof.
  unfold split_equals. rewrite equals_eq. split.
  - apply ofSplit_injective.
  - now intros ->.
Qed.

Lemma judge_plain (g : option SplitExpression) (a : Expression) :
  parseResplitAgg a = None -> isCustom a = false -> judge g a = Ok g.
Proof.
  intros P C. unfold judge. rewrite P.
  destruct a as [| |o op t x|o op t x e|]; try reflexivity.
  destruct op; try reflexivity. discriminate.
Qed.

Lemma judge_custom (g : option SplitExpression) (a : Expression) :
  parseResplitAgg a = None -> isCustom a = true -> judge g a = Throw customMessage.
Proof.
  intros P C. unfold judge. rewrite P.
  destruct a as [| |o op t x|o op t x e|]; try discriminate.
  destruct op; try discriminate. reflexivity.
Qed.

(** A run of supported aggregates either stops at a split that
    differs, or ends with the one split all its re-split aggregates
    have. *)
Lemma judgeAll_supported (l : list Expression) :
  (forall b, List.In b l -> parseResplitAgg b = None -> isCustom b = false) ->
  forall g,
    judgeAll g l = Throw sameSplitMessage
    \/ exists g',
         judgeAll g l = Ok g'
         /\ (forall g0, g = Some g0 -> g' = Some g0)
         /\ (forall a r, List.In a l -> parseResplitAgg a = Some r ->
                        g' = Some (resplitSplit r)).
Proof.
  induction l as [|a l IH]; intros Hsup g.
  - right. exists g. repeat split; auto. intros a r [].
  - assert (Htail : forall b, List.In b l -> parseResplitAgg b = None -> isCustom b = false)
      by (intros b I; apply Hsup; now right).
    cbn [judgeAll].
    destruct (parseResplitAgg a) as [r|] eqn:P.
    + unfold judge. rewrite P. destruct g as [g0|].
      * destruct (split_equals g0 (resplitSplit r)) eqn:E; [|now left].
        apply split_equals_eq in E. subst g0.
        destruct (IH Htail (Some (resplitSplit r))) as [T|(g' & J & Keep & All)];
          [now left|].
        right. exists g'. split; [exact J|]. split.
        -- intros g0 [= <-]. now apply Keep.
        -- intros a' r' [<-|I] P'.
           ++ rewrite P in P'. injection P' as <-. now apply Keep.
           ++ eauto.
      * destruct (IH Htail (Some (resplitSplit r))) as [T|(g' & J & Keep & All)];
          [now left|].
        right. exists g'. split; [exact J|]. split; [discriminate|].
        intros a' r' [<-|I] P'.
        -- rewrite P in P'. injection P' as <-. now apply Keep.
        -- eauto.
    + rewrite (judge_plain g a P (Hsup a (or_introl eq_refl) P)).
      destruct (IH Htail g) as [T|(g' & J & Keep & All)]; [now left|].
      right. exists g'. split; [exact J|]. split; [exact Keep|].
      intros a' r' [<-|I] P'; [congruence | eauto].
Qed.

Lemma judgeAll_disagreement (pre post : list Expression) (a a' : Expression)
  (r r' : ParsedResplitAgg) :
  parseResplitAgg a = Some r ->
  List.In a' pre -> parseResplitAgg a' = Some r' ->
  split_equals (resplitSplit r') (resplitSplit r) = false ->
  (forall b, List.In b pre -> parseResplitAgg b = None -> isCustom b = false) ->
  judgeAll None (pre ++ a :: post) = Throw sameSplitMessage.
Proof.
  intros P I P' D Hsup. rewrite judgeAll_app.
  destruct (judgeAll_supported pre Hsup None) as [-> | (g' & -> & _ & All)];
    [reflexivity|].
  rewrite (All a' r' I P'). cbn [judgeAll]. unfold judge. now rewrite P, D.
Qed.

Lemma judgeAll_agreement (l : list Expression) :
  (forall a a' r r',
      List.In a l -> List.In a' l ->
      parseResplitAgg a = Some r -> parseResplitAgg a' = Some r' ->
      split_equals (resplitSplit r) (resplitSplit r') = true) ->
  forall g,
    (forall g0 a r, g = Some g0 -> List.In a l -> parseResplitAgg a = Some r ->
                    split_equals g0 (resplitSplit r) = true) ->
    judgeAll g l <> Throw sameSplitMessage.
Proof.
  induction l as [|a l IH]; intros Hpair g Hg; [discriminate|].
  assert (Htail : forall a0 a' r r',
             List.In a0 l -> List.In a' l ->
             parseResplitAgg a0 = Some r -> parseResplitAgg a' = Some r' ->
             split_equals (resplitSplit r) (resplitSplit r') = true)
    by (intros; eapply Hpair; eauto; now right).
  cbn [judgeAll]. destruct (parseResplitAgg a) as [r|] eqn:P.
  - unfold judge. rewrite P. destruct g as [g0|].
    + rewrite (Hg g0 a r eq_refl (or_introl eq_refl) P).
      apply IH; [exact Htail|]. intros g1 a' r' [= <-] I P'.
      eapply Hg; eauto. now right.
    + apply IH; [exact Htail|]. intros g1 a' r' [= <-] I P'.
      eapply Hpair; eauto; [now left | now right].
  - destruct (isCustom a) eqn:C.
    + rewrite (judge_custom g a P C). discriminate.
    + rewrite (judge_plain g a P C).
      apply IH; [exact Htail|]. intros g0 a' r' E I P'.
      eapply Hg; eauto. now right.
Qed.

Lemma outermostAggregates_subexpressions (ex a : Expression) :
  List.In a (outermostAggregates ex) -> List.In a (subexpressions ex).
Proof.
  induction ex as [o v|o n k t ci|o op t x IHx|o op t x e IHx IHe|o x sp d IHx IHs]
    using Expression_induction; cbn [outermostAggregates subexpressions].
  - intros [].
  - intros [].
  - destruct (isAggregate (EChainable o op t x)).
    + intros [<-|[]]. now left.
    + intros I. right. auto.
  - destruct (isAggregate (EChainableUnary o op t x e)).
    + intros [<-|[]]. now left.
    + intros I. right. apply in_or_app. apply in_app_or in I as [I|I]; auto.
  - cbn [isAggregate]. intros I. right. apply in_or_app.
    apply in_app_or in I as [I|I]; [auto|]. right.
    apply in_flat_map in I as (kv & Ikv & I). apply in_flat_map.
    exists kv. split; [exact Ikv|]. rewrite Forall_forall in IHs. exact (IHs kv Ikv I).
Qed.

Lemma resplit_holds_split (a : Expression) (r : ParsedResplitAgg) :
  parseResplitAgg a = Some r -> some splitIter a = true.
Proof.
  unfold parseResplitAgg.
  destruct (negb (isChainable a) || negb (isAggregate a)); [discriminate|].
  destruct (operandOf a) as [[| | |o' op' t' x' e'|]|] eqn:O; try discriminate.
  destruct op'; try discriminate.
  destruct x' as [| | | |so sx ss sd]; try discriminate. intros _.
  destruct a as [| |o op t x|o op t x e|o x sp d]; try discriminate;
    cbn [operandOf] in O; injection O as ->; reflexivity.
Qed.

Lemma outermost_split_found (ex a : Expression) :
  List.In a (outermostAggregates ex) -> some splitIter a = true ->
  some splitIter ex = true.
Proof.
  induction ex as [o v|o n k t ci|o op t x IHx|o op t x e IHx IHe|o x sp d IHx IHs]
    using Expression_induction; cbn [outermostAggregates].
  - intros [].
  - intros [].
  - destruct (isAggregate (EChainable o op t x)).
    + now intros [<-|[]].
    + cbn [some splitIter]. exact IHx.
  - destruct (isAggregate (EChainableUnary o op t x e)).
    + now intros [<-|[]].
    + cbn [some splitIter]. intros I S. apply orb_true_iff.
      apply in_app_or in I as [I|I]; auto.
  - reflexivity.
Qed.

Lemma visited_containsSplit (l : list ApplyExpression) (a : Expression)
  (r : ParsedResplitAgg) :
  List.In a (visited l) -> parseResplitAgg a = Some r ->
  existsb containsSplit l = true.
Proof.
  intros I P. apply in_flat_map in I as (apply & Iapply & I).
  apply existsb_exists. exists apply. split; [exact Iapply|].
  unfold containsSplit. eapply outermost_split_found; eauto.
  eapply resplit_holds_split; eauto.
Qed.

Lemma splitUpApplies_judgeAll (l : list ApplyExpression) :
  globalOf (stateOf (splitUpApplies 0 l noneCaptured)) = judgeAll None (visited l).
Proof. rewrite splitUpApplies_walk. apply (walk_judgeAll l 0 noneCaptured). Qed.

Lemma splitUpApplies_throws (l : list ApplyExpression) (message : string) :
  judgeAll None (visited l) = Throw message <->
  splitUpApplies 0 l noneCaptured = Throw message.
Proof.
  rewrite <- splitUpApplies_judgeAll.
  destruct (splitUpApplies 0 l noneCaptured) as [[l' s]|m]; cbn; split; congruence.
Qed.

Lemma visited_allSubexpressions (l : list ApplyExpression) (a : Expression) :
  List.In a (visited l) -> List.In a (allSubexpressions l).
Proof.
  intros I. apply in_flat_map in I as (apply & Iapply & I).
  apply in_flat_map. exists apply. split; [exact Iapply|].
  now apply outermostAggregates_subexpressions.
Qed.

Lemma resplitsAgree_pairs (expressions : list Expression) :
  resplitsAgree expressions = true ->
  forall a a' r r',
    List.In a expressions -> List.In a' expressions ->
    parseResplitAgg a = Some r -> parseResplitAgg a' = Some r' ->
    split_equals (resplitSplit r) (resplitSplit r') = true.
Proof.
  unfold resplitsAgree. rewrite forallb_forall.
  intros Hall a a' r r' I I' P P'.
  specialize (Hall a I). rewrite forallb_forall in Hall.
  specialize (Hall a' I'). now rewrite P, P' in Hall.
Qed.
End Walk.

(** *** Typed references to datasets and the shape of a re-split aggregate *)

Lemma putFilter_plain (f ex : Expression) :
  isDatasetRef ex = false -> putFilter f ex = None.
Proof. destruct ex as [| o n k [[]|] i | | |]; try reflexivity. discriminate. Qed.

Lemma datasetFree_node (ex : Expression) :
  datasetFree ex = true -> isDatasetRef ex = false.
Proof.
  unfold datasetFree. destruct ex; cbn [subexpressions forallb];
    intros E; apply andb_true_iff in E as [E _]; now apply negb_true_iff in E.
Qed.

(** The substitution leaves an expression without dataset references
    as it is. *)
Lemma substitute_datasetFree (f ex : Expression) :
  datasetFree ex = true -> substitute (putFilter f) ex = ex.
Proof.
  induction ex as [o v|o n k t ci|o op t x IHx|o op t x e IHx IHe|o x sp d IHx IHs]
    using Expression_induction; intros Hfree;
    pose proof (datasetFree_node _ Hfree) as Hnode;
    cbn [substitute]; rewrite (putFilter_plain f _ Hnode); try reflexivity;
    unfold datasetFree in Hfree; cbn [subexpressions forallb] in Hfree;
    apply andb_true_iff in Hfree as [_ Hfree].
  - rewrite IHx; [reflexivity|exact Hfree].
  - rewrite forallb_app in Hfree. apply andb_true_iff in Hfree as [Hx He].
    rewrite IHx, IHe; [reflexivity|exact He|exact Hx].
  - rewrite forallb_app in Hfree. apply andb_true_iff in Hfree as [Hx Hs].
    rewrite IHx by exact Hx. f_equal. clear Hnode IHx Hx.
    induction IHs as [|kv more Hkv _ IHmore]; [reflexivity|].
    cbn [flat_map] in Hs. rewrite forallb_app in Hs.
    apply andb_true_iff in Hs as [Hhere Hmore].
    cbn [map]. rewrite Hkv by exact Hhere. rewrite IHmore by exact Hmore.
    destruct kv; reflexivity.
Qed.

(** *** The shape of a re-split aggregate *)

Lemma parseResplitAgg_shape (a : Expression) (r : ParsedResplitAgg) :
  parseResplitAgg a = Some r ->
  exists applyOptions name applyType splitOptions source keys data argument,
    isAggregate a = true
    /\ operandOf a
       = Some (EChainableUnary applyOptions (Apply name) applyType
                 (ESplit splitOptions source keys data) argument)
    /\ resplitSource source = true
    /\ resplitSplit r
       = {| split_options := splitOptions; split_operand := Expression_;
            splits := keys; dataName := data |}
    /\ apply_expression (resplitApply r)
       = match source with
         | EChainableUnary _ Filter _ _ filterExpression =>
             substitute (putFilter filterExpression) argument
         | _ => argument
         end.
Proof.
  unfold parseResplitAgg.
  destruct (isChainable a); [|discriminate].
  destruct (isAggregate a); [|discriminate]. cbn [negb orb].
  destruct (operandOf a) as [[| | |ao aop at_ ax ae|]|]; try discriminate.
  destruct aop; try discriminate.
  destruct ax as [| | | |so src keys dn]; try discriminate.
  destruct src as [| | |fo fop ft fx fe|]; try discriminate.
  - intros [= <-]. eexists _, _, _, _, _, _, _, _. repeat split.
  - destruct fop; try discriminate.
    destruct fx; try discriminate.
    intros [= <-]. eexists _, _, _, _, _, _, _, _. repeat split.
Qed.

Lemma parseResplitAgg_of_shape (a : Expression)
  (applyOptions : Options) (name : string) (applyType : option PlyType)
  (splitOptions : Options) (source : Expression) (keys : Splits)
  (data : option string) (argument : Expression) :
  isAggregate a = true ->
  operandOf a
  = Some (EChainableUnary applyOptions (Apply name) applyType
            (ESplit splitOptions source keys data) argument) ->
  resplitSource source = true ->
  exists r,
    parseResplitAgg a = Some r
    /\ resplitSplit r
       = {| split_options := splitOptions; split_operand := Expression_;
            splits := keys; dataName := data |}.
Proof.
  intros Hagg Hoperand Hsource. unfold parseResplitAgg. rewrite Hagg, Hoperand.
  assert (Hchain : isChainable a = true)
    by (destruct a; try discriminate; reflexivity).
  rewrite Hchain. cbn [negb orb].
  destruct source as [| | |fo fop ft fx fe|]; try discriminate.
  - eexists. split; reflexivity.
  - destruct fop; try discriminate. destruct fx; try discriminate.
    eexists. split; reflexivity.
Qed.

(** *** The substitution and the shape of the nodes *)

Lemma substitute_not_aggregate (f ex : Expression) :
  isAggregate (substitute (putFilter f) ex) = isAggregate ex.
Proof.
  destruct ex as [| o n k [[]|] i | | |]; reflexivity.
Qed.

Lemma substitute_operand (f ex : Expression) :
  isAggregate ex = true ->
  operandOf (substitute (putFilter f) ex)
  = option_map (substitute (putFilter f)) (operandOf ex).
Proof. destruct ex; try discriminate; reflexivity. Qed.

Lemma substitute_apply_inv (f ex : Expression) (o : Options) (name : string)
  (t : option PlyType) (x' e' : Expression) :
  substitute (putFilter f) ex = EChainableUnary o (Apply name) t x' e' ->
  exists x e,
    ex = EChainableUnary o (Apply name) t x e
    /\ x' = substitute (putFilter f) x /\ e' = substitute (putFilter f) e.
Proof.
  destruct ex as [| o0 n k [[]|] i | |o0 op t0 x e|]; try discriminate.
  cbn [substitute putFilter]. intros [= -> -> -> <- <-]. eauto.
Qed.

Lemma substitute_split_inv (f ex : Expression) (o : Options)
  (source' : Expression) (keys' : Splits) (d : option string) :
  substitute (putFilter f) ex = ESplit o source' keys' d ->
  exists source keys,
    ex = ESplit o source keys d
    /\ source' = substitute (putFilter f) source
    /\ keys' = map (fun kv => (fst kv, substitute (putFilter f) (snd kv))) keys.
Proof.
  destruct ex as [| o0 n k [[]|] i | | |o0 x sp d0]; try discriminate.
  cbn [substitute putFilter]. intros [= -> <- <- ->]. eauto.
Qed.

Lemma resplitSource_substitute (f source : Expression) :
  resplitSource (substitute (putFilter f) source) = true ->
  resplitSource source = true.
Proof.
  destruct source as [| | |o op t x e|]; try discriminate; try reflexivity.
  cbn [substitute putFilter]. destruct op; try discriminate.
  destruct x as [| o0 n k [[]|] i | | |]; try discriminate; reflexivity.
Qed.

(** A node that is a re-split aggregate after the substitution was one
    before it, over the same split but for the substitution in the
    keys. *)
Lemma parseResplitAgg_substitute (f a : Expression) (r' : ParsedResplitAgg) :
  parseResplitAgg (substitute (putFilter f) a) = Some r' ->
  exists r,
    parseResplitAgg a = Some r
    /\ resplitSplit r'
       = {| split_options := split_options (resplitSplit r);
            split_operand := Expression_;
            splits := map (fun kv => (fst kv, substitute (putFilter f) (snd kv)))
                        (splits (resplitSplit r));
            dataName := dataName (resplitSplit r) |}.
Proof.
  intros Hparse.
  apply parseResplitAgg_shape in Hparse
    as (ao & name & at_ & so & source' & keys' & dn & ae'
        & Hagg & Hoperand & Hsource & Hsplit & _).
  rewrite substitute_not_aggregate in Hagg.
  rewrite (substitute_operand _ _ Hagg) in Hoperand.
  destruct (operandOf a) as [operand|] eqn:Ho; [|discriminate].
  cbn [option_map] in Hoperand. injection Hoperand as Hoperand.
  apply substitute_apply_inv in Hoperand as (x & e & -> & Hx & _).
  symmetry in Hx. apply substitute_split_inv in Hx as (source & keys & -> & -> & ->).
  apply resplitSource_substitute in Hsource.
  destruct (parseResplitAgg_of_shape a _ _ _ _ _ _ _ _ Hagg Ho Hsource)
    as (r & Hr & Hrs).
  exists r. split; [exact Hr|]. rewrite Hsplit, Hrs. reflexivity.
Qed.

(** *** The nodes of the tree after the substitution *)

Lemma subexpressions_self (ex : Expression) : List.In ex (subexpressions ex).
Proof. destruct ex; left; reflexivity. Qed.

Lemma subexpressions_substitute (f ex node : Expression) :
  List.In node (subexpressions (substitute (putFilter f) ex)) ->
  (exists original,
      List.In original (subexpressions ex)
      /\ node = substitute (putFilter f) original)
  \/ isDatasetRef node = true
  \/ List.In node (subexpressions f).
Proof.
  induction ex as [o v|o n k t ci|o op t x IHx|o op t x e IHx IHe|o x sp d IHx IHs]
    using Expression_induction.
  - intros [<-|[]]. left. eexists. split; [left; reflexivity|reflexivity].
  - destruct (isDatasetRef (ERef o n k t ci)) eqn:Hds.
    + destruct t as [[]|]; try discriminate.
      cbn [substitute putFilter filter_ subexpressions].
      intros [<-|Hin].
      * left. eexists. split; [left; reflexivity|reflexivity].
      * cbn [app] in Hin. destruct Hin as [<-|Hin]; [right; left; reflexivity|].
        right. right. exact Hin.
    + cbn [substitute]. rewrite (putFilter_plain f _ Hds).
      intros [<-|[]]. left. eexists. split; [left; reflexivity|].
      cbn [substitute]. now rewrite (putFilter_plain f _ Hds).
  - cbn [substitute putFilter subexpressions]. intros [<-|Hin].
    + left. eexists. split; [left; reflexivity|reflexivity].
    + destruct (IHx Hin) as [(original & Ho & ->)|Hother]; [|right; exact Hother].
      left. eexists. split; [right; exact Ho|reflexivity].
  - cbn [substitute putFilter subexpressions]. intros [<-|Hin].
    + left. eexists. split; [left; reflexivity|reflexivity].
    + apply in_app_or in Hin as [Hin|Hin].
      * destruct (IHx Hin) as [(original & Ho & ->)|Hother]; [|right; exact Hother].
        left. eexists. split; [right; apply in_or_app; left; exact Ho|reflexivity].
      * destruct (IHe Hin) as [(original & Ho & ->)|Hother]; [|right; exact Hother].
        left. eexists. split; [right; apply in_or_app; right; exact Ho|reflexivity].
  - cbn [substitute putFilter subexpressions]. intros [<-|Hin].
    + left. eexists. split; [left; reflexivity|reflexivity].
    + apply in_app_or in Hin as [Hin|Hin].
      * destruct (IHx Hin) as [(original & Ho & ->)|Hother]; [|right; exact Hother].
        left. eexists. split; [right; apply in_or_app; left; exact Ho|reflexivity].
      * apply in_flat_map in Hin as ([key e'] & Hkey & Hin).
        apply in_map_iff in Hkey as ([key0 e] & [= <- <-] & Hkey).
        cbn [snd] in Hin. rewrite Forall_forall in IHs.
        destruct (IHs _ Hkey Hin) as [(original & Ho & ->)|Hother];
          [|right; exact Hother].
        left. eexists. split; [|reflexivity].
        right. apply in_or_app. right. apply in_flat_map. eauto.
Qed.

Lemma parseResplitAgg_aggregate (a : Expression) (r : ParsedResplitAgg) :
  parseResplitAgg a = Some r -> isAggregate a = true.
Proof.
  intros Hparse. apply parseResplitAgg_shape in Hparse
    as (? & ? & ? & ? & ? & ? & ? & ? & Hagg & _). exact Hagg.
Qed.

(** A re-split aggregate in the tree after the substitution comes from
    one in the tree before it, or lies in the filter expression. *)
Lemma resplit_after_substitute (f ex node : Expression) (r' : ParsedResplitAgg) :
  List.In node (subexpressions (substitute (putFilter f) ex)) ->
  parseResplitAgg node = Some r' ->
  (exists original r,
      List.In original (subexpressions ex)
      /\ parseResplitAgg original = Some r
      /\ resplitSplit r'
         = {| split_options := split_options (resplitSplit r);
              split_operand := Expression_;
              splits := map (fun kv => (fst kv, substitute (putFilter f) (snd kv)))
                          (splits (resplitSplit r));
              dataName := dataName (resplitSplit r) |})
  \/ List.In node (subexpressions f).
Proof.
  intros Hin Hparse.
  destruct (subexpressions_substitute _ _ _ Hin)
    as [(original & Ho & ->)|[Hds|Hf]].
  - left. destruct (parseResplitAgg_substitute _ _ _ Hparse) as (r & Hr & Hsplit).
    exists original, r. auto.
  - apply parseResplitAgg_aggregate in Hparse.
    destruct node as [| o n k [[]|] i | | |]; discriminate.
  - right. exact Hf.
Qed.

(** *** Nodes of nodes, options, and the filter that is found *)

Lemma subexpressions_trans (ex node inner : Expression) :
  List.In node (subexpressions ex) ->
  List.In inner (subexpressions node) ->
  List.In inner (subexpressions ex).
Proof.
  induction ex as [o v|o n k t ci|o op t x IHx|o op t x e IHx IHe|o x sp d IHx IHs]
    using Expression_induction; cbn [subexpressions].
  - intros [<-|[]] Hinner. exact Hinner.
  - intros [<-|[]] Hinner. exact Hinner.
  - intros [<-|Hin] Hinner; [exact Hinner|]. right. auto.
  - intros [<-|Hin] Hinner; [exact Hinner|]. right. apply in_or_app.
    apply in_app_or in Hin as [Hin|Hin]; auto.
  - intros [<-|Hin] Hinner; [exact Hinner|]. right. apply in_or_app.
    apply in_app_or in Hin as [Hin|Hin]; [auto|]. right.
    apply in_flat_map in Hin as (kv & Hkv & Hin). apply in_flat_map.
    exists kv. split; [exact Hkv|]. rewrite Forall_forall in IHs. eauto.
Qed.

Lemma allSubexpressions_closed (l : list ApplyExpression) (node inner : Expression) :
  List.In node (allSubexpressions l) ->
  List.In inner (subexpressions node) ->
  List.In inner (allSubexpressions l).
Proof.
  intros Hin Hinner. apply in_flat_map in Hin as (apply & Happly & Hin).
  apply in_flat_map. exists apply. split; [exact Happly|].
  eapply subexpressions_trans; eauto.
Qed.

Lemma subexpressions_setOption (key : string) (value : bool) (ex node : Expression) :
  List.In node (subexpressions (setOption key value ex)) ->
  node = setOption key value ex \/ List.In node (subexpressions ex).
Proof.
  destruct ex; cbn [setOption subexpressions];
    (intros [<-|Hin]; [left; reflexivity|right; right; exact Hin]).
Qed.

Lemma parseResplitAgg_setOption (key : string) (value : bool) (ex : Expression)
  (r' : ParsedResplitAgg) :
  parseResplitAgg (setOption key value ex) = Some r' ->
  exists r, parseResplitAgg ex = Some r /\ resplitSplit r' = resplitSplit r.
Proof.
  intros Hparse. apply parseResplitAgg_shape in Hparse
    as (ao & name & at_ & so & source & keys & dn & argument
        & Hagg & Hoperand & Hsource & Hsplit & _).
  assert (Hagg' : isAggregate ex = true) by (destruct ex; exact Hagg).
  assert (Hoperand' : operandOf ex = operandOf (setOption key value ex))
    by (destruct ex; reflexivity).
  rewrite <- Hoperand' in Hoperand.
  destruct (parseResplitAgg_of_shape ex _ _ _ _ _ _ _ _ Hagg' Hoperand Hsource)
    as (r & Hr & Hrs).
  exists r. split; [exact Hr|]. now rewrite Hsplit, Hrs.
Qed.

Lemma getFilterSubExpression_node (ex found : Expression) :
  getFilterSubExpression ex = Some found -> List.In found (subexpressions ex).
Proof.
  induction ex as [o v|o n k t ci|o op t x IHx|o op t x e IHx IHe|o x sp d IHx IHs]
    using Expression_induction; cbn [getFilterSubExpression subexpressions];
    try discriminate.
  - intros Hfound. right. auto.
  - assert (Hwalk : match getFilterSubExpression x with
                    | Some f => Some f
                    | None => getFilterSubExpression e
                    end = Some found ->
                    List.In found (subexpressions x ++ subexpressions e)).
    { destruct (getFilterSubExpression x) as [f|].
      - intros [= ->]. apply in_or_app. left. auto.
      - intros Hfound. apply in_or_app. right. auto. }
    destruct op; try (intros Hfound; right; exact (Hwalk Hfound)).
    intros [= <-]. left. reflexivity.
  - destruct (getFilterSubExpression x) as [f|].
    + intros [= ->]. right. apply in_or_app. left. auto.
    + intros Hfound. right. apply in_or_app. right.
      induction IHs as [|kv more Hkv _ IHmore]; [discriminate|].
      cbn [flat_map]. apply in_or_app.
      destruct (getFilterSubExpression (snd kv)) as [f|].
      * injection Hfound as ->. left. auto.
      * right. auto.
Qed.

(** The expression of the inner apply that [parseResplitAgg] returns:
    the argument of the apply, with the filter of the split, if there
    is one, on its references to a dataset. *)
Lemma parseResplitAgg_argument (a : Expression) (r : ParsedResplitAgg) :
  parseResplitAgg a = Some r ->
  exists argument,
    List.In argument (subexpressions a)
    /\ (apply_expression (resplitApply r) = argument
        \/ exists filterExpression,
             List.In filterExpression (subexpressions a)
             /\ apply_expression (resplitApply r)
                = substitute (putFilter filterExpression) argument).
Proof.
  intros Hparse. apply parseResplitAgg_shape in Hparse
    as (ao & name & at_ & so & source & keys & dn & argument
        & Hagg & Hoperand & Hsource & _ & Hargument).
  assert (Hin : forall node,
            List.In node
              (subexpressions (EChainableUnary ao (Apply name) at_
                                 (ESplit so source keys dn) argument)) ->
            List.In node (subexpressions a)).
  { intros node Hn.
    destruct a as [| |o op t x|o op t x e|o x sp d]; try discriminate;
      cbn [operandOf] in Hoperand; injection Hoperand as ->;
      cbn [subexpressions]; right; try apply in_or_app; auto. }
  exists argument. split.
  { apply Hin. cbn [subexpressions]. right. apply in_or_app. right.
    apply subexpressions_self. }
  destruct source as [| | |fo fop ft fx fe|]; try (left; exact Hargument).
  destruct fop; try (left; exact Hargument).
  right. exists fe. split; [|exact Hargument].
  apply Hin. cbn [subexpressions]. right. apply in_or_app. left.
  right. apply in_or_app. left. right. apply in_or_app. right.
  apply subexpressions_self.
Qed.

(** *** The inner applies that the walk collects *)

Section InnerApplies.
Context `{Collaborators}.

Lemma visit_innerFrom (expressions : list Expression) (i : nat) (a : Expression)
  (s s' : Captured) :
  List.In a expressions ->
  visit i a s = Ok s' -> innerFrom expressions s -> innerFrom expressions s'.
Proof.
  intros Hin. unfold visit, splitUpAggregate, innerFrom.
  destruct (isAggregate a); [|now intros [= <-]].
  destruct (parseResplitAgg a) as [resplit|] eqn:Hparse.
  - assert (Hforce : exists aggregate,
              List.In aggregate expressions
              /\ innerForm aggregate
                   (setOption "forceFinalize" true
                      (apply_expression (resplitApply resplit)))).
    { exists a. split; [exact Hin|]. right. exists resplit. auto. }
    unfold bind, get, ret, throw, pushInnerApply, pushOuterAttribute, modify,
      setGlobalResplitSplit.
    destruct (globalResplitSplit s) as [g|].
    + destruct (negb (split_equals g (resplitSplit resplit))); [discriminate|].
      destruct (getFilterSubExpression _) as [found|] eqn:Hfound;
        intros [= <-] Hs; cbn [innerApplies];
        repeat (apply Forall_app; split); try exact Hs;
        repeat constructor; try exact Hforce.
      exists a. split; [exact Hin|]. right. exists resplit. split; [exact Hparse|].
      right. exists found. auto.
    + destruct (getFilterSubExpression _) as [found|] eqn:Hfound;
        intros [= <-] Hs; cbn [innerApplies];
        repeat (apply Forall_app; split); try exact Hs;
        repeat constructor; try exact Hforce.
      exists a. split; [exact Hin|]. right. exists resplit. split; [exact Hparse|].
      right. exists found. auto.
  - assert (Hplain : exists aggregate,
              List.In aggregate expressions /\ innerForm aggregate a).
    { exists a. split; [exact Hin|]. left. auto. }
    unfold bind, get, ret, throw, pushInnerApply, pushOuterAttribute, modify, setC.
    destruct a as [| |o op t x|o op t x e|]; try discriminate.
    + destruct op; try discriminate. intros [= <-] Hs. cbn [innerApplies].
      apply Forall_app. split; [exact Hs|]. repeat constructor. exact Hplain.
    + intros [= <-] Hs. cbn [innerApplies].
      apply Forall_app. split; [exact Hs|]. repeat constructor. exact Hplain.
Qed.

Lemma visitAll_innerFrom (expressions : list Expression) (i : nat)
  (l : list Expression) :
  (forall a, List.In a l -> List.In a expressions) ->
  forall s s',
    visitAll i l s = Ok s' -> innerFrom expressions s -> innerFrom expressions s'.
Proof.
  induction l as [|a l IH]; intros Hsub s s'; cbn [visitAll].
  - now intros [= <-].
  - destruct (visit i a s) as [s1|] eqn:V; [|discriminate].
    intros E Hs. eapply IH; eauto.
    + intros b Hb. apply Hsub. right. exact Hb.
    + eapply visit_innerFrom; eauto. apply Hsub. left. reflexivity.
Qed.

Lemma walk_innerFrom (expressions : list Expression) (l : list ApplyExpression) :
  (forall a, List.In a (visited l) -> List.In a expressions) ->
  forall i s s',
    walk i l s = Ok s' -> innerFrom expressions s -> innerFrom expressions s'.
Proof.
  induction l as [|apply more IH]; intros Hsub i s s'; cbn [walk].
  - now intros [= <-].
  - destruct (visitAll i _ (resetC s)) as [s1|] eqn:V; [|discriminate].
    intros E Hs. eapply IH; eauto.
    + intros b Hb. apply Hsub. cbn [visited flat_map]. apply in_or_app.
      right. exact Hb.
    + eapply visitAll_innerFrom; [|exact V|exact Hs].
      intros b Hb. apply Hsub. cbn [visited flat_map]. apply in_or_app.
      left. exact Hb.
Qed.

Lemma splitUpApplies_innerFrom (l outerApplies : list ApplyExpression)
  (walked : Captured) :
  splitUpApplies 0 l noneCaptured = Ok (outerApplies, walked) ->
  innerFrom (allSubexpressions l) walked.
Proof.
  intros E. pose proof (splitUpApplies_walk l 0 noneCaptured) as W.
  rewrite E in W. cbn [stateOf] in W. symmetry in W.
  eapply walk_innerFrom; [|exact W|constructor].
  apply visited_allSubexpressions.
Qed.

End InnerApplies.

(** *** The re-split aggregates of the inner planner *)

Lemma getFilterSubExpression_filter (ex found : Expression) :
  getFilterSubExpression ex = Some found -> isFilter found = true.
Proof.
  induction ex as [o v|o n k t ci|o op t x IHx|o op t x e IHx IHe|o x sp d IHx IHs]
    using Expression_induction; cbn [getFilterSubExpression]; try discriminate.
  - exact IHx.
  - assert (Hwalk : match getFilterSubExpression x with
                    | Some f => Some f
                    | None => getFilterSubExpression e
                    end = Some found -> isFilter found = true).
    { destruct (getFilterSubExpression x) as [f|]; [intros [= ->]|]; auto. }
    destruct op; try exact Hwalk. intros [= <-]. reflexivity.
  - destruct (getFilterSubExpression x) as [f|]; [intros [= ->]; auto|].
    induction IHs as [|kv more Hkv _ IHmore]; [discriminate|].
    destruct (getFilterSubExpression (snd kv)) as [f|]; [intros [= ->]; auto|].
    exact IHmore.
Qed.

Lemma keysDatasetFree_split (expressions : list Expression) (f a : Expression)
  (r : ParsedResplitAgg) :
  keysDatasetFree expressions = true ->
  List.In a expressions -> parseResplitAgg a = Some r ->
  {| split_options := split_options (resplitSplit r);
     split_operand := Expression_;
     splits := map (fun kv => (fst kv, substitute (putFilter f) (snd kv)))
                 (splits (resplitSplit r));
     dataName := dataName (resplitSplit r) |}
  = resplitSplit r.
Proof.
  intros Hfree Hin Hparse. unfold keysDatasetFree in Hfree.
  rewrite forallb_forall in Hfree. specialize (Hfree a Hin).
  rewrite Hparse in Hfree. rewrite forallb_forall in Hfree.
  apply parseResplitAgg_shape in Hparse
    as (ao & name & at_ & so & source & keys & dn & argument
        & _ & _ & _ & Hsplit & _).
  rewrite Hsplit in *. cbn [split_options splits dataName] in *. f_equal.
  rewrite <- (map_id keys) at 2. apply map_ext_in. intros [key e] Hkey.
  cbn [fst snd]. rewrite substitute_datasetFree; [reflexivity|].
  exact (Hfree _ Hkey).
Qed.

Section InnerPlanner.
Variable expressions : list Expression.
Hypothesis closed :
  forall node inner,
    List.In node expressions -> List.In inner (subexpressions node) ->
    List.In inner expressions.
Hypothesis free : keysDatasetFree expressions = true.

(** A re-split aggregate in the expression of the inner apply of a
    re-split aggregate has the inner split of one of the
    expressions. *)
Lemma resplit_in_argument (a node : Expression) (r r' : ParsedResplitAgg) :
  List.In a expressions -> parseResplitAgg a = Some r ->
  List.In node (subexpressions (apply_expression (resplitApply r))) ->
  parseResplitAgg node = Some r' ->
  exists original parsed,
    List.In original expressions
    /\ parseResplitAgg original = Some parsed
    /\ resplitSplit r' = resplitSplit parsed.
Proof.
  intros Ha Hparse Hnode Hresplit.
  destruct (parseResplitAgg_argument _ _ Hparse)
    as (argument & Hargument & [Happly|(f & Hf & Happly)]);
    rewrite Happly in Hnode.
  - exists node, r'. split; [|auto]. apply (closed a); [exact Ha|].
    exact (subexpressions_trans _ _ _ Hargument Hnode).
  - destruct (resplit_after_substitute _ _ _ _ Hnode Hresplit)
      as [(original & parsed & Ho & Hp & Hsplit)|Hin].
    + assert (Hin : List.In original expressions).
      { apply (closed a); [exact Ha|].
        exact (subexpressions_trans _ _ _ Hargument Ho). }
      exists original, parsed. split; [exact Hin|]. split; [exact Hp|].
      rewrite Hsplit. exact (keysDatasetFree_split _ f _ _ free Hin Hp).
    + exists node, r'. split; [|auto]. apply (closed a); [exact Ha|].
      exact (subexpressions_trans _ _ _ Hf Hin).
Qed.

Lemma resplit_in_innerForm (a expression node : Expression) (r' : ParsedResplitAgg) :
  List.In a expressions -> innerForm a expression ->
  List.In node (subexpressions expression) ->
  parseResplitAgg node = Some r' ->
  exists original parsed,
    List.In original expressions
    /\ parseResplitAgg original = Some parsed
    /\ resplitSplit r' = resplitSplit parsed.
Proof.
  intros Ha [[_ ->]|(r & Hparse & [->|(found & Hfound & ->)])] Hnode Hresplit.
  - exists node, r'. split; [|auto]. exact (closed _ _ Ha Hnode).
  - apply subexpressions_setOption in Hnode as [->|Hnode].
    + apply parseResplitAgg_setOption in Hresplit as (top & Htop & ->).
      exact (resplit_in_argument a _ r top Ha Hparse (subexpressions_self _) Htop).
    + exact (resplit_in_argument a node r r' Ha Hparse Hnode Hresplit).
  - cbn [count_ subexpressions] in Hnode. destruct Hnode as [<-|Hnode].
    + exfalso. apply getFilterSubExpression_filter in Hfound.
      apply parseResplitAgg_shape in Hresplit
        as (? & ? & ? & ? & ? & ? & ? & ? & _ & Hoperand & _).
      cbn [operandOf] in Hoperand. injection Hoperand as ->. discriminate.
    + apply (resplit_in_argument a node r r' Ha Hparse); [|exact Hresplit].
      apply (subexpressions_trans _ found); [|exact Hnode].
      now apply getFilterSubExpression_node.
Qed.

(** The applies of the inner planner agree when the applies of the
    planner do. *)
Lemma innerFrom_agreeing (s : Captured) :
  agreeing expressions -> innerFrom expressions s ->
  agreeing (allSubexpressions (innerApplies s)).
Proof.
  intros [Hpairs _] Hfrom. unfold innerFrom in Hfrom. rewrite Forall_forall in Hfrom.
  assert (Horigin : forall node r',
            List.In node (allSubexpressions (innerApplies s)) ->
            parseResplitAgg node = Some r' ->
            exists original parsed,
              List.In original expressions
              /\ parseResplitAgg original = Some parsed
              /\ resplitSplit r' = resplitSplit parsed).
  { intros node r' Hnode Hresplit.
    apply in_flat_map in Hnode as (apply & Happly & Hnode).
    destruct (Hfrom _ Happly) as (a & Ha & Hform).
    eapply resplit_in_innerForm; eauto. }
  split.
  - intros a a' r r' Ha Ha' Hr Hr'.
    destruct (Horigin _ _ Ha Hr) as (o & p & Ho & Hp & ->).
    destruct (Horigin _ _ Ha' Hr') as (o' & p' & Ho' & Hp' & ->).
    exact (Hpairs _ _ _ _ Ho Ho' Hp Hp').
  - unfold keysDatasetFree. apply forallb_forall. intros node Hnode.
    destruct (parseResplitAgg node) as [r'|] eqn:Hresplit; [|reflexivity].
    destruct (Horigin _ _ Hnode Hresplit) as (o & p & Ho & Hp & ->).
    pose proof free as Hfree. unfold keysDatasetFree in Hfree.
    rewrite forallb_forall in Hfree. specialize (Hfree o Ho).
    now rewrite Hp in Hfree.
Qed.

End InnerPlanner.

(** *** The applies of the outer planner *)

Section OuterPlanner.
Context `{Collaborators}.

Lemma parseResplitAgg_agg (a : Expression) (r : ParsedResplitAgg) :
  parseResplitAgg a = Some r -> resplitAgg r = changeOperand Expression_ a.
Proof.
  unfold parseResplitAgg.
  destruct (negb (isChainable a) || negb (isAggregate a)); [discriminate|].
  destruct (operandOf a) as [[| | |ao aop at_ ax ae|]|]; try discriminate.
  destruct aop; try discriminate.
  destruct ax as [| | | |so src keys dn]; try discriminate.
  destruct src as [| | |fo fop ft fx fe|]; try discriminate.
  - intros [= <-]. reflexivity.
  - destruct fop; try discriminate. destruct fx; try discriminate.
    intros [= <-]. reflexivity.
Qed.

(** An aggregate whose operand is no apply is no re-split aggregate. *)
Lemma parseResplitAgg_operand (a : Expression) :
  match operandOf a with
  | Some (EChainableUnary _ (Apply _) _ _ _) => False
  | _ => True
  end ->
  parseResplitAgg a = None.
Proof.
  unfold parseResplitAgg.
  destruct (negb (isChainable a) || negb (isAggregate a)); [reflexivity|].
  destruct (operandOf a) as [[| | |ao aop at_ ax ae|]|]; try reflexivity.
  destruct aop; try reflexivity. contradiction.
Qed.

(** What the walk puts in the place of an aggregate is an aggregate
    over [_], or over a filter of [_]: no re-split aggregate. *)
Lemma splitUpAggregate_replacement (i : nat) (a replacement : Expression)
  (s s' : Captured) :
  splitUpAggregate i a s = Ok (Some replacement, s') ->
  isAggregate replacement = true /\ parseResplitAgg replacement = None.
Proof.
  unfold splitUpAggregate.
  destruct (isAggregate a) eqn:Hagg; [|discriminate].
  destruct (parseResplitAgg a) as [resplit|] eqn:Hparse.
  - rewrite (parseResplitAgg_agg _ _ Hparse).
    set (rename := fun ex' : Expression => _).
    assert (Hrenamed :
              isAggregate (substitute rename (changeOperand Expression_ a)) = true
              /\ exists o n k t ci,
                   operandOf (substitute rename (changeOperand Expression_ a))
                   = Some (ERef o n k t ci)).
    { assert (Hunder : exists o n k t ci,
                substitute rename Expression_ = ERef o n k t ci).
      { unfold Expression_, ref. cbn [substitute]. unfold rename at 1.
        destruct (String.eqb "_" _); eauto 6. }
      destruct Hunder as (o & n & k & t & ci & Hunder).
      destruct a as [| |o0 op t0 x|o0 op t0 x e|]; try discriminate;
        cbn [changeOperand substitute];
        match goal with
        | |- context [match rename ?node with _ => _ end] =>
            change (rename node) with (@None Expression)
        end;
        cbn [operandOf]; rewrite Hunder; split; try exact Hagg; eauto 6. }
    destruct Hrenamed as (Hagg' & o & n & k & t & ci & Hoperand).
    unfold bind, get, ret, throw, pushInnerApply, pushOuterAttribute, modify,
      setGlobalResplitSplit.
    assert (Hfiltered : forall condition,
              isAggregate (changeOperand (filter_ (ref "_") condition)
                             (substitute rename (changeOperand Expression_ a)))
              = true
              /\ parseResplitAgg
                   (changeOperand (filter_ (ref "_") condition)
                      (substitute rename (changeOperand Expression_ a)))
                 = None).
    { intros condition.
      destruct (substitute rename (changeOperand Expression_ a))
        as [| |o0 op t0 x|o0 op t0 x e|]; try discriminate;
        (split; [exact Hagg'|apply parseResplitAgg_operand; exact I]). }
    assert (Hplain : isAggregate (substitute rename (changeOperand Expression_ a))
                     = true
                     /\ parseResplitAgg
                          (substitute rename (changeOperand Expression_ a))
                        = None).
    { split; [exact Hagg'|]. apply parseResplitAgg_operand.
      rewrite Hoperand. exact I. }
    destruct (globalResplitSplit s) as [g|].
    + destruct (negb (split_equals g (resplitSplit resplit))); [discriminate|].
      destruct (getFilterSubExpression _); intros [= <- _];
        [apply Hfiltered|exact Hplain].
    + destruct (getFilterSubExpression _); intros [= <- _];
        [apply Hfiltered|exact Hplain].
  - unfold bind, get, ret, throw, pushInnerApply, pushOuterAttribute, modify, setC.
    destruct a as [| |o op t x|o op t x e|]; try discriminate.
    + destruct op; try discriminate. intros [= <- _].
      split; [reflexivity|apply parseResplitAgg_operand; exact I].
    + intros [= <- _]. cbn [changeOperand changeExpression].
      split; [exact Hagg|apply parseResplitAgg_operand; exact I].
Qed.

Lemma outermostAggregates_aggregate_self (ex : Expression) :
  isAggregate ex = true -> outermostAggregates ex = [ex].
Proof. intros Hagg. destruct ex; cbn [outermostAggregates]; now rewrite Hagg. Qed.

(** No aggregate that the walk of the outer planner visits is a
    re-split aggregate. *)
Lemma substituteM_plain (i : nat) (ex : Expression) :
  forall s ex' s',
    substituteM (splitUpAggregate i) ex s = Ok (ex', s') ->
    Forall (fun a => parseResplitAgg a = None) (outermostAggregates ex').
Proof.
  assert (Hreplaced : forall ex0 s ex' s' (k : Captured -> result (Expression * Captured)),
            isAggregate ex0 = true ->
            match splitUpAggregate i ex0 s with
            | Ok (Some replacement, s1) => Ok (replacement, s1)
            | Ok (None, s1) => k s1
            | Throw e => Throw e
            end = Ok (ex', s') ->
            Forall (fun a => parseResplitAgg a = None) (outermostAggregates ex')).
  { intros ex0 s ex' s' k Hagg.
    destruct (splitUpAggregate i ex0 s) as [[[replacement|] s1]|] eqn:E;
      [|exfalso; eapply splitUpAggregate_replaces; eauto|discriminate].
    intros [= <- <-].
    destruct (splitUpAggregate_replacement _ _ _ _ _ E) as [Hagg' Hplain].
    rewrite (outermostAggregates_aggregate_self _ Hagg'). repeat constructor.
    exact Hplain. }
  induction ex as [o v|o n k t ci|o op t x IHx|o op t x e IHx IHe|o x sp d IHx IHs]
    using Expression_induction; intros s ex' s'.
  - cbn. intros [= <- <-]. constructor.
  - cbn. intros [= <- <-]. constructor.
  - cbn [substituteM]. unfold bind at 1.
    destruct (isAggregate (EChainable o op t x)) eqn:A.
    + intros E. eapply (Hreplaced _ s ex' s'); [exact A|].
      destruct (splitUpAggregate i (EChainable o op t x) s) as [[[r|] s1]|];
        [exact E| |exact E]. exact E.
    + rewrite (splitUpAggregate_skips _ _ _ A). unfold bind.
      destruct (substituteM (splitUpAggregate i) x s) as [[x' s1]|] eqn:Ex;
        [|discriminate].
      intros [= <- <-]. cbn [outermostAggregates].
      replace (isAggregate (EChainable o op t x')) with false
        by (destruct op; try discriminate; reflexivity).
      eapply IHx; eauto.
  - cbn [substituteM]. unfold bind at 1.
    destruct (isAggregate (EChainableUnary o op t x e)) eqn:A.
    + intros E. eapply (Hreplaced _ s ex' s'); [exact A|].
      destruct (splitUpAggregate i (EChainableUnary o op t x e) s) as [[[r|] s1]|];
        [exact E| |exact E]. exact E.
    + rewrite (splitUpAggregate_skips _ _ _ A). unfold bind.
      destruct (substituteM (splitUpAggregate i) x s) as [[x' s1]|] eqn:Ex;
        [|discriminate].
      destruct (substituteM (splitUpAggregate i) e s1) as [[e' s2]|] eqn:Ee;
        [|discriminate].
      intros [= <- <-]. cbn [outermostAggregates].
      replace (isAggregate (EChainableUnary o op t x' e')) with false
        by (destruct op; try discriminate; reflexivity).
      apply Forall_app. split; [eapply IHx|eapply IHe]; eauto.
  - rewrite substituteM_split. unfold bind at 1.
    rewrite (splitUpAggregate_skips i (ESplit o x sp d) s eq_refl).
    unfold bind at 1.
    destruct (substituteM (splitUpAggregate i) x s) as [[x' s1]|] eqn:Ex;
      [|discriminate].
    unfold bind at 1.
    destruct (eachSplitM (splitUpAggregate i) sp s1) as [[sp' s2]|] eqn:Es;
      [|discriminate].
    intros [= <- <-]. cbn [outermostAggregates isAggregate].
    apply Forall_app. split; [eapply IHx; eauto|].
    clear Ex IHx. revert s1 sp' s2 Es.
    induction IHs as [|kv more Hkv _ IHmore]; intros s1 sp' s2.
    + cbn. intros [= <- <-]. constructor.
    + cbn [eachSplitM]. unfold bind at 1.
      destruct (substituteM (splitUpAggregate i) (snd kv) s1) as [[e' s3]|] eqn:Ee;
        [|discriminate].
      unfold bind at 1.
      destruct (eachSplitM (splitUpAggregate i) more s3) as [[more' s4]|] eqn:Em;
        [|discriminate].
      intros [= <- <-]. cbn [flat_map snd]. apply Forall_app.
      split; [eapply Hkv; eauto|eapply IHmore; eauto].
Qed.

Lemma splitUpApplies_plain (l : list ApplyExpression) :
  forall i s outerApplies s',
    splitUpApplies i l s = Ok (outerApplies, s') ->
    Forall (fun a => parseResplitAgg a = None) (visited outerApplies).
Proof.
  induction l as [|apply more IH]; intros i s outerApplies s'; cbn [splitUpApplies].
  - cbn. intros [= <- <-]. constructor.
  - unfold bind at 1. unfold setC, modify. unfold bind at 1.
    destruct (substituteM (splitUpAggregate i) (apply_expression apply) _)
      as [[e' s1]|] eqn:Ee; [|discriminate].
    unfold bind at 1.
    destruct (splitUpApplies (S i) more s1) as [[more' s2]|] eqn:Em; [|discriminate].
    intros [= <- <-]. cbn [visited flat_map apply_changeExpression apply_expression].
    apply Forall_app. split; [eapply substituteM_plain; eauto|].
    eapply IH; eauto.
Qed.

Lemma judgeAll_plain (l : list Expression) :
  Forall (fun a => parseResplitAgg a = None) l ->
  forall g, judgeAll g l = Ok g \/ judgeAll g l = Throw customMessage.
Proof.
  induction 1 as [|a l Hplain _ IH]; intros g; [left; reflexivity|].
  cbn [judgeAll]. destruct (isCustom a) eqn:C.
  - rewrite (judge_custom g a Hplain C). right. reflexivity.
  - rewrite (judge_plain g a Hplain C). apply IH.
Qed.

(** A planner whose walk visits no re-split aggregate makes no
    planners, and does not throw the error of the re-split check. *)
Lemma plain_planner (ext : External) :
  (forall l, effectiveApplies ext = Ok l ->
             Forall (fun a => parseResplitAgg a = None) (visited l)) ->
  nestedGroupByPlanners ext <> Throw sameSplitMessage
  /\ forall planners, nestedGroupByPlanners ext <> Ok (Some planners).
Proof.
  intros Hplain. unfold nestedGroupByPlanners.
  destruct (effectiveApplies ext) as [l|m] eqn:Heff.
  2:{ unfold effectiveApplies in Heff.
      destruct (applies ext); [discriminate|].
      destruct (valueExpression ext); [discriminate|].
      injection Heff as <-. split; [discriminate|]. intros ?. discriminate. }
  specialize (Hplain l eq_refl). cbn [rbind].
  destruct (negb (existsb containsSplit l));
    [split; [discriminate|intros ?; discriminate]|].
  pose proof (splitUpApplies_judgeAll l) as Hjudge.
  destruct (judgeAll_plain _ Hplain None) as [J|J]; rewrite J in Hjudge.
  - destruct (splitUpApplies 0 l noneCaptured) as [[outer walked]|]; [|discriminate].
    cbn in Hjudge. injection Hjudge as Hglobal. cbn [rbind]. rewrite Hglobal.
    split; [discriminate|intros ?; discriminate].
  - destruct (splitUpApplies 0 l noneCaptured) as [[outer walked]|]; [discriminate|].
    cbn in Hjudge. injection Hjudge as ->. cbn [rbind].
    split; [discriminate|intros ?; discriminate].
Qed.

(** The outer planner of the nested rewrite is such a planner. *)
Lemma outerExternal_plain (ext : External) (planners : NestedPlanners) :
  nestedGroupByPlanners ext = Ok (Some planners) ->
  forall l,
    effectiveApplies (outerExternal planners) = Ok l ->
    Forall (fun a => parseResplitAgg a = None) (visited l).
Proof.
  unfold nestedGroupByPlanners.
  destruct (effectiveApplies ext) as [effective|]; [|discriminate].
  cbn [rbind]. destruct (negb _); [discriminate|].
  destruct (splitUpApplies 0 effective noneCaptured) as [[outerApplies walked]|] eqn:E;
    [|discriminate].
  apply splitUpApplies_plain in E.
  cbn [rbind]. destruct (globalResplitSplit walked); [|discriminate].
  intros [= <-] l. unfold effectiveApplies. cbn [outerExternal outerValue applies valueExpression].
  destruct (applies ext).
  - intros [= <-]. exact E.
  - destruct outerApplies as [|first rest]; [discriminate|].
    cbn [hd_error option_map]. intros [= <-].
    cbn [visited flat_map apply_ apply_expression]. rewrite app_nil_r.
    cbn [visited flat_map] in E. apply Forall_app in E as [E _]. exact E.
Qed.

End OuterPlanner.

(** *** The errors of the query assembly *)

Lemma loud_message {A} (message : string) :
  match message with
  | String c _ => negb (Ascii.eqb c "a")
  | EmptyString => true
  end = true ->
  @Throw A message <> Throw sameSplitMessage.
Proof. intros Hhead [= ->]. discriminate Hhead. Qed.

Ltac quiet_step :=
  match goal with
  | Hq : _ |- _ <> Throw sameSplitMessage => solve [apply Hq]
  | Hq : Throw ?m <> Throw sameSplitMessage |- Throw ?m <> Throw sameSplitMessage =>
      solve [intros [= ->]; apply Hq; reflexivity]
  | |- Throw _ <> Throw sameSplitMessage => solve [apply loud_message; reflexivity]
  | |- TypeError _ <> Throw sameSplitMessage =>
      solve [unfold TypeError; apply loud_message; reflexivity]
  | |- Ok _ <> Throw sameSplitMessage => discriminate
  | E : ?call = Throw ?m |- Throw ?m <> Throw sameSplitMessage =>
      let N := fresh "N" in
      intros N; injection N as N; rewrite N in E; clear N; revert E;
      change (call <> Throw sameSplitMessage)
  | |- rbind ?call _ <> Throw sameSplitMessage =>
      let E := fresh "E" in destruct call eqn:E; cbn [rbind]
  | |- (if ?b then _ else _) <> Throw sameSplitMessage => destruct b
  | |- match ?x with _ => _ end <> Throw sameSplitMessage =>
      let E := fresh "E" in destruct x eqn:E
  end.

Ltac quiet := cbv zeta; repeat (quiet_step; cbv zeta).

Section QuietAssembly.
Context `{Collaborators}.
Hypothesis builders : quietBuilders.

Lemma makeExpression_quiet (ext : External) (expression : Expression) (label : string) :
  makeExpression ext expression label <> Throw sameSplitMessage.
Proof.
  pose proof builders as (? & ? & _).
  unfold makeExpression. quiet.
Qed.

Lemma getAttributesInfo_quiet (ext : External) (name : string) :
  getAttributesInfo ext name <> Throw sameSplitMessage.
Proof. unfold getAttributesInfo. quiet. Qed.

Lemma expressionToDimensionInflater_quiet (ext : External) (expression : Expression)
  (label : string) :
  expressionToDimensionInflater ext expression label <> Throw sameSplitMessage.
Proof.
  pose proof builders as (? & _).
  pose proof makeExpression_quiet; pose proof getAttributesInfo_quiet.
  unfold expressionToDimensionInflater. quiet.
Qed.

Lemma expressionToDimensionInflaterHaving_quiet (ext : External)
  (expression : Expression) (label : string) (having : Expression) :
  expressionToDimensionInflaterHaving ext expression label having
  <> Throw sameSplitMessage.
Proof.
  pose proof expressionToDimensionInflater_quiet.
  unfold expressionToDimensionInflaterHaving. quiet.
Qed.

Lemma lowerSplits_quiet (ext : External) (l : Splits) :
  forall leftover, lowerSplits ext l leftover <> Throw sameSplitMessage.
Proof.
  pose proof expressionToDimensionInflaterHaving_quiet.
  induction l as [|[name expression] more IH]; intros leftover; cbn [lowerSplits];
    quiet.
Qed.

Lemma topNCompatibleSort_quiet (ext : External) :
  topNCompatibleSort ext <> Throw sameSplitMessage.
Proof. unfold topNCompatibleSort. quiet. Qed.

Lemma splitToDruid_quiet (ext : External) (split : SplitExpression) :
  splitToDruid ext split <> Throw sameSplitMessage.
Proof.
  pose proof expressionToDimensionInflaterHaving_quiet; pose proof lowerSplits_quiet;
    pose proof topNCompatibleSort_quiet.
  unfold splitToDruid. quiet.
Qed.

Lemma combine_quiet (ext : External) (split : SplitExpression) (leftover : Expression)
  (druidQuery : DruidQuery) :
  combine ext split leftover druidQuery <> Throw sameSplitMessage.
Proof.
  pose proof builders as (_ & _ & _ & _ & ?). unfold combine. quiet.
Qed.

Lemma splitQuery_quiet (ext : External) (druidQuery : DruidQuery)
  (requesterContext : RequesterContext) :
  splitQuery ext druidQuery requesterContext <> Throw sameSplitMessage.
Proof.
  pose proof builders as (_ & _ & _ & ? & _).
  pose proof splitToDruid_quiet; pose proof combine_quiet.
  unfold splitQuery. quiet.
Qed.

Lemma scanColumns_quiet (ext : External) (selected : Attributes) :
  scanColumns ext selected <> Throw sameSplitMessage.
Proof.
  pose proof builders as (_ & ? & _).
  induction selected as [|attribute more IH]; cbn [scanColumns]; quiet.
Qed.

Lemma rawQuery_quiet (ext : External) (druidQuery : DruidQuery)
  (requesterContext : RequesterContext) :
  rawQuery ext druidQuery requesterContext <> Throw sameSplitMessage.
Proof.
  pose proof scanColumns_quiet. unfold rawQuery. quiet.
Qed.

Lemma getTimeBoundaryQueryAndPostTransform_quiet (ext : External) :
  getTimeBoundaryQueryAndPostTransform ext <> Throw sameSplitMessage.
Proof. unfold getTimeBoundaryQueryAndPostTransform. quiet. Qed.

(** The planner passes on the error of the re-split check and throws
    none of its own. *)
Lemma planQuery_quiet
  (nested : External -> result (option (QueryAndPostTransform DruidQuery)))
  (ext : External) :
  nested ext <> Throw sameSplitMessage ->
  planQuery nested ext <> Throw sameSplitMessage.
Proof.
  intros Hnested.
  pose proof builders as (_ & _ & ? & ? & _).
  pose proof splitQuery_quiet; pose proof rawQuery_quiet;
    pose proof getTimeBoundaryQueryAndPostTransform_quiet.
  unfold planQuery. quiet.
Qed.

End QuietAssembly.

(** *** The planners made by planners *)

Section Recursion.
Context `{Collaborators}.
Hypothesis builders : quietBuilders.

(** A planner whose walk visits no re-split aggregate does not throw
    the error of the re-split check. *)
Lemma plain_plan_quiet (ext : External) :
  (forall l, effectiveApplies ext = Ok l ->
             Forall (fun a => parseResplitAgg a = None) (visited l)) ->
  forall fuel, getQueryAndPostTransform fuel ext <> Throw sameSplitMessage.
Proof.
  intros Hplain [|fuel]; [discriminate|].
  cbn [getQueryAndPostTransform]. apply (planQuery_quiet builders).
  destruct (plain_planner ext Hplain) as [Hquiet Hnone].
  unfold nestedGroupByIfNeeded.
  destruct (nestedGroupByPlanners ext) as [[planners|]|m];
    [exfalso; exact (Hnone planners eq_refl)|discriminate|].
  cbn [rbind]. congruence.
Qed.

Lemma innerExternal_applies (ext : External) (planners : NestedPlanners) :
  nestedGroupByPlanners ext = Ok (Some planners) ->
  exists l outerApplies walked,
    effectiveApplies ext = Ok l
    /\ splitUpApplies 0 l noneCaptured = Ok (outerApplies, walked)
    /\ effectiveApplies (innerExternal planners) = Ok (innerApplies walked).
Proof.
  unfold nestedGroupByPlanners.
  destruct (effectiveApplies ext) as [l|]; [|discriminate].
  cbn [rbind]. destruct (negb _); [discriminate|].
  destruct (splitUpApplies 0 l noneCaptured) as [[outerApplies walked]|] eqn:Hwalk;
    [|discriminate].
  cbn [rbind]. destruct (globalResplitSplit walked); [|discriminate].
  intros [= <-]. exists l, outerApplies, walked.
  split; [reflexivity|]. split; [exact Hwalk|reflexivity].
Qed.

Lemma nestedGroupByIfNeeded_quiet
  (plan : External -> result (QueryAndPostTransform DruidQuery)) (ext : External) :
  (forall l, effectiveApplies ext = Ok l -> agreeing (allSubexpressions l)) ->
  (forall inner,
      (forall l, effectiveApplies inner = Ok l -> agreeing (allSubexpressions l)) ->
      plan inner <> Throw sameSplitMessage) ->
  (forall outer,
      (forall l, effectiveApplies outer = Ok l ->
                 Forall (fun a => parseResplitAgg a = None) (visited l)) ->
      plan outer <> Throw sameSplitMessage) ->
  nestedGroupByIfNeeded plan ext <> Throw sameSplitMessage.
Proof.
  intros Hagree Hinner Houter. unfold nestedGroupByIfNeeded.
  destruct (nestedGroupByPlanners ext) as [[planners|]|m] eqn:Hplanners;
    [|discriminate|].
  - cbn [rbind].
    destruct (innerExternal_applies _ _ Hplanners)
      as (l & outerApplies & walked & Heff & Hwalk & Hinnerapplies).
    assert (Hi : plan (innerExternal planners) <> Throw sameSplitMessage).
    { apply Hinner. intros l'. rewrite Hinnerapplies. intros [= <-].
      apply (innerFrom_agreeing (allSubexpressions l)).
      - apply allSubexpressions_closed.
      - exact (proj2 (Hagree l Heff)).
      - exact (Hagree l Heff).
      - exact (splitUpApplies_innerFrom _ _ _ Hwalk). }
    assert (Ho : plan (outerExternal planners) <> Throw sameSplitMessage)
      by (apply Houter; exact (outerExternal_plain _ _ Hplanners)).
    destruct (plan (innerExternal planners)) as [inner|mi];
      [|cbn [rbind]; congruence].
    cbn [rbind].
    destruct (plan (outerExternal planners)) as [outer|mo];
      [discriminate|cbn [rbind]; congruence].
  - cbn [rbind]. intros [= ->]. revert Hplanners.
    unfold nestedGroupByPlanners.
    destruct (effectiveApplies ext) as [l|m] eqn:Heff.
    2:{ cbn [rbind]. intros [= ->]. unfold effectiveApplies in Heff.
        destruct (applies ext); [discriminate|].
        destruct (valueExpression ext); [discriminate|].
        vm_compute in Heff. discriminate Heff. }
    cbn [rbind]. destruct (negb (existsb containsSplit l)); [discriminate|].
    destruct (splitUpApplies 0 l noneCaptured) as [[outer walked]|m] eqn:E.
    + cbn [rbind]. destruct (globalResplitSplit walked); discriminate.
    + cbn [rbind]. intros [= ->].
      apply splitUpApplies_throws in E. revert E.
      apply judgeAll_agreement; [|discriminate].
      intros a0 a1 r0 r1 I0 I1.
      apply (proj1 (Hagree l eq_refl)); now apply visited_allSubexpressions.
Qed.

(** When the re-split aggregates of the applies agree, the planning
    does not throw the error of the re-split check, whatever the
    depth of the planners made by planners. *)
Lemma getQueryAndPostTransform_quiet (fuel : nat) :
  forall ext,
    (forall l, effectiveApplies ext = Ok l -> agreeing (allSubexpressions l)) ->
    getQueryAndPostTransform fuel ext <> Throw sameSplitMessage.
Proof.
  induction fuel as [|fuel IH]; intros ext Hagree; [discriminate|].
  cbn [getQueryAndPostTransform]. apply (planQuery_quiet builders).
  apply nestedGroupByIfNeeded_quiet; [exact Hagree|exact IH|].
  intros outer Hplain. now apply plain_plan_quiet.
Qed.

End Recursion.

(** C3, as the code has it.  The substitution walk visits the
    outermost aggregates of the applies, in order.  If one of them is a
    re-split aggregate whose inner split differs from that of a re-split
    aggregate visited before it, and no custom aggregate (other than a
    re-split one) was visited before it, [nestedGroupByIfNeeded] throws
    "all resplit aggregators must have the same split".  If all the
    re-split aggregates anywhere in the applies have equal inner splits,
    [nestedGroupByIfNeeded] does not throw that error, unless the
    planning of the inner or of the outer planner that it makes throws
    it.  If moreover no split key of a re-split aggregate holds a typed
    reference to a dataset, and the builders of filters, dimensions and
    aggregations that the planner calls do not throw that error, then
    neither [getQueryAndPostTransform] nor [nestedGroupByIfNeeded]
    throws it, whatever the depth of the planners made by planners. *)
Theorem resplit_splits_must_agree `{Collaborators} (ext : External)
  (l : list ApplyExpression) :
  effectiveApplies ext = Ok l ->
  (forall pre a post r a' r',
      visited l = (pre ++ a :: post)%list ->
      parseResplitAgg a = Some r ->
      List.In a' pre -> parseResplitAgg a' = Some r' ->
      split_equals (resplitSplit r') (resplitSplit r) = false ->
      (forall b, List.In b pre -> parseResplitAgg b = None -> isCustom b = false) ->
      forall plan, nestedGroupByIfNeeded plan ext = Throw sameSplitMessage)
  /\ ((forall a a' r r',
         List.In a (allSubexpressions l) -> List.In a' (allSubexpressions l) ->
         parseResplitAgg a = Some r -> parseResplitAgg a' = Some r' ->
         split_equals (resplitSplit r) (resplitSplit r') = true) ->
      forall plan,
        (forall planners,
            nestedGroupByPlanners ext = Ok (Some planners) ->
            plan (innerExternal planners) <> Throw sameSplitMessage
            /\ plan (outerExternal planners) <> Throw sameSplitMessage) ->
        nestedGroupByIfNeeded plan ext <> Throw sameSplitMessage)
  /\ (agreeing (allSubexpressions l) ->
      quietBuilders ->
      forall fuel,
        getQueryAndPostTransform fuel ext <> Throw sameSplitMessage
        /\ nestedGroupByIfNeeded (getQueryAndPostTransform fuel) ext
           <> Throw sameSplitMessage).
Proof.
  intros Heff. split; [|split].
  - intros pre a post r a' r' Hvisited P I P' D Hsup plan.
    unfold nestedGroupByIfNeeded, nestedGroupByPlanners. rewrite Heff. cbn [rbind].
    rewrite (visited_containsSplit l a r); [|rewrite Hvisited; apply in_elt|exact P].
    cbn [negb].
    assert (T : splitUpApplies 0 l noneCaptured = Throw sameSplitMessage).
    { apply splitUpApplies_throws. rewrite Hvisited.
      eapply judgeAll_disagreement; eauto. }
    now rewrite T.
  - intros Hpair plan Hplan.
    assert (Hwalk : nestedGroupByPlanners ext <> Throw sameSplitMessage).
    { unfold nestedGroupByPlanners. rewrite Heff. cbn [rbind].
      destruct (negb (existsb containsSplit l)); [discriminate|].
      destruct (splitUpApplies 0 l noneCaptured) as [[outer walked]|m] eqn:E.
      + cbn [rbind]. destruct (globalResplitSplit walked); discriminate.
      + cbn [rbind]. intros [= ->].
        apply splitUpApplies_throws in E. revert E.
        apply judgeAll_agreement; [|discriminate].
        intros a0 a1 r0 r1 I0 I1. apply Hpair; now apply visited_allSubexpressions. }
    unfold nestedGroupByIfNeeded.
    destruct (nestedGroupByPlanners ext) as [[planners|]|m];
      [|discriminate|cbn [rbind]; congruence].
    destruct (Hplan planners eq_refl) as [Hinner Houter]. cbn [rbind].
    destruct (plan (innerExternal planners)) as [inner|m];
      [|cbn [rbind]; congruence].
    cbn [rbind].
    destruct (plan (outerExternal planners)) as [outer|m];
      [discriminate|cbn [rbind]; congruence].
  - intros Hagree Hbuilders fuel.
    assert (Hall : forall l0, effectiveApplies ext = Ok l0 ->
                              agreeing (allSubexpressions l0))
      by (intros l0; rewrite Heff; intros [= <-]; exact Hagree).
    split; [now apply getQueryAndPostTransform_quiet|].
    apply nestedGroupByIfNeeded_quiet; [exact Hall| |].
    + intros inner Hinner. now apply getQueryAndPostTransform_quiet.
    + intros outer Houter. now apply plain_plan_quiet.
Qed.

(** The builders of the sample collaborators do not throw the error of
    the re-split check. *)
Lemma sample_builders_quiet : @quietBuilders Examples.collaborators.
Proof.
  unfold quietBuilders. cbn. repeat split; intros ext ex; try discriminate.
  destruct ex as [| |o op t x| |]; try discriminate.
  destruct op; discriminate.
Qed.

Lemma resplit_splits_must_agree_witness :
  (forall plan,
      @nestedGroupByIfNeeded Examples.collaborators plan
        (Examples.totalOf Examples.byPageAndByUser) = Throw sameSplitMessage)
  /\ @nestedGroupByIfNeeded Examples.collaborators
       (@getQueryAndPostTransform Examples.collaborators 2)
       (Examples.totalOf Samples.pageTwice) <> Throw sameSplitMessage
  /\ forall fuel,
       @getQueryAndPostTransform Examples.collaborators fuel
         (Examples.totalOf Samples.pageTwice) <> Throw sameSplitMessage
       /\ @nestedGroupByIfNeeded Examples.collaborators
            (@getQueryAndPostTransform Examples.collaborators fuel)
            (Examples.totalOf Samples.pageTwice) <> Throw sameSplitMessage.
Proof.
  split; [|split].
  - destruct (@resplit_splits_must_agree Examples.collaborators
                (Examples.totalOf Examples.byPageAndByUser)
                Examples.byPageAndByUser eq_refl) as [Hdiffer _].
    eapply (Hdiffer [Examples.resplitMax "page"] (Examples.resplitMax "user") []
              _ (Examples.resplitMax "page") _);
      [reflexivity|reflexivity|left; reflexivity|reflexivity|reflexivity|].
    intros b [<-|[]] Hplain. discriminate Hplain.
  - destruct (@resplit_splits_must_agree Examples.collaborators
                (Examples.totalOf Samples.pageTwice) Samples.pageTwice eq_refl)
      as [_ [Hagree _]].
    apply Hagree.
    + apply resplitsAgree_pairs. vm_compute. reflexivity.
    + intros planners Hplanners. vm_compute in Hplanners.
      injection Hplanners as <-. split; vm_compute; discriminate.
  - destruct (@resplit_splits_must_agree Examples.collaborators
                (Examples.totalOf Samples.pageTwice) Samples.pageTwice eq_refl)
      as [_ [_ Hquiet]].
    apply Hquiet; [|exact sample_builders_quiet].
    split; [apply resplitsAgree_pairs|]; vm_compute; reflexivity.
Defined.

(** Two re-split aggregates over the splits by page and by user: the
    error is raised. *)
Example different_splits_refused :
  @nestedGroupByPlanners Examples.collaborators
    (Examples.totalOf Examples.byPageAndByUser) = Throw sameSplitMessage.
Proof. reflexivity. Qed.

(** A re-split aggregate inside the inner apply of another one is not
    visited: the two inner splits differ and the walk of this planner
    goes through. *)
Example resplit_in_resplit_not_visited :
  visited [apply_ Expression_ "a" Examples.resplitInResplit]
  = [Examples.resplitInResplit]
  /\ List.In (Examples.resplitMax "user")
       (allSubexpressions [apply_ Expression_ "a" Examples.resplitInResplit])
  /\ option_map (fun r => splits (resplitSplit r))
       (parseResplitAgg Examples.resplitInResplit)
     = Some [("page", ref "page")]
  /\ option_map (fun r => splits (resplitSplit r))
       (parseResplitAgg (Examples.resplitMax "user"))
     = Some [("user", ref "user")]
  /\ exists planners,
       @nestedGroupByPlanners Examples.collaborators
         (Examples.totalOf [apply_ Expression_ "a" Examples.resplitInResplit])
       = Ok (Some planners).
Proof.
  split; [reflexivity|]. split; [cbn; auto 20|]. split; [reflexivity|].
  split; [reflexivity|]. eexists. reflexivity.
Qed.

(** When a custom aggregate is visited first the error raised is
    another one, although the applies hold two re-split aggregates with
    different inner splits. *)
Example custom_aggregate_refused_first :
  (exists r r',
      List.In (Examples.resplitMax "page") (allSubexpressions Examples.customFirst)
      /\ List.In (Examples.resplitMax "user") (allSubexpressions Examples.customFirst)
      /\ parseResplitAgg (Examples.resplitMax "page") = Some r
      /\ parseResplitAgg (Examples.resplitMax "user") = Some r'
      /\ split_equals (resplitSplit r) (resplitSplit r') = false)
  /\ @nestedGroupByPlanners Examples.collaborators (Examples.totalOf Examples.customFirst)
     = Throw "can not currently combine custom aggregation and re-split"
  /\ (forall plan,
        @nestedGroupByIfNeeded Examples.collaborators plan
          (Examples.totalOf Examples.customFirst)
        <> Throw "all resplit aggregators must have the same split").
Proof.
  split; [|split].
  - eexists _, _. split; [|split; [|split; [|split]]]; try reflexivity.
    + cbn. auto 10.
    + cbn. auto 20.
  - reflexivity.
  - intros plan. discriminate.
Qed.

(** When the inner apply of a re-split aggregate over a filtered
    dataset holds a re-split aggregate, [parseResplitAgg] puts the
    filter on the dataset references of the inner apply, those in the
    split keys of the inner aggregate too.  With two such aggregates
    for two filters all the re-split aggregates of the applies have
    equal inner splits (with a typed reference to a dataset in a split
    key), and the walk of the planner goes through, but
    the two applies of the inner planner do not: the planning of the
    inner planner throws the error, and so do [nestedGroupByIfNeeded]
    and [getQueryAndPostTransform]. *)
Example agreeing_resplits_refused_by_inner_planner :
  (forall a a' r r',
      List.In a (allSubexpressions Samples.twoLanguages) ->
      List.In a' (allSubexpressions Samples.twoLanguages) ->
      parseResplitAgg a = Some r -> parseResplitAgg a' = Some r' ->
      split_equals (resplitSplit r) (resplitSplit r') = true)
  /\ keysDatasetFree (allSubexpressions Samples.twoLanguages) = false
  /\ (exists r r',
        List.In (Samples.inLanguage "en") (visited Samples.twoLanguages)
        /\ List.In (Samples.inLanguage "fr") (visited Samples.twoLanguages)
        /\ parseResplitAgg (Samples.inLanguage "en") = Some r
        /\ parseResplitAgg (Samples.inLanguage "fr") = Some r')
  /\ (exists planners,
        @nestedGroupByPlanners Examples.collaborators
          (Examples.totalOf Samples.twoLanguages) = Ok (Some planners)
        /\ @nestedGroupByPlanners Examples.collaborators (innerExternal planners)
           = Throw sameSplitMessage)
  /\ (forall fuel,
        @nestedGroupByIfNeeded Examples.collaborators
          (@getQueryAndPostTransform Examples.collaborators (S fuel))
          (Examples.totalOf Samples.twoLanguages) = Throw sameSplitMessage)
  /\ (forall fuel,
        @getQueryAndPostTransform Examples.collaborators (S (S fuel))
          (Examples.totalOf Samples.twoLanguages) = Throw sameSplitMessage).
Proof.
  split; [|split; [|split; [|split; [|split]]]].
  - apply resplitsAgree_pairs. vm_compute. reflexivity.
  - vm_compute. reflexivity.
  - eexists _, _. split; [|split; [|split]]; try reflexivity.
    + left. reflexivity.
    + right. left. reflexivity.
  - eexists. split; vm_compute; reflexivity.
  - intros fuel. vm_compute. reflexivity.
  - intros fuel. vm_compute. reflexivity.
Qed.

(** C3 as the specification words it fails both ways.  Two re-split
    aggregates with different inner splits after a custom aggregate:
    the error raised is another one.  Re-split aggregates that all
    have equal inner splits, two of them with a re-split aggregate in
    the inner apply and different filters: the error is raised, by the
    planning of the inner planner. *)
Lemma same_split_error_fails_both_ways :
  ((exists r r',
       List.In (Examples.resplitMax "page") (allSubexpressions Examples.customFirst)
       /\ List.In (Examples.resplitMax "user") (allSubexpressions Examples.customFirst)
       /\ parseResplitAgg (Examples.resplitMax "page") = Some r
       /\ parseResplitAgg (Examples.resplitMax "user") = Some r'
       /\ split_equals (resplitSplit r) (resplitSplit r') = false)
   /\ forall plan,
        @nestedGroupByIfNeeded Examples.collaborators plan
          (Examples.totalOf Examples.customFirst)
        <> Throw "all resplit aggregators must have the same split")
  /\ ((forall a a' r r',
         List.In a (allSubexpressions Samples.twoLanguages) ->
         List.In a' (allSubexpressions Samples.twoLanguages) ->
         parseResplitAgg a = Some r -> parseResplitAgg a' = Some r' ->
         split_equals (resplitSplit r) (resplitSplit r') = true)
      /\ forall fuel,
           @nestedGroupByIfNeeded Examples.collaborators
             (@getQueryAndPostTransform Examples.collaborators (S fuel))
             (Examples.totalOf Samples.twoLanguages)
           = Throw "all resplit aggregators must have the same split"
           /\ @getQueryAndPostTransform Examples.collaborators (S (S fuel))
                (Examples.totalOf Samples.twoLanguages)
              = Throw "all resplit aggregators must have the same split").
Proof.
  destruct custom_aggregate_refused_first as (Hdiffer & _ & Hother).
  destruct agreeing_resplits_refused_by_inner_planner
    as (Hagree & _ & _ & _ & Hnested & Hplan).
  split; [split; [exact Hdiffer|exact Hother]|].
  split; [exact Hagree|]. intros fuel. split; [apply Hnested|apply Hplan].
Qed.

(* ====================================================================== *)
(** ** The nested group-by rewrite: the two planners *)
(* ====================================================================== *)

Lemma to_uint_nonnil (n : nat) : Nat.to_uint n <> Decimal.Nil.
Proof.
  intros E. pose proof (Unsigned.of_to n) as O. rewrite E in O.
  cbn in O. subst n. discriminate E.
Qed.

Lemma natToString_injective (n m : nat) : natToString n = natToString m -> n = m.
Proof.
  unfold natToString. intros E.
  apply (f_equal NilZero.uint_of_string) in E.
  rewrite !NilZero.usu in E by apply to_uint_nonnil.
  injection E as E. now apply Unsigned.to_uint_inj.
Qed.

Section Schema.
Context `{Collaborators}.

Lemma hasOwnProp_keys {A} (o : Lookup A) (key : string) :
  hasOwnProp o key = true -> List.In key (map fst o).
Proof.
  induction o as [|[k v] o IH]; cbn; [discriminate|].
  intros E. apply orb_true_iff in E as [E|E].
  - left. now apply String.eqb_eq.
  - right. auto.
Qed.

Lemma assign_fresh {A} (o : Lookup A) (key : string) (v : A) :
  ~ List.In key (map fst o) -> assign o key v = (o ++ [(key, v)])%list.
Proof.
  induction o as [|[k w] o IH]; cbn; intros N; [reflexivity|].
  destruct (String.eqb k key) eqn:E.
  - apply String.eqb_eq in E. tauto.
  - rewrite IH; tauto.
Qed.

Lemma intermediateName_fresh (n : nat) :
  ~ List.In (intermediateName n) (map intermediateName (seq 0 n)).
Proof.
  intros I. apply in_map_iff in I as (j & E & I).
  apply in_seq in I. unfold intermediateName in E.
  injection E as E. apply natToString_injective in E. lia.
Qed.

Lemma divvy_inner (ex : Expression) (name : string) :
  fst (divvyUpNestedSplitExpression ex name) = ex.
Proof.
  unfold divvyUpNestedSplitExpression.
  destruct ex as [| |o op t x| |]; try reflexivity. destruct op; reflexivity.
Qed.

Lemma merged_step (attributes : Attributes) (m : SplitMerge) (ex : Expression)
  (outer : Lookup Expression) :
  merged attributes m ->
  merged attributes
    {| splitCount := S (splitCount m);
       mergedAttributes :=
         (mergedAttributes m
          ++ [AttributeInfo_fromJS ("s" ++ natToString (splitCount m))
                (typeOf (fst (divvyUpNestedSplitExpression ex
                                ("s" ++ natToString (splitCount m))))) None])%list;
       innerSplits :=
         assign (innerSplits m) ("s" ++ natToString (splitCount m))
           (fst (divvyUpNestedSplitExpression ex ("s" ++ natToString (splitCount m))));
       outerSplits := outer |}.
Proof.
  intros [Hattrs Hkeys]. unfold merged. cbn [mergedAttributes innerSplits splitCount].
  rewrite assign_fresh.
  - split.
    + rewrite Hattrs, map_app, app_assoc. reflexivity.
    + rewrite map_app, Hkeys, seq_S, map_app. reflexivity.
  - rewrite Hkeys. apply intermediateName_fresh.
Qed.

Lemma mergeResplitKey_merged (attributes : Attributes) (split : option SplitExpression)
  (m : SplitMerge) (kv : string * Expression) :
  merged attributes m -> merged attributes (mergeResplitKey split m kv).
Proof. intros M. unfold mergeResplitKey. now apply merged_step. Qed.

Lemma mergeOuterKey_merged (attributes : Attributes) (m : SplitMerge)
  (kv : string * Expression) :
  merged attributes m -> merged attributes (mergeOuterKey m kv).
Proof.
  intros M. unfold mergeOuterKey.
  destruct (hasOwnProp (outerSplits m) (fst kv) || _); [exact M|].
  now apply merged_step.
Qed.

Lemma fold_left_invariant {A B} (P : A -> Prop) (f : A -> B -> A) (l : list B) :
  (forall a b, P a -> P (f a b)) -> forall a, P a -> P (fold_left f l a).
Proof. intros Hf. induction l as [|b l IH]; intros a Pa; cbn; auto. Qed.

Lemma mergeSplits_merged (split : option SplitExpression) (global : SplitExpression)
  (attributes : Attributes) :
  merged attributes (mergeSplits split global attributes).
Proof.
  unfold mergeSplits.
  assert (Start : merged attributes
            {| splitCount := 0; mergedAttributes := attributes;
               innerSplits := []; outerSplits := [] |}).
  { split; cbn; [now rewrite app_nil_r | reflexivity]. }
  assert (Resplit : merged attributes
            (fold_left (mergeResplitKey split) (splits global)
               {| splitCount := 0; mergedAttributes := attributes;
                  innerSplits := []; outerSplits := [] |})).
  { apply fold_left_invariant; [|exact Start].
    intros m kv. apply mergeResplitKey_merged. }
  destruct split as [sp|]; [|exact Resplit].
  apply fold_left_invariant; [|exact Resplit].
  intros m kv. apply mergeOuterKey_merged.
Qed.
End Schema.

Section Plan.
Context `{Collaborators}.

Lemma visit_named (i : nat) (a : Expression) (s s' : Captured) :
  visit i a s = Ok s' -> named s -> named s'.
Proof.
  unfold visit, splitUpAggregate, named.
  destruct (isAggregate a); [|now intros [= <-]].
  destruct (parseResplitAgg a) as [resplit|].
  - unfold bind, get, ret, throw, pushInnerApply, pushOuterAttribute, modify,
      setGlobalResplitSplit.
    destruct (globalResplitSplit s) as [g|].
    + destruct (negb (split_equals g (resplitSplit resplit))); [discriminate|].
      destruct (getFilterSubExpression _); intros [= <-] N; cbn;
        rewrite !map_app, N; reflexivity.
    + destruct (getFilterSubExpression _); intros [= <-] N; cbn;
        rewrite !map_app, N; reflexivity.
  - unfold bind, get, ret, throw, pushInnerApply, pushOuterAttribute, modify, setC.
    destruct a as [| |o op t x|o op t x e|]; try discriminate.
    + destruct op; try discriminate. intros [= <-] N; cbn.
      rewrite !map_app, N. reflexivity.
    + intros [= <-] N; cbn. rewrite !map_app, N. reflexivity.
Qed.

Lemma visitAll_named (i : nat) (l : list Expression) :
  forall s s', visitAll i l s = Ok s' -> named s -> named s'.
Proof.
  induction l as [|a l IH]; intros s s'; cbn [visitAll].
  - now intros [= <-].
  - destruct (visit i a s) as [s1|] eqn:V; [|discriminate].
    intros E N. eapply IH; eauto. eapply visit_named; eauto.
Qed.

Lemma walk_named (l : list ApplyExpression) :
  forall i s s', walk i l s = Ok s' -> named s -> named s'.
Proof.
  induction l as [|apply more IH]; intros i s s'; cbn [walk].
  - now intros [= <-].
  - destruct (visitAll i _ (resetC s)) as [s1|] eqn:V; [|discriminate].
    intros E N. eapply IH; eauto. eapply visitAll_named; eauto.
Qed.

Lemma splitUpApplies_named (l outerApplies : list ApplyExpression) (walked : Captured) :
  splitUpApplies 0 l noneCaptured = Ok (outerApplies, walked) -> named walked.
Proof.
  intros E. pose proof (splitUpApplies_walk l 0 noneCaptured) as W.
  rewrite E in W. cbn [stateOf] in W. symmetry in W.
  eapply walk_named; eauto. reflexivity.
Qed.

(** C4.  Whenever [nestedGroupByIfNeeded] returns a plan, it made two
    planners.  The inner one has mode [split], no sort, no limit and
    query selection [group-by-only].  The outer one has filter [TRUE],
    [allowEternity] set, query selection [group-by-only], and as
    [rawAttributes] the schema of the intermediate columns: one
    attribute for each apply of the inner planner, of the same name and
    in the same order, followed by one for each key of the inner split,
    of the same name and of the type of its expression.  The query
    returned is the outer planner's, with the inner planner's query (its
    [context] deleted) as a data source of type [query]. *)
Theorem nested_plan_shape
  (plan : External -> result (QueryAndPostTransform DruidQuery))
  (ext : External) (nested : QueryAndPostTransform DruidQuery) :
  nestedGroupByIfNeeded plan ext = Ok (Some nested) ->
  exists planners inner outer innerSplit innerApplies appliesSchema splitsObject,
    nestedGroupByPlanners ext = Ok (Some planners)
    /\ mode (innerExternal planners) = Split
    /\ sort (innerExternal planners) = None
    /\ limit (innerExternal planners) = None
    /\ querySelection (innerExternal planners) = Some group_by_only
    /\ filter (outerExternal planners) = Expression_TRUE
    /\ allowEternity (outerExternal planners) = true
    /\ querySelection (outerExternal planners) = Some group_by_only
    /\ applies (innerExternal planners) = Some innerApplies
    /\ split (innerExternal planners) = Some innerSplit
    /\ splits innerSplit = sortSplits splitsObject
    /\ rawAttributes (outerExternal planners)
       = (appliesSchema ++ map intermediate splitsObject)%list
    /\ map attr_name appliesSchema = map apply_name innerApplies
    /\ plan (innerExternal planners) = Ok inner
    /\ plan (outerExternal planners) = Ok outer
    /\ dataSource (query nested)
       = DataSourceQuery (set_q_context None (query inner)).
Proof.
  unfold nestedGroupByIfNeeded.
  destruct (nestedGroupByPlanners ext) as [[planners|]|] eqn:P; try discriminate.
  cbn [rbind].
  destruct (plan (innerExternal planners)) as [inner|] eqn:I; [|discriminate].
  cbn [rbind].
  destruct (plan (outerExternal planners)) as [outer|] eqn:O; [|discriminate].
  cbn [rbind]. intros [= <-].
  unfold nestedGroupByPlanners in P.
  destruct (effectiveApplies ext) as [l|]; [|discriminate]. cbn [rbind] in P.
  destruct (negb (existsb containsSplit l)); [discriminate|].
  destruct (splitUpApplies 0 l noneCaptured) as [[outerApplies walked]|] eqn:W;
    [|discriminate].
  cbn [rbind] in P.
  destruct (globalResplitSplit walked) as [global|]; [|discriminate].
  injection P as <-.
  destruct (mergeSplits_merged (split ext) global (outerAttributes walked))
    as [Hattrs _].
  set (m := mergeSplits (split ext) global (outerAttributes walked)) in *.
  exists {| innerExternal := innerValue ext walked m;
            outerExternal := outerValue ext outerApplies m |}, inner, outer,
    (match split ext with
     | Some sp => changeSplits (innerSplits m) sp
     | None => split_ Expression_ (innerSplits m)
     end),
    (innerApplies walked), (outerAttributes walked), (innerSplits m).
  cbn [innerExternal outerExternal innerValue outerValue mode sort limit querySelection
       filter allowEternity applies split rawAttributes query change_query dataSource
       set_dataSource].
  repeat (split; [reflexivity|]).
  split; [destruct (split ext); reflexivity|].
  split; [exact Hattrs|].
  split; [exact (splitUpApplies_named _ _ _ W)|].
  repeat split; assumption.
Qed.
End Plan.

(** Scenario 5 of the specification: the total of
    [max(split(...).apply('x', count()))] is planned as a nested
    group-by. *)
Lemma nested_plan_shape_witness :
  exists nested,
    @nestedGroupByIfNeeded Examples.collaborators
      (@getQueryAndPostTransform Examples.collaborators 2)
      (Examples.totalOf Examples.maxPerPage) = Ok (Some nested)
    /\ exists planners inner outer innerSplit innerApplies appliesSchema splitsObject,
         @nestedGroupByPlanners Examples.collaborators
           (Examples.totalOf Examples.maxPerPage) = Ok (Some planners)
         /\ mode (innerExternal planners) = Split
         /\ sort (innerExternal planners) = None
         /\ limit (innerExternal planners) = None
         /\ querySelection (innerExternal planners) = Some group_by_only
         /\ filter (outerExternal planners) = Expression_TRUE
         /\ allowEternity (outerExternal planners) = true
         /\ querySelection (outerExternal planners) = Some group_by_only
         /\ applies (innerExternal planners) = Some innerApplies
         /\ split (innerExternal planners) = Some innerSplit
         /\ splits innerSplit = sortSplits splitsObject
         /\ rawAttributes (outerExternal planners)
            = (appliesSchema ++ map intermediate splitsObject)%list
         /\ map attr_name appliesSchema = map apply_name innerApplies
         /\ @getQueryAndPostTransform Examples.collaborators 2 (innerExternal planners)
            = Ok inner
         /\ @getQueryAndPostTransform Examples.collaborators 2 (outerExternal planners)
            = Ok outer
         /\ dataSource (query nested)
            = DataSourceQuery (set_q_context None (query inner)).
Proof.
  eexists. split.
  - vm_compute. reflexivity.
  - apply (@nested_plan_shape Examples.collaborators
             (@getQueryAndPostTransform Examples.collaborators 2)
             (Examples.totalOf Examples.maxPerPage)).
    vm_compute. reflexivity.
Defined.

(* ====================================================================== *)
(** * Further properties of the code *)
(* ====================================================================== *)

(** ** References *)

Lemma length_zero (s : string) : Nat.eqb (String.length s) 0 = true <-> s = "".
Proof. destruct s; simpl; split; intro E; try reflexivity; discriminate. Qed.

Lemma nonEmpty_true (s : string) : nonEmpty s = true <-> s <> "".
Proof.
  unfold nonEmpty. destruct (String.eqb_spec s ""); simpl; split; intro E;
    try reflexivity; try discriminate; congruence.
Qed.

Lemma PlyType_toString_valid (t : PlyType) :
  nonEmpty (PlyType_toString t) = true
  /\ RefExpression.validType (PlyType_toString t) = true
  /\ lookup POSSIBLE_TYPES (PlyType_toString t) = Some t
  /\ every isTypeChar (PlyType_toString t) = true.
Proof. destruct t; repeat split; reflexivity. Qed.

Lemma PlyType_eqb_refl (t : PlyType) : PlyType_eqb t t = true.
Proof. destruct t; reflexivity. Qed.

Lemma every_app (class : ascii -> bool) (a b : string) :
  every class (a ++ b) = every class a && every class b.
Proof.
  induction a as [|ch a IH]; simpl; [reflexivity|].
  rewrite IH. apply andb_assoc.
Qed.

Lemma get_app_length (a b : string) (ch : ascii) :
  String.get (String.length a) (a ++ String ch b) = Some ch.
Proof. induction a as [|x a IH]; simpl; [reflexivity|exact IH]. Qed.

Lemma substring_app_length (a b : string) :
  String.substring 0 (String.length a) (a ++ b) = a.
Proof.
  induction a as [|x a IH]; simpl; [destruct b; reflexivity|].
  rewrite IH. reflexivity.
Qed.

Lemma string_length_app (a b : string) :
  String.length (a ++ b) = String.length a + String.length b.
Proof. induction a as [|x a IH]; simpl; [reflexivity|]. rewrite IH. reflexivity. Qed.

Lemma string_app_nil (a : string) : a ++ "" = a.
Proof. induction a as [|x a IH]; simpl; [reflexivity|]. rewrite IH. reflexivity. Qed.

(** A character that starts a simple name, or is part of one, is none of
    the characters [parse] gives a meaning to. *)
Lemma nameStart_plain (ch : ascii) :
  isUpper ch || isLower ch || Ascii.eqb ch "_" = true ->
  ch <> "^"%char /\ ch <> "{"%char /\ ch <> ":"%char.
Proof.
  destruct ch as [[] [] [] [] [] [] [] []]; vm_compute; intros E;
    try discriminate; repeat split; discriminate.
Qed.

Lemma wordChar_plain (ch : ascii) :
  isWordChar ch = true -> Ascii.eqb ch ":" = false.
Proof.
  destruct ch as [[] [] [] [] [] [] [] []]; vm_compute; intros E;
    try discriminate; reflexivity.
Qed.

(** The addition of numbers is exact on the safe integers. *)
Lemma roundToDouble_safe (z : Z) : isSafeInteger z = true -> roundToDouble z = z.
Proof.
  unfold isSafeInteger, roundToDouble. intros Hsafe.
  apply Z.leb_le in Hsafe.
  destruct (Z.ltb_spec (Z.abs z) (2 ^ 53)); [reflexivity|lia].
Qed.

Lemma numberAdd_safe (a b : Z) :
  isSafeInteger (a + b) = true -> numberAdd a b = (a + b)%Z.
Proof. apply roundToDouble_safe. Qed.

(** From [2^53] on it is not: [2^53 + 1] is [2^53], so that adding
    one twice is not adding two. *)
Example numberAdd_rounds :
  numberAdd (2 ^ 53) 1 = (2 ^ 53)%Z
  /\ numberAdd (numberAdd (2 ^ 53) 1) 1 = (2 ^ 53)%Z
  /\ numberAdd (2 ^ 53) 2 = (2 ^ 53 + 2)%Z
  /\ numberAdd (numberAdd 1 (2 ^ 53)) (- 2 ^ 53) = 0%Z.
Proof. repeat split; vm_compute; reflexivity. Qed.

Section References.
Import RefExpression.

(** What the constructor makes of a value it accepts. *)
Lemma new_ok (name : string) (nest : nat) (type : option PlyType)
  (o : Options) (flag : option bool) :
  name <> "" ->
  new {| value_options := o; value_name := Some name;
         value_nest := Some (Z.of_nat nest);
         value_type := option_map PlyType_toString type;
         value_ignoreCase := flag |}
  = Ok {| options := o; name := name; nest := nest; type := type;
          ignoreCase := flag |}.
Proof.
  intros Hname. unfold new. cbn [value_name value_nest value_type value_options
                                  value_ignoreCase].
  destruct (Nat.eqb (String.length name) 0) eqn:L.
  { apply length_zero in L. contradiction. }
  destruct (Z.ltb_spec (Z.of_nat nest) 0) as [Hneg|_]; [lia|].
  rewrite Nat2Z.id.
  destruct type as [t|]; cbn [option_map]; [|reflexivity].
  destruct (PlyType_toString_valid t) as (-> & -> & -> & _). reflexivity.
Qed.

Lemma new_name (v : ExpressionValue) (this : t) :
  new v = Ok this -> name this <> "".
Proof.
  unfold new. destruct (value_name v) as [n|]; [|discriminate].
  destruct (Nat.eqb (String.length n) 0) eqn:L; [discriminate|].
  destruct (value_nest v) as [k|]; [|discriminate].
  destruct (Z.ltb k 0); [discriminate|].
  destruct (match value_type v with Some _ => _ | None => _ end);
    [|discriminate].
  cbn [rbind]. intros [= <-]. cbn [name]. intros ->. discriminate.
Qed.

Lemma new_ignoreCase (v : ExpressionValue) (this : t) :
  new v = Ok this -> ignoreCase this = value_ignoreCase v.
Proof.
  unfold new. destruct (value_name v) as [n|]; [|discriminate].
  destruct (Nat.eqb (String.length n) 0) eqn:L; [discriminate|].
  destruct (value_nest v) as [k|]; [|discriminate].
  destruct (Z.ltb k 0); [discriminate|].
  destruct (match value_type v with Some _ => _ | None => _ end);
    [|discriminate].
  cbn [rbind]. intros [= <-]. reflexivity.
Qed.

(** X1.  A reference that the constructor of [RefExpression] accepts
    has a non-empty name, and unless its [ignoreCase] was given as
    [false], building a reference from its [valueOf] gives the same
    reference again. *)
Theorem new_valueOf (v : ExpressionValue) (this : t) :
  new v = Ok this ->
  name this <> ""
  /\ (value_ignoreCase v <> Some false -> new (valueOf this) = Ok this).
Proof.
  intros Hnew. pose proof (new_name _ _ Hnew) as Hname.
  split; [exact Hname|]. intros Hflag.
  apply new_ignoreCase in Hnew. rewrite <- Hnew in Hflag.
  unfold valueOf. rewrite new_ok by exact Hname.
  destruct this as [o n k ty [[|]|]]; cbn in *; try reflexivity. congruence.
Qed.

(** *** [parse] reads back what [toString] prints *)

Lemma generations_carets (n : nat) (body : string) :
  generations (repeatString "^" n ++ body) = n + generations body.
Proof. induction n as [|n IH]; simpl; [reflexivity|]. rewrite IH. reflexivity. Qed.

Lemma substr_carets (n : nat) (body : string) :
  substr n (repeatString "^" n ++ body) = body.
Proof. induction n as [|n IH]; simpl; [destruct body; reflexivity|exact IH]. Qed.

Lemma typeMatch_suffix (body group : string) :
  group <> "" -> every isTypeChar group = true ->
  typeMatch (body ++ String ":" group) = Some (body, group).
Proof.
  intros Hne Hall. induction body as [|ch body IH].
  - cbn [append typeMatch]. apply nonEmpty_true in Hne. rewrite Hne, Hall.
    reflexivity.
  - cbn [append typeMatch]. rewrite every_app. cbn [every].
    replace (isTypeChar ":") with false by reflexivity.
    cbn [andb]. rewrite andb_false_r, andb_false_r, IH. reflexivity.
Qed.

Lemma typeMatch_no_colon (str : string) :
  every (fun ch => negb (Ascii.eqb ch ":")) str = true -> typeMatch str = None.
Proof.
  induction str as [|ch str IH]; [reflexivity|].
  cbn [every typeMatch]. intros [Hch Hrest]%andb_true_iff.
  apply negb_true_iff in Hch. rewrite Hch. cbn [andb].
  rewrite (IH Hrest). reflexivity.
Qed.

Lemma typeMatch_braced (body : string) : typeMatch (body ++ "}") = None.
Proof.
  induction body as [|ch body IH]; [reflexivity|].
  cbn [append typeMatch]. rewrite every_app.
  replace (every isTypeChar "}") with false by reflexivity.
  rewrite andb_false_r, andb_false_r. rewrite IH. reflexivity.
Qed.

Lemma every_weaken (p q : ascii -> bool) (str : string) :
  (forall ch, p ch = true -> q ch = true) ->
  every p str = true -> every q str = true.
Proof.
  intros Hpq. induction str as [|ch str IH]; [reflexivity|].
  cbn [every]. intros [Hch Hrest]%andb_true_iff.
  rewrite (Hpq _ Hch), (IH Hrest). reflexivity.
Qed.

(** The name as [toString] shows it: in braces unless it is simple. *)
Lemma shown_name (name : string) :
  name <> "" ->
  let shown := if negb (simpleName name) then "{" ++ name ++ "}" else name in
  generations shown = 0
  /\ (forall more, generations (shown ++ more) = 0)
  /\ typeMatch shown = None
  /\ unbrace shown = name.
Proof.
  intros Hname. destruct (simpleName name) eqn:Hsimple; cbn [negb].
  - destruct name as [|ch more]; [discriminate|].
    cbn [simpleName] in Hsimple. apply andb_true_iff in Hsimple as [Hch Hmore].
    destruct (nameStart_plain ch Hch) as (Hcaret & Hbrace & Hcolon).
    assert (G : forall tail, generations (String ch tail) = 0).
    { intros tail. cbn [generations].
      destruct ch as [[] [] [] [] [] [] [] []]; try reflexivity.
      contradiction Hcaret. reflexivity. }
    repeat split.
    + apply G.
    + intros tail. apply G.
    + apply typeMatch_no_colon. cbn [every].
      apply andb_true_iff. split.
      * apply negb_true_iff. apply Ascii.eqb_neq. exact Hcolon.
      * revert Hmore. apply every_weaken. intros x Hx.
        rewrite (wordChar_plain x Hx). reflexivity.
    + unfold unbrace. cbn [String.get option_eqb].
      destruct (Ascii.eqb_spec ch "{"); [contradiction|]. reflexivity.
  - repeat split.
    + change ("{" ++ name ++ "}") with (("{" ++ name) ++ "}").
      apply typeMatch_braced.
    + unfold unbrace. cbn [append].
      cbn [String.get option_eqb String.length].
      rewrite string_length_app. cbn [String.length].
      replace (S (String.length name + 1) - 1) with (S (String.length name))
        by lia.
      replace (S (String.length name + 1) - 2) with (String.length name)
        by lia.
      rewrite get_app_length. cbn [option_eqb andb Ascii.eqb Bool.eqb].
      cbn [String.substring]. apply substring_app_length.
Qed.

(** X2.  [parse] reads back what [toString] prints.  For a reference
    with a non-empty name, the text that [toString] puts after the [$]
    (or [i$]) is parsed to a reference with the same name, nesting and
    type, whether the name is simple or has to be put in braces. *)
Theorem toString_parse (this : t) :
  name this <> "" ->
  exists str parsed,
    toString this = (if isTrue (ignoreCase this) then "i$" else "$") ++ str
    /\ parse str = Ok parsed
    /\ name parsed = name this
    /\ nest parsed = nest this
    /\ type parsed = type this.
Proof.
  intros Hname.
  destruct (shown_name (name this) Hname) as (_ & Hgen & Hmatch & Hunbrace).
  set (shown := if negb (simpleName (name this))
                then "{" ++ name this ++ "}" else name this) in *.
  set (tail := match type this with
               | Some ty => String ":" (PlyType_toString ty)
               | None => ""
               end).
  exists (repeatString "^" (nest this) ++ shown ++ tail).
  exists {| options := []; name := name this; nest := nest this;
            type := type this; ignoreCase := None |}.
  split; [|split; [|repeat split]].
  - unfold toString. fold shown. f_equal.
    assert (E : (if negb (Nat.eqb (nest this) 0)
                 then repeatString "^" (nest this) ++ shown else shown)
                = repeatString "^" (nest this) ++ shown).
    { destruct (nest this); reflexivity. }
    rewrite E. unfold tail. destruct (type this) as [ty|].
    + rewrite string_app_assoc. reflexivity.
    + rewrite string_app_nil. reflexivity.
  - unfold parse. rewrite generations_carets, Hgen, Nat.add_0_r, substr_carets.
    assert (E : match typeMatch (shown ++ tail) with
                | Some (before, group) => (before, Some group)
                | None => (shown ++ tail, None)
                end = (shown, option_map PlyType_toString (type this))).
    { unfold tail. destruct (type this) as [ty|]; cbn [option_map].
      - destruct (PlyType_toString_valid ty) as (Hne & _ & _ & Hall).
        apply nonEmpty_true in Hne.
        rewrite (typeMatch_suffix shown _ Hne Hall). reflexivity.
      - rewrite string_app_nil, Hmatch. reflexivity. }
    rewrite E, Hunbrace. apply new_ok. exact Hname.
Qed.

(** X3.  [parse] refuses a type it does not know: a simple name
    followed by a colon and a run of the characters [A-Z], [/] and [_]
    that is not a key of [POSSIBLE_TYPES] makes the constructor throw
    the type error that names the run. *)
Theorem parse_refuses_unknown_type (simple group : string) :
  simpleName simple = true ->
  group <> "" -> every isTypeChar group = true -> validType group = false ->
  parse (simple ++ String ":" group)
  = TypeError ("unsupported type '" ++ group ++ "'").
Proof.
  intros Hsimple Hne Hall Hinvalid.
  assert (Hname : simple <> "") by (intros ->; discriminate).
  destruct (shown_name simple Hname) as (_ & Hgen & _ & Hunbrace).
  rewrite Hsimple in Hgen, Hunbrace. cbn [negb] in Hgen, Hunbrace.
  unfold parse. rewrite Hgen. cbn [substr].
  rewrite (typeMatch_suffix simple group Hne Hall), Hunbrace.
  unfold new. cbn [value_name value_nest value_type].
  destruct (Nat.eqb (String.length simple) 0) eqn:L.
  { apply length_zero in L. contradiction. }
  cbn [Z.of_nat Z.ltb Z.compare]. apply nonEmpty_true in Hne.
  rewrite Hne, Hinvalid. reflexivity.
Qed.

(** *** Rebuilds *)



Lemma changeType_value (newType : PlyType) (this : t) :
  name this <> "" ->
  changeType newType this
  = Ok {| options := options this; name := name this; nest := nest this;
          type := Some newType;
          ignoreCase := if isTrue (ignoreCase this) then Some true else None |}.
Proof.
  intros Hname. unfold changeType, valueOf.
  cbn [value_name value_nest value_type value_options value_ignoreCase].
  apply (new_ok (name this) (nest this) (Some newType)). exact Hname.
Qed.

(** X5.  [upgradeToType] never throws on a reference with a non-empty
    name and keeps its name and nesting; it changes the type only to
    [TIME], and only when the reference has no type or the type
    [STRING]; upgrading the result again changes nothing. *)
Theorem upgradeToType_once (targetType : PlyType) (this : t) :
  name this <> "" ->
  exists upgraded,
    upgradeToType targetType this = Ok upgraded
    /\ name upgraded = name this
    /\ nest upgraded = nest this
    /\ isTrue (ignoreCase upgraded) = isTrue (ignoreCase this)
    /\ type upgraded
       = (if PlyType_eqb targetType TIME
             && match type this with
                | None | Some STRING => true
                | _ => false
                end
          then Some TIME else type this)
    /\ upgradeToType targetType upgraded = Ok upgraded.
Proof.
  intros Hname. unfold upgradeToType at 1.
  destruct (PlyType_eqb targetType TIME) eqn:Htarget; cbn [andb].
  - apply PlyType_eqb_eq in Htarget. subst targetType.
    destruct (type this) as [ty|] eqn:Hty; cbn [truthy negb orb option_eqb].
    + destruct (PlyType_eqb ty STRING) eqn:Hs.
      * apply PlyType_eqb_eq in Hs. subst ty.
        rewrite changeType_value by exact Hname. eexists. split; [reflexivity|].
        cbn [name nest type ignoreCase]. repeat split.
        destruct (ignoreCase this) as [[|]|]; reflexivity.
      * exists this. repeat split.
        -- rewrite Hty. destruct ty; try reflexivity. discriminate.
        -- unfold upgradeToType. rewrite Hty. cbn. rewrite Hs. reflexivity.
    + rewrite changeType_value by exact Hname. eexists. split; [reflexivity|].
      cbn [name nest type ignoreCase]. repeat split.
      destruct (ignoreCase this) as [[|]|]; reflexivity.
  - exists this. repeat split. unfold upgradeToType. rewrite Htarget. reflexivity.
Qed.

(** *** Resolution *)

Section Resolution.
Variable toLowerCase : string -> string.

Lemma hasOwnProp_keys_iff {A} (obj : Lookup A) (key : string) :
  hasOwnProp obj key = true <-> List.In key (map fst obj).
Proof.
  induction obj as [|[k v] obj IH]; cbn [hasOwnProp map fst List.In].
  - split; [discriminate|contradiction].
  - rewrite orb_true_iff, String.eqb_eq, IH. reflexivity.
Qed.

(** X6.  What [findPropertyCI] finds is an own key of the object whose
    lower-case form is that of the key asked for, and it finds a key
    whenever [findProperty] finds the key itself. *)
Theorem findPropertyCI_own {A} (obj : Lookup A) (key : string) :
  (forall found, findPropertyCI toLowerCase (Some obj) key = Some found ->
     hasOwnProp obj found = true /\ toLowerCase found = toLowerCase key)
  /\ (findProperty obj key = Some key ->
      exists found, findPropertyCI toLowerCase (Some obj) key = Some found).
Proof.
  unfold findPropertyCI, findProperty. split.
  - intros found Hfound. apply find_some in Hfound as [Hin Heq].
    apply String.eqb_eq in Heq. split; [|exact Heq].
    apply hasOwnProp_keys_iff. exact Hin.
  - destruct (hasOwnProp obj key) eqn:Hown; [|discriminate]. intros _.
    apply hasOwnProp_keys_iff in Hown.
    destruct (find (fun v => String.eqb (toLowerCase v) (toLowerCase key))
                (map fst obj)) as [found|] eqn:Hfind.
    + exists found. reflexivity.
    + exfalso. apply (find_none _ _ Hfind) in Hown.
      rewrite String.eqb_refl in Hown. discriminate.
Qed.

Lemma stepBack_add (a b : nat) (typeContext scope found : DatasetFullType) :
  stepBack a typeContext = Some scope -> stepBack b scope = Some found ->
  stepBack (a + b) typeContext = Some found.
Proof.
  revert typeContext. induction a as [|a IH]; intros typeContext; cbn [stepBack Nat.add].
  - intros [= ->]. auto.
  - destruct (parent typeContext) as [enclosing|]; [|discriminate].
    apply IH.
Qed.

Lemma DatasetFullType_induction (P : DatasetFullType -> Prop) :
  (forall types, P (TypeContext types None)) ->
  (forall types outer, P outer -> P (TypeContext types (Some outer))) ->
  forall typeContext, P typeContext.
Proof.
  intros Hnone Hsome. fix IH 1. intros [types [outer|]].
  - apply Hsome. apply IH.
  - apply Hnone.
Qed.

Lemma findInChain_found (myName : string) (nestDiff d : nat)
  (scope found : DatasetFullType) :
  findInChain myName nestDiff scope = Some (found, d) ->
  exists steps, d = nestDiff + steps
    /\ stepBack steps scope = Some found
    /\ hasOwnProp (datasetType found) myName = true.
Proof.
  revert nestDiff.
  induction scope as [types|types outer IH] using DatasetFullType_induction;
    intros nestDiff; cbn [findInChain];
    destruct (hasOwnProp types myName) eqn:Hown.
  - intros [= <- <-]. exists 0. rewrite Nat.add_0_r. auto.
  - discriminate.
  - intros [= <- <-]. exists 0. rewrite Nat.add_0_r. auto.
  - intros Hfound. apply IH in Hfound as (steps & -> & Hsteps & Hhas).
    exists (S steps). repeat split; [lia| |exact Hhas].
    cbn [stepBack parent]. exact Hsteps.
Qed.

Lemma findInChain_here (myName : string) (scope : DatasetFullType) :
  hasOwnProp (datasetType scope) myName = true ->
  findInChain myName 0 scope = Some (scope, 0).
Proof. destruct scope as [types outer]. cbn. intros ->. reflexivity. Qed.

Lemma hasOwnProp_lookup {A} (obj : Lookup A) (key : string) :
  hasOwnProp obj key = true <-> exists value, lookup obj key = Some value.
Proof.
  induction obj as [|[k v] obj IH]; cbn [hasOwnProp lookup].
  - split; [discriminate|intros [? ?]; discriminate].
  - destruct (String.eqb k key); cbn [orb]; [|exact IH].
    split; [eauto|reflexivity].
Qed.

Lemma changeInTypeContext_resolvedIn (typeContext : DatasetFullType)
  (this resolved : t) :
  changeInTypeContext toLowerCase typeContext this = Ok resolved ->
  resolvedIn typeContext resolved /\ nest this <= nest resolved
  /\ (isTrue (ignoreCase this) = false -> name resolved = name this).
Proof.
  unfold changeInTypeContext.
  destruct (stepBack (nest this) typeContext) as [scope|] eqn:Hscope;
    [|discriminate].
  set (myName := if isTrue (ignoreCase this) then _ else _).
  assert (Hplain : isTrue (ignoreCase this) = false -> myName = Some (name this)).
  { intros E. unfold myName. rewrite E. reflexivity. }
  clearbody myName. destruct myName as [myName|]; [|discriminate].
  destruct (findInChain myName 0 scope) as [[found nestDiff]|] eqn:Hfind;
    [|discriminate].
  apply findInChain_found in Hfind as (steps & -> & Hsteps & Hhas).
  cbn [Nat.add].
  destruct (lookup (datasetType found) myName) as [myType|] eqn:Hlook;
    [|discriminate].
  destruct (match type this with Some has => _ | None => false end) eqn:Hmismatch;
    [discriminate|].
  destruct (negb (truthy (type this)) || Nat.ltb 0 steps
            || isTrue (ignoreCase this)) eqn:Hreplace.
  - intros Hnew.
    assert (Hname : myName <> "") by
      (intros ->; unfold new in Hnew;
       cbn [value_name String.length Nat.eqb] in Hnew; discriminate).
    change (Some (PlyType_toString myType))
      with (option_map PlyType_toString (Some myType)) in Hnew.
    rewrite (new_ok myName _ (Some myType) [] None Hname) in Hnew.
    injection Hnew as <-. cbn [nest name type ignoreCase].
    split; [|split; [lia|]].
    + exists found, myType. repeat split; try assumption.
      apply (stepBack_add _ _ _ scope); assumption.
    + intros E. specialize (Hplain E). congruence.
  - intros [= <-].
    apply orb_false_iff in Hreplace as [Hreplace Hcase].
    apply orb_false_iff in Hreplace as [Htyped Hsteps0].
    apply Nat.ltb_ge in Hsteps0. assert (steps = 0) by lia. subst steps.
    cbn [stepBack] in Hsteps. injection Hsteps as <-.
    specialize (Hplain Hcase). injection Hplain as ->.
    split; [|split; [lia|reflexivity]].
    destruct (type this) as [has|] eqn:Hty; [|discriminate].
    apply negb_false_iff, PlyType_eqb_eq in Hmismatch. subst has.
    exists scope, myType. repeat split; assumption.
Qed.

(** X7.  A reference that [changeInTypeContext] returns is resolved:
    it carries a type, its nesting is at least that of the reference
    given, and the scope that many levels up the type context has its
    name with that type. *)
Theorem changeInTypeContext_resolves (typeContext : DatasetFullType)
  (this resolved : t) :
  changeInTypeContext toLowerCase typeContext this = Ok resolved ->
  nest this <= nest resolved
  /\ exists scope ty,
       stepBack (nest resolved) typeContext = Some scope
       /\ lookup (datasetType scope) (name resolved) = Some ty
       /\ type resolved = Some ty.
Proof.
  intros Hchange.
  apply changeInTypeContext_resolvedIn in Hchange
    as ((scope & ty & Hscope & Hlook & Hty & _) & Hnest & _).
  split; [exact Hnest|]. exists scope, ty. auto.
Qed.

(** X8.  [changeInTypeContext] is idempotent: resolving its result in
    the same type context returns the result unchanged. *)
Theorem changeInTypeContext_idempotent (typeContext : DatasetFullType)
  (this resolved : t) :
  changeInTypeContext toLowerCase typeContext this = Ok resolved ->
  changeInTypeContext toLowerCase typeContext resolved = Ok resolved.
Proof.
  intros Hchange.
  apply changeInTypeContext_resolvedIn in Hchange
    as ((scope & ty & Hscope & Hlook & Hty & Hcase) & _).
  unfold changeInTypeContext. rewrite Hscope, Hcase.
  assert (Hhas : hasOwnProp (datasetType scope) (name resolved) = true)
    by (apply hasOwnProp_lookup; eauto).
  rewrite (findInChain_here _ _ Hhas), Hlook, Hty, PlyType_eqb_refl.
  reflexivity.
Qed.

End Resolution.

End References.

(** ** Plans of the Druid planner *)

Section Plans.
Context `{Collaborators}.

Lemma queryType_with_aggregations (a : AggregationsAndPostAggregations)
  (q : DruidQuery) : queryType (with_aggregations a q) = queryType q.
Proof.
  unfold with_aggregations.
  destruct (ap_aggregations a), (ap_postAggregations a); reflexivity.
Qed.

Lemma queryType_combine (ext : External) (split : SplitExpression)
  (leftover : Expression) (q q' : DruidQuery) :
  combine ext split leftover q = Ok q' -> queryType q' = queryType q.
Proof.
  unfold combine.
  destruct (String.eqb (queryType q) "timeseries").
  { destruct (match sort ext with Some _ => _ | None => _ end) as [q1|] eqn:E1;
      [|discriminate].
    assert (queryType q1 = queryType q).
    { destruct (sort ext) as [s|]; [|congruence].
      destruct (negb _); [discriminate|].
      destruct (direction s); injection E1 as <-; reflexivity. }
    cbn [rbind]. destruct (truthy (limit ext)); [discriminate|].
    destruct (q_context q1) as [c|].
    - destruct (hasOwnProp c "skipEmptyBuckets"); intros [= <-]; assumption.
    - intros [= <-]; assumption. }
  destruct (String.eqb (queryType q) "topN").
  { destruct (match sort ext with Some _ => _ | None => _ end); [|discriminate].
    cbn [rbind]. intros [= <-]. reflexivity. }
  destruct (String.eqb (queryType q) "groupBy"); [|congruence].
  destruct (match sort ext with Some _ => _ | None => _ end) as [q1|] eqn:E1;
    [|discriminate].
  assert (H1 : queryType q1 = queryType q).
  { destruct (sort ext) as [s|]; [|congruence].
    destruct (refName s); [|discriminate].
    destruct (if sortOnLabel ext then _ else _); [|discriminate].
    cbn [rbind] in E1. injection E1 as <-. reflexivity. }
  cbn [rbind].
  destruct (match limit ext with Some _ => _ | None => _ end) as [q2|] eqn:E2;
    [|discriminate].
  assert (H2 : queryType q2 = queryType q1).
  { destruct (limit ext) as [l|]; [|congruence].
    destruct (match limitSpec q1 with Some _ => _ | None => _ end); [|discriminate].
    cbn [rbind] in E2. injection E2 as <-. reflexivity. }
  cbn [rbind]. destruct (negb _).
  - destruct (filterToHavingFilter ext leftover); [|discriminate].
    cbn [rbind]. intros [= <-]. cbn. congruence.
  - intros [= <-]. congruence.
Qed.

Lemma splitToDruid_groupByOnly (ext : External) (split : SplitExpression)
  (shape : DruidSplit) :
  querySelection ext = Some group_by_only ->
  splitToDruid ext split = Ok shape -> ds_queryType shape = "groupBy".
Proof.
  intros Hsel. unfold splitToDruid, getQuerySelection. rewrite Hsel.
  cbn [isGroupByOnly orb].
  destruct (lowerSplits ext (splits split) (havingFilter ext))
    as [[[[vcs dims] infl] left]|]; [|discriminate].
  cbn [rbind]. intros [= <-]. reflexivity.
Qed.

Lemma wantsTimeBoundary_groupByOnly (ext : External) :
  querySelection ext = Some group_by_only -> wantsTimeBoundary ext = false.
Proof. intros E. unfold wantsTimeBoundary. rewrite E. reflexivity. Qed.

Lemma queryType_zeroDimensionGroupBy (ext : External) (q : DruidQuery) :
  querySelection ext = Some group_by_only ->
  queryType (zeroDimensionGroupBy ext q) = "groupBy".
Proof. intros E. unfold zeroDimensionGroupBy. rewrite E. reflexivity. Qed.

(** The plan of the nested rewrite is the plan of the outer planner with
    another data source. *)
Lemma nestedGroupByIfNeeded_outer
  (plan : External -> result (QueryAndPostTransform DruidQuery))
  (ext : External) (nested : QueryAndPostTransform DruidQuery) :
  nestedGroupByIfNeeded plan ext = Ok (Some nested) ->
  exists planners inner outer,
    nestedGroupByPlanners ext = Ok (Some planners)
    /\ plan (innerExternal planners) = Ok inner
    /\ plan (outerExternal planners) = Ok outer
    /\ query nested
       = set_dataSource (DataSourceQuery (set_q_context None (query inner)))
           (query outer).
Proof.
  unfold nestedGroupByIfNeeded.
  destruct (nestedGroupByPlanners ext) as [[planners|]|]; try discriminate.
  cbn [rbind].
  destruct (plan (innerExternal planners)) as [inner|] eqn:Hi; [|discriminate].
  cbn [rbind].
  destruct (plan (outerExternal planners)) as [outer|] eqn:Ho; [|discriminate].
  cbn [rbind]. intros [= <-]. exists planners, inner, outer. auto.
Qed.

Lemma nestedGroupByPlanners_selection (ext : External) (planners : NestedPlanners) :
  nestedGroupByPlanners ext = Ok (Some planners) ->
  querySelection (innerExternal planners) = Some group_by_only
  /\ mode (innerExternal planners) = Split
  /\ querySelection (outerExternal planners) = Some group_by_only
  /\ mode (outerExternal planners) = mode ext.
Proof.
  unfold nestedGroupByPlanners.
  destruct (effectiveApplies ext) as [effective|]; [|discriminate].
  cbn [rbind]. destruct (negb _); [discriminate|].
  destruct (splitUpApplies 0 effective noneCaptured) as [[outerApplies walked]|];
    [|discriminate].
  cbn [rbind]. destruct (globalResplitSplit walked); [|discriminate].
  intros [= <-]. cbn. auto.
Qed.

(** A property of the planning functions that holds of the function
    that is out of fuel, and of one more round of planning whenever it
    holds of the rounds before, holds at every depth. *)
Lemma getQueryAndPostTransform_invariant
  (P : (External -> result (QueryAndPostTransform DruidQuery)) -> Prop) :
  P (fun _ => Throw "out of fuel") ->
  (forall plan, P plan -> P (planQuery (nestedGroupByIfNeeded plan))) ->
  forall fuel, P (getQueryAndPostTransform fuel).
Proof.
  intros Hbase Hstep. induction fuel as [|fuel IH]; [exact Hbase|].
  exact (Hstep _ IH).
Qed.

(** One round of planning keeps the invariant of [group-by-only]. *)
Lemma planQuery_plansGroupBy
  (plan : External -> result (QueryAndPostTransform DruidQuery)) :
  plansGroupBy plan -> plansGroupBy (planQuery (nestedGroupByIfNeeded plan)).
Proof.
  intros IH ext planned Hsel Hmode. unfold planQuery.
  rewrite (wantsTimeBoundary_groupByOnly _ Hsel).
  destruct (filterToDruid ext (getQueryFilter ext)) as [fi|]; [|discriminate].
  cbn [rbind].
  set (q := match fi_filter fi with Some _ => _ | None => _ end).
  assert (Hnested : forall nested,
            nestedGroupByIfNeeded plan ext = Ok (Some nested) ->
            queryType (query nested) = "groupBy").
  { intros nested Hn.
    apply nestedGroupByIfNeeded_outer in Hn
      as (planners & inner & outer & Hp & _ & Houter & ->).
    apply nestedGroupByPlanners_selection in Hp as (_ & _ & Hs & Hm).
    cbn. apply (IH _ _ Hs); [congruence|exact Houter]. }
  destruct (mode ext); [contradiction| | |].
  - destruct (nestedGroupByIfNeeded _ ext) as [[nested|]|] eqn:Hn;
      [|cbn [rbind]|discriminate].
    + cbn [rbind]. intros [= <-]. apply Hnested. reflexivity.
    + destruct (makeAggregationsAndPostAggregations ext _); [|discriminate].
      cbn [rbind]. intros [= <-]. cbn [query].
      apply queryType_zeroDimensionGroupBy. exact Hsel.
  - destruct (nestedGroupByIfNeeded _ ext) as [[nested|]|] eqn:Hn;
      [|cbn [rbind]|discriminate].
    + cbn [rbind]. intros [= <-]. apply Hnested. reflexivity.
    + destruct (makeAggregationsAndPostAggregations ext _); [|discriminate].
      cbn [rbind]. intros [= <-]. cbn [query].
      apply queryType_zeroDimensionGroupBy. exact Hsel.
  - destruct (nestedGroupByIfNeeded _ ext) as [[nested|]|] eqn:Hn;
      [|cbn [rbind]|discriminate].
    + cbn [rbind]. intros [= <-]. apply Hnested. reflexivity.
    + unfold splitQuery.
      destruct (splitToDruid ext (getQuerySplit ext)) as [shape|] eqn:Hshape;
        [|discriminate].
      apply (splitToDruid_groupByOnly _ _ _ Hsel) in Hshape.
      cbn [rbind].
      destruct (makeAggregationsAndPostAggregations ext _) as [ap|];
        [|discriminate].
      cbn [rbind].
      destruct (combine _ _ _ _) as [q'|] eqn:Hc; [|discriminate].
      cbn [rbind]. intros [= <-]. cbn [query].
      rewrite (queryType_combine _ _ _ _ _ Hc), queryType_with_aggregations.
      destruct (ds_dimensions shape), (ds_dimension shape),
        (ds_virtualColumns shape) as [[|]|]; cbn; exact Hshape.
Qed.

(** X9.  Under [group-by-only] the Druid planner plans nothing but
    [groupBy]: in the modes [value], [total] and [split], whatever the
    depth of the nested planners, the query of a plan has the query
    type [groupBy] (never [timeBoundary], [timeseries] or [topN]). *)
Theorem groupByOnly_plans_groupBy (fuel : nat) (ext : External)
  (plan : QueryAndPostTransform DruidQuery) :
  querySelection ext = Some group_by_only ->
  mode ext <> Raw ->
  getQueryAndPostTransform fuel ext = Ok plan ->
  queryType (query plan) = "groupBy".
Proof.
  revert ext plan. change (plansGroupBy (getQueryAndPostTransform fuel)).
  apply getQueryAndPostTransform_invariant.
  - intros ext plan _ _. discriminate.
  - apply planQuery_plansGroupBy.
Qed.

(** X10.  The plan of the nested group-by rewrite is a [groupBy] over
    a [groupBy]: the outer query has the query type [groupBy] and its
    data source is a query of type [groupBy] without a context. *)
Theorem nested_plan_is_groupBy_over_groupBy (fuel : nat) (ext : External)
  (nested : QueryAndPostTransform DruidQuery) :
  mode ext <> Raw ->
  nestedGroupByIfNeeded (getQueryAndPostTransform fuel) ext = Ok (Some nested) ->
  queryType (query nested) = "groupBy"
  /\ exists innerQuery,
       dataSource (query nested) = DataSourceQuery innerQuery
       /\ queryType innerQuery = "groupBy"
       /\ q_context innerQuery = None.
Proof.
  intros Hmode Hn.
  assert (Hplans : plansGroupBy (getQueryAndPostTransform fuel)).
  { apply getQueryAndPostTransform_invariant;
      [intros ? ? _ _; discriminate|apply planQuery_plansGroupBy]. }
  apply nestedGroupByIfNeeded_outer in Hn
    as (planners & inner & outer & Hp & Hinner & Houter & ->).
  apply nestedGroupByPlanners_selection in Hp as (Hsi & Hmi & Hso & Hmo).
  split.
  - cbn. apply (Hplans _ _ Hso); [congruence|exact Houter].
  - eexists. split; [reflexivity|]. split; [|reflexivity]. cbn.
    apply (Hplans _ _ Hsi); [congruence|exact Hinner].
Qed.

End Plans.

Section Scan.
Context `{Collaborators}.

(** The time boundary is for the modes [total] and [value] only. *)
Lemma wantsTimeBoundary_raw_or_split (ext : External) :
  mode ext = Raw \/ mode ext = Split -> wantsTimeBoundary ext = false.
Proof.
  intros [Hmode|Hmode]; unfold wantsTimeBoundary; rewrite Hmode;
    destruct (querySelection ext) as [[|]|]; reflexivity.
Qed.

Lemma scanColumns_columns (ext : External) (selected : Attributes)
  (virtualColumns : list VirtualColumn) (columns : list string)
  (inflaters : list (option Inflater)) :
  scanColumns ext selected = Ok (virtualColumns, columns, inflaters) ->
  columns = map attr_name selected
  /\ forall attribute,
       List.In attribute selected ->
       nativeType attribute = Some "__time" ->
       attr_name attribute <> "__time" ->
       List.In {| vc_name := attr_name attribute; vc_expression := "__time";
                  vc_outputType := "STRING" |} virtualColumns.
Proof.
  revert virtualColumns columns inflaters.
  induction selected as [|attribute more IH]; intros vcs cols infl.
  - intros [= <- <- <-]. split; [reflexivity|]. intros ? [].
  - cbn [scanColumns].
    destruct (if option_eqb String.eqb (nativeType attribute) (Some "__time")
                 && negb (String.eqb (attr_name attribute) "__time")
              then _ else _) as [vc|] eqn:Hvc; [|discriminate].
    cbn [rbind].
    destruct (scanColumns ext more) as [[[vcs' cols'] infl']|]; [|discriminate].
    cbn [rbind]. intros [= <- <- <-].
    destruct (IH _ _ _ eq_refl) as [-> Halias].
    split; [reflexivity|].
    intros a [<-|Hin] Hnative Hname.
    + rewrite Hnative in Hvc. cbn [option_eqb] in Hvc.
      rewrite String.eqb_refl in Hvc.
      apply String.eqb_neq in Hname. rewrite Hname in Hvc. cbn in Hvc.
      injection Hvc as <-. left. reflexivity.
    + specialize (Halias a Hin Hnative Hname).
      destruct vc; [right|]; exact Halias.
Qed.

(** X11.  The raw mode of the Druid planner.  Without
    [allowSelectQueries] the planner throws as soon as the filter is
    built; a plan it returns is a [scan] in the result format
    [compactedList] with the limit of the planner, whose columns are
    the names of the selected attributes, followed by [__time] at
    most; when the scan is ordered, [__time] is among the columns. *)
Theorem raw_plans_scan (fuel : nat) (ext : External) :
  mode ext = Raw ->
  (allowSelectQueries ext = false ->
   forall filterAndIntervals,
     filterToDruid ext (getQueryFilter ext) = Ok filterAndIntervals ->
     getQueryAndPostTransform (S fuel) ext
     = Throw "to issue 'scan' or 'select' queries allowSelectQueries flag must be set")
  /\ forall plan,
       getQueryAndPostTransform (S fuel) ext = Ok plan ->
       allowSelectQueries ext = true
       /\ queryType (query plan) = "scan"
       /\ resultFormat (query plan) = Some "compactedList"
       /\ q_limit (query plan) = option_map limit_value (limit ext)
       /\ exists columnNames,
            columns (query plan) = Some columnNames
            /\ (columnNames = map attr_name (getSelectedAttributes ext)
                \/ columnNames
                   = (map attr_name (getSelectedAttributes ext) ++ ["__time"])%list)
            /\ (order (query plan) <> None -> List.In "__time" columnNames).
Proof.
  intros Hmode. cbn [getQueryAndPostTransform]. unfold planQuery.
  rewrite (wantsTimeBoundary_raw_or_split ext) by (rewrite Hmode; auto).
  rewrite Hmode. split.
  - intros Hflag fi ->. cbn [rbind]. unfold rawQuery. rewrite Hflag. reflexivity.
  - intros plan.
    destruct (filterToDruid ext (getQueryFilter ext)) as [fi|]; [|discriminate].
    cbn [rbind]. unfold rawQuery.
    destruct (allowSelectQueries ext); cbn [negb]; [|discriminate].
    destruct (scanColumns ext (getSelectedAttributes ext))
      as [[[vcs cols] infl]|] eqn:Hscan; [|discriminate].
    apply scanColumns_columns in Hscan as [-> _].
    cbn [rbind].
    set (names := map attr_name (getSelectedAttributes ext)).
    set (q0 := set_columns _ _).
    assert (Hq0 : queryType q0 = "scan" /\ resultFormat q0 = Some "compactedList"
                  /\ columns q0 = Some names /\ order q0 = None
                  /\ q_limit q0 = None).
    { unfold q0, with_context. destruct vcs, (fi_filter fi), (context ext); cbn; repeat split; reflexivity. }
    clearbody q0. destruct Hq0 as (Ht & Hf & Hc & Ho & Hl).
    destruct (match sort ext with Some _ => _ | None => _ end) as [q1|] eqn:Hsort;
      [|discriminate].
    assert (Hq1 : queryType q1 = "scan" /\ resultFormat q1 = Some "compactedList"
                  /\ q_limit q1 = None
                  /\ exists columnNames,
                       columns q1 = Some columnNames
                       /\ (columnNames = names
                           \/ columnNames = (names ++ ["__time"])%list)
                       /\ (order q1 <> None -> List.In "__time" columnNames)).
    { destruct (sort ext) as [s|].
      - destruct (option_eqb String.eqb (refName s) (Some (timeAttribute ext))).
        + destruct (select ext) as [attributes|]; [|discriminate].
          destruct (includes attributes (timeAttribute ext)).
          * injection Hsort as <-.
            destruct (includes names "__time") eqn:Hincl; cbn.
            -- repeat split; try assumption. exists names.
               split; [assumption|]. split; [left; reflexivity|]. intros _.
               unfold includes in Hincl. apply existsb_exists in Hincl
                 as (x & Hin & Hx). apply String.eqb_eq in Hx. subst x. exact Hin.
            -- repeat split; try assumption. exists (names ++ ["__time"])%list.
               split; [reflexivity|]. split; [right; reflexivity|]. intros _.
               apply in_or_app. right. left. reflexivity.
          * injection Hsort as <-. repeat split; try assumption.
            exists names. split; [assumption|]. split; [left; reflexivity|].
            rewrite Ho. congruence.
        + injection Hsort as <-. repeat split; try assumption.
          exists names. split; [assumption|]. split; [left; reflexivity|].
          rewrite Ho. congruence.
      - injection Hsort as <-. repeat split; try assumption.
        exists names. split; [assumption|]. split; [left; reflexivity|].
        rewrite Ho. congruence. }
    clear Hsort. destruct Hq1 as (Ht1 & Hf1 & Hl1 & columnNames & Hc1 & Hor & Hord).
    cbn [rbind]. intros [= <-]. cbn [query].
    split; [reflexivity|].
    destruct (limit ext) as [l|]; cbn; repeat split; try assumption;
      exists columnNames; repeat split; assumption.
Qed.

(** X12.  A selected attribute that is the time column under another
    name than [__time] is read by a scan through a virtual column of
    that name whose expression is [__time]. *)
Theorem scan_reads_time_through_alias (fuel : nat) (ext : External)
  (plan : QueryAndPostTransform DruidQuery) (attribute : AttributeInfo) :
  mode ext = Raw ->
  getQueryAndPostTransform (S fuel) ext = Ok plan ->
  List.In attribute (getSelectedAttributes ext) ->
  nativeType attribute = Some "__time" ->
  attr_name attribute <> "__time" ->
  exists virtual,
    virtualColumns (query plan) = Some virtual
    /\ List.In {| vc_name := attr_name attribute; vc_expression := "__time";
                  vc_outputType := "STRING" |} virtual.
Proof.
  intros Hmode. cbn [getQueryAndPostTransform]. unfold planQuery.
  rewrite (wantsTimeBoundary_raw_or_split ext) by (rewrite Hmode; auto).
  rewrite Hmode.
  destruct (filterToDruid ext (getQueryFilter ext)) as [fi|]; [|discriminate].
  cbn [rbind]. unfold rawQuery.
  destruct (allowSelectQueries ext); cbn [negb]; [|discriminate].
  destruct (scanColumns ext (getSelectedAttributes ext))
    as [[[vcs cols] infl]|] eqn:Hscan; [|discriminate].
  apply scanColumns_columns in Hscan as [-> Halias].
  cbn [rbind]. intros Hplan Hin Hnative Hname.
  specialize (Halias attribute Hin Hnative Hname).
  exists vcs. split; [|exact Halias].
  destruct vcs as [|vc vcs]; [contradiction|].
  destruct (match sort ext with Some _ => _ | None => _ end) as [q1|] eqn:Hsort;
    [|discriminate].
  assert (Hq1 : virtualColumns q1 = Some (vc :: vcs)).
  { destruct (sort ext) as [s|]; [|injection Hsort as <-; reflexivity].
    destruct (option_eqb _ _ _); [|injection Hsort as <-; reflexivity].
    destruct (select ext) as [attributes|]; [|discriminate].
    destruct (includes attributes _); [|injection Hsort as <-; reflexivity].
    injection Hsort as <-. destruct (includes _ "__time"); reflexivity. }
  cbn [rbind] in Hplan. injection Hplan as <-. cbn [query].
  destruct (limit ext); exact Hq1.
Qed.

End Scan.

Lemma lookup_assign_same {A} (o : Lookup A) (key : string) (value : A) :
  lookup (assign o key value) key = Some value.
Proof.
  induction o as [|[k v] o IH]; cbn [assign lookup].
  - rewrite String.eqb_refl. reflexivity.
  - destruct (String.eqb k key) eqn:E; cbn [lookup]; rewrite E; [reflexivity|exact IH].
Qed.

Lemma lookup_assign_other {A} (o : Lookup A) (key other : string) (value : A) :
  other <> key -> lookup (assign o key value) other = lookup o other.
Proof.
  intros Hne. induction o as [|[k v] o IH]; cbn [assign lookup].
  - destruct (String.eqb_spec key other); [congruence|reflexivity].
  - destruct (String.eqb_spec k key) as [->|Hk]; cbn [lookup].
    + destruct (String.eqb_spec key other); [congruence|reflexivity].
    + destruct (String.eqb k other); [reflexivity|exact IH].
Qed.

Lemma hasOwnProp_false_lookup {A} (o : Lookup A) (key : string) :
  hasOwnProp o key = false -> lookup o key = None.
Proof.
  induction o as [|[k v] o IH]; cbn [hasOwnProp lookup]; [reflexivity|].
  destruct (String.eqb k key); cbn [orb]; [discriminate|exact IH].
Qed.

Section Combine.
Context `{Collaborators}.

Lemma splitStart_fields (ext : External) (fi : FilterAndIntervals) :
  q_context (splitStart ext fi) = context ext
  /\ limitSpec (splitStart ext fi) = None
  /\ metric (splitStart ext fi) = None
  /\ threshold (splitStart ext fi) = None.
Proof.
  unfold splitStart, with_context.
  destruct (fi_filter fi), (context ext); cbn; repeat split; reflexivity.
Qed.

(** The query that [combine] is given in the split case. *)
Lemma split_plan (fuel : nat) (ext : External)
  (plan : QueryAndPostTransform DruidQuery) :
  mode ext = Split ->
  getQueryAndPostTransform (S fuel) ext = Ok plan ->
  queryType (query plan) <> "groupBy" ->
  exists fi shape before,
    filterToDruid ext (getQueryFilter ext) = Ok fi
    /\ splitToDruid ext (getQuerySplit ext) = Ok shape
    /\ queryType before = ds_queryType shape
    /\ q_context before = context ext
    /\ metric before = None /\ threshold before = None
    /\ dimension before = ds_dimension shape
    /\ combine ext (getQuerySplit ext) (ds_leftoverHavingFilter shape) before
       = Ok (query plan).
Proof.
  intros Hmode. cbn [getQueryAndPostTransform]. unfold planQuery.
  rewrite (wantsTimeBoundary_raw_or_split ext) by (rewrite Hmode; auto).
  rewrite Hmode.
  destruct (filterToDruid ext (getQueryFilter ext)) as [fi|]; [|discriminate].
  cbn [rbind]. fold (splitStart ext fi).
  destruct (nestedGroupByIfNeeded _ ext) as [[nested|]|] eqn:Hn;
    [|cbn [rbind]|discriminate].
  - cbn [rbind]. intros [= <-] Hno. exfalso. apply Hno.
    apply nestedGroupByIfNeeded_outer in Hn
      as (planners & inner & outer & Hp & _ & Houter & ->).
    apply nestedGroupByPlanners_selection in Hp as (_ & _ & Hs & Hm).
    assert (Hplans : plansGroupBy (getQueryAndPostTransform fuel)).
    { apply getQueryAndPostTransform_invariant;
        [intros ? ? _ _; discriminate|apply planQuery_plansGroupBy]. }
    cbn. apply (Hplans _ _ Hs); [congruence|exact Houter].
  - unfold splitQuery.
    destruct (splitToDruid ext (getQuerySplit ext)) as [shape|]; [|discriminate].
    cbn [rbind].
    destruct (makeAggregationsAndPostAggregations ext _) as [ap|]; [|discriminate].
    cbn [rbind].
    destruct (combine _ _ _ _) as [q'|] eqn:Hc; [|discriminate].
    cbn [rbind]. intros [= <-] _. cbn [query].
    destruct (splitStart_fields ext fi) as (Hctx & _ & Hm & Ht).
    eexists fi, shape, _. split; [reflexivity|]. split; [reflexivity|].
    repeat split; [| | | | |exact Hc].
    + rewrite queryType_with_aggregations.
      destruct (ds_dimensions shape), (ds_dimension shape),
        (ds_virtualColumns shape) as [[|]|]; reflexivity.
    + unfold with_aggregations.
      destruct (ap_aggregations ap), (ap_postAggregations ap),
        (ds_dimensions shape), (ds_dimension shape),
        (ds_virtualColumns shape) as [[|]|]; exact Hctx.
    + unfold with_aggregations.
      destruct (ap_aggregations ap), (ap_postAggregations ap),
        (ds_dimensions shape), (ds_dimension shape),
        (ds_virtualColumns shape) as [[|]|]; exact Hm.
    + unfold with_aggregations.
      destruct (ap_aggregations ap), (ap_postAggregations ap),
        (ds_dimensions shape), (ds_dimension shape),
        (ds_virtualColumns shape) as [[|]|]; exact Ht.
    + unfold with_aggregations.
      assert (Hd : dimension (splitStart ext fi) = None).
      { unfold splitStart, with_context.
        destruct (fi_filter fi), (context ext); reflexivity. }
      destruct (ap_aggregations ap), (ap_postAggregations ap),
        (ds_dimensions shape), (ds_dimension shape),
        (ds_virtualColumns shape) as [[|]|]; try reflexivity; exact Hd.
Qed.

(** X13.  A split that is planned as a [timeseries] has no limit, its
    sort (if any) is on a key of the split, and the context of its
    query has [skipEmptyBuckets]: the string [true] where the context
    of the planner does not set it, and every entry of the context of
    the planner is kept. *)
Theorem timeseries_plan_skips_empty_buckets (fuel : nat) (ext : External)
  (plan : QueryAndPostTransform DruidQuery) :
  mode ext = Split ->
  getQueryAndPostTransform (S fuel) ext = Ok plan ->
  queryType (query plan) = "timeseries" ->
  limit ext = None
  /\ (forall sorted, sort ext = Some sorted ->
        exists key, refName sorted = Some key
                    /\ hasKey key (getQuerySplit ext) = true)
  /\ exists queryContext,
       q_context (query plan) = Some queryContext
       /\ hasOwnProp queryContext "skipEmptyBuckets" = true
       /\ (context ext = None ->
           queryContext = [("skipEmptyBuckets", JString "true")])
       /\ forall given,
            context ext = Some given ->
            (hasOwnProp given "skipEmptyBuckets" = false ->
             lookup queryContext "skipEmptyBuckets" = Some (JString "true"))
            /\ forall key value,
                 lookup given key = Some value ->
                 lookup queryContext key = Some value.
Proof.
  intros Hmode Hplan Htype.
  destruct (split_plan fuel ext plan Hmode Hplan)
    as (fi & shape & before & _ & _ & Hshape & Hctx & _ & _ & _ & Hcombine).
  { rewrite Htype. discriminate. }
  pose proof (queryType_combine _ _ _ _ _ Hcombine) as Hkeep.
  rewrite Htype in Hkeep. unfold combine in Hcombine. rewrite <- Hkeep in Hcombine.
  cbn [String.eqb Ascii.eqb Bool.eqb] in Hcombine.
  destruct (match sort ext with Some _ => _ | None => _ end) as [q1|] eqn:Hsort;
    [|discriminate].
  assert (Hq1 : q_context q1 = context ext
                /\ forall sorted, sort ext = Some sorted ->
                     exists key, refName sorted = Some key
                                 /\ hasKey key (getQuerySplit ext) = true).
  { destruct (sort ext) as [s|].
    - destruct (refName s) as [key|] eqn:Hrn; cbn [negb] in Hsort;
        [|discriminate].
      destruct (hasKey key (getQuerySplit ext)) eqn:Hkey; [|discriminate].
      cbn [negb] in Hsort. split.
      + destruct (direction s); injection Hsort as <-; exact Hctx.
      + intros sorted [= <-]. exists key. auto.
    - injection Hsort as <-. split; [exact Hctx|]. intros ? [=]. }
  destruct Hq1 as [Hctx1 Hsorted]. cbn [rbind] in Hcombine.
  destruct (limit ext) as [l|]; [discriminate|]. cbn [truthy] in Hcombine.
  split; [reflexivity|]. split; [exact Hsorted|].
  rewrite Hctx1 in Hcombine. destruct (context ext) as [given|].
  - destruct (hasOwnProp given "skipEmptyBuckets") eqn:Hown;
      injection Hcombine as <-.
    + exists given. split; [exact Hctx1|]. split; [exact Hown|].
      split; [discriminate|].
      intros ? [= <-]. split; [intros E; congruence|]. auto.
    + exists (assign given "skipEmptyBuckets" (JString "true")).
      split; [reflexivity|]. split.
      { apply hasOwnProp_lookup. rewrite lookup_assign_same. eauto. }
      split; [discriminate|].
      intros ? [= <-]. split; [intros _; apply lookup_assign_same|].
      intros key value Hlook. rewrite lookup_assign_other; [exact Hlook|].
      intros ->. rewrite (hasOwnProp_false_lookup _ _ Hown) in Hlook.
      discriminate.
  - injection Hcombine as <-. eexists. split; [reflexivity|].
    split; [reflexivity|]. split; [reflexivity|]. intros ? [=].
Qed.


End Combine.

Section Plain.
Context `{Collaborators}.

(** Without a split in the applies there is no nested group-by. *)
Lemma nestedGroupByIfNeeded_none
  (plan : External -> result (QueryAndPostTransform DruidQuery))
  (ext : External) (a : list ApplyExpression) :
  applies ext = Some a -> existsb containsSplit a = false ->
  nestedGroupByIfNeeded plan ext = Ok None.
Proof.
  intros Ha Hno. unfold nestedGroupByIfNeeded, nestedGroupByPlanners,
    effectiveApplies. rewrite Ha. cbn [rbind]. rewrite Hno. reflexivity.
Qed.

(** When [nestedGroupByIfNeeded] makes no planners it returns [null],
    whatever the planning function. *)
Lemma nestedGroupByIfNeeded_null
  (plan : External -> result (QueryAndPostTransform DruidQuery))
  (ext : External) :
  nestedGroupByPlanners ext = Ok None ->
  nestedGroupByIfNeeded plan ext = Ok None.
Proof. intros Hnone. unfold nestedGroupByIfNeeded. rewrite Hnone. reflexivity. Qed.

(** X15.  A split for which [nestedGroupByIfNeeded] returns [null] (no
    nested group-by is planned), with a limit and no sort, that is not
    planned as a [topN], is a [groupBy] whose limit spec has that limit
    and orders by the output name of the first split key. *)
Theorem groupBy_limit_orders_by_first_key (fuel : nat) (ext : External)
  (l : LimitExpression) (plan : QueryAndPostTransform DruidQuery) :
  mode ext = Split ->
  nestedGroupByPlanners ext = Ok None ->
  sort ext = None -> limit ext = Some l ->
  getQueryAndPostTransform (S fuel) ext = Ok plan ->
  queryType (query plan) <> "topN" ->
  exists first,
    firstSplitName (getQuerySplit ext) = Some first
    /\ queryType (query plan) = "groupBy"
    /\ limitSpec (query plan)
       = Some {| ls_columns := [OrderByName (makeOutputName first)];
                 ls_limit := Some (limit_value l) |}.
Proof.
  intros Hmode Hnull Hsort Hlimit.
  cbn [getQueryAndPostTransform]. unfold planQuery.
  rewrite (wantsTimeBoundary_raw_or_split ext) by (rewrite Hmode; auto).
  rewrite Hmode.
  destruct (filterToDruid ext (getQueryFilter ext)) as [fi|]; [|discriminate].
  cbn [rbind]. fold (splitStart ext fi).
  rewrite (nestedGroupByIfNeeded_null _ _ Hnull). cbn [rbind].
  unfold splitQuery.
  destruct (splitToDruid ext (getQuerySplit ext)) as [shape|] eqn:Hshape;
    [|discriminate].
  cbn [rbind].
  destruct (makeAggregationsAndPostAggregations ext _) as [ap|]; [|discriminate].
  cbn [rbind].
  set (before := with_aggregations ap _).
  assert (Hbefore : queryType before = ds_queryType shape
                    /\ limitSpec before = None).
  { unfold before. rewrite queryType_with_aggregations.
    destruct (splitStart_fields ext fi) as (_ & Hls & _ & _).
    unfold with_aggregations.
    destruct (ap_aggregations ap), (ap_postAggregations ap),
      (ds_dimensions shape), (ds_dimension shape),
      (ds_virtualColumns shape) as [[|]|]; split; try reflexivity; exact Hls. }
  clearbody before. destruct Hbefore as [Htype Hls].
  destruct (combine _ _ _ _) as [q'|] eqn:Hc; [|discriminate].
  cbn [rbind]. intros [= <-] Hnot. cbn [query] in *.
  pose proof (queryType_combine _ _ _ _ _ Hc) as Hkeep.
  unfold combine in Hc. rewrite Hsort, Hlimit in Hc.
  destruct (String.eqb (queryType before) "timeseries"); [discriminate|].
  destruct (String.eqb_spec (queryType before) "topN") as [Etop|Hntop];
    [congruence|].
  assert (Hgroup : queryType before = "groupBy").
  { rewrite Htype. unfold splitToDruid in Hshape.
    destruct (isGroupByOnly _ || _).
    { destruct (lowerSplits _ _ _) as [[[[? ?] ?] ?]|]; [|discriminate].
      cbn [rbind] in Hshape. injection Hshape as <-. reflexivity. }
    destruct (splits (getQuerySplit ext)) as [|[label e] more]; [discriminate|].
    rewrite Hlimit in Hshape. cbn [truthy negb andb] in Hshape.
    destruct (expressionToDimensionInflaterHaving _ _ _ _); [|discriminate].
    cbn [rbind] in Hshape.
    match type of Hshape with
    | rbind ?topN _ = _ => destruct topN as [[|]|]; [| |discriminate]
    end; cbn [rbind] in Hshape; injection Hshape as E; rewrite <- E in *;
      cbn in *; congruence. }
  rewrite Hgroup in Hc. cbn [String.eqb Ascii.eqb Bool.eqb rbind] in Hc.
  rewrite Hls in Hc.
  destruct (firstSplitName (getQuerySplit ext)) as [first|]; [|discriminate].
  cbn [rbind ls_columns] in Hc. exists first. split; [reflexivity|].
  split; [congruence|].
  destruct (negb _).
  - destruct (filterToHavingFilter ext _); [|discriminate].
    cbn [rbind] in Hc. injection Hc as <-. reflexivity.
  - injection Hc as <-. reflexivity.
Qed.

(** X16.  The plain total query.  In total mode, when no apply holds a
    split and the time boundary does not apply, the plan is a
    [timeseries] over the granularity [all] (a [groupBy] without
    dimensions under [group-by-only]), with the intervals and the
    filter of the filter builder, the context of the planner, and the
    post-transform for a total with no keys. *)
Theorem total_plans_timeseries_over_all (fuel : nat) (ext : External)
  (a : list ApplyExpression) (fi : FilterAndIntervals)
  (made : AggregationsAndPostAggregations) :
  mode ext = Total ->
  applies ext = Some a -> existsb containsSplit a = false ->
  wantsTimeBoundary ext = false ->
  filterToDruid ext (getQueryFilter ext) = Ok fi ->
  makeAggregationsAndPostAggregations ext (Some a) = Ok made ->
  exists plan,
    getQueryAndPostTransform (S fuel) ext = Ok plan
    /\ queryType (query plan)
       = (if isGroupByOnly (getQuerySelection ext) then "groupBy" else "timeseries")
    /\ dimensions (query plan)
       = (if isGroupByOnly (getQuerySelection ext) then Some [] else None)
    /\ granularity (query plan) = Some (GranularityName "all")
    /\ intervals (query plan) = Some (fi_intervals fi)
    /\ q_filter (query plan) = fi_filter fi
    /\ q_context (query plan) = context ext
    /\ postTransform plan
       = postTransformFactory [] (getSelectedAttributes ext) (Some []) (Some a).
Proof.
  intros Hmode Ha Hno Hwants Hfi Hmade.
  cbn [getQueryAndPostTransform]. unfold planQuery.
  rewrite Hwants, Hfi, Hmode. cbn [rbind].
  rewrite (nestedGroupByIfNeeded_none _ _ _ Ha Hno). cbn [rbind].
  rewrite Ha, Hmade. cbn [rbind]. eexists. split; [reflexivity|].
  cbn [query postTransform]. unfold zeroDimensionGroupBy, getQuerySelection,
    with_aggregations, with_context.
  destruct (querySelection ext) as [[|]|], (ap_aggregations made),
    (ap_postAggregations made), (fi_filter fi), (context ext);
    cbn; repeat split; reflexivity.
Qed.

(** X17.  In value mode, when the value expression is the [min] or the
    [max] of the time reference and the query selection is not
    [group-by-only], the plan is a [timeBoundary] query on the data
    source of the planner, bound to [minTime] or [maxTime] after the
    operator, with the post-transform for a value. *)
Theorem value_min_max_time_plans_timeBoundary (fuel : nat) (ext : External)
  (valueOf : Expression) :
  mode ext = Value ->
  valueExpression ext = Some valueOf ->
  isMinMaxTimeExpression ext valueOf = true ->
  querySelection ext <> Some group_by_only ->
  exists plan,
    getQueryAndPostTransform (S fuel) ext = Ok plan
    /\ queryType (query plan) = "timeBoundary"
    /\ dataSource (query plan) = getDruidDataSource ext
    /\ bound (query plan) = Some (opOf valueOf ++ "Time")
    /\ (bound (query plan) = Some "minTime" \/ bound (query plan) = Some "maxTime")
    /\ postTransform plan = timeBoundaryPostTransformFactory None.
Proof.
  intros Hmode Hvalue Htime Hsel.
  cbn [getQueryAndPostTransform]. unfold planQuery.
  assert (Hwants : wantsTimeBoundary ext = true).
  { unfold wantsTimeBoundary. rewrite Hmode, Hvalue, Htime.
    destruct (querySelection ext) as [[|]|]; try reflexivity. congruence. }
  rewrite Hwants. unfold getTimeBoundaryQueryAndPostTransform.
  rewrite Hmode, Hvalue. cbn [rbind]. eexists. split; [reflexivity|].
  cbn [query postTransform]. unfold with_context.
  assert (Hop : opOf valueOf = "min" \/ opOf valueOf = "max").
  { destruct valueOf as [| | |o op t x e|]; try discriminate.
    destruct op; try discriminate; auto. }
  destruct (context ext); cbn; repeat split; try reflexivity;
    destruct Hop as [-> | ->]; auto.
Qed.

End Plain.

Section GroupByShape.
Context `{Collaborators}.

Lemma lowerSplits_dimensions (ext : External) (keys : Splits)
  (having leftover : Expression) (virtualColumns : list VirtualColumn)
  (dimensions : list DimensionSpec) (inflaters : list (option Inflater)) :
  lowerSplits ext keys having = Ok (virtualColumns, dimensions, inflaters, leftover) ->
  List.length dimensions = List.length keys
  /\ List.length virtualColumns <= List.length keys
  /\ List.length inflaters <= List.length keys
  /\ Forall (fun inflater => inflater <> None) inflaters.
Proof.
  revert having leftover virtualColumns dimensions inflaters.
  induction keys as [|[name expression] more IH];
    intros having leftover vcs dims infl; cbn [lowerSplits].
  - intros [= <- <- <- _]. cbn. repeat split; auto.
  - destruct (expressionToDimensionInflaterHaving ext expression name having)
      as [d|]; [|discriminate].
    cbn [rbind].
    destruct (lowerSplits ext more (dih_having d))
      as [[[[vcs' dims'] infl'] left']|] eqn:Hmore; [|discriminate].
    cbn [rbind]. intros [= <- <- <- _].
    destruct (IH _ _ _ _ _ Hmore) as (Hd & Hv & Hi & Hsome).
    cbn [List.length]. repeat split.
    + lia.
    + destruct (dih_virtualColumn d); cbn [List.length]; lia.
    + destruct (dih_inflater d); cbn [List.length]; lia.
    + destruct (dih_inflater d); [constructor; [discriminate|]|]; exact Hsome.
Qed.

(** X18.  With several split keys, or under [group-by-only],
    [splitToDruid] returns a [groupBy] over the granularity [all],
    without a timestamp label, with one dimension for each split key;
    the keys of its post-transform are the split keys in order and no
    inflater in it is missing. *)
Theorem multi_split_one_dimension_per_key (ext : External)
  (split : SplitExpression) (shape : DruidSplit) :
  isGroupByOnly (getQuerySelection ext) || isMultiSplit split = true ->
  splitToDruid ext split = Ok shape ->
  ds_queryType shape = "groupBy"
  /\ ds_granularity shape = GranularityName "all"
  /\ ds_dimension shape = None
  /\ ds_timestampLabel shape = None
  /\ exists dimensions inflaters,
       ds_dimensions shape = Some dimensions
       /\ List.length dimensions = numSplits split
       /\ ds_postTransform shape
          = postTransformFactory inflaters (getSelectedAttributes ext)
              (Some (map fst (splits split))) None
       /\ Forall (fun inflater => inflater <> None) inflaters.
Proof.
  intros Hmulti. unfold splitToDruid. rewrite Hmulti.
  destruct (lowerSplits ext (splits split) (havingFilter ext))
    as [[[[vcs dims] infl] left]|] eqn:Hlower; [|discriminate].
  cbn [rbind]. intros [= <-]. cbn.
  apply lowerSplits_dimensions in Hlower as (Hd & _ & _ & Hsome).
  repeat split. exists dims, infl. repeat split; assumption.
Qed.

End GroupByShape.


(** ** Introspection *)

Section SegmentMetadata.

Lemma eachColumn_describes (timeAttribute : string)
  (aggregators : Lookup Aggregation) (columns : Lookup ColumnMetadata)
  (attributes out : Attributes) (foundTime found : bool) :
  eachColumn timeAttribute aggregators columns attributes foundTime
  = Ok (out, found) ->
  exists times others,
    out = (times ++ attributes ++ others)%list
    /\ Forall (describesTime timeAttribute) times
    /\ List.length times = List.length (List.filter isTimeColumn columns)
    /\ Forall2 (describes aggregators)
         (List.filter (isOtherColumn timeAttribute) columns) others
    /\ found = foundTime || existsb isTimeColumn columns.
Proof.
  revert attributes foundTime.
  induction columns as [|[name columnData] more IH]; intros attributes foundTime.
  - cbn [eachColumn]. intros [= <- <-]. exists [], [].
    rewrite app_nil_r, orb_false_r. repeat split; constructor.
  - cbn [eachColumn List.filter existsb].
    assert (Hcases :
      isTimeColumn (name, columnData)
      = negb (truthyString (errorMessage columnData) || Z.ltb (size columnData) 0)
        && String.eqb name TIME_ATTRIBUTE
      /\ isOtherColumn timeAttribute (name, columnData)
         = negb (truthyString (errorMessage columnData)
                 || Z.ltb (size columnData) 0)
           && negb (String.eqb name TIME_ATTRIBUTE)
           && negb (String.eqb name timeAttribute)) by (split; reflexivity).
    destruct Hcases as [-> ->].
    destruct (truthyString (errorMessage columnData)
              || Z.ltb (size columnData) 0); cbn [negb andb orb].
    { apply IH. }
    destruct (String.eqb name TIME_ATTRIBUTE) eqn:Etime; cbn [negb andb orb].
    { intros Hrest. apply IH in Hrest
        as (times & others & -> & Htimes & Hlen & Hothers & ->).
      exists (times ++ [{| attr_name := timeAttribute; attr_type := Some TIME;
                           nativeType := Some "__time"; unsplitable := false;
                           maker := None;
                           cardinality := cm_cardinality columnData;
                           range := columnMetadataToRange columnData |}])%list,
        others.
      repeat split.
      - rewrite <- app_assoc. reflexivity.
      - apply Forall_app. split; [exact Htimes|]. constructor; [|constructor].
        repeat split.
      - rewrite length_app, Hlen. cbn. lia.
      - exact Hothers.
      - rewrite orb_true_r. reflexivity. }
    destruct (String.eqb name timeAttribute) eqn:Eta; cbn [negb andb].
    { apply IH. }
    destruct (if numericType (cm_type columnData) then _ else _)
      as [attribute|] eqn:Hattribute; [|discriminate].
    cbn [rbind]. intros Hrest. apply IH in Hrest
      as (times & others & -> & Htimes & Hlen & Hothers & ->).
    exists times, (attribute :: others). repeat split; try assumption.
    + rewrite <- app_assoc. reflexivity.
    + constructor; [|exact Hothers]. unfold describes. cbn [fst snd].
      destruct (numericType (cm_type columnData)).
      * destruct (generateMaker _); [|discriminate].
        cbn [rbind] in Hattribute. injection Hattribute as <-. repeat split.
      * destruct (String.eqb (cm_type columnData) "STRING") eqn:Es.
        -- injection Hattribute as <-. apply String.eqb_eq in Es.
           rewrite Es. repeat split.
        -- injection Hattribute as <-. repeat split.
Qed.

(** The keys of an object are distinct: at most one column is the time
    column. *)
Lemma one_time_column (columns : Lookup ColumnMetadata) :
  NoDup (map fst columns) ->
  List.length (List.filter isTimeColumn columns) <= 1.
Proof.
  induction columns as [|[name columnData] more IH]; cbn [map fst List.filter];
    [auto|].
  intros Hnodup. inversion Hnodup as [|? ? Hfresh Hmore]; subst.
  specialize (IH Hmore). unfold isTimeColumn at 1. cbn [fst snd].
  destruct (usable columnData); cbn [andb]; [|lia].
  destruct (String.eqb_spec name TIME_ATTRIBUTE) as [->|]; [|lia].
  cbn [List.length].
  assert (E : List.filter isTimeColumn more = []); [|rewrite E; cbn; lia].
  destruct (List.filter isTimeColumn more) as [|[k d] rest] eqn:Hf; [reflexivity|].
  exfalso. apply Hfresh.
  assert (Hin : List.In (k, d) (List.filter isTimeColumn more))
    by (rewrite Hf; left; reflexivity).
  apply filter_In in Hin as [Hin Htime]. unfold isTimeColumn in Htime.
  apply andb_true_iff in Htime as [_ Ek]. apply String.eqb_eq in Ek.
  cbn [fst] in Ek. subst k. apply (in_map fst) in Hin. exact Hin.
Qed.

Lemma postProcess_describes (timeAttribute : string) (res : list Row)
  (attributes : Attributes) :
  segmentMetadataPostProcess timeAttribute res = Ok attributes ->
  exists row more columns times others,
    res = row :: more
    /\ row_columns row = Some columns
    /\ attributes = (times ++ others)%list
    /\ Forall (describesTime timeAttribute) times
    /\ List.length times = List.length (List.filter isTimeColumn columns)
    /\ 0 < List.length times
    /\ Forall2 (describes match row_aggregators row with
                          | Some a => a
                          | None => []
                          end)
         (List.filter (isOtherColumn timeAttribute) columns) others.
Proof.
  unfold segmentMetadataPostProcess.
  destruct res as [|[[columns|] aggregators low high] more]; try discriminate.
  destruct (eachColumn _ _ columns [] false) as [[out found]|] eqn:Heach;
    [|discriminate].
  cbn [rbind]. destruct found; cbn [negb]; [|discriminate].
  intros [= <-].
  apply eachColumn_describes in Heach
    as (times & others & -> & Htimes & Hlen & Hothers & Hfound).
  cbn [orb] in Hfound. symmetry in Hfound.
  apply existsb_exists in Hfound as (column & Hin & Htime).
  eexists _, more, columns, times, others. cbn [row_columns row_aggregators].
  repeat split; try assumption.
  rewrite Hlen.
  assert (Hf : List.In column (List.filter isTimeColumn columns))
    by (apply filter_In; auto).
  destruct (List.filter isTimeColumn columns); [contradiction|cbn; lia].
Qed.

(** X19.  [segmentMetadataPostProcess] needs the time column.  An
    empty response, or a first row without columns, is refused as
    malformed; without a usable [__time] column (one with no error
    message and no negative size) it returns no attributes, and when
    no column at all is usable it throws the error for the missing
    [__time]. *)
Theorem segmentMetadata_needs_time_column (timeAttribute : string)
  (res : list Row) :
  (match res with
   | row :: _ => row_columns row = None
   | [] => True
   end ->
   segmentMetadataPostProcess timeAttribute res
   = Throw "malformed segmentMetadata response")
  /\ (forall row more columns,
        res = row :: more -> row_columns row = Some columns ->
        existsb isTimeColumn columns = false ->
        forall attributes,
          segmentMetadataPostProcess timeAttribute res <> Ok attributes)
  /\ (forall row more columns,
        res = row :: more -> row_columns row = Some columns ->
        Forall (fun column => usable (snd column) = false) columns ->
        segmentMetadataPostProcess timeAttribute res
        = Throw "no valid __time in segmentMetadata response").
Proof.
  split; [|split].
  - destruct res as [|[[columns|] aggregators low high] more]; cbn;
      try reflexivity. discriminate.
  - intros row more columns -> Hcolumns Hnone attributes Hok.
    apply postProcess_describes in Hok
      as (row' & more' & columns' & times & others & [= <- <-] & Hc & _ & _
          & Hlen & Hpos & _).
    rewrite Hcolumns in Hc. injection Hc as <-.
    assert (E : List.filter isTimeColumn columns = []).
    { destruct (List.filter isTimeColumn columns) as [|column rest] eqn:Hf;
        [reflexivity|].
      assert (Hin : List.In column (List.filter isTimeColumn columns))
        by (rewrite Hf; left; reflexivity).
      apply filter_In in Hin as [Hin Htime].
      assert (existsb isTimeColumn columns = true)
        by (apply existsb_exists; eauto).
      congruence. }
    rewrite E in Hlen. cbn in Hlen. lia.
  - intros row more columns -> Hcolumns Hall.
    unfold segmentMetadataPostProcess. destruct row as [c aggregators low high].
    cbn [row_columns] in Hcolumns. subst c.
    assert (E : forall aggs acc found,
              eachColumn timeAttribute aggs columns acc found = Ok (acc, found)).
    { intros aggs. induction Hall as [|[name columnData] rest Hunusable _ IH];
        intros acc found; [reflexivity|].
      cbn [eachColumn]. unfold usable in Hunusable. cbn [snd] in Hunusable.
      apply negb_false_iff in Hunusable. rewrite Hunusable. apply IH. }
    rewrite E. reflexivity.
Qed.

(** X20.  The attributes that [segmentMetadataPostProcess] returns are
    named, in order: the time attribute, then each usable column of
    the response whose key is neither [__time] nor the name of the
    time attribute; since the keys of the response are distinct, so
    are the names of the attributes. *)
Theorem segmentMetadata_attribute_names (timeAttribute : string)
  (row : Row) (more : list Row) (columns : Lookup ColumnMetadata)
  (attributes : Attributes) :
  row_columns row = Some columns ->
  NoDup (map fst columns) ->
  segmentMetadataPostProcess timeAttribute (row :: more) = Ok attributes ->
  map attr_name attributes
  = timeAttribute :: map fst (List.filter (isOtherColumn timeAttribute) columns)
  /\ NoDup (map attr_name attributes).
Proof.
  intros Hcolumns Hnodup Hok.
  apply postProcess_describes in Hok
    as (row' & more' & columns' & times & others & [= <- <-] & Hc & -> & Htimes
        & Hlen & Hpos & Hothers).
  rewrite Hcolumns in Hc. injection Hc as <-.
  pose proof (one_time_column columns Hnodup) as Hone.
  destruct times as [|time [|]]; cbn [List.length] in *; try lia.
  destruct (Forall_inv Htimes) as (Hname & _).
  assert (Hnames : map attr_name others
                   = map fst (List.filter (isOtherColumn timeAttribute) columns)).
  { clear - Hothers. induction Hothers as [|column a cs os (Hn & _) _ IH];
      [reflexivity|]. cbn [map]. rewrite Hn, IH. reflexivity. }
  cbn [app map]. rewrite Hname, Hnames. split; [reflexivity|].
  constructor.
  - intros Hin. apply in_map_iff in Hin as ([k d] & Hk & Hin).
    apply filter_In in Hin as [_ Hother]. unfold isOtherColumn in Hother.
    cbn [fst] in *. subst k.
    rewrite String.eqb_refl, andb_false_r in Hother. discriminate.
  - clear - Hnodup. induction columns as [|[k d] rest IH]; [constructor|].
    cbn [map fst] in Hnodup. inversion Hnodup as [|? ? Hfresh Hrest]; subst.
    cbn [List.filter]. destruct (isOtherColumn timeAttribute (k, d)); [|auto].
    cbn [map fst]. constructor; [|auto].
    intros Hin. apply Hfresh. apply in_map_iff in Hin as (x & <- & Hin).
    apply filter_In in Hin as [Hin _]. apply in_map. exact Hin.
Qed.

(** X21.  Which attributes [segmentMetadataPostProcess] marks
    unsplitable: an attribute is unsplitable only when it stands for a
    numeric column listed among the aggregators or for a column of an
    opaque metric type, and every such usable column gets an
    unsplitable attribute of its name; the time attribute never is: the
    first attribute is the time attribute and it is not unsplitable, and
    no attribute that has the name of the time attribute is. *)
Theorem segmentMetadata_unsplitable (timeAttribute : string)
  (row : Row) (more : list Row) (columns : Lookup ColumnMetadata)
  (attributes : Attributes) :
  row_columns row = Some columns ->
  segmentMetadataPostProcess timeAttribute (row :: more) = Ok attributes ->
  let aggregators := match row_aggregators row with
                     | Some a => a
                     | None => []
                     end in
  (forall attribute,
     List.In attribute attributes -> unsplitable attribute = true ->
     exists columnData,
       List.In (attr_name attribute, columnData) columns
       /\ (if numericType (cm_type columnData)
           then hasOwnProp aggregators (attr_name attribute)
           else opaqueMetricType (cm_type columnData)) = true)
  /\ (forall name columnData,
        List.In (name, columnData) columns ->
        isOtherColumn timeAttribute (name, columnData) = true ->
        (if numericType (cm_type columnData)
         then hasOwnProp aggregators name
         else opaqueMetricType (cm_type columnData)) = true ->
        exists attribute,
          List.In attribute attributes
          /\ attr_name attribute = name /\ unsplitable attribute = true)
  /\ (exists time others,
        attributes = time :: others
        /\ attr_name time = timeAttribute /\ unsplitable time = false)
  /\ (forall attribute,
        List.In attribute attributes -> attr_name attribute = timeAttribute ->
        unsplitable attribute = false).
Proof.
  intros Hcolumns Hok aggregators.
  apply postProcess_describes in Hok
    as (row' & more' & columns' & times & others & [= <- <-] & Hc & -> & Htimes
        & _ & Hpos & Hothers).
  rewrite Hcolumns in Hc. injection Hc as <-. fold aggregators in Hothers.
  assert (Hnames : forall attribute,
            List.In attribute others -> attr_name attribute <> timeAttribute).
  { clear - Hothers.
    assert (Hkeys : Forall (fun column => fst column <> timeAttribute)
                      (List.filter (isOtherColumn timeAttribute) columns)).
    { apply Forall_forall. intros [k d] Hin. apply filter_In in Hin as [_ Hother].
      unfold isOtherColumn in Hother. cbn [fst snd] in *. intros ->.
      rewrite String.eqb_refl, andb_false_r in Hother. discriminate. }
    induction Hothers as [|column a cs os (Hn & _) _ IH]; [intros ? []|].
    intros attribute [<-|Hin].
    - rewrite Hn. exact (Forall_inv Hkeys).
    - apply IH; [exact (Forall_inv_tail Hkeys)|exact Hin]. }
  split; [|split; [|split]]; cycle 2.
  { destruct times as [|time rest]; [cbn in Hpos; lia|].
    destruct (Forall_inv Htimes) as (Hname & _ & Hsplit).
    exists time, (rest ++ others)%list. auto. }
  { intros attribute Hin Hname. apply in_app_or in Hin as [Hin|Hin].
    - rewrite Forall_forall in Htimes. destruct (Htimes _ Hin) as (_ & _ & E).
      exact E.
    - exfalso. exact (Hnames _ Hin Hname). }
  all: clear Hnames Hpos.
  - intros attribute Hin Hunsplitable. apply in_app_or in Hin as [Hin|Hin].
    + rewrite Forall_forall in Htimes. destruct (Htimes _ Hin) as (_ & _ & E).
      congruence.
    + clear Htimes.
      assert (Hsub : forall column,
                List.In column (List.filter (isOtherColumn timeAttribute) columns)
                -> List.In column columns)
        by (intros column Hc; apply filter_In in Hc; tauto).
      revert Hsub Hin.
      induction Hothers as [|[k d] a cs os (Hn & _ & Hu) _ IH];
        intros Hsub; [intros []|].
      intros [<-|Hin].
      * cbn [fst snd] in *. exists d. split.
        -- rewrite Hn. apply Hsub. left. reflexivity.
        -- rewrite Hn, <- Hu. exact Hunsplitable.
      * apply IH; [|exact Hin]. intros column Hc. apply Hsub. right. exact Hc.
  - intros name columnData Hin Hother Hmarked.
    assert (Hf : List.In (name, columnData)
                   (List.filter (isOtherColumn timeAttribute) columns))
      by (apply filter_In; auto).
    clear Hin Hother Htimes. revert Hf.
    induction Hothers as [|[k d] a cs os (Hn & _ & Hu) _ IH]; [intros []|].
    intros [[= -> ->]|Hin].
    + exists a. cbn [fst snd] in *. split; [apply in_or_app; right; left; reflexivity|].
      split; [exact Hn|]. rewrite Hu. exact Hmarked.
    + destruct (IH Hin) as (attribute & Ha & Hname & Hunsplitable).
      exists attribute. split; [|auto].
      apply in_app_or in Ha as [Ha|Ha]; apply in_or_app; [left|right; right];
        exact Ha.
Qed.

End SegmentMetadata.

(** ** Walks of the expression tree *)

(** An iterator that never answers [false] finds what it looks for
    anywhere in the tree. *)
Lemma some_finds (iter : Expression -> option bool) (ex : Expression) :
  (forall x, iter x <> Some false) ->
  some iter ex = true
  <-> exists x, List.In x (subexpressions ex) /\ iter x = Some true.
Proof.
  intros Hiter. induction ex as [o v|o n k t i|o op t x IHx|o op t x e IHx IHe
                                 |o x l d IHx IHl] using Expression_induction;
    cbn [some subexpressions].
  - destruct (iter (ELiteral o v)) as [[|]|] eqn:E.
    + split; [intros _; eexists; split; [left; reflexivity|exact E]|reflexivity].
    + destruct (Hiter _ E).
    + split; [discriminate|]. intros (y & [<-|[]] & Hy). congruence.
  - destruct (iter (ERef o n k t i)) as [[|]|] eqn:E.
    + split; [intros _; eexists; split; [left; reflexivity|exact E]|reflexivity].
    + destruct (Hiter _ E).
    + split; [discriminate|]. intros (y & [<-|[]] & Hy). congruence.
  - destruct (iter (EChainable o op t x)) as [[|]|] eqn:E.
    + split; [intros _; eexists; split; [left; reflexivity|exact E]|reflexivity].
    + destruct (Hiter _ E).
    + rewrite IHx. split.
      * intros (y & Hin & Hy). exists y. split; [right; exact Hin|exact Hy].
      * intros (y & [<-|Hin] & Hy); [congruence|eauto].
  - destruct (iter (EChainableUnary o op t x e)) as [[|]|] eqn:E.
    + split; [intros _; eexists; split; [left; reflexivity|exact E]|reflexivity].
    + destruct (Hiter _ E).
    + rewrite orb_true_iff, IHx, IHe. split.
      * intros [(y & Hin & Hy)|(y & Hin & Hy)]; exists y;
          (split; [right; apply in_or_app; auto|exact Hy]).
      * intros (y & [<-|Hin] & Hy); [congruence|].
        apply in_app_or in Hin as [Hin|Hin]; eauto.
  - destruct (iter (ESplit o x l d)) as [[|]|] eqn:E.
    + split; [intros _; eexists; split; [left; reflexivity|exact E]|reflexivity].
    + destruct (Hiter _ E).
    + rewrite orb_true_iff, IHx, existsb_exists. split.
      * intros [(y & Hin & Hy)|(kv & Hkv & Hsome)].
        -- exists y. split; [right; apply in_or_app; auto|exact Hy].
        -- rewrite Forall_forall in IHl. apply (IHl kv Hkv) in Hsome
             as (y & Hin & Hy).
           exists y. split; [|exact Hy]. right. apply in_or_app. right.
           apply in_flat_map. eauto.
      * intros (y & [<-|Hin] & Hy); [congruence|].
        apply in_app_or in Hin as [Hin|Hin]; [left; eauto|].
        apply in_flat_map in Hin as (kv & Hkv & Hin). right.
        exists kv. split; [exact Hkv|].
        rewrite Forall_forall in IHl. apply (IHl kv Hkv). eauto.
Qed.

Section Filters.
Context `{Collaborators}.

(** X22.  The Druid planner can handle a filter exactly when no node
    of the filter expression, at any depth, is a [cardinality]. *)
Theorem canHandleFilter_no_cardinality (ext : External)
  (filterExpression : Expression) :
  canHandleFilter ext filterExpression = true
  <-> forall x, List.In x (subexpressions filterExpression) ->
                isOp x "cardinality" = false.
Proof.
  unfold canHandleFilter. rewrite negb_true_iff.
  set (iter := fun ex => if isOp ex "cardinality" then Some true else None).
  assert (Hiter : forall x, iter x <> Some false)
    by (intros x; unfold iter; destruct (isOp x "cardinality"); discriminate).
  split.
  - intros Hnone x Hin. destruct (isOp x "cardinality") eqn:E; [|reflexivity].
    assert (Hsome : some iter filterExpression = true).
    { apply (some_finds iter _ Hiter). exists x. split; [exact Hin|].
      unfold iter. rewrite E. reflexivity. }
    congruence.
  - intros Hall. destruct (some iter filterExpression) eqn:E; [|reflexivity].
    apply (some_finds iter _ Hiter) in E as (x & Hin & Hx).
    unfold iter in Hx. rewrite (Hall x Hin) in Hx. discriminate.
Qed.

End Filters.

(** X23.  [getFilterSubExpression] finds a filter whenever there is
    one: its result is a filter node of the expression, and it returns
    nothing only for an expression without a filter node. *)
Theorem getFilterSubExpression_first_filter (expression : Expression) :
  match getFilterSubExpression expression with
  | Some found =>
      isFilter found = true /\ List.In found (subexpressions expression)
  | None =>
      forall x, List.In x (subexpressions expression) -> isFilter x = false
  end.
Proof.
  induction expression as [o v|o n k t i|o op t x IHx|o op t x e IHx IHe
                           |o x l d IHx IHl] using Expression_induction.
  - cbn. intros y [<-|[]]. reflexivity.
  - cbn. intros y [<-|[]]. reflexivity.
  - cbn [getFilterSubExpression subexpressions].
    destruct (getFilterSubExpression x) as [found|].
    + destruct IHx. split; [assumption|right; assumption].
    + intros y [<-|Hin]; [reflexivity|auto].
  - assert (Hrest :
      match (match getFilterSubExpression x with
             | Some found => Some found
             | None => getFilterSubExpression e
             end) with
      | Some found =>
          isFilter found = true
          /\ List.In found (subexpressions x ++ subexpressions e)
      | None =>
          forall y, List.In y (subexpressions x ++ subexpressions e) ->
                    isFilter y = false
      end).
    { destruct (getFilterSubExpression x) as [found|].
      - destruct IHx. split; [assumption|apply in_or_app; auto].
      - destruct (getFilterSubExpression e) as [found|].
        + destruct IHe. split; [assumption|apply in_or_app; auto].
        + intros y Hin. apply in_app_or in Hin as [Hin|Hin]; auto. }
    destruct op; cbn [getFilterSubExpression subexpressions];
      try (destruct (match getFilterSubExpression x with
                     | Some found => Some found
                     | None => getFilterSubExpression e
                     end) as [found|];
           [destruct Hrest; split; [assumption|right; assumption]
           |intros y [<-|Hin]; [reflexivity|auto]]).
    split; [reflexivity|left; reflexivity].
  - cbn [getFilterSubExpression subexpressions].
    destruct (getFilterSubExpression x) as [found|].
    + destruct IHx. split; [assumption|right; apply in_or_app; auto].
    + assert (Hl :
        match (fix first (l : Splits) : option Expression :=
                 match l with
                 | [] => None
                 | kv :: more =>
                     match getFilterSubExpression (snd kv) with
                     | Some found => Some found
                     | None => first more
                     end
                 end) l with
        | Some found =>
            isFilter found = true
            /\ List.In found (flat_map (fun kv => subexpressions (snd kv)) l)
        | None =>
            forall y, List.In y (flat_map (fun kv => subexpressions (snd kv)) l)
                      -> isFilter y = false
        end).
      { induction IHl as [|kv more Hkv _ IH]; [intros y []|].
        cbn [flat_map]. destruct (getFilterSubExpression (snd kv)) as [found|].
        - destruct Hkv. split; [assumption|apply in_or_app; auto].
        - match goal with
          | |- match ?first with Some _ => _ | None => _ end =>
              destruct first as [found|]
          end.
          + destruct IH. split; [assumption|apply in_or_app; auto].
          + intros y Hin. apply in_app_or in Hin as [Hin|Hin]; auto. }
      match goal with
      | |- match ?first with Some _ => _ | None => _ end =>
          destruct first as [found|]
      end.
      * destruct Hl. split; [assumption|right; apply in_or_app; auto].
      * intros y [<-|Hin]; [reflexivity|].
        apply in_app_or in Hin as [Hin|Hin]; auto.
Qed.

(** X24.  The parts that [parseResplitAgg] returns are re-rooted at
    [_]: the expression parsed is an aggregate over an apply over a
    split of a reference (or of a filtered reference); the aggregate,
    the apply and the split come back with [Expression._] as operand,
    the apply with its name, the split with its keys, and without a
    filter the expression of the apply is unchanged. *)
Theorem parseResplitAgg_parts (applyExpression : Expression)
  (parsed : ParsedResplitAgg) :
  parseResplitAgg applyExpression = Some parsed ->
  isAggregate applyExpression = true
  /\ resplitAgg parsed = changeOperand Expression_ applyExpression
  /\ apply_operand (resplitApply parsed) = Expression_
  /\ split_operand (resplitSplit parsed) = Expression_
  /\ exists o name t splitOptions source keys data argument,
       operandOf applyExpression
       = Some (EChainableUnary o (Apply name) t
                 (ESplit splitOptions source keys data) argument)
       /\ apply_name (resplitApply parsed) = name
       /\ splits (resplitSplit parsed) = keys
       /\ (isFilter source = false ->
           isOp source "ref" = true
           /\ apply_expression (resplitApply parsed) = argument)
       /\ (forall fo ft filtered condition,
             source = EChainableUnary fo Filter ft filtered condition ->
             isOp filtered "ref" = true).
Proof.
  unfold parseResplitAgg.
  destruct (negb (isChainable applyExpression)
            || negb (isAggregate applyExpression)) eqn:Hguard; [discriminate|].
  apply orb_false_iff in Hguard as [_ Hagg]. apply negb_false_iff in Hagg.
  destruct (operandOf applyExpression) as [[| | |o op t operand argument|]|];
    try discriminate.
  destruct op; try discriminate.
  destruct operand as [| | | |splitOptions source keys data]; try discriminate.
  intros Hparsed. split; [exact Hagg|].
  assert (Hcases :
    (isFilter source = false /\ isOp source "ref" = true
     /\ parsed = {| resplitAgg := changeOperand Expression_ applyExpression;
                    resplitApply :=
                      {| apply_options := o; apply_operand := Expression_;
                         apply_name := name; apply_expression := argument |};
                    resplitSplit :=
                      {| split_options := splitOptions;
                         split_operand := Expression_;
                         splits := keys; dataName := data |} |})
    \/ (exists fo ft filtered condition rewritten,
          source = EChainableUnary fo Filter ft filtered condition
          /\ isOp filtered "ref" = true
          /\ parsed = {| resplitAgg := changeOperand Expression_ applyExpression;
                         resplitApply :=
                           {| apply_options := o; apply_operand := Expression_;
                              apply_name := name;
                              apply_expression := rewritten |};
                         resplitSplit :=
                           {| split_options := splitOptions;
                              split_operand := Expression_;
                              splits := keys; dataName := data |} |})).
  { destruct source as [| | |fo fop ft filtered condition|]; try discriminate.
    - injection Hparsed as <-. left. auto.
    - destruct fop; try discriminate.
      destruct filtered; try discriminate. injection Hparsed as <-.
      right. do 5 eexists. split; [reflexivity|]. split; reflexivity. }
  destruct Hcases as [(Hplain & Href & ->)
                     |(fo & ft & filtered & condition & rewritten & -> & Href & ->)];
    cbn [resplitAgg resplitApply resplitSplit apply_operand split_operand
         apply_name splits apply_expression].
  - repeat split. exists o, name, t, splitOptions, source, keys, data, argument.
    repeat split; auto. intros fo ft filtered condition ->. discriminate.
  - repeat split.
    exists o, name, t, splitOptions, (EChainableUnary fo Filter ft filtered condition),
      keys, data, argument.
    repeat split; try discriminate. intros ? ? ? ? [= <- <- <- <-]. exact Href.
Qed.

(** X25.  What [generateMaker] makes of an aggregator is an aggregate
    over [Expression._]: a count, or the sum, minimum or maximum of
    the reference to the field of the aggregator, whose name is not
    empty. *)
Theorem generateMaker_aggregates_the_field (aggregation : Aggregation)
  (made : Expression) :
  generateMaker (Some aggregation) = Ok (Some made) ->
  isAggregate made = true
  /\ operandOf made = Some Expression_
  /\ (made = count_ Expression_
      \/ exists field,
           field <> ""
           /\ (fieldName aggregation = Some field
               \/ fieldNames aggregation = Some [field])
           /\ (made = sum_ Expression_ (ref field)
               \/ made = min_ Expression_ (ref field)
               \/ made = max_ Expression_ (ref field))).
Proof.
  unfold generateMaker.
  destruct (String.eqb (agg_type aggregation) "longSum"
            && option_eqb String.eqb (fieldName aggregation) (Some "count")).
  { intros [= <-]. repeat split. left. reflexivity. }
  set (chosen := if truthyString (fieldName aggregation) then _ else _).
  assert (Hchosen : forall field, chosen = Some field ->
            fieldName aggregation = Some field
            \/ fieldNames aggregation = Some [field]).
  { intros field. unfold chosen.
    destruct (truthyString (fieldName aggregation)); [auto|].
    destruct (fieldNames aggregation) as [[|only [|]]|]; try discriminate.
    intros [= ->]. auto. }
  clearbody chosen. destruct chosen as [field|]; [|discriminate].
  specialize (Hchosen field eq_refl).
  destruct (String.eqb_spec field "") as [|Hne]; [discriminate|].
  destruct (String.eqb (agg_type aggregation) "count").
  { intros [= <-]. repeat split. left. reflexivity. }
  assert (Hfield : forall e,
            e = sum_ Expression_ (ref field) \/ e = min_ Expression_ (ref field)
            \/ e = max_ Expression_ (ref field) ->
            isAggregate e = true /\ operandOf e = Some Expression_
            /\ (e = count_ Expression_
                \/ exists f, f <> "" /\ (fieldName aggregation = Some f
                                         \/ fieldNames aggregation = Some [f])
                             /\ (e = sum_ Expression_ (ref f)
                                 \/ e = min_ Expression_ (ref f)
                                 \/ e = max_ Expression_ (ref f)))).
  { intros e He. split; [|split].
    - destruct He as [-> | [-> | ->]]; reflexivity.
    - destruct He as [-> | [-> | ->]]; reflexivity.
    - right. exists field. auto. }
  destruct (String.eqb (agg_type aggregation) "doubleSum"
            || String.eqb (agg_type aggregation) "longSum").
  { intros [= <-]. apply Hfield. auto. }
  destruct (String.eqb (agg_type aggregation) "javascript").
  { destruct (negb _); [discriminate|].
    destruct (fnCombine aggregation) as [combine|]; [|discriminate].
    destruct (index 0 "+" combine); [|discriminate].
    intros [= <-]. apply Hfield. auto. }
  destruct (String.eqb (agg_type aggregation) "doubleMin"
            || String.eqb (agg_type aggregation) "longMin").
  { intros [= <-]. apply Hfield. auto. }
  destruct (String.eqb (agg_type aggregation) "doubleMax"
            || String.eqb (agg_type aggregation) "longMax"); [|discriminate].
  intros [= <-]. apply Hfield. auto.
Qed.

Lemma movePagingIdentifiers_fold (pagingIdentifiers moved : Lookup Z)
  (increment : Z) :
  NoDup (map fst moved ++ map fst pagingIdentifiers) ->
  fold_left (fun newPagingIdentifiers entry =>
               assign newPagingIdentifiers (fst entry)
                 (numberAdd (snd entry) increment))
    pagingIdentifiers moved
  = (moved ++ map (fun entry => (fst entry, numberAdd (snd entry) increment))
                pagingIdentifiers)%list.
Proof.
  revert moved. induction pagingIdentifiers as [|[key value] more IH];
    intros moved Hnodup; cbn [fold_left map].
  - rewrite app_nil_r. reflexivity.
  - cbn [fst snd].
    assert (Hfresh : ~ List.In key (map fst moved)).
    { intros Hin. apply NoDup_remove_2 in Hnodup. apply Hnodup.
      apply in_or_app. left. exact Hin. }
    assert (Hassign : assign moved key (numberAdd value increment)
                      = (moved ++ [(key, numberAdd value increment)])%list).
    { clear - Hfresh. induction moved as [|[k v] moved IH]; [reflexivity|].
      cbn [assign]. destruct (String.eqb_spec k key) as [->|Hne].
      - exfalso. apply Hfresh. left. reflexivity.
      - cbn [app]. rewrite IH; [reflexivity|].
        intros Hin. apply Hfresh. right. exact Hin. }
    rewrite Hassign, IH.
    + rewrite <- app_assoc. reflexivity.
    + rewrite map_app, <- app_assoc. exact Hnodup.
Qed.

(** The move of every offset, for distinct keys. *)
Lemma movePagingIdentifiers_map (pagingIdentifiers : Lookup Z) (increment : Z) :
  NoDup (map fst pagingIdentifiers) ->
  movePagingIdentifiers pagingIdentifiers increment
  = map (fun entry => (fst entry, numberAdd (snd entry) increment))
      pagingIdentifiers.
Proof.
  intros Hnodup. unfold movePagingIdentifiers.
  rewrite movePagingIdentifiers_fold; [reflexivity|exact Hnodup].
Qed.

(** X26.  [movePagingIdentifiers] adds the increment to the offset of
    every key and keeps the keys in order.  As long as the offsets, the
    increments and their sums are safe integers (up to [2^53 - 1] in
    magnitude, where the addition of numbers is exact), moving by one
    increment and then by another is moving by their sum, and moving by
    zero changes nothing. *)
Theorem movePagingIdentifiers_adds_up (pagingIdentifiers : Lookup Z)
  (first second : Z) :
  NoDup (map fst pagingIdentifiers) ->
  isSafeInteger first = true -> isSafeInteger second = true ->
  isSafeInteger (first + second) = true ->
  Forall (fun entry =>
            isSafeInteger (snd entry) = true
            /\ isSafeInteger (snd entry + first) = true
            /\ isSafeInteger (snd entry + first + second) = true)
    pagingIdentifiers ->
  movePagingIdentifiers pagingIdentifiers first
  = map (fun entry => (fst entry, (snd entry + first)%Z)) pagingIdentifiers
  /\ movePagingIdentifiers (movePagingIdentifiers pagingIdentifiers first) second
     = movePagingIdentifiers pagingIdentifiers (first + second)
  /\ movePagingIdentifiers pagingIdentifiers 0 = pagingIdentifiers.
Proof.
  intros Hnodup _ _ _ Hsafe. rewrite Forall_forall in Hsafe.
  assert (Hfirst : movePagingIdentifiers pagingIdentifiers first
                   = map (fun entry => (fst entry, (snd entry + first)%Z))
                       pagingIdentifiers).
  { rewrite movePagingIdentifiers_map by exact Hnodup.
    apply map_ext_in. intros [key value] Hin. cbn [fst snd].
    destruct (Hsafe _ Hin) as (_ & Hsum & _). cbn [snd] in Hsum.
    now rewrite numberAdd_safe. }
  split; [exact Hfirst|]. split.
  - rewrite Hfirst.
    rewrite movePagingIdentifiers_map
      by (rewrite map_map; cbn [fst]; exact Hnodup).
    rewrite movePagingIdentifiers_map by exact Hnodup.
    rewrite map_map. apply map_ext_in. intros [key value] Hin. cbn [fst snd].
    destruct (Hsafe _ Hin) as (_ & _ & Hsum). cbn [snd] in Hsum.
    rewrite numberAdd_safe by exact Hsum.
    rewrite numberAdd_safe by (now rewrite Z.add_assoc).
    f_equal. lia.
  - rewrite movePagingIdentifiers_map by exact Hnodup.
    rewrite <- (map_id pagingIdentifiers) at 2.
    apply map_ext_in. intros [key value] Hin. cbn [fst snd].
    destruct (Hsafe _ Hin) as (Hvalue & _). cbn [snd] in Hvalue.
    rewrite numberAdd_safe by (now rewrite Z.add_0_r).
    f_equal. lia.
Qed.

(** ** Plans of the SQL planner *)

Section SQLModes.
Context `{Collaborators} `{SQLDialect}.

(** The start of the SQL text, whatever the mode: the [WITH] clause,
    and the [FROM] clause with its [WHERE]. *)
Lemma sql_preamble (ext : External) (name : string) :
  source ext = SourceName name ->
  SQLExternal.getFrom ext
  = Ok (if truthyString (withQuery ext) then "FROM __with__ AS t"
        else "FROM " ++ escapeName name ++ " AS t")
  /\ match withQuery ext with
     | Some text =>
         if nonEmpty text then ["WITH __with__ AS (" ++ text ++ ")"] else []
     | None => []
     end = withClause ext
  /\ (if negb (equals (getQueryFilter ext) Expression_TRUE)
      then (if truthyString (withQuery ext) then "FROM __with__ AS t"
            else "FROM " ++ escapeName name ++ " AS t")
           ++ newline ++ "WHERE " ++ getSQL (getQueryFilter ext)
      else (if truthyString (withQuery ext) then "FROM __with__ AS t"
            else "FROM " ++ escapeName name ++ " AS t"))
     = fromClause ext name.
Proof.
  intros Hsource. split; [|split].
  - unfold SQLExternal.getFrom. rewrite Hsource.
    destruct (truthyString (withQuery ext)); reflexivity.
  - unfold withClause, nonEmpty. destruct (withQuery ext) as [text|];
      [|reflexivity]. destruct (String.eqb text ""); reflexivity.
  - unfold fromClause. destruct (equals (getQueryFilter ext) Expression_TRUE);
      cbn [negb]; [rewrite append_empty|]; reflexivity.
Qed.

(** X27.  The SQL text in the modes [value] and [total]: the [WITH]
    clause when there is one, [SELECT], the apply or the applies, the
    [FROM] clause with its [WHERE], and the empty [GROUP BY] of the
    dialect, joined by newlines; a sort and a limit of the planner are
    not rendered. *)
Theorem sql_total_and_value_ignore_sort_and_limit (ext : External) (name : string) :
  source ext = SourceName name ->
  (mode ext = Value ->
   exists plan,
     SQLExternal.getQueryAndPostTransform ext = Ok plan
     /\ query plan
        = join newline
            (withClause ext
             ++ ["SELECT"; apply_getSQL (toValueApply ext); fromClause ext name;
                 emptyGroupBy])
     /\ postTransform plan = valuePostTransformFactory)
  /\ (forall a,
        mode ext = Total -> applies ext = Some a ->
        exists plan,
          SQLExternal.getQueryAndPostTransform ext = Ok plan
          /\ query plan
             = join newline
                 (withClause ext
                  ++ ["SELECT"; join ("," ++ newline) (map apply_getSQL a);
                      fromClause ext name; emptyGroupBy])
          /\ exists inflaters,
               postTransform plan
               = postTransformFactory inflaters (getSelectedAttributes ext)
                   (Some []) (Some a)
               /\ Forall (fun inflater => inflater <> None) inflaters).
Proof.
  intros Hsource.
  destruct (sql_preamble ext name Hsource) as (Hfrom & Hwith & Hwhere).
  split.
  - intros Hmode. unfold SQLExternal.getQueryAndPostTransform.
    rewrite Hfrom, Hwith, Hmode. cbn [rbind]. rewrite Hwhere.
    eexists. split; [reflexivity|]. cbn [query postTransform].
    unfold SQLExternal.sqlToQuery. rewrite <- app_assoc. split; reflexivity.
  - intros a Hmode Ha. unfold SQLExternal.getQueryAndPostTransform.
    rewrite Hfrom, Hwith, Hmode, Ha. cbn [rbind]. rewrite Hwhere.
    eexists. split; [reflexivity|]. cbn [query postTransform].
    unfold SQLExternal.sqlToQuery. rewrite <- app_assoc. split; [reflexivity|].
    eexists. split; [reflexivity|].
    unfold SQLExternal.someInflaters. apply Forall_forall.
    intros inflater Hin. apply filter_In in Hin as [_ Htruthy].
    destruct inflater; [discriminate|discriminate].
Qed.

(** X28.  The SQL text in raw mode: the [WITH] clause when there is
    one, [SELECT], the selected attributes separated by a comma and a
    space, the [FROM] clause with its [WHERE], then the sort and the
    limit when present, joined by newlines; there is no [GROUP BY]. *)
Theorem sql_raw_clause_order (ext : External) (name : string) :
  mode ext = Raw -> source ext = SourceName name ->
  exists plan,
    SQLExternal.getQueryAndPostTransform ext = Ok plan
    /\ query plan
       = join newline
           (withClause ext
            ++ ["SELECT"; rawSelectList ext; fromClause ext name]
            ++ sortClause ext ++ limitClause ext)
    /\ exists inflaters,
         postTransform plan
         = postTransformFactory inflaters
             (map dropOriginInfo (getSelectedAttributes ext)) None None
         /\ Forall (fun inflater => inflater <> None) inflaters.
Proof.
  intros Hmode Hsource.
  destruct (sql_preamble ext name Hsource) as (Hfrom & Hwith & Hwhere).
  unfold SQLExternal.getQueryAndPostTransform.
  rewrite Hfrom, Hwith, Hmode. cbn [rbind]. rewrite Hwhere.
  eexists. split; [reflexivity|]. cbn [query postTransform].
  unfold SQLExternal.sqlToQuery, SQLExternal.sortAndLimit, sortClause, limitClause,
    rawSelectList.
  split.
  - rewrite <- !app_assoc. reflexivity.
  - eexists. split; [reflexivity|].
    unfold SQLExternal.someInflaters. apply Forall_forall.
    intros inflater Hin. apply filter_In in Hin as [_ Htruthy].
    destruct inflater; discriminate.
Qed.

End SQLModes.

(** ** The further properties at sample inputs *)

Lemma new_valueOf_witness :
  RefExpression.name Samples.thePage <> ""
  /\ (RefExpression.value_ignoreCase (RefExpression.valueOf Samples.thePage)
      <> Some false ->
      RefExpression.new (RefExpression.valueOf Samples.thePage)
      = Ok Samples.thePage).
Proof.
  apply (new_valueOf (RefExpression.valueOf Samples.thePage) Samples.thePage).
  reflexivity.
Defined.

Lemma toString_parse_witness :
  exists str parsed,
    RefExpression.toString Samples.thePage = "$" ++ str
    /\ RefExpression.parse str = Ok parsed
    /\ RefExpression.name parsed = "the page"
    /\ RefExpression.nest parsed = 2
    /\ RefExpression.type parsed = Some STRING.
Proof. apply (toString_parse Samples.thePage). discriminate. Defined.

Lemma parse_refuses_unknown_type_witness :
  RefExpression.parse "page:TEXT" = TypeError "unsupported type 'TEXT'".
Proof.
  apply (parse_refuses_unknown_type "page" "TEXT");
    [reflexivity|discriminate|reflexivity|reflexivity].
Defined.


Lemma upgradeToType_once_witness :
  exists upgraded,
    RefExpression.upgradeToType TIME Samples.time = Ok upgraded
    /\ RefExpression.name upgraded = "time"
    /\ RefExpression.nest upgraded = 0
    /\ RefExpression.isTrue (RefExpression.ignoreCase upgraded) = false
    /\ RefExpression.type upgraded = Some TIME
    /\ RefExpression.upgradeToType TIME upgraded = Ok upgraded.
Proof. apply (upgradeToType_once TIME Samples.time). discriminate. Defined.

Lemma changeInTypeContext_resolves_witness :
  1 <= 1
  /\ exists scope ty,
       RefExpression.stepBack 1 Samples.scopes = Some scope
       /\ lookup (datasetType scope) "Page" = Some ty
       /\ Some STRING = Some ty.
Proof.
  apply (changeInTypeContext_resolves Samples.lower Samples.scopes Samples.anyPage
           {| RefExpression.options := []; RefExpression.name := "Page";
              RefExpression.nest := 1; RefExpression.type := Some STRING;
              RefExpression.ignoreCase := None |}).
  reflexivity.
Defined.

Lemma changeInTypeContext_idempotent_witness :
  RefExpression.changeInTypeContext Samples.lower Samples.scopes
    {| RefExpression.options := []; RefExpression.name := "time";
       RefExpression.nest := 1; RefExpression.type := Some TIME;
       RefExpression.ignoreCase := None |}
  = Ok {| RefExpression.options := []; RefExpression.name := "time";
          RefExpression.nest := 1; RefExpression.type := Some TIME;
          RefExpression.ignoreCase := None |}.
Proof.
  apply (changeInTypeContext_idempotent Samples.lower Samples.scopes Samples.time).
  reflexivity.
Defined.

Lemma groupByOnly_plans_groupBy_witness :
  exists plan,
    @getQueryAndPostTransform Examples.collaborators 1 Samples.groupedPages = Ok plan
    /\ queryType (query plan) = "groupBy".
Proof.
  eexists. split; [vm_compute; reflexivity|].
  apply (@groupByOnly_plans_groupBy Examples.collaborators 1 Samples.groupedPages);
    [reflexivity|discriminate|vm_compute; reflexivity].
Defined.

Lemma nested_plan_is_groupBy_over_groupBy_witness :
  exists nested,
    @nestedGroupByIfNeeded Examples.collaborators
      (@getQueryAndPostTransform Examples.collaborators 2)
      (Examples.totalOf Examples.maxPerPage) = Ok (Some nested)
    /\ queryType (query nested) = "groupBy"
    /\ exists innerQuery,
         dataSource (query nested) = DataSourceQuery innerQuery
         /\ queryType innerQuery = "groupBy"
         /\ q_context innerQuery = None.
Proof.
  eexists. split; [vm_compute; reflexivity|].
  apply (@nested_plan_is_groupBy_over_groupBy Examples.collaborators 2
           (Examples.totalOf Examples.maxPerPage));
    [discriminate|vm_compute; reflexivity].
Defined.

Lemma raw_plans_scan_witness :
  exists plan,
    @getQueryAndPostTransform Examples.collaborators 1 Samples.scanPlanner = Ok plan
    /\ allowSelectQueries Samples.scanPlanner = true
    /\ queryType (query plan) = "scan"
    /\ resultFormat (query plan) = Some "compactedList"
    /\ q_limit (query plan) = Some 10%Z
    /\ exists columnNames,
         columns (query plan) = Some columnNames
         /\ (columnNames = ["time"; "page"]
             \/ columnNames = ["time"; "page"; "__time"])
         /\ (order (query plan) <> None -> List.In "__time" columnNames).
Proof.
  eexists. split; [vm_compute; reflexivity|].
  apply (@raw_plans_scan Examples.collaborators 0 Samples.scanPlanner);
    [reflexivity|vm_compute; reflexivity].
Defined.

Lemma scan_reads_time_through_alias_witness :
  exists plan,
    @getQueryAndPostTransform Examples.collaborators 1 Samples.scanPlanner = Ok plan
    /\ exists virtual,
         virtualColumns (query plan) = Some virtual
         /\ List.In {| vc_name := attr_name Samples.timeAttributeInfo;
                       vc_expression := "__time";
                       vc_outputType := "STRING" |} virtual.
Proof.
  eexists. split; [vm_compute; reflexivity|].
  apply (@scan_reads_time_through_alias Examples.collaborators 0
           Samples.scanPlanner);
    [reflexivity|vm_compute; reflexivity|left; reflexivity|reflexivity
    |discriminate].
Defined.

Lemma timeseries_plan_skips_empty_buckets_witness :
  exists plan,
    @getQueryAndPostTransform Examples.collaborators 1 Samples.hourly = Ok plan
    /\ limit Samples.hourly = None
    /\ (forall sorted, sort Samples.hourly = Some sorted ->
          exists key, refName sorted = Some key
                      /\ hasKey key
                           (@getQuerySplit Examples.collaborators Samples.hourly)
                         = true)
    /\ exists queryContext,
         q_context (query plan) = Some queryContext
         /\ hasOwnProp queryContext "skipEmptyBuckets" = true
         /\ (context Samples.hourly = None ->
             queryContext = [("skipEmptyBuckets", JString "true")])
         /\ forall given,
              context Samples.hourly = Some given ->
              (hasOwnProp given "skipEmptyBuckets" = false ->
               lookup queryContext "skipEmptyBuckets" = Some (JString "true"))
              /\ forall key value,
                   lookup given key = Some value ->
                   lookup queryContext key = Some value.
Proof.
  eexists. split; [vm_compute; reflexivity|].
  apply (@timeseries_plan_skips_empty_buckets Examples.collaborators 0
           Samples.hourly);
    [reflexivity|vm_compute; reflexivity|vm_compute; reflexivity].
Defined.


Lemma groupBy_limit_orders_by_first_key_witness :
  exists plan,
    @getQueryAndPostTransform Examples.collaborators 1 Samples.exactPages = Ok plan
    /\ exists first,
         firstSplitName (@getQuerySplit Examples.collaborators Samples.exactPages)
         = Some first
         /\ queryType (query plan) = "groupBy"
         /\ limitSpec (query plan)
            = Some {| ls_columns := [OrderByName (makeOutputName first)];
                      ls_limit := Some (limit_value (Examples.limitTo 50)) |}.
Proof.
  eexists. split; [vm_compute; reflexivity|].
  apply (@groupBy_limit_orders_by_first_key Examples.collaborators 0
           Samples.exactPages (Examples.limitTo 50));
    [reflexivity|vm_compute; reflexivity|reflexivity|reflexivity
    |vm_compute; reflexivity|vm_compute; discriminate].
Defined.

Lemma total_plans_timeseries_over_all_witness :
  exists plan,
    @getQueryAndPostTransform Examples.collaborators 1
      (Examples.totalOf Samples.revenue) = Ok plan
    /\ queryType (query plan) = "timeseries"
    /\ dimensions (query plan) = None
    /\ granularity (query plan) = Some (GranularityName "all")
    /\ intervals (query plan) = Some (JString "1000/3000")
    /\ q_filter (query plan) = None
    /\ q_context (query plan) = None
    /\ postTransform plan
       = postTransformFactory []
           [Examples.revenue_hll; Examples.page; Examples.tags] (Some [])
           (Some Samples.revenue).
Proof.
  apply (@total_plans_timeseries_over_all Examples.collaborators 0
           (Examples.totalOf Samples.revenue) Samples.revenue
           {| fi_filter := None; fi_intervals := JString "1000/3000" |}
           {| ap_aggregations := [JString "revenue"]; ap_postAggregations := [] |});
    vm_compute; reflexivity.
Defined.

Lemma value_min_max_time_plans_timeBoundary_witness :
  exists plan,
    @getQueryAndPostTransform Examples.collaborators 1 Samples.latestValue = Ok plan
    /\ queryType (query plan) = "timeBoundary"
    /\ dataSource (query plan) = DataSourceName "wiki"
    /\ bound (query plan) = Some "maxTime"
    /\ (bound (query plan) = Some "minTime" \/ bound (query plan) = Some "maxTime")
    /\ postTransform plan = timeBoundaryPostTransformFactory None.
Proof.
  apply (@value_min_max_time_plans_timeBoundary Examples.collaborators 0
           Samples.latestValue Samples.latest);
    [reflexivity|reflexivity|vm_compute; reflexivity|discriminate].
Defined.

Lemma multi_split_one_dimension_per_key_witness :
  exists shape,
    @splitToDruid Examples.collaborators Examples.splitPlanner Samples.byPageAndTags
    = Ok shape
    /\ ds_queryType shape = "groupBy"
    /\ ds_granularity shape = GranularityName "all"
    /\ ds_dimension shape = None
    /\ ds_timestampLabel shape = None
    /\ exists dimensions inflaters,
         ds_dimensions shape = Some dimensions
         /\ List.length dimensions = numSplits Samples.byPageAndTags
         /\ ds_postTransform shape
            = postTransformFactory inflaters
                (@getSelectedAttributes Examples.collaborators
                   Examples.splitPlanner)
                (Some (map fst (splits Samples.byPageAndTags))) None
         /\ Forall (fun inflater => inflater <> None) inflaters.
Proof.
  eexists. split; [vm_compute; reflexivity|].
  apply (@multi_split_one_dimension_per_key Examples.collaborators
           Examples.splitPlanner Samples.byPageAndTags);
    vm_compute; reflexivity.
Defined.

Lemma segmentMetadata_attribute_names_witness :
  exists attributes,
    segmentMetadataPostProcess "time" [Samples.metadata] = Ok attributes
    /\ map attr_name attributes
       = "time" :: map fst (List.filter (isOtherColumn "time") Samples.columns)
    /\ NoDup (map attr_name attributes).
Proof.
  eexists. split; [vm_compute; reflexivity|].
  apply (segmentMetadata_attribute_names "time" Samples.metadata [] Samples.columns);
    [reflexivity| |vm_compute; reflexivity].
  repeat constructor; cbn; intuition discriminate.
Defined.

Lemma segmentMetadata_unsplitable_witness :
  exists attributes,
    segmentMetadataPostProcess "time" [Samples.metadata] = Ok attributes
    /\ (exists attribute,
          List.In attribute attributes
          /\ attr_name attribute = "added" /\ unsplitable attribute = true)
    /\ (exists time others,
          attributes = time :: others
          /\ attr_name time = "time" /\ unsplitable time = false).
Proof.
  eexists. split; [vm_compute; reflexivity|].
  destruct (segmentMetadata_unsplitable "time" Samples.metadata [] Samples.columns
              _ eq_refl eq_refl) as (_ & Hmarked & Htime & _).
  split; [|exact Htime].
  apply (Hmarked "added" (Samples.column "LONG" None));
    [right; right; left; reflexivity|reflexivity|reflexivity].
Defined.

Lemma generateMaker_aggregates_the_field_witness :
  isAggregate (sum_ Expression_ (ref "added")) = true
  /\ operandOf (sum_ Expression_ (ref "added")) = Some Expression_
  /\ (sum_ Expression_ (ref "added") = count_ Expression_
      \/ exists field,
           field <> ""
           /\ (fieldName Samples.addedSum = Some field
               \/ fieldNames Samples.addedSum = Some [field])
           /\ (sum_ Expression_ (ref "added") = sum_ Expression_ (ref field)
               \/ sum_ Expression_ (ref "added") = min_ Expression_ (ref field)
               \/ sum_ Expression_ (ref "added") = max_ Expression_ (ref field))).
Proof.
  apply (generateMaker_aggregates_the_field Samples.addedSum).
  vm_compute. reflexivity.
Defined.

Lemma parseResplitAgg_parts_witness :
  exists parsed,
    parseResplitAgg (Examples.resplitMax "page") = Some parsed
    /\ isAggregate (Examples.resplitMax "page") = true
    /\ resplitAgg parsed = changeOperand Expression_ (Examples.resplitMax "page")
    /\ apply_operand (resplitApply parsed) = Expression_
    /\ split_operand (resplitSplit parsed) = Expression_
    /\ exists o name t splitOptions source keys data argument,
         operandOf (Examples.resplitMax "page")
         = Some (EChainableUnary o (Apply name) t
                   (ESplit splitOptions source keys data) argument)
         /\ apply_name (resplitApply parsed) = name
         /\ splits (resplitSplit parsed) = keys
         /\ (isFilter source = false ->
             isOp source "ref" = true
             /\ apply_expression (resplitApply parsed) = argument)
         /\ (forall fo ft filtered condition,
               source = EChainableUnary fo Filter ft filtered condition ->
               isOp filtered "ref" = true).
Proof.
  eexists. split; [vm_compute; reflexivity|].
  apply (parseResplitAgg_parts (Examples.resplitMax "page")).
  vm_compute. reflexivity.
Defined.

Lemma movePagingIdentifiers_adds_up_witness :
  movePagingIdentifiers Samples.paging 3
  = map (fun entry => (fst entry, (snd entry + 3)%Z)) Samples.paging
  /\ movePagingIdentifiers (movePagingIdentifiers Samples.paging 3) (-3)
     = movePagingIdentifiers Samples.paging (3 + -3)
  /\ movePagingIdentifiers Samples.paging 0 = Samples.paging.
Proof.
  apply (movePagingIdentifiers_adds_up Samples.paging 3 (-3));
    [|reflexivity|reflexivity|reflexivity|repeat constructor].
  repeat constructor; cbn; intuition discriminate.
Defined.

Lemma sql_total_and_value_ignore_sort_and_limit_witness :
  exists plan,
    @SQLExternal.getQueryAndPostTransform Examples.collaborators Examples.dialect
      (Samples.sqlIn Total) = Ok plan
    /\ query plan
       = join newline
           ["SELECT"; "<count> AS Count";
            "FROM `wiki` AS t" ++ newline ++ "WHERE <is>"; "GROUP BY ''"].
Proof.
  destruct (@sql_total_and_value_ignore_sort_and_limit Examples.collaborators
              Examples.dialect (Samples.sqlIn Total) "wiki" eq_refl)
    as [_ Htotal].
  destruct (Htotal _ eq_refl eq_refl) as (plan & Hplan & Hquery & _).
  exists plan. split; [exact Hplan|exact Hquery].
Defined.

Lemma sql_raw_clause_order_witness :
  exists plan,
    @SQLExternal.getQueryAndPostTransform Examples.collaborators Examples.dialect
      (Samples.sqlIn Raw) = Ok plan
    /\ query plan
       = join newline
           ["SELECT"; "`page`, `tags`";
            "FROM `wiki` AS t" ++ newline ++ "WHERE <is>";
            "ORDER BY $Count"; "LIMIT n"].
Proof.
  destruct (@sql_raw_clause_order Examples.collaborators Examples.dialect
              (Samples.sqlIn Raw) "wiki" eq_refl eq_refl)
    as (plan & Hplan & Hquery & _).
  exists plan. split; [exact Hplan|exact Hquery].
Defined.

Lemma expressionToDimensionInflater_outputName_witness :
  exists d,
    @expressionToDimensionInflater Examples.collaborators Examples.splitPlanner
      (ref "page") "__page" = Ok d
    /\ outputNameOf (di_dimension d) = Some (makeOutputName "__page").
Proof.
  eexists. split; [vm_compute; reflexivity|].
  apply (@expressionToDimensionInflater_outputName Examples.collaborators
           Examples.splitPlanner (ref "page") "__page").
  vm_compute. reflexivity.
Defined.

(* ====================================================================== *)
(** ** Output names in the query of a plan *)
(* ====================================================================== *)

Section ReservedNames.
Context `{Collaborators}.











End ReservedNames.


